(* ===== verification/_CoqProject ===== *)
-Q . S2P
Prelude.v
Hoare.v
Threads.v
GoLib.v
Consts.v
K8sTypes.v
VfConfigApi.v
OpaqueConfig.v
ClaimStatus.v
Config.v
Manager.v
Prepared.v
PodManager.v
Checkpoint.v
Controller.v
Host.v
Cdi.v
Prepare.v
DriverHook.v
Discovery.v
Cni.v
Publish.v
Nri.v
HookState.v
Goroutines.v
Interference.v
Startup.v
System.v
CommandLine.v
Interleaving.v
Shutdown.v
WorkQueue.v
