(* ===== verification/Prelude.v ===== *)
(** * Verification of the SR-IOV DRA driver

    The program under src/ is a Kubernetes node plugin that hands out SR-IOV virtual
    functions through Dynamic Resource Allocation.  This library models its own
    logic in Rocq, definition by definition, and proves what makes it correct.

    ** The program's parts and how they interact

    - At start-up the device-state manager (pkg/devicestate) discovers the virtual
      functions of the node, and the pod manager (pkg/podmanager) reads back the
      checkpoint of an earlier process.
    - The resource-policy controller (pkg/controller) watches policy objects.  It
      computes a map from device names to extra attributes and gives it to
      UpdatePolicyDevices of the manager, which decides what is advertised and calls
      back the driver to publish it.
    - The kubelet calls the hooks (pkg/driver/dra_hook.go).  Preparing a claim
      resolves its opaque configurations to one VfConfig per request
      (pkg/devicestate/statehelpers.go), binds drivers through pkg/host, collects
      container edits, writes a CDI spec (pkg/cdi), updates the claim's status
      (pkg/types), and stores the prepared devices in the pod manager.
      Unpreparing undoes it.
    - The container runtime calls the NRI plugin (pkg/nri) when a pod's sandbox starts
      and stops.  It attaches the networks of the pod's prepared devices through CNI
      (pkg/cni), refreshes the kubelet's request metadata, and puts the network data on
      a channel; a background runner records it in the claim's status and, through the
      pod manager, in the prepared devices and the checkpoint.
    - The driver (pkg/driver) registers with the kubelet, publishes what the manager
      advertises, and answers health probes; RunPlugin (cmd/dra-driver-sriov) starts
      the parts in order and stops them.

    ** Files

    - Prelude: errors, results, the monad [M] of the effectful definitions (state,
      a result value, panics), calls of code outside of the program [Call],
      iteration over Go maps in an arbitrary order ([RangeOrder]).
    - Hoare: the triples used to reason about [M], with one rule per construct.
    - Threads: goroutines as trees of atomic sections ([prog]); [run] is a goroutine on its
      own, [safe] the rely-guarantee judgement for it among others, [owns] the one for a
      goroutine that alone changes a part of the state.
    - GoLib: strings, strconv, path/filepath, net/url, sorting by name, 64-bit integers.
    - Consts, K8sTypes, VfConfigApi, Config: pkg/consts, the Kubernetes objects the
      driver touches, pkg/api/virtualfunction/v1alpha1, the flags and their defaults
      (pkg/types/config.go).
    - OpaqueConfig: [getMapOfOpaqueDeviceConfigForDevice] of
      pkg/devicestate/statehelpers.go, and [configForRequest], the choice from its map
      in prepareDevices of state.go.
    - ClaimStatus: pkg/types/claimstatus.go ([UpsertDeviceStatus],
      [MergeDeviceStatuses]) and pkg/types/statusretry.go
      ([UpdateClaimStatusWithRetry]).
    - Manager: the state of the device-state manager and its policy side
      (pkg/devicestate/state.go): [GetAdvertisedDevices], [UpdatePolicyDevices].
    - Prepared: pkg/types/types.go.  A prepared device is a heap object; [World] is
      the heap, the pod manager's table, the manager, and the outside.
    - PodManager: pkg/podmanager/podmanager.go, with the checkpoint.
    - Checkpoint: the checkpoint object and its checksum (pkg/types/types.go).
    - Controller: pkg/controller/resourcepolicycontroller.go and
      pkg/api/sriovdra/v1alpha1/api.go.
    - Host: pkg/host/host.go, over the operating system ([OS], [Providers]).
    - Cdi: pkg/cdi/cdi.go.
    - Prepare: the claim side of pkg/devicestate/state.go and deviceinfo.go:
      [PrepareDevicesForClaim], [applyConfigOnDevice], [Unprepare].
    - DriverHook: pkg/driver/dra_hook.go.
    - Discovery: pkg/devicestate/discovery.go and [NewManager].
    - Cni: pkg/cni (cni.go, status.go, exec.go).
    - Publish: [PublishResources], [UpdateRequestMetadata] and the health check of
      pkg/driver.
    - Nri: pkg/nri: [RunPodSandbox], [StopPodSandbox], request metadata, the update of
      claims with network data.
    - HookState: what the kubelet hooks do to the pod manager's table, as triples over
      the heap, the table and the manager.
    - Goroutines: the hooks, the sandbox handlers, the runner and the reconciliation as
      threads: [PrepareResourceClaims_go] is [PrepareResourceClaims] cut into the sections
      between which other goroutines can run, and likewise for the others; on its own each
      thread does what its definition does ([run_PrepareResourceClaims], ...).
    - Interference: what the threads rely on and keep ([world_ok], and that the heap only
      evolves), that each is safe under it, and what lasts of its answers.
    - Startup: the phases of RunPlugin, the driver's start, the registration wait, the
      health service, the clients, the shutdown.
    - System: the process as a whole.  [System] is the world, the update channel, the
      sandbox handlers that wait to send on it, the NRI plugin and the health service;
      [openDriver] is RunPlugin until the kubelet can call, [launch] up to the start of the
      driver, [start] up to its wait; [handle] runs one event (a reconciliation, a kubelet
      hook, a sandbox event, a send, a turn of the runner); [step] and [drains] are the
      step relations over events.
    - CommandLine: main, newApp and pkg/flags: the tables of the flags, their fields,
      defaults and environment variables, what runs before RunPlugin, the exit code.
    - Interleaving: the same process with handlers that run at the same time.  [Process]
      adds the phase of RunPlugin, the running threads and the runner's current item to
      [System]; [act] runs what a scheduler picks (a new call, the next section of a
      thread, its return, a send, the runner, a poll of the registration or the next part
      of RunPlugin); [pstep] is its step relation, [work] the part without new calls.
    - Shutdown: what cancels the context of the process ([can_cancel], with the driver's
      [HandleError]), and RunPlugin's way out ([main_act]: the stub is stopped, the channel
      closed, the driver shut down) while handlers still run; [end_act] is a step of that.
    - WorkQueue: the event loop that SetupWithManager builds.  [Loop] is the world, the work
      queue, the events that have not reached their handler, and the reconciliation that
      runs; [loop_act] delivers an event ([deliver]), ends a delay, takes a request or runs
      the next section of a reconciliation ([Reconcile_go]); [loop_step] adds changes of the
      API objects with the events that announce them, and changes of everything else but
      the manager.

    Every operation keeps the name of its Go function; [Set_] is PodManager.Set.
    Loop bodies and inner closures that a proof needs are definitions of their own,
    named after what they do.  Each file ends with a module [<File>Runs] in which
    the parameters are instantiated by concrete functions (a simulated PCI
    subsystem, an in-memory checkpoint directory, an API server) and the theorems
    are applied to concrete runs.

    ** What the theorems show

    - The process, with its handlers interleaved in any way, from the moment the kubelet
      can call it, on a well-filed checkpoint: no section panics, if the API server hands out
      no attachment definition that is the JSON null and no CNI plugin answers with null
      entries ([interleaved_never_panics]); the invariant [sys_ok] holds, all network data in a device comes from an addition of this device to its own
      pod, and answers are about devices prepared for the claim
      ([interleaved_states_ok]); nothing gets stuck, and without new calls every schedule
      ends, with all calls answered and all network data processed ([interleavings_end]).
    - Its end, with handlers still running: the only panic is a send on the closed channel
      by a sandbox hook that was under way, and the exit is always reached
      ([shutdown_panics_only_at_send]); the end of System.v is one of these
      ([stop_is_an_ending]).
    - The controller loop: whenever nothing is on its way the manager is settled on the
      objects of the API server, and without changes and failures every schedule gets there
      ([policies_converge]).
    - The command line: [main_runs_with_flags], [default_command_line],
      [env_vars_by_name].
    - The process with handlers one at a time, whose start and steps are interleavings
      ([handlers_are_interleavings]): [plugin_never_crashes], [reachable_states_ok],
      [network_data_drains]; the network data of a started pod reaches exactly its devices
      ([sandbox_data_reaches_devices]); a claim that was answered is answered the same
      later ([repeated_prepare_agrees]).
    - The hooks and the table: [hook_answers_registered], [unprepare_hook_forgets].
    - Networks: [run_pod_sandbox_attaches], [detach_matches_attach],
      [network_data_correct], [network_data_recorded], [status_entries_updated],
      [groups_by_claim], [exec_attempts_bounded].
    - Discovery and publication: [discover_complete], with every attribute of every device
      ([described]), [discovered_by_address],
      [new_manager_ready], [update_publishes_advertised], [health_check_correct].
    - Start: [wait_for_registration_ends].
    - Refinements of abstract specifications: [update_refines_spec] for the
      advertised set and the policy attributes, [merge_refines_spec],
      [merge_preserves_foreign] and [upsert_refines_insert] for the claim status list,
      [resolve_correct] for the opaque configurations and the one that each request
      gets.
    - Preparing and unpreparing: [prepare_claim_correct], [prepare_never_panics],
      [unprepare_restores_drivers], [default_names_distinct],
      [claim_spec_matches_ids], [prepare_idempotent].
    - Persistence: [restart_restores], over any sequence of calls of the pod
      manager, [checkpoint_roundtrip] for the payload, and the behaviour of its lookups and of pointers shared with the
      rest of the plugin.
    - Drivers of devices: [bind_device_correct], [bind_restore_roundtrip],
      [other_devices_untouched], proved from laws of the kernel.
    - The controller: which devices a reconciliation advertises, with which
      attributes, that it converges, what it does on errors.
    - Retries: [update_success_written], [update_error_is_api_error], over the list of the
      attempts of a run ([backoff_run]).
    - What does not hold as one may expect: [prepared_never_vhost],
      [own_entry_hides_general], [null_definition_panics],
      [withdrawal_not_republished], [failed_republish_not_retried],
      [label_change_unnoticed], [second_claim_never_unprepared], [delete_claim_forgets_pod],
      [retry_after_failed_checkpoint_succeeds], [node_events_are_dropped],
      [empty_term_selects_every_node], [driverless_device_not_restored],
      [host_network_pod_cannot_stop], [busy_plugin_reported_ok].

    ** Conventions and bounds

    - A Go function that returns an error is a [result]; one that can panic is in
      [M], whose outcome is [Ret] or [Panic].  Loops over slices are structural
      recursion; the eleven attempts of [ExecPlugin] count down.  The backoff loop of the
      wait package is a parameter with the documented laws [WaitLaws] and
      [WaitReturns].  Only [waitForRegistration] has fuel, and [driver_Start], [launch],
      [start] and [main] with it: one turn per poll; [wait_for_registration_ends] shows that one
      more than the ticks left before the timeout is enough, and what holds after a
      start holds for every fuel.
    - Maps are gmaps.  A loop over a map visits its entries in the order given by
      [RangeOrder], any permutation: the theorems hold for all of them.
    - int is a 64-bit integer, and the interface index wraps around.
    - Methods that hold a mutex are one step.  In System.v a whole handler is one step, as
      is one turn of the runner.  In Interleaving.v a step is one section: an operation of
      the pod manager (under its mutex), a read or the update of the manager's maps, the
      allocation of a prepared device, or a call that leaves the process (calls in a row
      with nothing shared between them count as one, since their answers are arbitrary);
      reads of the fields of prepared devices that nothing changes are part of the section
      they belong to.  A send is a step of its own, enabled when the channel has room.  Any
      number of handlers of each kind may run at once, which covers libraries that
      serialize some of them; the kubelet may call as soon as the kubelet plugin library is
      started, while RunPlugin waits for the registration and starts the controllers and
      the NRI plugin, and until the process exits; the sandbox hooks until the stub is
      stopped.  The device-state manager has no lock; its update is taken as one section,
      and that Go may abort on a read of its maps meanwhile is outside of the model.
    - In WorkQueue.v one reconciliation runs at a time, the default of the controller
      runtime; its requests, which the reconciler ignores, are kept.  A change of the node's
      labels alone is not among the changes of [announced], because its event is dropped.
    - Code outside of the repository is a type class of functions on an abstract
      outside state ([OS], [Providers], [CheckpointManager], [CdiLib], [JsonLib],
      [Decoder], [NadClient], [PolicyClient], ...).  Hypotheses on it are classes of
      laws: [PciKernel] (what sysfs writes do), [CheckpointLaws] (a written
      checkpoint is read back), [HostLaws], [DeviceStateLaws], [WaitLaws],
      [WaitReturns], [ClientsReturn], [ReadOnlyOS] and [ReadOnlyHost] (reading the host
      does not change it), [RegistrationClock], [CheckpointCodecLaws], [WorkQueueLaws],
      [ApiServer] (reads return what the server has), [CliLaws].
    - Log messages are not modelled.

    ** What is not modelled

    Parsing of the command line, the settings of logging and the delivery of signals, which
    are libraries; the providers of pkg/host that wrap libraries; [FindInPath] and [New] of
    pkg/cni, which only call libcni; the caches behind the watches of the controller
    runtime, whose events are arbitrary; and the JSON codec, which is a parameter.
    Generated code, mocks and tests are left out. *)

From stdpp Require Export base tactics option list gmap strings fin_maps pretty.
From stdpp Require Export sorting.
From Stdlib Require Export ZArith Lia Ascii.

#[global] Set Default Goal Selector "!".
#[global] Set Warnings "-register-all,-clear-no-such-hyp".

Declare Scope go_scope.
Delimit Scope go_scope with go.
#[global] Open Scope go_scope.

Create HintDb go discriminated.
Create Rewrite HintDb gorw.

(** ** Errors

    A Go error is either produced by code outside of the repository (the
    operating system, the API server, a library: [ErrExternal], identified by a
    code and a message), or built by [fmt.Errorf] or [errors.Join].  [Errorf]
    keeps the format string, the rendered arguments, the errors it prints with
    [%v] and the errors it wraps with [%w]: only the wrapped ones are visible to
    [errors.Is] and [errors.As]. *)
Inductive error : Type :=
  | ErrExternal (code msg : string)
  | Errorf (fmt : string) (args : list string) (printed wrapped : list error)
  | ErrJoin (es : list error).

(** [fmt.Errorf] without an error argument, with one under [%v], with one under
    [%w]. *)
Definition errorf (fmt : string) (args : list string) : error := Errorf fmt args [] [].
Definition errorv (fmt : string) (args : list string) (e : error) : error :=
  Errorf fmt args [e] [].
Definition errorw (fmt : string) (args : list string) (e : error) : error :=
  Errorf fmt args [] [e].

(** [errors.Is e target], for a target identified by its code. *)
Fixpoint errors_Is (e : error) (target : string) : bool :=
  match e with
  | ErrExternal code _ => bool_decide (code = target)
  | Errorf _ _ _ wrapped => existsb (fun e' => errors_Is e' target) wrapped
  | ErrJoin es => existsb (fun e' => errors_Is e' target) es
  end.

(** ** Results: a Go function's [(T, error)] *)
Inductive result (A : Type) : Type :=
  | Ok (a : A)
  | Err (e : error).
Arguments Ok {A} a.
Arguments Err {A} e.

Definition is_ok {A} (r : result A) : bool :=
  match r with Ok _ => true | Err _ => false end.

Definition result_map_err {A} (f : error -> error) (r : result A) : result A :=
  match r with Ok a => Ok a | Err e => Err (f e) end.

(** [errors.Join errs...] of a possibly empty list, as an [error] return. *)
Definition join_errors (errs : list error) : result unit :=
  match errs with [] => Ok tt | _ => Err (ErrJoin errs) end.

(** ** Effects

    A call runs on a state and either returns or panics; a panic keeps the
    effects that were already made. *)
Inductive outcome (A : Type) : Type :=
  | Ret (a : A)
  | Panic (why : string).
Arguments Ret {A} a.
Arguments Panic {A} why.

Definition M (W A : Type) : Type := W -> outcome A * W.

#[global] Instance M_ret W : MRet (M W) := fun A a w => (Ret a, w).
#[global] Instance M_bind W : MBind (M W) := fun A B f m w =>
  match m w with
  | (Ret a, w') => f a w'
  | (Panic why, w') => (Panic why, w')
  end.

(** A call to code outside of the process: it returns, possibly with an error. *)
Definition Call (E A : Type) : Type := E -> A * E.

#[global] Instance Call_ret E : MRet (Call E) := fun A a e => (a, e).
#[global] Instance Call_bind E : MBind (Call E) := fun A B f c e => let '(a, e') := c e in f a e'.

Definition call_ok {E A B} (c : Call E (result A)) (k : A -> Call E (result B)) : Call E (result B) :=
  r ← c; match r with Ok a => k a | Err e => mret (Err e) end.

Definition call_err {E A} (f : error -> error) (c : Call E (result A)) : Call E (result A) :=
  r ← c; mret (result_map_err f r).

Definition panic {W A} (why : string) : M W A := fun w => (Panic why, w).
Definition gets {W A} (f : W -> A) : M W A := fun w => (Ret (f w), w).
Definition modify {W} (f : W -> W) : M W unit := fun w => (Ret tt, f w).

(** Dereference of a pointer that may be nil. *)
Definition deref {W A} (what : string) (p : option A) : M W A :=
  match p with Some a => mret a | None => panic what end.

Definition wrap_err {W A} (f : error -> error) (m : M W (result A)) : M W (result A) :=
  r ← m; mret (result_map_err f r).

(** [x, err := m; if err != nil { return err }]. *)
Definition bind_ok {W A B} (m : M W (result A)) (k : A -> M W (result B)) : M W (result B) :=
  r ← m; match r with Ok a => k a | Err e => mret (Err e) end.

Notation "x '←?' m ; k" := (bind_ok m (fun x => k))
  (at level 20, m at level 100, k at level 200, only parsing) : go_scope.

Notation "x '←!' m ; k" := (call_ok m (fun x => k))
  (at level 20, m at level 100, k at level 200, only parsing) : go_scope.

(** A [for] loop over a slice that carries the variables it assigns. *)
Fixpoint for_each {W A S} (l : list A) (body : A -> S -> M W S) (s : S) : M W S :=
  match l with
  | [] => mret s
  | x :: l' => s' ← body x s; for_each l' body s'
  end.

(** The same for a loop whose body may [return] an error. *)
Fixpoint for_each_ok {W A S} (l : list A) (body : A -> S -> M W (result S)) (s : S)
  : M W (result S) :=
  match l with
  | [] => mret (Ok s)
  | x :: l' => s' ←? body x s; for_each_ok l' body s'
  end.

(** The same over calls that leave the process. *)
Fixpoint call_each {E A S} (l : list A) (body : A -> S -> Call E S) (s : S) : Call E S :=
  match l with
  | [] => mret s
  | x :: l' => s' ← body x s; call_each l' body s'
  end.

(** The same for a loop whose body may [return] an error. *)
Fixpoint call_each_ok {E A S} (l : list A) (body : A -> S -> Call E (result S)) (s : S)
  : Call E (result S) :=
  match l with
  | [] => mret (Ok s)
  | x :: l' => s' ←! body x s; call_each_ok l' body s'
  end.

(** A run that returns something is its result, without evaluating the result. *)
Lemma some_default {A} (d : A) (o : option A) : (if o is Some _ then true else false) = true -> o = Some (default d o).
Proof. by destruct o. Qed.

(** The elements of an updated list. *)
Lemma elem_of_list_insert_inv {A} (l : list A) i (x y : A) : y ∈ <[i := x]> l -> y = x \/ y ∈ l.
Proof.
  intros [j Hj]%list_elem_of_lookup. apply list_lookup_insert_Some in Hj as [(_ & <- & _)|[_ Hj]]; [by left|right].
  by eapply list_elem_of_lookup_2.
Qed.

(** Loop rules: an invariant on the variables a loop assigns. *)
Lemma call_each_inv {E A S} (l : list A) (body : A -> S -> Call E S) (I : S -> Prop) s e s' e' :
  (forall x s e s' e', x ∈ l -> I s -> body x s e = (s', e') -> I s') ->
  I s -> call_each l body s e = (s', e') -> I s'.
Proof.
  revert s e. induction l as [|x l IH]; intros s e Hbody Hs; simpl; [by intros [= <- <-]|].
  unfold mbind, Call_bind. destruct (body x s e) as [s1 e1] eqn:Hx. apply IH.
  - intros y ? ? ? ? Hy. apply Hbody. by right.
  - eapply Hbody; [by left|done|exact Hx].
Qed.

Lemma call_each_ok_inv {E A S} (l : list A) (body : A -> S -> Call E (result S)) (I : S -> Prop)
    s e s' e' :
  (forall x s e s' e', x ∈ l -> I s -> body x s e = (Ok s', e') -> I s') ->
  I s -> call_each_ok l body s e = (Ok s', e') -> I s'.
Proof.
  revert s e. induction l as [|x l IH]; intros s e Hbody Hs; simpl; [by intros [= <- <-]|].
  unfold call_ok, mbind, Call_bind. destruct (body x s e) as [[s1|] e1] eqn:Hx; [|done]. apply IH.
  - intros y ? ? ? ? Hy. apply Hbody. by right.
  - eapply Hbody; [by left|done|exact Hx].
Qed.

(** ** Iteration over maps

    Go iterates over a map in an unspecified order.  [range] is any enumeration
    of the entries; every definition that loops over a map takes it from this
    class, so its theorems hold for every order. *)
Class RangeOrder : Type := {
  range : forall {K V} `{Countable K}, gmap K V -> list (K * V);
  range_perm : forall {K V} `{Countable K} (m : gmap K V), range m ≡ₚ map_to_list m
}.

(** The order [map_to_list] gives, for concrete runs. *)
Definition listing_order : RangeOrder :=
  {| range := fun K V _ _ m => map_to_list m; range_perm := fun K V _ _ m => reflexivity _ |}.

Definition range_fold `{RangeOrder} {K V S} `{Countable K}
    (body : K -> V -> S -> S) (m : gmap K V) (s : S) : S :=
  foldl (fun s '(k, v) => body k v s) s (range m).

Section range_lemmas.
Context `{RangeOrder} {K V : Type} `{Countable K}.
Implicit Types m : gmap K V.

Lemma elem_of_range m k v : (k, v) ∈ range m ↔ m !! k = Some v.
Proof. by rewrite range_perm, elem_of_map_to_list. Qed.

Lemma NoDup_range_fst m : NoDup (range m).*1.
Proof. rewrite (range_perm m). apply NoDup_fst_map_to_list. Qed.

Lemma range_empty : range (∅ : gmap K V) = [].
Proof. apply Permutation_nil_r. by rewrite range_perm, map_to_list_empty. Qed.

Lemma range_fold_empty {S} (body : K -> V -> S -> S) s : range_fold body ∅ s = s.
Proof. unfold range_fold. by rewrite range_empty. Qed.

(** Loop rule: an invariant on the part of the map already visited. *)
Lemma range_fold_ind {S} (P : gmap K V -> S -> Prop) (body : K -> V -> S -> S) m s0 :
  P ∅ s0 ->
  (forall k v m' s, m' !! k = None -> m !! k = Some v -> m' ⊆ m ->
     P m' s -> P (<[k:=v]> m') (body k v s)) ->
  P m (range_fold body m s0).
Proof.
  intros Hinit Hstep. unfold range_fold.
  assert (Hgen : forall l m' s, NoDup l.*1 -> (forall k v, (k, v) ∈ l -> m' !! k = None) ->
    (forall k v, m !! k = Some v ↔ m' !! k = Some v ∨ (k, v) ∈ l) ->
    P m' s -> P m (foldl (fun s '(k, v) => body k v s) s l)).
  { induction l as [|[k v] l IH]; intros m' s Hnd Hdis Hm HP; simpl.
    - replace m with m'; [done|]. apply map_eq. intros k.
      apply option_eq. intros v. rewrite Hm, elem_of_nil. naive_solver.
    - simpl in Hnd. apply NoDup_cons in Hnd as [Hk Hnd].
      assert (Hkm : m !! k = Some v) by (apply Hm; right; by left).
      assert (Hkm' : m' !! k = None) by (eapply Hdis; by left).
      apply (IH (<[k:=v]> m')).
      + done.
      + intros k' v' Hin. rewrite lookup_insert_ne; [eapply Hdis; by right|].
        intros <-. apply Hk. apply list_elem_of_fmap. by exists (k, v').
      + intros k' v'. rewrite Hm, elem_of_cons.
        destruct (decide (k = k')) as [<-|Hne].
        * rewrite lookup_insert_eq, Hkm'. split.
          -- intros [?|[?|Hin]]; [done|simplify_eq; auto|].
             destruct Hk. apply list_elem_of_fmap. by exists (k, v').
          -- intros [?|Hin]; simplify_eq; auto.
        * rewrite lookup_insert_ne by done. naive_solver.
      + apply Hstep; [done..| |done].
        apply map_subseteq_spec. intros k' v' Hin. apply Hm. by left. }
  apply (Hgen (range m) ∅).
  - apply NoDup_range_fst.
  - intros. apply lookup_empty.
  - intros k v. rewrite elem_of_range, lookup_empty. naive_solver.
  - done.
Qed.
End range_lemmas.
