(* ===== verification/Hoare.v ===== *)
(** * A small program logic for the effectful definitions

    [triple p P m Q]: from a state with [P], [m] either returns a value and a state
    with [Q], or panics, which is allowed only if [p].  [triple False] is total
    correctness without panics, [triple True] partial correctness. *)

From S2P Require Import Prelude.

Definition triple {W A} (p : Prop) (P : W -> Prop) (m : M W A) (Q : A -> W -> Prop) : Prop :=
  forall w, P w -> match m w with (Ret a, w') => Q a w' | (Panic _, _) => p end.

Section rules.
Context {W : Type} (p : Prop).
Implicit Types (P : W -> Prop).

Lemma triple_ret {A} (a : A) P (Q : A -> W -> Prop) :
  (forall w, P w -> Q a w) -> triple p P (mret a) Q.
Proof. intros HQ w HP. by apply HQ. Qed.

Lemma triple_bind {A B} (m : M W A) (k : A -> M W B) P (R : A -> W -> Prop) Q :
  triple p P m R -> (forall a, triple p (R a) (k a) Q) -> triple p P (m ≫= k) Q.
Proof.
  intros Hm Hk w HP. unfold mbind, M_bind. specialize (Hm w HP).
  destruct (m w) as [[a|why] w1]; [by apply Hk|done].
Qed.

Lemma triple_bind_ok {A B} (m : M W (result A)) (k : A -> M W (result B)) P
    (R : A -> W -> Prop) (Q : result B -> W -> Prop) :
  triple p P m (fun r w => match r with Ok a => R a w | Err e => Q (Err e) w end) ->
  (forall a, triple p (R a) (k a) Q) -> triple p P (bind_ok m k) Q.
Proof.
  intros Hm Hk. eapply triple_bind; [exact Hm|]. intros [a|e]; [apply Hk|].
  by apply triple_ret.
Qed.

(** A step that keeps its precondition. *)
Lemma triple_keep {A B} (m : M W A) (k : A -> M W B) P Q :
  triple p P m (fun _ => P) -> (forall a, triple p P (k a) Q) -> triple p P (m ≫= k) Q.
Proof. intros Hm Hk. by eapply triple_bind. Qed.

Lemma triple_weaken {A} (m : M W A) P P' (Q Q' : A -> W -> Prop) :
  triple p P' m Q' -> (forall w, P w -> P' w) -> (forall a w, Q' a w -> Q a w) -> triple p P m Q.
Proof.
  intros Hm HP HQ w Hw. specialize (Hm w (HP w Hw)). destruct (m w) as [[a|] w']; [by apply HQ|done].
Qed.

(** A precondition that does not depend on the state. *)
Lemma triple_pure {A} (m : M W A) (H : Prop) P (Q : A -> W -> Prop) :
  (H -> triple p P m Q) -> triple p (fun w => H /\ P w) m Q.
Proof. intros Hm w [HH HP]. by apply Hm. Qed.

Lemma triple_pure_r {A} (m : M W A) (H : Prop) P (Q : A -> W -> Prop) :
  (H -> triple p P m Q) -> triple p (fun w => P w /\ H) m Q.
Proof. intros Hm w [HP HH]. by apply Hm. Qed.

(** A precondition up to a witness. *)
Lemma triple_ex {A X} (m : M W A) (P : X -> W -> Prop) (Q : A -> W -> Prop) :
  (forall x, triple p (P x) m Q) -> triple p (fun w => exists x, P x w) m Q.
Proof. intros Hm w [x Hx]. by apply (Hm x). Qed.

Lemma triple_gets {A} (f : W -> A) P (Q : A -> W -> Prop) :
  (forall w, P w -> Q (f w) w) -> triple p P (gets f) Q.
Proof. intros HQ w HP. by apply HQ. Qed.

Lemma triple_modify (f : W -> W) P (Q : unit -> W -> Prop) :
  (forall w, P w -> Q tt (f w)) -> triple p P (modify f) Q.
Proof. intros HQ w HP. by apply HQ. Qed.

Lemma triple_wrap_err {A} f (m : M W (result A)) P (Q : result A -> W -> Prop) :
  triple p P m (fun r w => Q (result_map_err f r) w) -> triple p P (wrap_err f m) Q.
Proof. intros Hm. eapply triple_bind; [exact Hm|]. intros r. by apply triple_ret. Qed.

Lemma triple_deref {A} what (o : option A) P (Q : A -> W -> Prop) :
  (p \/ is_Some o) -> (forall a w, o = Some a -> P w -> Q a w) -> triple p P (deref what o) Q.
Proof.
  intros Ho HQ. destruct o as [a|]; [apply triple_ret; intros w; by apply HQ|].
  destruct Ho as [Hp|[? ?]]; [by intros w _|done].
Qed.

Lemma triple_for_each {A S} (l : list A) (body : A -> S -> M W S) (I : list A -> S -> W -> Prop) s :
  (forall done x rest s, l = done ++ x :: rest -> triple p (I done s) (body x s) (I (done ++ [x]))) ->
  triple p (I [] s) (for_each l body s) (I l).
Proof.
  intros Hbody.
  assert (Hgen : forall rest done s, l = done ++ rest ->
    triple p (I done s) (for_each rest body s) (I l)).
  { induction rest as [|x rest IH]; intros done s' Hl; simpl.
    - rewrite app_nil_r in Hl. subst. by apply triple_ret.
    - eapply triple_bind; [by eapply Hbody|]. intros s1. apply IH. by rewrite <- app_assoc. }
  by apply Hgen.
Qed.

(** The rule for a loop whose body may return an error. *)
Lemma triple_for_each_ok {A S} (l : list A) (body : A -> S -> M W (result S))
    (I : list A -> S -> W -> Prop) (Q : result S -> W -> Prop) s :
  (forall done x rest s, l = done ++ x :: rest ->
     triple p (I done s) (body x s)
       (fun r w => match r with Ok s => I (done ++ [x]) s w | Err e => Q (Err e) w end)) ->
  (forall s w, I l s w -> Q (Ok s) w) ->
  triple p (I [] s) (for_each_ok l body s) Q.
Proof.
  intros Hbody Hend.
  assert (Hgen : forall rest done s, l = done ++ rest ->
    triple p (I done s) (for_each_ok rest body s) Q).
  { induction rest as [|x rest IH]; intros done s' Hl; simpl.
    - rewrite app_nil_r in Hl. subst. by apply triple_ret, Hend.
    - eapply triple_bind_ok; [by eapply Hbody|]. intros s1. apply IH. by rewrite <- app_assoc. }
  by apply Hgen.
Qed.

(** A triple read as a statement about a run that returned. *)
Lemma triple_run {A} (m : M W A) P Q w a w' :
  triple p P m Q -> P w -> m w = (Ret a, w') -> Q a w'.
Proof. intros Hm Hw Hrun. specialize (Hm w Hw). by rewrite Hrun in Hm. Qed.
End rules.

(** Total correctness gives a run. *)
Lemma triple_returns {W A} (m : M W A) (P : W -> Prop) Q w :
  triple False P m Q -> P w -> exists a w', m w = (Ret a, w') /\ Q a w'.
Proof. intros Hm Hw. specialize (Hm w Hw). destruct (m w) as [[a|] w']; [by exists a, w'|done]. Qed.
