(* ===== verification/Threads.v ===== *)
(** * Threads

    A goroutine as a tree of atomic sections: one section runs on the shared state
    without interruption, and the rest of the goroutine depends on what it returned.
    Other goroutines may run between two sections.  [run] is the goroutine on its own;
    [safe] is the rely-guarantee judgement for it among others, and [owns] the one for a
    goroutine that alone changes a part of the state. *)

From S2P Require Import Prelude Hoare.

Inductive prog (W A : Type) : Type :=
  | Done (a : A)
  | Do {X : Type} (m : M W X) (k : X -> prog W A).
Arguments Done {W A} a.
Arguments Do {W A X} m k.

(** One atomic section. *)
Definition atomic {W A} (m : M W A) : prog W A := Do m Done.

#[global] Instance prog_ret W : MRet (prog W) := fun A a => Done a.
#[global] Instance prog_bind W : MBind (prog W) := fun A B f =>
  fix bind (p : prog W A) := match p with Done a => f a | Do m k => Do m (fun x => bind (k x)) end.

(** The forms of Prelude.v: an early return, and the loops. *)
Definition thread_ok {W A B} (p : prog W (result A)) (k : A -> prog W (result B)) : prog W (result B) :=
  r ← p; match r with Ok a => k a | Err e => mret (Err e) end.

Notation "x '⇐?' p ; k" := (thread_ok p (fun x => k))
  (at level 20, p at level 100, k at level 200, only parsing) : go_scope.

Definition thread_err {W A} (f : error -> error) (p : prog W (result A)) : prog W (result A) :=
  r ← p; mret (result_map_err f r).

Fixpoint thread_each {W A S} (l : list A) (body : A -> S -> prog W S) (s : S) : prog W S :=
  match l with
  | [] => mret s
  | x :: l' => s' ← body x s; thread_each l' body s'
  end.

Fixpoint thread_each_ok {W A S} (l : list A) (body : A -> S -> prog W (result S)) (s : S)
  : prog W (result S) :=
  match l with
  | [] => mret (Ok s)
  | x :: l' => s' ⇐? body x s; thread_each_ok l' body s'
  end.

(** ** On its own *)

Fixpoint run {W A} (p : prog W A) : M W A :=
  match p with
  | Done a => mret a
  | Do m k => x ← m; run (k x)
  end.

(** Computations that do the same from every state. *)
Definition same_run {W A} : relation (M W A) := pointwise_relation W eq.

#[global] Instance same_run_equivalence W A : Equivalence (@same_run W A).
Proof. unfold same_run. apply _. Qed.

#[global] Instance bind_same_run W A B :
  Proper (pointwise_relation A same_run ==> same_run ==> same_run) (mbind (M:=M W) (A:=A) (B:=B)).
Proof.
  intros f g Hfg m m' Hm w. unfold mbind, M_bind. rewrite (Hm w).
  destruct (m' w) as [[a|] w']; [apply Hfg|done].
Qed.

Section run.
Context {W : Type}.

Lemma run_atomic {A} (m : M W A) : same_run (run (atomic m)) m.
Proof. intros w. simpl. unfold mbind, M_bind. by destruct (m w) as [[a|] w']. Qed.

Lemma run_ret {A} (a : A) : same_run (run (mret a : prog W A)) (mret a).
Proof. done. Qed.

Lemma run_bind_run {A B} (p : prog W A) (k : A -> prog W B) :
  same_run (run (p ≫= k)) (run p ≫= fun a => run (k a)).
Proof.
  induction p as [a|X m k' IH]; intros w; [done|].
  change (run (Do m k' ≫= k)) with (x ← m; run (k' x ≫= k)).
  unfold mbind, M_bind. simpl. unfold mbind, M_bind.
  destruct (m w) as [[x|] w']; [apply IH|done].
Qed.

Lemma run_bind {A B} (p : prog W A) (k : A -> prog W B) (m : M W A) (n : A -> M W B) :
  same_run (run p) m -> (forall a, same_run (run (k a)) (n a)) -> same_run (run (p ≫= k)) (m ≫= n).
Proof.
  intros Hp Hk. etrans; [apply run_bind_run|]. by apply bind_same_run.
Qed.

(** From one state, with what is known after the first part. *)
Lemma run_bind_at {A B} (p : prog W A) (k : A -> prog W B) (m : M W A) (n : A -> M W B) w :
  run p w = m w -> (forall a w', m w = (Ret a, w') -> run (k a) w' = n a w') ->
  run (p ≫= k) w = (m ≫= n) w.
Proof.
  intros Hp Hk. rewrite run_bind_run. unfold mbind, M_bind. rewrite Hp.
  destruct (m w) as [[a|] w'] eqn:Hm; [by apply Hk|done].
Qed.

Lemma run_thread_ok_at {A B} (p : prog W (result A)) (k : A -> prog W (result B)) m n w :
  run p w = m w -> (forall a w', m w = (Ret (Ok a), w') -> run (k a) w' = n a w') ->
  run (thread_ok p k) w = bind_ok m n w.
Proof. intros Hp Hk. apply run_bind_at; [done|]. intros [a|e] w' Hm; [by apply Hk|done]. Qed.

Lemma run_thread_ok {A B} (p : prog W (result A)) (k : A -> prog W (result B)) m n :
  same_run (run p) m -> (forall a, same_run (run (k a)) (n a)) -> same_run (run (thread_ok p k)) (bind_ok m n).
Proof. intros Hp Hk. apply run_bind; [done|]. intros [a|e]; [apply Hk|apply run_ret]. Qed.

Lemma run_thread_err {A} f (p : prog W (result A)) m :
  same_run (run p) m -> same_run (run (thread_err f p)) (wrap_err f m).
Proof. intros Hp. apply run_bind; [done|]. intros r. apply run_ret. Qed.

Lemma run_each {A S} (l : list A) (body : A -> S -> prog W S) (body' : A -> S -> M W S) s :
  (forall x s, same_run (run (body x s)) (body' x s)) ->
  same_run (run (thread_each l body s)) (for_each l body' s).
Proof.
  intros Hbody. revert s. induction l as [|x l IH]; intros s; simpl; [done|]. by apply run_bind.
Qed.

Lemma run_each_ok {A S} (l : list A) (body : A -> S -> prog W (result S)) (body' : A -> S -> M W (result S)) s :
  (forall x s, same_run (run (body x s)) (body' x s)) ->
  same_run (run (thread_each_ok l body s)) (for_each_ok l body' s).
Proof.
  intros Hbody. revert s. induction l as [|x l IH]; intros s; simpl; [done|]. by apply run_thread_ok.
Qed.
End run.

(** ** Among others *)

(** Every section of the thread keeps the invariant [I] and makes a step of [R], if the
    others do between its sections; at its end it answers with [Q].  It panics only if
    [q]. *)
Fixpoint safe {W A} (q : Prop) (I : W -> Prop) (R : relation W) (p : prog W A) (Q : A -> W -> Prop) (w : W) : Prop :=
  match p with
  | Done a => forall w', R w w' -> I w' -> Q a w'
  | Do m k => forall w', R w w' -> I w' ->
      match m w' with
      | (Ret x, w'') => I w'' /\ R w' w'' /\ safe q I R (k x) Q w''
      | (Panic _, _) => q
      end
  end.

Section safe.
Context {W : Type} (q : Prop) (I : W -> Prop) (R : relation W) `{!PreOrder R}.

(** What does not depend on the network data and the like: true once, true later. *)
Definition stable (P : W -> Prop) : Prop := forall w w', R w w' -> P w -> P w'.

Lemma safe_later {A} (p : prog W A) Q w w' : R w w' -> safe q I R p Q w -> safe q I R p Q w'.
Proof.
  intros Hw. destruct p as [a|X m k]; simpl; intros Hs w1 H1 Hi; apply Hs; [by etrans|done|by etrans|done].
Qed.

Lemma safe_settle {A} (p : prog W A) Q w :
  (forall w', R w w' -> I w' -> safe q I R p Q w') -> safe q I R p Q w.
Proof. intros Hs. destruct p as [a|X m k]; simpl; intros w' Hw Hi; by apply (Hs w' Hw Hi). Qed.

Lemma safe_ret {A} (a : A) (Q : A -> W -> Prop) w : stable (Q a) -> Q a w -> safe q I R (mret a) Q w.
Proof. intros Hst HQ w' Hw _. by eapply Hst. Qed.

Lemma safe_weaken {A} (p : prog W A) (Q Q' : A -> W -> Prop) w :
  safe q I R p Q w -> (forall a w', I w' -> Q a w' -> Q' a w') -> safe q I R p Q' w.
Proof.
  intros Hs HQ. revert w Hs. induction p as [a|X m k IH]; simpl; intros w Hs w' Hw Hi.
  - apply HQ; [done|]. by apply Hs.
  - specialize (Hs w' Hw Hi). destruct (m w') as [[x|] w'']; [|done].
    destruct Hs as (? & ? & ?). split_and!; [done..|by apply IH].
Qed.

Lemma safe_bind {A B} (p : prog W A) (k : A -> prog W B) (P : A -> W -> Prop) Q w :
  safe q I R p P w -> (forall a w', R w w' -> I w' -> P a w' -> safe q I R (k a) Q w') ->
  safe q I R (p ≫= k) Q w.
Proof.
  intros Hp Hk. revert w Hp Hk. induction p as [a|X m k' IH]; intros w Hp Hk.
  - apply safe_settle. intros w' Hw Hi. apply Hk; [done..|]. by apply Hp.
  - change (safe q I R (Do m (fun x => k' x ≫= k)) Q w). simpl. intros w' Hw Hi.
    specialize (Hp w' Hw Hi). destruct (m w') as [[x|] w'']; [|done].
    destruct Hp as (Hi' & Hw' & Hp). split_and!; [done..|]. apply IH; [done|].
    intros a w3 H3. apply Hk. etrans; [exact Hw|]. by etrans.
Qed.

Lemma safe_thread_ok {A B} (p : prog W (result A)) (k : A -> prog W (result B)) (P : A -> W -> Prop) Q w :
  safe q I R p (fun r w => match r with Ok a => P a w | Err e => stable (Q (Err e)) /\ Q (Err e) w end) w ->
  (forall a w', R w w' -> I w' -> P a w' -> safe q I R (k a) Q w') ->
  safe q I R (thread_ok p k) Q w.
Proof.
  intros Hp Hk. eapply safe_bind; [exact Hp|]. intros [a|e] w' Hw Hi HP; [by apply Hk|].
  destruct HP. by apply safe_ret.
Qed.

(** Loops, with an invariant on the elements done and the variables. *)
Lemma safe_each {A S} (l : list A) (body : A -> S -> prog W S) (J : list A -> S -> W -> Prop) s w :
  (forall done s, stable (J done s)) ->
  (forall done x rest s w', l = done ++ x :: rest -> R w w' -> I w' -> J done s w' ->
     safe q I R (body x s) (J (done ++ [x])) w') ->
  J [] s w -> safe q I R (thread_each l body s) (J l) w.
Proof.
  intros Hst Hbody HJ.
  assert (Hgen : forall rest done s w', l = done ++ rest -> R w w' -> J done s w' ->
    safe q I R (thread_each rest body s) (J l) w').
  { induction rest as [|x rest IH]; intros done s' w' Hl Hw HJ'; simpl.
    - rewrite app_nil_r in Hl. subst. by apply safe_ret.
    - eapply safe_bind.
      + apply safe_settle. intros w1 H1 Hi. eapply (Hbody done x rest); [done|by etrans|done|].
        by eapply Hst.
      + intros s1 w1 H1 Hi HJ1. apply (IH (done ++ [x])); [by rewrite <- app_assoc|by etrans|done]. }
  by apply (Hgen l []).
Qed.

Lemma safe_each_ok {A S} (l : list A) (body : A -> S -> prog W (result S)) (J : list A -> S -> W -> Prop)
    (Q : result S -> W -> Prop) s w :
  (forall done s, stable (J done s)) -> (forall r, stable (Q r)) ->
  (forall done x rest s w', l = done ++ x :: rest -> R w w' -> I w' -> J done s w' ->
     safe q I R (body x s) (fun r w => match r with Ok s => J (done ++ [x]) s w | Err e => Q (Err e) w end) w') ->
  (forall s w', J l s w' -> Q (Ok s) w') ->
  J [] s w -> safe q I R (thread_each_ok l body s) Q w.
Proof.
  intros Hst HQ Hbody Hend HJ.
  assert (Hgen : forall rest done s w', l = done ++ rest -> R w w' -> J done s w' ->
    safe q I R (thread_each_ok rest body s) Q w').
  { induction rest as [|x rest IH]; intros done s' w' Hl Hw HJ'; simpl.
    - rewrite app_nil_r in Hl. subst. apply safe_ret; [done|by apply Hend].
    - eapply safe_thread_ok.
      + apply safe_settle. intros w1 H1 Hi. eapply safe_weaken.
        * eapply (Hbody done x rest); [done|by etrans|done|by eapply Hst].
        * intros [s1|e] w2 Hi2 HJ2; [exact HJ2|]. by split.
      + intros s1 w1 H1 Hi HJ1. apply (IH (done ++ [x])); [by rewrite <- app_assoc|by etrans|done]. }
  by apply (Hgen l []).
Qed.

(** The next section of a safe thread. *)
Lemma safe_next {A X} (m : M W X) (k : X -> prog W A) Q w :
  I w -> safe q I R (Do m k) Q w ->
  match m w with (Ret x, w') => I w' /\ R w w' /\ safe q I R (k x) Q w' | (Panic _, _) => q end.
Proof. intros Hi Hs. by apply Hs. Qed.
End safe.

(** ** As the only one to change something

    The other threads keep the invariant [I] and, between the sections of this one, what
    [R] relates: what this thread alone changes.  It does not panic, it keeps [I], and it
    answers with [Q]. *)
Fixpoint owns {W A} (I : W -> Prop) (R : relation W) (p : prog W A) (Q : A -> W -> Prop) (w : W) : Prop :=
  match p with
  | Done a => forall w', R w w' -> I w' -> Q a w'
  | Do m k => forall w', R w w' -> I w' ->
      match m w' with
      | (Ret x, w'') => I w'' /\ owns I R (k x) Q w''
      | (Panic _, _) => False
      end
  end.

Section owns.
Context {W : Type} (I : W -> Prop) (R : relation W) `{!PreOrder R}.

Lemma owns_later {A} (p : prog W A) Q w w' : R w w' -> owns I R p Q w -> owns I R p Q w'.
Proof. intros Hw. destruct p as [a|X m k]; simpl; intros Hs w1 H1 Hi; apply Hs; by try etrans. Qed.

Lemma owns_settle {A} (p : prog W A) Q w :
  (forall w', R w w' -> I w' -> owns I R p Q w') -> owns I R p Q w.
Proof. intros Hs. destruct p as [a|X m k]; simpl; intros w' Hw Hi; by apply (Hs w' Hw Hi). Qed.

Lemma owns_ret {A} (a : A) (Q : A -> W -> Prop) w :
  (forall w', R w w' -> I w' -> Q a w') -> owns I R (mret a) Q w.
Proof. done. Qed.

Lemma owns_bind {A B} (p : prog W A) (k : A -> prog W B) (P : A -> W -> Prop) Q w :
  owns I R p P w -> (forall a w', I w' -> P a w' -> owns I R (k a) Q w') -> owns I R (p ≫= k) Q w.
Proof.
  intros Hp Hk. revert w Hp. induction p as [a|X m k' IH]; intros w Hp.
  - apply owns_settle. intros w' Hw Hi. apply Hk; [done|]. by apply Hp.
  - change (owns I R (Do m (fun x => k' x ≫= k)) Q w). simpl. intros w' Hw Hi.
    specialize (Hp w' Hw Hi). destruct (m w') as [[x|] w'']; [|done].
    destruct Hp as [Hi' Hp]. split; [done|]. by apply IH.
Qed.

(** One section, by what it does in every state that the invariant allows. *)
Lemma owns_atomic {A} (m : M W A) (Q : A -> W -> Prop) w :
  (forall w', R w w' -> I w' -> exists a w'', m w' = (Ret a, w'') /\ I w'' /\
     forall w3, R w'' w3 -> I w3 -> Q a w3) ->
  owns I R (atomic m) Q w.
Proof. intros Hm w' Hw Hi. destruct (Hm w' Hw Hi) as (a & w'' & -> & Hi' & HQ). by split. Qed.
End owns.

(** ** Threads end *)

(** [rest p' p]: what is left of [p] after a section. *)
Definition rest {W A} (p' p : prog W A) : Prop :=
  match p with Done _ => False | @Do _ _ X m k => exists x : X, p' = k x end.

Lemma rest_wf W A : well_founded (@rest W A).
Proof. intros p. induction p as [a|X m k IH]; constructor; simpl; [done|]. by intros p' [x ->]. Qed.

(** A pool after a step of one thread, or its end. *)
Definition fewer {W A} (l' l : list (prog W A)) : Prop := exists i p, l !! i = Some p /\
  (l' = delete i l \/ exists p', rest p' p /\ l' = <[i := p']> l).

Lemma fewer_wf W A : well_founded (@fewer W A).
Proof.
  intros l. induction l as [|p l IH]; [by constructor; intros l' (i & p & Hi & _)|].
  revert l IH. induction (rest_wf W A p) as [p _ IHp]. intros l Hl. induction Hl as [l Hl IHl].
  constructor. intros l' ([|i] & q & Hi & Hl'); simpl in Hi.
  - injection Hi as ->. destruct Hl' as [->|(p' & Hp' & ->)]; [by constructor|]. apply IHp; [done|by constructor].
  - destruct Hl' as [->|(p' & Hp' & ->)]; apply IHl; exists i, q; (split; [done|]); [by left|right; by exists p'].
Qed.

(** Work that may be there or not. *)
Definition rest_opt {W A} (r' r : option (prog W A)) : Prop :=
  match r, r' with
  | Some p, Some p' => rest p' p
  | Some _, None => True
  | None, _ => False
  end.

Lemma rest_opt_wf W A : well_founded (@rest_opt W A).
Proof.
  assert (Hnone : Acc rest_opt (None : option (prog W A))) by by constructor.
  intros [p|]; [|exact Hnone]. induction (rest_wf W A p) as [p _ IH].
  constructor. intros [p'|] Hp; [by apply IH|exact Hnone].
Qed.
