(* ===== verification/GoLib.v ===== *)
(** * The parts of the Go standard library the driver computes with

    Strings are byte strings, as in Go.  [strings], [strconv], [fmt.Sprintf] for
    the verbs the driver uses on pure data, and [path/filepath]. *)

From S2P Require Import Prelude.

(** ** Integers: Go's [int] and [int64] on the supported platforms *)

Definition wrap64 (z : Z) : Z := ((z + 2 ^ 63) mod 2 ^ 64 - 2 ^ 63)%Z.

Lemma wrap64_small z : (- 2 ^ 63 ≤ z < 2 ^ 63)%Z -> wrap64 z = z.
Proof. intros. unfold wrap64. rewrite Z.mod_small; lia. Qed.

Lemma wrap64_range z : (- 2 ^ 63 ≤ wrap64 z < 2 ^ 63)%Z.
Proof. unfold wrap64. pose proof (Z.mod_pos_bound (z + 2 ^ 63) (2 ^ 64)). lia. Qed.

(** [x++] on an [int]. *)
Definition int_incr (z : Z) : Z := wrap64 (z + 1).

(** [%d]. *)
Definition itoa (z : Z) : string := pretty z.

Lemma itoa_inj a b : itoa a = itoa b -> a = b.
Proof. apply (inj pretty). Qed.

(** ** Package strings *)

Definition HasPrefix (s pre : string) : bool := String.prefix pre s.

Fixpoint str_drop (n : nat) (s : string) : string :=
  match n, s with
  | S n', String _ s' => str_drop n' s'
  | _, _ => s
  end.

Definition TrimPrefix (s pre : string) : string :=
  if HasPrefix s pre then str_drop (String.length pre) s else s.

Fixpoint map_chars (f : Ascii.ascii -> Ascii.ascii) (s : string) : string :=
  match s with
  | EmptyString => EmptyString
  | String c s' => String (f c) (map_chars f s')
  end.

(** [strings.Contains]. *)
Fixpoint Contains (s sub : string) : bool :=
  HasPrefix s sub ||
  match s with
  | EmptyString => false
  | String _ s' => Contains s' sub
  end.

(** [strings.ReplaceAll] of a one-byte string by a one-byte string. *)
Definition ReplaceAll (s : string) (old new : Ascii.ascii) : string :=
  map_chars (fun c => if bool_decide (c = old) then new else c) s.

Fixpoint Join (elems : list string) (sep : string) : string :=
  match elems with
  | [] => EmptyString
  | [s] => s
  | s :: elems' => s +:+ sep +:+ Join elems' sep
  end.

(** [strings.Split] on a one-byte separator: never empty. *)
Fixpoint Split (s : string) (sep : Ascii.ascii) : list string :=
  match s with
  | EmptyString => [EmptyString]
  | String c s' =>
      if bool_decide (c = sep) then EmptyString :: Split s' sep
      else match Split s' sep with
           | [] => [String c EmptyString]
           | w :: ws => String c w :: ws
           end
  end.

Definition is_space (c : Ascii.ascii) : bool :=
  let n := Ascii.nat_of_ascii c in
  bool_decide (n = 32) || (bool_decide (9 ≤ n) && bool_decide (n ≤ 13)).

Fixpoint trim_left (s : string) : string :=
  match s with
  | String c s' => if is_space c then trim_left s' else s
  | EmptyString => EmptyString
  end.

Definition str_rev (s : string) : string := String.string_of_list_ascii (rev (String.list_ascii_of_string s)).

(** [strings.TrimSpace] on ASCII input (sysfs and procfs contents). *)
Definition TrimSpace (s : string) : string := str_rev (trim_left (str_rev (trim_left s))).

Definition to_lower_char (c : Ascii.ascii) : Ascii.ascii :=
  let n := Ascii.nat_of_ascii c in
  if bool_decide (65 ≤ n) && bool_decide (n ≤ 90) then Ascii.ascii_of_nat (n + 32) else c.

(** [strings.ToLower] on ASCII input. *)
Definition ToLower (s : string) : string := map_chars to_lower_char s.

Definition to_upper_char (c : Ascii.ascii) : Ascii.ascii :=
  let n := Ascii.nat_of_ascii c in
  if bool_decide (97 <= n <= 122) then Ascii.ascii_of_nat (n - 32) else c.

(** [strings.ToUpper] on ASCII input. *)
Definition ToUpper (s : string) : string := map_chars to_upper_char s.

(** ** Package strconv *)

Definition digit (c : Ascii.ascii) : option Z :=
  let n := Ascii.nat_of_ascii c in
  if bool_decide (48 ≤ n) && bool_decide (n ≤ 57) then Some (Z.of_nat (n - 48)) else None.

Fixpoint parse_digits (s : string) (acc : Z) : option Z :=
  match s with
  | EmptyString => Some acc
  | String c s' => d ← digit c; parse_digits s' (10 * acc + d)%Z
  end.

Definition parse_unsigned (s : string) : option Z :=
  match s with EmptyString => None | _ => parse_digits s 0%Z end.

(** [strconv.Atoi]: an optional sign, decimal digits, and the range of [int]. *)
Definition Atoi (s : string) : result Z :=
  let bad why := Err (ErrExternal why ("strconv.Atoi: parsing " +:+ s)) in
  let parsed := match s with
                | String "-"%char s' => Z.opp <$> parse_unsigned s'
                | String "+"%char s' => parse_unsigned s'
                | _ => parse_unsigned s
                end in
  match parsed with
  | None => bad "ErrSyntax"
  | Some z => if bool_decide (- 2 ^ 63 ≤ z < 2 ^ 63)%Z then Ok z else bad "ErrRange"
  end.

(** [strconv.ParseInt s base 64] for a given base: digits and letters below it. *)
Definition digit_in (base : Z) (c : Ascii.ascii) : option Z :=
  let n := Z.of_nat (Ascii.nat_of_ascii (to_lower_char c)) in
  let d := if bool_decide (48 ≤ n ≤ 57)%Z then (n - 48)%Z
           else if bool_decide (97 ≤ n ≤ 122)%Z then (n - 87)%Z else base in
  if bool_decide (d < base)%Z then Some d else None.

Fixpoint parse_in (base : Z) (s : string) (acc : Z) : option Z :=
  match s with
  | EmptyString => Some acc
  | String c s' => d ← digit_in base c; parse_in base s' (base * acc + d)%Z
  end.

Definition ParseInt (s : string) (base : Z) : result Z :=
  let bad why := Err (ErrExternal why ("strconv.ParseInt: parsing " +:+ s)) in
  let unsigned s := match s with EmptyString => None | _ => parse_in base s 0%Z end in
  let parsed := match s with
                | String "-"%char s' => Z.opp <$> unsigned s'
                | String "+"%char s' => unsigned s'
                | _ => unsigned s
                end in
  match parsed with
  | None => bad "ErrSyntax"
  | Some z => if bool_decide (- 2 ^ 63 ≤ z < 2 ^ 63)%Z then Ok z else bad "ErrRange"
  end.

(** ** Package path/filepath (Unix) *)

Definition slash : Ascii.ascii := "/"%char.

(** The components of [Clean]: the stack holds what is kept, last first. *)
Fixpoint clean_elems (rooted : bool) (stack elems : list string) : list string :=
  match elems with
  | [] => rev stack
  | e :: elems' =>
      if bool_decide (e = "" \/ e = ".") then clean_elems rooted stack elems'
      else if bool_decide (e = "..") then
        match stack with
        | top :: stack' =>
            if bool_decide (top = "..") then clean_elems rooted (e :: stack) elems'
            else clean_elems rooted stack' elems'
        | [] => if rooted then clean_elems rooted [] elems' else clean_elems rooted [e] elems'
        end
      else clean_elems rooted (e :: stack) elems'
  end.

Definition is_rooted (p : string) : bool := HasPrefix p "/".

Definition filepath_Clean (p : string) : string :=
  let rooted := is_rooted p in
  let body := Join (clean_elems rooted [] (Split p slash)) "/" in
  if rooted then "/" +:+ body else if bool_decide (body = "") then "." else body.

Definition filepath_Join (elems : list string) : string :=
  match filter (fun e => e ≠ "") elems with
  | [] => ""
  | es => filepath_Clean (Join es "/")
  end.

(** The last non-empty component. *)
Definition filepath_Base (p : string) : string :=
  if bool_decide (p = "") then "."
  else match rev (filter (fun e => e ≠ "") (Split p slash)) with
       | [] => "/"
       | b :: _ => b
       end.

Definition filepath_Dir (p : string) : string :=
  let es := Split p slash in
  filepath_Clean (Join (removelast es) "/" +:+ match es with [_] => "" | _ => "/" end).

(** [path.Join] is the same function. *)
Definition path_Join : list string -> string := filepath_Join.

(** ** Package net/url: the text of a URL with the scheme unix and this path *)

Definition hex_upper (n : nat) : Ascii.ascii :=
  Ascii.ascii_of_nat (if n <? 10 then 48 + n else 55 + n).

(** The bytes of a path that are written as they are. *)
Definition url_keeps (c : Ascii.ascii) : bool :=
  let n := Ascii.nat_of_ascii c in
  (48 <=? n) && (n <=? 57) || (65 <=? n) && (n <=? 90) || (97 <=? n) && (n <=? 122) ||
  bool_decide (c ∈ ["-"; "_"; "."; "~"; "$"; "&"; "+"; ","; "/"; ":"; ";"; "="; "@"]%char).

Fixpoint url_escape (s : string) : string :=
  match s with
  | String c s =>
      if url_keeps c then String c (url_escape s)
      else let n := Ascii.nat_of_ascii c in
           String "%" (String (hex_upper (n / 16)) (String (hex_upper (n mod 16)) (url_escape s)))
  | EmptyString => ""
  end.

Definition unix_url (path : string) : string := "unix://" +:+ url_escape path.

Example unix_url_spec : unix_url "/var/lib/my kubelet/x.sock" = "unix:///var/lib/my%20kubelet/x.sock".
Proof. reflexivity. Qed.

(** [net.JoinHostPort("", port)]. *)
Definition join_port (port : string) : string := ":" +:+ port.

(** ** Package sort *)

(** Go's [<] on strings compares bytes. *)
Definition str_lt (a b : string) : bool := String.ltb a b.

Lemma ascii_compare_trans a b c r :
  Ascii.compare a b = r -> Ascii.compare b c = r -> Ascii.compare a c = r.
Proof.
  unfold Ascii.compare. destruct r.
  - rewrite !N.compare_eq_iff. congruence.
  - rewrite !N.compare_lt_iff. lia.
  - rewrite !N.compare_gt_iff. lia.
Qed.

Lemma str_lt_nil_r s : str_lt s "" = false.
Proof. by destruct s. Qed.

Lemma str_lt_cons a s b t :
  str_lt (String a s) (String b t) =
    match Ascii.compare a b with Eq => str_lt s t | Lt => true | Gt => false end.
Proof. unfold str_lt, String.ltb. simpl. by destruct (Ascii.compare a b). Qed.

Lemma str_lt_asym a b : str_lt a b = true -> str_lt b a = false.
Proof.
  unfold str_lt, String.ltb. rewrite (String.compare_antisym b a). by destruct (String.compare a b).
Qed.

Lemma str_lt_total a b : str_lt a b = false -> str_lt b a = false -> a = b.
Proof.
  unfold str_lt, String.ltb. rewrite (String.compare_antisym b a).
  destruct (String.compare a b) eqn:Hc; [|done..]. by intros _ _; apply String.compare_eq_iff.
Qed.

Lemma str_le_trans a b c : str_lt b a = false -> str_lt c b = false -> str_lt c a = false.
Proof.
  revert b c. induction a as [|x a IH]; intros b c; [intros; apply str_lt_nil_r|].
  destruct b as [|y b]; [done|]. destruct c as [|z c]; [done|]. rewrite !str_lt_cons.
  destruct (Ascii.compare y x) eqn:Hyx; [|done|]; destruct (Ascii.compare z y) eqn:Hzy; try done.
  - rewrite (ascii_compare_trans _ _ _ _ Hzy Hyx). apply IH.
  - apply Ascii.compare_eq_iff in Hyx as <-. by rewrite Hzy.
  - apply Ascii.compare_eq_iff in Hzy as <-. by rewrite Hyx.
  - by rewrite (ascii_compare_trans _ _ _ _ Hzy Hyx).
Qed.

(** [sort.Slice] with a strict weak order: a sorted permutation; the order of equal
    elements is not specified, so the function is a parameter. *)
Class SliceSort : Type := {
  sort_Slice : forall {A}, (A -> A -> bool) -> list A -> list A;
  sort_perm : forall {A} (less : A -> A -> bool) l, sort_Slice less l ≡ₚ l;
  sort_sorted : forall {A} (less : A -> A -> bool) l,
    (forall x y, less x y = true -> less y x = false) ->
    (forall x y z, less y x = false -> less z y = false -> less z x = false) ->
    StronglySorted (fun x y => less y x = false) (sort_Slice less l)
}.

(** A stable sort, for concrete runs. *)
Definition not_after {A} (less : A -> A -> bool) (x y : A) : Prop := less y x = false.

#[export] Instance not_after_dec {A} (less : A -> A -> bool) x y : Decision (not_after less x y).
Proof. unfold not_after. apply _. Defined.

Definition stable_sort : SliceSort.
Proof.
  refine {| sort_Slice := fun A less l => merge_sort (not_after less) l |}.
  - intros A less l. apply merge_sort_Permutation.
  - intros A less l Has Htr.
    assert (Transitive (not_after less)) by (intros x y z; apply Htr).
    assert (Total (not_after less)).
    { intros x y. unfold not_after. destruct (less y x) eqn:Hl; [right; by apply Has|by left]. }
    exact (StronglySorted_merge_sort (not_after less) l).
Defined.

(** [sort.Slice] by a string key. *)
Definition by_name {A} (name : A -> string) (x y : A) : bool := str_lt (name x) (name y).

Lemma sorted_by_name `{SliceSort} {A} (name : A -> string) l :
  StronglySorted (fun x y => str_lt (name y) (name x) = false) (sort_Slice (by_name name) l).
Proof.
  apply (sort_sorted (by_name name)); unfold by_name.
  - intros x y. apply str_lt_asym.
  - intros x y z. apply str_le_trans.
Qed.

Section sorted_selection.
Context `{SliceSort} {A : Type} (name : A -> string) (P : A -> Prop).
Implicit Types (l : list A) (x y : A).

Let sorted l := sort_Slice (by_name name) l.

Lemma sorted_split l x :
  NoDup (name <$> l) -> x ∈ l -> exists l1 l2, sorted l = l1 ++ x :: l2.
Proof. intros _ Hx. apply list_elem_of_split. unfold sorted. by rewrite sort_perm. Qed.

Lemma sorted_before l l1 x l2 y :
  NoDup (name <$> l) -> sorted l = l1 ++ x :: l2 ->
  (y ∈ l1 -> str_lt (name y) (name x) = true) /\ (y ∈ l2 -> str_lt (name x) (name y) = true).
Proof.
  intros Hnd Hl. pose proof (sorted_by_name name l) as Hs. fold (sorted l) in Hs. rewrite Hl in Hs.
  assert (Hnd' : NoDup (name <$> (l1 ++ x :: l2))).
  { rewrite <- Hl. unfold sorted. by rewrite sort_perm. }
  rewrite fmap_app, fmap_cons in Hnd'. apply NoDup_app in Hnd' as (_ & H1 & [H2 _]%NoDup_cons).
  assert (Hlt : forall a b, str_lt b a = false -> a ≠ b -> str_lt a b = true).
  { intros a b Hab Hne. destruct (str_lt a b) eqn:Hc; [done|]. by destruct Hne; apply str_lt_total. }
  split; intros Hy; apply Hlt.
  - exact (StronglySorted_app_1_elem_of _ _ _ _ _ Hs Hy ltac:(by left)).
  - intros Heq. apply (H1 (name y)); [by apply list_elem_of_fmap_2|rewrite Heq; by left].
  - apply StronglySorted_app_1_r, StronglySorted_cons in Hs as [Hf _].
    rewrite Forall_forall in Hf. by apply Hf.
  - intros Heq. apply H2. rewrite Heq. by apply list_elem_of_fmap_2.
Qed.

(** The first element with [P] in sorted order is the one with the least name. *)
Lemma first_by_name l x :
  NoDup (name <$> l) ->
  (exists l1 l2, sorted l = l1 ++ x :: l2 /\ P x /\ forall y, y ∈ l1 -> ¬ P y) ↔
  x ∈ l /\ P x /\ forall y, y ∈ l -> P y -> y = x \/ str_lt (name x) (name y) = true.
Proof.
  intros Hnd. split.
  - intros (l1 & l2 & Hl & Hx & Hl1).
    assert (Hin : forall y, y ∈ l ↔ y ∈ l1 ++ x :: l2).
    { intros y. rewrite <- Hl. unfold sorted. by rewrite sort_perm. }
    split_and!; [rewrite Hin; set_solver|done|]. intros y Hy HP. apply Hin in Hy.
    apply elem_of_app in Hy as [Hy|[->|Hy]%elem_of_cons]; [by destruct (Hl1 y)|by left|right].
    by apply (sorted_before _ _ _ _ y Hnd Hl).
  - intros (Hx & HP & Hmin). destruct (sorted_split l x Hnd Hx) as (l1 & l2 & Hl).
    exists l1, l2. split_and!; [done..|]. intros y Hy HPy.
    destruct (sorted_before _ _ _ _ y Hnd Hl) as [Hlt _]. specialize (Hlt Hy).
    destruct (Hmin y) as [->|Hgt]; [|done| |].
    + rewrite <- (sort_perm (by_name name) l). fold (sorted l). rewrite Hl. set_solver.
    + rewrite (str_lt_asym _ _ Hlt) in Hlt. done.
    + by rewrite (str_lt_asym _ _ Hlt) in Hgt.
Qed.

(** The last one is the one with the greatest name. *)
Lemma last_by_name l x :
  NoDup (name <$> l) ->
  (exists l1 l2, sorted l = l1 ++ x :: l2 /\ P x /\ forall y, y ∈ l2 -> ¬ P y) ↔
  x ∈ l /\ P x /\ forall y, y ∈ l -> P y -> y = x \/ str_lt (name y) (name x) = true.
Proof.
  intros Hnd. split.
  - intros (l1 & l2 & Hl & Hx & Hl2).
    assert (Hin : forall y, y ∈ l ↔ y ∈ l1 ++ x :: l2).
    { intros y. rewrite <- Hl. unfold sorted. by rewrite sort_perm. }
    split_and!; [rewrite Hin; set_solver|done|]. intros y Hy HP. apply Hin in Hy.
    apply elem_of_app in Hy as [Hy|[->|Hy]%elem_of_cons]; [right|by left|by destruct (Hl2 y)].
    by apply (sorted_before _ _ _ _ y Hnd Hl).
  - intros (Hx & HP & Hmax). destruct (sorted_split l x Hnd Hx) as (l1 & l2 & Hl).
    exists l1, l2. split_and!; [done..|]. intros y Hy HPy.
    destruct (sorted_before _ _ _ _ y Hnd Hl) as [_ Hlt]. specialize (Hlt Hy).
    destruct (Hmax y) as [->|Hgt]; [|done| |].
    + rewrite <- (sort_perm (by_name name) l). fold (sorted l). rewrite Hl. set_solver.
    + rewrite (str_lt_asym _ _ Hlt) in Hlt. done.
    + by rewrite (str_lt_asym _ _ Hlt) in Hgt.
Qed.
End sorted_selection.

(** ** Facts *)

(** The characters of a string avoid [c]. *)
Fixpoint avoids (c : Ascii.ascii) (s : string) : Prop :=
  match s with
  | EmptyString => True
  | String c' s' => c' ≠ c /\ avoids c s'
  end.

Lemma Split_cons_line line sep s :
  avoids sep line -> Split (line +:+ String sep s) sep = line :: Split s sep.
Proof.
  induction line as [|c line IH]; simpl; intros Ha.
  - by rewrite bool_decide_true.
  - destruct Ha as [Hc Ha]. rewrite bool_decide_false by done. by rewrite (IH Ha).
Qed.

Lemma str_app_assoc (a b c : string) : (a +:+ b) +:+ c = a +:+ (b +:+ c).
Proof. induction a as [|x a IH]; [done|]. exact (f_equal (String x) IH). Qed.

Lemma HasPrefix_nil s : HasPrefix s "" = true.
Proof. by destruct s. Qed.

Lemma HasPrefix_cons a s b t :
  HasPrefix (String a s) (String b t) = bool_decide (b = a) && HasPrefix s t.
Proof.
  unfold HasPrefix. cbn [String.prefix]. destruct (ascii_dec b a) as [Heq|Hne].
  - by rewrite bool_decide_true.
  - by rewrite bool_decide_false.
Qed.

Lemma filepath_Base_nonempty p : filepath_Base p ≠ "".
Proof.
  unfold filepath_Base. case_bool_decide; [done|].
  destruct (rev _) as [|b l] eqn:Hr; [done|]. intros ->.
  assert (Hin : In "" (rev (filter (fun e => e ≠ "") (Split p slash)))) by (rewrite Hr; by left).
  apply in_rev, list_elem_of_In, list_elem_of_filter in Hin as [Hne _]. done.
Qed.

Lemma map_chars_length f s : String.length (map_chars f s) = String.length s.
Proof. induction s; simpl; auto. Qed.

Example join_sysfs : filepath_Join ["/sys/bus/pci/devices"; "0000:01:00.1"; "driver"]
  = "/sys/bus/pci/devices/0000:01:00.1/driver".
Proof. reflexivity. Qed.
Example join_dots : filepath_Join ["/a/b"; "../c/./"; ""] = "/a/c".
Proof. reflexivity. Qed.
Example base_link : filepath_Base "../../../bus/pci/drivers/vfio-pci" = "vfio-pci".
Proof. reflexivity. Qed.
Example atoi_vf : Atoi "12" = Ok 12%Z.
Proof. reflexivity. Qed.
Example atoi_neg : Atoi "-1" = Ok (-1)%Z.
Proof. reflexivity. Qed.
Example atoi_bad : is_ok (Atoi "1x") = false /\ is_ok (Atoi "9223372036854775808") = false.
Proof. split; reflexivity. Qed.
Example dir_group : filepath_Dir "/sys/kernel/iommu_groups/7" = "/sys/kernel/iommu_groups".
Proof. reflexivity. Qed.
Example parse_class : ParseInt "02" 16 = Ok 2%Z /\ is_ok (ParseInt "0x02" 16) = false.
Proof. split; reflexivity. Qed.
Example parse_signed : ParseInt "-1" 10 = Ok (-1)%Z /\ ParseInt "fF" 16 = Ok 255%Z.
Proof. split; reflexivity. Qed.
