(* ===== verification/Consts.v ===== *)
(** * Constants (pkg/consts/consts.go) *)

From S2P Require Import Prelude GoLib.

Definition GroupName : string := "sriovnetwork.k8snetworkplumbingwg.io".
Definition DriverName : string := "sriovnetwork.k8snetworkplumbingwg.io".
Definition DriverPluginCheckpointFile : string := "checkpoint.json".
Definition MultusAttributePrefix : string := "k8s.cni.cncf.io".

(** [deviceattribute.StandardDeviceAttributePrefix] of Kubernetes, whose value
    the README and the tests spell out. *)
Definition StandardDeviceAttributePrefix : string := "resource.kubernetes.io/".

Definition AttributePciAddress : string := DriverName +:+ "/pciAddress".
Definition AttributePFName : string := DriverName +:+ "/PFName".
Definition AttributeEswitchMode : string := DriverName +:+ "/EswitchMode".
Definition AttributeVendorID : string := DriverName +:+ "/vendor".
Definition AttributeDeviceID : string := DriverName +:+ "/deviceID".
Definition AttributePFDeviceID : string := DriverName +:+ "/pfDeviceID".
Definition AttributeVFID : string := DriverName +:+ "/vfID".
Definition AttributeResourceName : string := DriverName +:+ "/resourceName".
Definition AttributeLinkType : string := DriverName +:+ "/linkType".
Definition AttributeRDMACapable : string := DriverName +:+ "/rdmaCapable".
Definition AttributeInterfaceName : string := DriverName +:+ "/interfaceName".
Definition AttributeMultusDeviceID : string := MultusAttributePrefix +:+ "/deviceID".
Definition AttributeMultusResourceName : string := MultusAttributePrefix +:+ "/resourceName".
Definition AttributeStandardPciAddress : string := StandardDeviceAttributePrefix +:+ "pciBusID".
Definition AttributePfPciAddress : string := DriverName +:+ "/pfPciAddress".
Definition DraNetCompatPrefix : string := "dra.net".
Definition AttributeNUMANode : string := DraNetCompatPrefix +:+ "/numaNode".
Definition AttributePCIeRoot : string := StandardDeviceAttributePrefix +:+ "pcieRoot".

Definition NetClass : Z := 2.
Definition SysBusPci : string := "/sys/bus/pci/devices".
Definition EswitchModeLegacy : string := "legacy".
Definition EswitchModeSwitchdev : string := "switchdev".
Definition LinkTypeEth : string := "eth".
Definition LinkTypeEthernet : string := "ethernet".
Definition LinkTypeIB : string := "ib".
Definition LinkTypeInfiniband : string := "infiniband".
Definition LinkTypeUnknown : string := "unknown".

(** A Go map used as a set: a key is a member when it maps to [true]. *)
Definition has_key (m : gmap string bool) (k : string) : bool := default false (m !! k).

(** The attribute keys discovery fills in; policies must not override them.  The
    Go value is a map literal from these keys to [true], only ever read. *)
Definition ReservedAttributes : list string :=
  [AttributeVendorID; AttributeDeviceID; AttributePFDeviceID; AttributePciAddress;
   AttributeMultusDeviceID; AttributePFName; AttributeEswitchMode; AttributeVFID;
   AttributePCIeRoot; AttributePfPciAddress; AttributeStandardPciAddress;
   AttributeLinkType; AttributeRDMACapable; AttributeNUMANode].

(** [consts.ReservedAttributes[key]]. *)
Definition reserved (key : string) : bool := existsb (String.eqb key) ReservedAttributes.

Definition ConfigurationModeStandalone : string := "STANDALONE".
Definition ConfigurationModeMultus : string := "MULTUS".

(** [wait.Backoff]; durations in nanoseconds, the float factors in percent. *)
Record Backoff : Type := mkBackoff {
  Duration : Z;
  FactorPercent : Z;
  JitterPercent : Z;
  Steps : Z;
  Cap : Z
}.

Definition DefaultBackoff : Backoff :=
  {| Duration := 100000000; FactorPercent := 200; JitterPercent := 10; Steps := 5;
     Cap := 2000000000 |}.

(** Proofs only use that [reserved] is some test on keys; concrete runs compute
    it with [vm_compute]. *)
#[global] Opaque reserved.
