(* ===== verification/K8sTypes.v ===== *)
(** * Kubernetes API objects the driver reads and writes

    The fields of the resource.k8s.io/v1 and core types that the driver touches;
    they are data of the API, with no behaviour of their own. *)

From S2P Require Import Prelude GoLib.

(** [resourceapi.DeviceAttribute]: four optional values. *)
Record DeviceAttribute : Type := mkAttr {
  attr_Int : option Z;
  attr_Bool : option bool;
  attr_String : option string;
  attr_Version : option string
}.

#[export] Instance DeviceAttribute_eq_dec : EqDecision DeviceAttribute.
Proof. solve_decision. Defined.

Definition StringAttr (s : string) : DeviceAttribute := mkAttr None None (Some s) None.
Definition IntAttr (z : Z) : DeviceAttribute := mkAttr (Some z) None None None.
Definition BoolAttr (b : bool) : DeviceAttribute := mkAttr None (Some b) None None.

(** [resourceapi.Device]; a nil attribute map behaves as the empty one in every
    use the driver makes of it. *)
Record Device : Type := mkDevice {
  dev_Name : string;
  dev_Attributes : gmap string DeviceAttribute
}.

#[export] Instance Device_eq_dec : EqDecision Device.
Proof. solve_decision. Defined.

(** [types.AllocatableDevices]. *)
Abbreviation AllocatableDevices := (gmap string Device).

(** [resourceapi.NetworkDeviceData]. *)
Record NetworkDeviceData : Type := mkNetworkData {
  nd_InterfaceName : string;
  nd_IPs : list string;
  nd_HardwareAddress : string
}.

#[export] Instance NetworkDeviceData_eq_dec : EqDecision NetworkDeviceData.
Proof. solve_decision. Defined.

(** [resourceapi.AllocatedDeviceStatus]. *)
Record AllocatedDeviceStatus : Type := mkDeviceStatus {
  ads_Driver : string;
  ads_Pool : string;
  ads_Device : string;
  ads_ShareID : option string;
  ads_Conditions : list string;
  ads_Data : option string;
  ads_NetworkData : option NetworkDeviceData
}.

#[export] Instance AllocatedDeviceStatus_eq_dec : EqDecision AllocatedDeviceStatus.
Proof. solve_decision. Defined.

(** [resourceapi.OpaqueDeviceConfiguration] and
    [resourceapi.DeviceAllocationConfiguration]. *)
Record OpaqueDeviceConfiguration : Type := mkOpaque {
  opq_Driver : string;
  opq_Parameters : string
}.

Record DeviceAllocationConfiguration : Type := mkAllocConfig {
  dac_Source : string;
  dac_Requests : list string;
  dac_Opaque : option OpaqueDeviceConfiguration
}.

Definition AllocationConfigSourceClass : string := "FromClass".
Definition AllocationConfigSourceClaim : string := "FromClaim".

(** [resourceapi.DeviceRequestAllocationResult]. *)
Record AllocationResult : Type := mkAllocResult {
  res_Request : string;
  res_Driver : string;
  res_Pool : string;
  res_Device : string;
  res_ShareID : option string
}.

(** [resourceapi.AllocationResult.Devices]. *)
Record DeviceAllocation : Type := mkAllocation {
  alloc_Results : list AllocationResult;
  alloc_Config : list DeviceAllocationConfiguration
}.

(** [resourceapi.ResourceClaim]: [claim_ReservedFor] lists the UIDs of
    [status.reservedFor], [claim_Allocation] is [status.allocation.devices]. *)
Record ResourceClaim : Type := mkClaim {
  claim_Name : string;
  claim_Namespace : string;
  claim_UID : string;
  claim_ResourceVersion : string;
  claim_Allocation : option DeviceAllocation;
  claim_ReservedFor : list string;
  claim_Devices : list AllocatedDeviceStatus
}.

(** [claim.Status.Devices = ds]. *)
Definition set_claim_Devices (ds : list AllocatedDeviceStatus) (c : ResourceClaim)
  : ResourceClaim :=
  {| claim_Name := claim_Name c; claim_Namespace := claim_Namespace c;
     claim_UID := claim_UID c; claim_ResourceVersion := claim_ResourceVersion c;
     claim_Allocation := claim_Allocation c; claim_ReservedFor := claim_ReservedFor c;
     claim_Devices := ds |}.

(** [kubeletplugin.NamespacedObject]. *)
Record NamespacedObject : Type := mkNsObject {
  no_Namespace : string;
  no_Name : string;
  no_UID : string
}.

#[export] Instance NamespacedObject_eq_dec : EqDecision NamespacedObject.
Proof. solve_decision. Defined.

(** The predicates of the API machinery's errors package. *)
Class ApiErrors : Type := {
  IsInvalid : error -> bool;
  IsForbidden : error -> bool;
  IsNotFound : error -> bool;
  IsConflict : error -> bool;
  (** [apierrors.NewNotFound(resource, name)]. *)
  NewNotFound : string -> string -> error
}.
