(* ===== verification/VfConfigApi.v ===== *)
(** * The VfConfig API (pkg/api/virtualfunction/v1alpha1)

    The opaque configuration a claim or a device class carries for this driver,
    with its merge operation. *)

From S2P Require Import Prelude GoLib Consts.

Definition Version : string := "v1alpha1".
Definition VfConfigKind : string := "VfConfig".

Record VfConfig : Type := mkVfConfig {
  vf_APIVersion : string;
  vf_Kind : string;
  vf_Driver : string;
  vf_AddVhostMount : bool;
  vf_IfName : string;
  vf_NetAttachDefName : string;
  vf_NetAttachDefNamespace : string
}.

#[export] Instance VfConfig_eq_dec : EqDecision VfConfig.
Proof. solve_decision. Defined.

Definition DefaultVfConfig : VfConfig :=
  {| vf_APIVersion := GroupName +:+ "/" +:+ Version; vf_Kind := VfConfigKind; vf_Driver := "";
     vf_AddVhostMount := false; vf_IfName := ""; vf_NetAttachDefName := "";
     vf_NetAttachDefNamespace := "" |}.

(** [c.Override(other)]: the receiver after the call. *)
Definition Override (c other : VfConfig) : VfConfig :=
  let c := if decide (vf_Driver other = "") then c else
    mkVfConfig (vf_APIVersion c) (vf_Kind c) (vf_Driver other) (vf_AddVhostMount c) (vf_IfName c)
      (vf_NetAttachDefName c) (vf_NetAttachDefNamespace c) in
  let c := if decide (vf_IfName other = "") then c else
    mkVfConfig (vf_APIVersion c) (vf_Kind c) (vf_Driver c) (vf_AddVhostMount c) (vf_IfName other)
      (vf_NetAttachDefName c) (vf_NetAttachDefNamespace c) in
  if decide (vf_NetAttachDefName other = "") then c else
    mkVfConfig (vf_APIVersion c) (vf_Kind c) (vf_Driver c) (vf_AddVhostMount c) (vf_IfName c)
      (vf_NetAttachDefName other) (vf_NetAttachDefNamespace c).

(** [c.Normalize()] does nothing yet. *)
Definition Normalize (c : VfConfig) : VfConfig := c.

Definition Validate (c : VfConfig) : result unit :=
  if decide (vf_Driver c = "") then Err (errorf "no driver set" [])
  else if decide (vf_NetAttachDefName c = "") then Err (errorf "no net attach def name set" [])
  else Ok tt.

(** ** Facts *)

(** The value a field takes: the overriding one unless it is empty. *)
Definition pick (old new : string) : string := if decide (new = "") then old else new.

Lemma Override_fields c o :
  Override c o =
    mkVfConfig (vf_APIVersion c) (vf_Kind c) (pick (vf_Driver c) (vf_Driver o)) (vf_AddVhostMount c)
      (pick (vf_IfName c) (vf_IfName o)) (pick (vf_NetAttachDefName c) (vf_NetAttachDefName o))
      (vf_NetAttachDefNamespace c).
Proof. unfold Override, pick. destruct c. repeat case_decide; done. Qed.

Lemma pick_empty_r s : pick s "" = s.
Proof. done. Qed.

Lemma pick_assoc a b c : pick a (pick b c) = pick (pick a b) c.
Proof. unfold pick. repeat case_decide; congruence. Qed.

(** Overriding is an action: two overrides are one by the merged configuration. *)
Lemma Override_assoc a b c : Override (Override a b) c = Override a (Override b c).
Proof. rewrite !Override_fields. simpl. by rewrite !pick_assoc. Qed.

Lemma Override_AddVhostMount c o : vf_AddVhostMount (Override c o) = vf_AddVhostMount c.
Proof. by rewrite Override_fields. Qed.

Lemma Override_NetAttachDefNamespace c o :
  vf_NetAttachDefNamespace (Override c o) = vf_NetAttachDefNamespace c.
Proof. by rewrite Override_fields. Qed.

#[export] Hint Rewrite Override_AddVhostMount Override_NetAttachDefNamespace : gorw.

Lemma foldl_Override_AddVhostMount os c :
  vf_AddVhostMount (foldl Override c os) = vf_AddVhostMount c.
Proof. revert c; induction os as [|o os IH]; intros c; simpl; [done|]. by rewrite IH, Override_AddVhostMount. Qed.

Lemma foldl_Override_NetAttachDefNamespace os c :
  vf_NetAttachDefNamespace (foldl Override c os) = vf_NetAttachDefNamespace c.
Proof.
  revert c; induction os as [|o os IH]; intros c; simpl; [done|].
  by rewrite IH, Override_NetAttachDefNamespace.
Qed.

(** The last non-empty value of a field wins. *)
Lemma foldl_Override_Driver os c :
  vf_Driver (foldl Override c os) = foldl pick (vf_Driver c) (vf_Driver <$> os).
Proof.
  revert c; induction os as [|o os IH]; intros c; simpl; [done|].
  by rewrite IH, Override_fields.
Qed.
