(* ===== verification/OpaqueConfig.v ===== *)
(** * Opaque device configurations (pkg/devicestate/statehelpers.go)

    How the configurations attached to an allocated claim, by the device class
    and by the claim itself, are resolved to one [VfConfig] per request. *)

From S2P Require Import Prelude GoLib Consts K8sTypes VfConfigApi.

(** What [runtime.Decode] returns: the object is a [*VfConfig] or of another
    type registered in the scheme. *)
Inductive runtime_object : Type :=
  | ObjVfConfig (c : VfConfig)
  | ObjOther (kind : string).

(** The API machinery's decoder. *)
Class Decoder : Type := runtime_Decode : string -> result runtime_object.

Section resolve.
Context `{Decoder}.

(** First loop: split by source, in order; stop at an unknown source. *)
Fixpoint splitBySource (possible classConfigs claimConfigs : list DeviceAllocationConfiguration)
  : result (list DeviceAllocationConfiguration * list DeviceAllocationConfiguration) :=
  match possible with
  | [] => Ok (classConfigs, claimConfigs)
  | config :: rest =>
      if decide (dac_Source config = AllocationConfigSourceClass)
      then splitBySource rest (classConfigs ++ [config]) claimConfigs
      else if decide (dac_Source config = AllocationConfigSourceClaim)
      then splitBySource rest classConfigs (claimConfigs ++ [config])
      else Err (errorf "invalid config source: %v" [dac_Source config])
  end.

(** Innermost loop: override the entry of each request. *)
Definition overrideRequest (vfConfig : VfConfig)
    (resultConfigs : gmap string VfConfig) (request : string) : gmap string VfConfig :=
  let resultConfig := match resultConfigs !! request with
                      | Some c => c
                      | None => DefaultVfConfig
                      end in
  <[request := Override resultConfig vfConfig]> resultConfigs.

(** The requests a configuration is filed under: those it lists, or "" if it lists
    none. *)
Definition configRequests (config : DeviceAllocationConfiguration) : list string :=
  match dac_Requests config with [] => [""] | rs => rs end.

(** Second loop, over the candidates. *)
Fixpoint applyCandidates (candidates : list DeviceAllocationConfiguration)
    (resultConfigs : gmap string VfConfig) : result (gmap string VfConfig) :=
  match candidates with
  | [] => Ok resultConfigs
  | config :: rest =>
      match dac_Opaque config with
      | None => Err (errorf "only opaque parameters are supported by this driver" [])
      | Some opaque =>
          if decide (opq_Driver opaque ≠ DriverName) then applyCandidates rest resultConfigs
          else
            match runtime_Decode (opq_Parameters opaque) with
            | Err e => Err (errorw "error decoding config parameters: %w" [] e)
            | Ok (ObjOther _) => Err (errorf "decoded config is not a VfConfig" [])
            | Ok (ObjVfConfig vfConfig) =>
                applyCandidates rest
                  (foldl (overrideRequest vfConfig) resultConfigs (configRequests config))
            end
      end
  end.

Definition getMapOfOpaqueDeviceConfigForDevice
    (possibleConfigs : list DeviceAllocationConfiguration) : result (gmap string VfConfig) :=
  match splitBySource possibleConfigs [] [] with
  | Err e => Err e
  | Ok (classConfigs, claimConfigs) => applyCandidates (classConfigs ++ claimConfigs) ∅
  end.

(** The configuration of a request (prepareDevices of state.go): its own entry, else
    the entry "", else the default. *)
Definition configForRequest (resultsConfig : gmap string VfConfig) (request : string) : VfConfig :=
  match resultsConfig !! request with
  | Some config => config
  | None => match resultsConfig !! "" with
            | Some config => config
            | None => DefaultVfConfig
            end
  end.

(** ** Specification

    The configurations filed under one request, lowest precedence first: those of
    the class in list order, then those of the claim; each repeated as often as it
    lists the request. *)

Definition isSource (src : string) (config : DeviceAllocationConfiguration) : bool :=
  bool_decide (dac_Source config = src).

Definition candidates (possible : list DeviceAllocationConfiguration) :=
  List.filter (isSource AllocationConfigSourceClass) possible ++
  List.filter (isSource AllocationConfigSourceClaim) possible.

Definition decoded (config : DeviceAllocationConfiguration) : option VfConfig :=
  opaque ← dac_Opaque config;
  if decide (opq_Driver opaque = DriverName) then
    match runtime_Decode (opq_Parameters opaque) with
    | Ok (ObjVfConfig c) => Some c
    | _ => None
    end
  else None.

Definition contribution (request : string) (config : DeviceAllocationConfiguration)
  : list VfConfig :=
  match decoded config with
  | Some c => (fun _ => c) <$> List.filter (fun r => bool_decide (r = request)) (configRequests config)
  | None => []
  end.

Definition contributions (request : string) (cs : list DeviceAllocationConfiguration)
  : list VfConfig := cs ≫= contribution request.

(** A candidate the driver can use: for another driver, or decodable. *)
Definition acceptable (config : DeviceAllocationConfiguration) : bool :=
  match dac_Opaque config with
  | None => false
  | Some opaque =>
      if decide (opq_Driver opaque = DriverName) then
        match runtime_Decode (opq_Parameters opaque) with Ok (ObjVfConfig _) => true | _ => false end
      else true
  end.

Definition known_source (config : DeviceAllocationConfiguration) : bool :=
  isSource AllocationConfigSourceClass config || isSource AllocationConfigSourceClaim config.

(** The configurations that take effect for a request: those that list it; only if
    there are none, those that list no request. *)
Definition effective (request : string) (cs : list DeviceAllocationConfiguration) : list VfConfig :=
  match contributions request cs with
  | [] => contributions "" cs
  | own => own
  end.

(** [None] stands for the absent entry: overriding starts from the default. *)
Definition accumulate (old : option VfConfig) (cs : list VfConfig) : option VfConfig :=
  match cs with
  | [] => old
  | _ => Some (foldl Override (default DefaultVfConfig old) cs)
  end.
End resolve.

Section resolve_facts.
Context `{Decoder}.

Lemma isSource_spec src c : isSource src c = bool_decide (dac_Source c = src).
Proof. done. Qed.

Lemma sources_differ : AllocationConfigSourceClass ≠ AllocationConfigSourceClaim.
Proof. done. Qed.

Ltac by_source c :=
  pose proof sources_differ;
  unfold known_source in *; rewrite ?isSource_spec in *;
  repeat (case_decide || case_bool_decide); simpl in *; try (exfalso; congruence).

Lemma splitBySource_spec l cls clm :
  forallb known_source l = true ->
  splitBySource l cls clm =
    Ok (cls ++ List.filter (isSource AllocationConfigSourceClass) l,
        clm ++ List.filter (isSource AllocationConfigSourceClaim) l).
Proof.
  revert cls clm; induction l as [|c l IH]; intros cls clm; simpl; [by rewrite !app_nil_r|].
  intros [Hc Hl]%andb_true_iff. by_source c; rewrite IH by done; by rewrite <- ?app_assoc.
Qed.

Lemma splitBySource_ok l cls clm :
  is_ok (splitBySource l cls clm) = forallb known_source l.
Proof.
  revert cls clm; induction l as [|c l IH]; intros cls clm; simpl; [done|].
  by_source c; by rewrite ?IH.
Qed.

Lemma foldl_overrideRequest c rs m r :
  foldl (overrideRequest c) m rs !! r =
    accumulate (m !! r) ((fun _ => c) <$> List.filter (fun r' => bool_decide (r' = r)) rs).
Proof.
  revert m; induction rs as [|r' rs IH]; intros m; simpl; [done|].
  rewrite IH. unfold overrideRequest at 1. case_bool_decide as Heq.
  - subst. rewrite lookup_insert_eq. destruct (List.filter _ rs); by destruct (m !! r).
  - rewrite lookup_insert_ne by done. done.
Qed.

Lemma accumulate_app old cs ds :
  accumulate (accumulate old cs) ds = accumulate old (cs ++ ds).
Proof. destruct cs, ds; simpl; rewrite ?app_nil_r; [done..|]. by rewrite foldl_app. Qed.

Lemma applyCandidates_ok cs m : is_ok (applyCandidates cs m) = forallb acceptable cs.
Proof.
  revert m; induction cs as [|c cs IH]; intros m; simpl; [done|].
  unfold acceptable at 1. destruct (dac_Opaque c) as [o|]; [|done].
  repeat case_decide; try done. destruct (runtime_Decode _) as [[]|]; simpl; auto.
Qed.

Lemma applyCandidates_lookup cs m m' r :
  applyCandidates cs m = Ok m' -> m' !! r = accumulate (m !! r) (contributions r cs).
Proof.
  revert m; induction cs as [|c cs IH]; intros m; simpl; [by intros [= ->]|].
  unfold contributions. simpl. rewrite <- accumulate_app.
  unfold contribution, decoded at 1.
  destruct (dac_Opaque c) as [o|]; [|done]. simpl.
  destruct (decide (opq_Driver o = DriverName)) as [Hd|Hd];
    [rewrite decide_False by tauto|rewrite decide_True by done; apply IH].
  destruct (runtime_Decode _) as [[vc|]|]; [|done..].
  intros Hok%IH. by rewrite Hok, foldl_overrideRequest.
Qed.

Lemma forallb_candidates (f : DeviceAllocationConfiguration -> bool) l :
  forallb known_source l = true -> forallb f (candidates l) = forallb f l.
Proof.
  unfold candidates. rewrite forallb_app. induction l as [|c l IH]; simpl; [done|].
  intros [Hc Hl]%andb_true_iff. rewrite <- IH by done.
  by_source c; by destruct (f c); simpl; rewrite ?andb_false_r.
Qed.

Lemma resolve_ok_candidates l m :
  getMapOfOpaqueDeviceConfigForDevice l = Ok m ->
  applyCandidates (candidates l) ∅ = Ok m.
Proof.
  unfold getMapOfOpaqueDeviceConfigForDevice.
  destruct (forallb known_source l) eqn:Hk; [by rewrite splitBySource_spec|].
  pose proof (splitBySource_ok l [] []) as Hok. rewrite Hk in Hok.
  by destruct (splitBySource l [] []).
Qed.

Lemma contributions_default l m r c :
  getMapOfOpaqueDeviceConfigForDevice l = Ok m -> m !! r = Some c ->
  c = foldl Override DefaultVfConfig (contributions r (candidates l)).
Proof.
  intros Hok%resolve_ok_candidates Hr.
  rewrite (applyCandidates_lookup _ _ _ _ Hok), lookup_empty in Hr.
  unfold accumulate in Hr. destruct (contributions _ _); naive_solver.
Qed.

Lemma foldl_pick_app_nonempty a xs ys :
  foldl pick "" ys ≠ "" -> foldl pick a (xs ++ ys) = foldl pick "" ys.
Proof.
  rewrite foldl_app. generalize (foldl pick a xs). clear. intros b.
  induction ys as [|y ys IH] using rev_ind; [done|].
  rewrite !foldl_app. simpl. unfold pick at 1 3 5. by case_decide.
Qed.

Lemma resolved_entry l m r :
  getMapOfOpaqueDeviceConfigForDevice l = Ok m ->
  m !! r = match contributions r (candidates l) with
           | [] => None
           | cs => Some (foldl Override DefaultVfConfig cs)
           end.
Proof.
  intros Hok%resolve_ok_candidates.
  rewrite (applyCandidates_lookup _ _ _ _ Hok), lookup_empty. by destruct (contributions _ _).
Qed.

(** C12: When resolution succeeds, a request is prepared with the default configuration
    overridden by exactly the configurations that list it, or, if none lists it, by
    exactly those that list no request, each time those of the device class first and
    those of the claim after, each group in list order.  So a configuration that lists
    no request has no effect on a request that another one lists, although the comment
    in the code says that it applies to all requests of the claim.  The resolved map has
    an entry exactly for the requests that are listed, and "" if some configuration
    lists none. *)
Theorem resolve_correct l m :
  getMapOfOpaqueDeviceConfigForDevice l = Ok m ->
  (forall request, configForRequest m request =
     foldl Override DefaultVfConfig (effective request (candidates l))) /\
  forall r, is_Some (m !! r) ↔ contributions r (candidates l) ≠ [].
Proof.
  intros Hok. split.
  - intros request. unfold configForRequest, effective. rewrite !(resolved_entry l m _ Hok).
    destruct (contributions request _); [|done]. by destruct (contributions "" _).
  - intros r. rewrite (resolved_entry l m r Hok). destruct (contributions r _); [|naive_solver].
    by split; [intros [? ?]|].
Qed.

(** C37: Resolution succeeds exactly when every configuration comes from a known
    source and is opaque, and each one for this driver decodes to a VfConfig. *)
Theorem resolve_succeeds_iff l :
  is_ok (getMapOfOpaqueDeviceConfigForDevice l) =
    forallb (fun c => known_source c && acceptable c) l.
Proof.
  unfold getMapOfOpaqueDeviceConfigForDevice.
  assert (Hsplit : forallb (fun c => known_source c && acceptable c) l =
    forallb known_source l && forallb acceptable l).
  { induction l as [|c l IH]; simpl; [done|]. rewrite IH.
    by destruct (known_source c), (acceptable c), (forallb known_source l), (forallb acceptable l). }
  rewrite Hsplit. pose proof (splitBySource_ok l [] []) as Hok.
  destruct (forallb known_source l) eqn:Hk.
  - rewrite splitBySource_spec by done. simpl.
    rewrite applyCandidates_ok. by apply forallb_candidates.
  - by destruct (splitBySource l [] []).
Qed.

(** A driver set by a configuration of the claim takes precedence over every
    configuration of the device class: when some configuration of the claim for
    the request names a driver, the resolved driver is the one the claim's own
    configurations resolve to. *)
Lemma resolve_claim_precedence l m r c :
  getMapOfOpaqueDeviceConfigForDevice l = Ok m -> m !! r = Some c ->
  let own := contributions r (List.filter (isSource AllocationConfigSourceClaim) l) in
  vf_Driver (foldl Override DefaultVfConfig own) ≠ "" ->
  vf_Driver c = vf_Driver (foldl Override DefaultVfConfig own).
Proof.
  simpl. intros Hok Hr. rewrite (contributions_default _ _ _ _ Hok Hr).
  unfold contributions, candidates. rewrite bind_app, !foldl_Override_Driver, fmap_app.
  apply foldl_pick_app_nonempty.
Qed.

(** The addVhostMount and netAttachDefNamespace parameters of a VfConfig are
    lost on resolution: no resolved configuration has them, whatever the class
    and the claim say. *)
Lemma resolved_unset l m r c :
  getMapOfOpaqueDeviceConfigForDevice l = Ok m -> m !! r = Some c ->
  vf_AddVhostMount c = false /\ vf_NetAttachDefNamespace c = "".
Proof.
  intros Hok Hr. rewrite (contributions_default _ _ _ _ Hok Hr).
  by rewrite foldl_Override_AddVhostMount, foldl_Override_NetAttachDefNamespace.
Qed.
End resolve_facts.

(** ** Concrete runs *)
Module OpaqueConfigRuns.
Definition vfio : VfConfig := mkVfConfig "" "" "vfio-pci" true "net1" "sriov" "other-ns".
Definition kernel : VfConfig := mkVfConfig "" "" "iavf" false "" "" "".

(** A decoder that knows two documents. *)
Definition decoder : Decoder := fun raw =>
  if decide (raw = "vfio") then Ok (ObjVfConfig vfio)
  else if decide (raw = "kernel") then Ok (ObjVfConfig kernel)
  else Err (ErrExternal "decode" raw).

Definition configs : list DeviceAllocationConfiguration :=
  [ mkAllocConfig AllocationConfigSourceClaim ["vf"] (Some (mkOpaque DriverName "vfio"));
    mkAllocConfig AllocationConfigSourceClass ["vf"] (Some (mkOpaque DriverName "kernel"));
    mkAllocConfig AllocationConfigSourceClass [] (Some (mkOpaque "other.driver" "x")) ].

Definition resolved : gmap string VfConfig :=
  {[ "vf" := mkVfConfig (GroupName +:+ "/v1alpha1") "VfConfig" "vfio-pci" false "net1" "sriov" "" ]}.

Lemma resolve_correct_witness :
  @getMapOfOpaqueDeviceConfigForDevice decoder configs = Ok resolved /\
  configForRequest resolved "vf" = foldl Override DefaultVfConfig [kernel; vfio].
Proof.
  assert (Hok : @getMapOfOpaqueDeviceConfigForDevice decoder configs = Ok resolved)
    by reflexivity.
  split; [exact Hok|]. exact (proj1 (@resolve_correct decoder configs resolved Hok) "vf").
Defined.

(** The claim asks for vfio-pci without listing requests, the class for iavf on the
    request "vf": the request gets iavf, every other one vfio-pci. *)
Definition general : list DeviceAllocationConfiguration :=
  [ mkAllocConfig AllocationConfigSourceClaim [] (Some (mkOpaque DriverName "vfio"));
    mkAllocConfig AllocationConfigSourceClass ["vf"] (Some (mkOpaque DriverName "kernel")) ].

Example own_entry_hides_general : exists m,
  @getMapOfOpaqueDeviceConfigForDevice decoder general = Ok m /\
  vf_Driver (configForRequest m "vf") = "iavf" /\ vf_Driver (configForRequest m "other") = "vfio-pci".
Proof. eexists. split; [reflexivity|]. by split. Qed.

Lemma resolve_claim_precedence_witness :
  exists c, resolved !! "vf" = Some c /\ vf_Driver c = "vfio-pci".
Proof.
  eexists. split; [reflexivity|].
  exact (@resolve_claim_precedence decoder configs resolved "vf" _ eq_refl eq_refl
    ltac:(discriminate)).
Defined.
End OpaqueConfigRuns.
