(* ===== verification/ClaimStatus.v ===== *)
(** * Claim status entries and their retried update (pkg/types)

    [status.devices] of a ResourceClaim is shared by every driver that
    contributed a device.  claimstatus.go keeps this driver's entries in it without
    duplicate keys and without touching foreign entries; statusretry.go writes the
    list with retries on conflict. *)

From S2P Require Import Prelude GoLib Consts K8sTypes.

Record deviceStatusKey : Type := mkStatusKey {
  key_driver : string;
  key_pool : string;
  key_device : string;
  key_shareID : string
}.

#[export] Instance deviceStatusKey_eq_dec : EqDecision deviceStatusKey.
Proof. solve_decision. Defined.

Definition keyOf (status : AllocatedDeviceStatus) : deviceStatusKey :=
  {| key_driver := ads_Driver status; key_pool := ads_Pool status;
     key_device := ads_Device status; key_shareID := default "" (ads_ShareID status) |}.

(** Replace the first entry with the key of [status], or append it. *)
Fixpoint UpsertDeviceStatus (l : list AllocatedDeviceStatus) (status : AllocatedDeviceStatus)
  : list AllocatedDeviceStatus :=
  match l with
  | [] => [status]
  | s :: l' => if decide (keyOf s = keyOf status) then status :: l'
               else s :: UpsertDeviceStatus l' status
  end.

(** The two loops of the merge: carry over the foreign entries, then upsert
    this driver's desired ones. *)
Definition carryForeign (driverName : string) (merged : list AllocatedDeviceStatus)
    (status : AllocatedDeviceStatus) : list AllocatedDeviceStatus :=
  if decide (ads_Driver status = driverName) then merged else merged ++ [status].

Definition upsertOwn (driverName : string) (merged : list AllocatedDeviceStatus)
    (status : AllocatedDeviceStatus) : list AllocatedDeviceStatus :=
  if decide (ads_Driver status ≠ driverName) then merged else UpsertDeviceStatus merged status.

Definition MergeDeviceStatuses (latest desired : list AllocatedDeviceStatus)
    (driverName : string) : list AllocatedDeviceStatus :=
  foldl (upsertOwn driverName) (foldl (carryForeign driverName) [] latest) desired.

(** ** The list as a map from keys to entries *)

Fixpoint status_at (k : deviceStatusKey) (l : list AllocatedDeviceStatus)
  : option AllocatedDeviceStatus :=
  match l with
  | [] => None
  | s :: l' => if decide (keyOf s = k) then Some s else status_at k l'
  end.

(** The API server's rule for a list of type map: no key occurs twice. *)
Definition unique_keys (l : list AllocatedDeviceStatus) : Prop := NoDup (keyOf <$> l).

Definition foreign (driverName : string) (s : AllocatedDeviceStatus) : bool :=
  negb (bool_decide (ads_Driver s = driverName)).

(** The last entry of [l] with key [k]. *)
Definition last_status (k : deviceStatusKey) (l : list AllocatedDeviceStatus)
  : option AllocatedDeviceStatus := status_at k (rev l).

Section status_facts.
Implicit Types (l : list AllocatedDeviceStatus) (s : AllocatedDeviceStatus).

Lemma status_at_app k l1 l2 :
  status_at k (l1 ++ l2) = match status_at k l1 with Some s => Some s | None => status_at k l2 end.
Proof. induction l1 as [|s l1 IH]; simpl; [done|]. by case_decide. Qed.

Lemma status_at_key k l s : status_at k l = Some s -> keyOf s = k.
Proof. induction l as [|s' l IH]; simpl; [done|]. case_decide; [by intros [= <-]|done]. Qed.

Lemma status_at_None k l : status_at k l = None ↔ k ∉ keyOf <$> l.
Proof.
  induction l as [|s l IH]; simpl; [by split; [intros _; apply not_elem_of_nil|]|].
  rewrite not_elem_of_cons, <- IH. case_decide; naive_solver.
Qed.

Lemma upsert_keys l s :
  keyOf <$> UpsertDeviceStatus l s =
    if decide (keyOf s ∈ keyOf <$> l) then keyOf <$> l else (keyOf <$> l) ++ [keyOf s].
Proof.
  induction l as [|s' l IH]; simpl; [done|].
  destruct (decide (keyOf s' = keyOf s)) as [Hk|Hk]; csimpl.
  - rewrite decide_True; [by rewrite Hk|]. rewrite Hk. left.
  - rewrite IH. destruct (decide (keyOf s ∈ keyOf <$> l)) as [Hin|Hin].
    + rewrite decide_True; [done|]. by right.
    + rewrite decide_False; [done|]. rewrite not_elem_of_cons. naive_solver.
Qed.

Lemma upsert_unique_keys l s : unique_keys l -> unique_keys (UpsertDeviceStatus l s).
Proof.
  unfold unique_keys. rewrite upsert_keys. case_decide as Hin; [done|].
  intros Hnd. apply NoDup_app. split_and!; [done| |apply NoDup_singleton].
  intros k Hk ->%list_elem_of_singleton. done.
Qed.

Lemma status_at_upsert k l s :
  status_at k (UpsertDeviceStatus l s) = if decide (keyOf s = k) then Some s else status_at k l.
Proof.
  induction l as [|s' l IH]; simpl; [done|].
  repeat (case_decide; simpl); try done; try congruence; rewrite IH; by case_decide.
Qed.

Lemma filter_upsert_other (f : AllocatedDeviceStatus -> bool) l s :
  (forall s', keyOf s' = keyOf s -> f s' = false) ->
  List.filter f (UpsertDeviceStatus l s) = List.filter f l.
Proof.
  intros Hf. induction l as [|s' l IH]; simpl; [by rewrite Hf|].
  case_decide as Hk; simpl; [by rewrite !Hf|]. by rewrite IH.
Qed.

Lemma carryForeign_filter d l acc :
  foldl (carryForeign d) acc l = acc ++ List.filter (foreign d) l.
Proof.
  revert acc; induction l as [|s l IH]; intros acc; simpl; [by rewrite app_nil_r|].
  rewrite IH. unfold carryForeign, foreign. case_decide.
  - by rewrite bool_decide_true.
  - rewrite bool_decide_false by done. simpl. by rewrite <- app_assoc.
Qed.

Lemma foreign_key d s s' : keyOf s = keyOf s' -> foreign d s = foreign d s'.
Proof. unfold foreign, keyOf. by intros [= -> _ _ _]. Qed.

Lemma merge_foreign d l acc :
  List.filter (foreign d) (foldl (upsertOwn d) acc l) = List.filter (foreign d) acc.
Proof.
  revert acc; induction l as [|s l IH]; intros acc; simpl; [done|].
  rewrite IH. unfold upsertOwn. case_decide as Hd; [done|]. apply filter_upsert_other.
  intros s' Hk. rewrite (foreign_key _ _ _ Hk). unfold foreign.
  by rewrite bool_decide_true.
Qed.

Lemma foldl_upsert_unique d l acc : unique_keys acc -> unique_keys (foldl (upsertOwn d) acc l).
Proof.
  revert acc; induction l as [|s l IH]; intros acc Hacc; simpl; [done|]. apply IH.
  unfold upsertOwn. case_decide; auto using upsert_unique_keys.
Qed.

Lemma unique_keys_filter (f : AllocatedDeviceStatus -> bool) l :
  unique_keys l -> unique_keys (List.filter f l).
Proof.
  unfold unique_keys. induction l as [|s l IH]; simpl; [done|].
  intros [Hs Hl]%NoDup_cons. destruct (f s); simpl; [|auto]. apply NoDup_cons. split; [|auto].
  contradict Hs. apply list_elem_of_fmap in Hs as (s' & -> & Hin).
  apply list_elem_of_fmap. exists s'. split; [done|].
  apply list_elem_of_In in Hin. apply filter_In in Hin as [Hin _]. by apply list_elem_of_In.
Qed.

(** The entry of a key of this driver after the upserts: the last desired one. *)
Lemma status_at_foldl_upsert d l acc k :
  status_at k (foldl (upsertOwn d) acc l) =
    if decide (key_driver k = d) then
      match last_status k l with Some s => Some s | None => status_at k acc end
    else status_at k acc.
Proof.
  induction l as [|s l IH] using rev_ind; simpl; [by case_decide|].
  rewrite foldl_app. simpl. unfold upsertOwn at 1, last_status. rewrite rev_app_distr. simpl.
  fold (last_status k l). destruct (decide (ads_Driver s = d)) as [Hs|Hs].
  - rewrite decide_False by tauto. rewrite status_at_upsert, IH.
    destruct (decide (keyOf s = k)) as [<-|Hk]; [|done]. by rewrite decide_True.
  - rewrite decide_True by done. rewrite IH. destruct (decide (keyOf s = k)) as [<-|Hk]; [|done].
    by rewrite !decide_False.
Qed.

Lemma status_at_filter_own d l k :
  key_driver k = d -> status_at k (List.filter (foreign d) l) = None.
Proof.
  intros Hk. apply status_at_None. intros (s & -> & Hin)%list_elem_of_fmap.
  apply list_elem_of_In, filter_In in Hin as [_ Hf]. unfold foreign in Hf.
  by rewrite bool_decide_true in Hf.
Qed.

Lemma status_at_filter_foreign d l k :
  key_driver k ≠ d -> status_at k (List.filter (foreign d) l) = status_at k l.
Proof.
  intros Hk. induction l as [|s l IH]; simpl; [done|]. unfold foreign at 1.
  case_bool_decide as Hd; simpl; [|by rewrite IH].
  rewrite decide_False; [done|]. by intros <-.
Qed.

Lemma merge_unfold latest desired d :
  MergeDeviceStatuses latest desired d =
    foldl (upsertOwn d) (List.filter (foreign d) latest) desired.
Proof. unfold MergeDeviceStatuses. by rewrite carryForeign_filter. Qed.

(** Folding the same entries in again changes nothing. *)
Lemma upsert_present l s : unique_keys l -> status_at (keyOf s) l = Some s -> UpsertDeviceStatus l s = l.
Proof.
  induction l as [|s' l IH]; simpl; [done|]. intros [_ Hl]%NoDup_cons.
  case_decide; [by intros [= ->]|]. intros Hs. by rewrite IH.
Qed.
End status_facts.

(** ** The abstract specification

    Read as a map from keys to entries, the merge keeps the latest list at the
    keys of other drivers and takes the (last) desired entry at this driver's. *)
Definition merge_spec (latest desired : list AllocatedDeviceStatus) (driverName : string)
    (k : deviceStatusKey) : option AllocatedDeviceStatus :=
  if decide (key_driver k = driverName) then last_status k desired else status_at k latest.

Section status_properties.
Implicit Types (l latest desired : list AllocatedDeviceStatus) (s : AllocatedDeviceStatus).

(** C11: MergeDeviceStatuses refines its specification on every key: this driver's
    keys hold exactly the last desired entry (none where nothing is desired, so
    stale own entries go), foreign keys hold exactly what the latest list holds. *)
Theorem merge_refines_spec latest desired d k :
  status_at k (MergeDeviceStatuses latest desired d) = merge_spec latest desired d k.
Proof.
  rewrite merge_unfold, status_at_foldl_upsert. unfold merge_spec. case_decide as Hk.
  - rewrite status_at_filter_own by done. by destruct (last_status k desired).
  - by apply status_at_filter_foreign.
Qed.

(** C17: The merge carries every foreign entry over untouched, in its original order
    and with its multiplicity, and never introduces a key twice: if the foreign
    entries of the latest list have distinct keys, so has the whole result, whatever
    this driver wants written. *)
Theorem merge_preserves_foreign latest desired d :
  List.filter (foreign d) (MergeDeviceStatuses latest desired d) = List.filter (foreign d) latest
  /\ (unique_keys (List.filter (foreign d) latest) ->
      unique_keys (MergeDeviceStatuses latest desired d)).
Proof.
  rewrite merge_unfold, merge_foreign. split; [|apply foldl_upsert_unique].
  induction latest as [|s l IH]; simpl; [done|].
  destruct (foreign d s) eqn:Hs; simpl; rewrite ?Hs; by rewrite IH.
Qed.

(** UpsertDeviceStatus is map insertion on lists with distinct keys: it keeps the
    keys distinct, puts the entry at its key, leaves every other key as it was, and
    grows the list by one entry exactly when the key is new. *)
Lemma upsert_refines_insert l s :
  unique_keys l ->
  unique_keys (UpsertDeviceStatus l s)
  /\ (forall k, status_at k (UpsertDeviceStatus l s) =
        if decide (keyOf s = k) then Some s else status_at k l)
  /\ length (UpsertDeviceStatus l s) =
       length l + (if decide (status_at (keyOf s) l = None) then 1 else 0).
Proof.
  intros Hl. split_and!.
  - by apply upsert_unique_keys.
  - intros k. apply status_at_upsert.
  - rewrite <- !(length_fmap keyOf), upsert_keys.
    destruct (decide (keyOf s ∈ keyOf <$> l)) as [Hin|Hin].
    + rewrite decide_False by (rewrite status_at_None; tauto). lia.
    + rewrite decide_True by by rewrite status_at_None. rewrite length_app. done.
Qed.
End status_properties.

(** ** Writing the status with retries (statusretry.go) *)

Definition IsPermanentStatusUpdateError `{ApiErrors} (err : error) : bool :=
  IsInvalid err || IsForbidden err || IsNotFound err.

(** The interface of the same name: the calls of a claim client. *)
Record ResourceClaimStatusClient (E : Type) : Type := {
  UpdateStatus : ResourceClaim -> M E (result ResourceClaim);
  GetClaim : string -> M E (result ResourceClaim)
}.
Arguments UpdateStatus {E}.
Arguments GetClaim {E}.

(** What [wait.ExponentialBackoffWithContext] documents: the condition is tried at
    most [Steps] times; the loop ends when it reports done or an error, when the
    steps are used up, or when the context is cancelled; between two attempts time
    passes, and the world may change.  [backoff_run cond n s e tr s' r e'] is one such
    run, the variables the condition closes over going from [s] to [s']; [tr] has the
    variables and the world that each attempt starts with. *)
Inductive backoff_run {E V} (cond : V -> M E (V * result bool))
  : nat -> V -> E -> list (V * E) -> V -> result unit -> E -> Prop :=
  | backoff_exhausted s e err : backoff_run cond 0 s e [] s (Err err) e
  | backoff_cancelled n s e e' err : backoff_run cond n s e [] s (Err err) e'
  | backoff_done n s e s' e' :
      cond s e = (Ret (s', Ok true), e') -> backoff_run cond (S n) s e [(s, e)] s' (Ok tt) e'
  | backoff_fail n s e s' err e' :
      cond s e = (Ret (s', Err err), e') -> backoff_run cond (S n) s e [(s, e)] s' (Err err) e'
  | backoff_retry n s e s' e1 e2 tr s'' r e' :
      cond s e = (Ret (s', Ok false), e1) ->
      backoff_run cond n s' e2 tr s'' r e' -> backoff_run cond (S n) s e ((s, e) :: tr) s'' r e'.

(** The wait package and the context it is given. *)
Class WaitLib (E : Type) : Type := {
  ctx_Err : E -> option error;
  ExponentialBackoffWithContext :
    forall {V}, Backoff -> (V -> M E (V * result bool)) -> V -> M E (V * result unit)
}.

Class WaitLaws (E : Type) `{WaitLib E} : Prop :=
  backoff_follows_run : forall V (backoff : Backoff) (cond : V -> M E (V * result bool)) s e s' r e',
    ExponentialBackoffWithContext backoff cond s e = (Ret (s', r), e') ->
    exists tr, backoff_run cond (Z.to_nat (Steps backoff)) s e tr s' r e'.

(** The variables the retried closure assigns. *)
Record retry_vars : Type := mkRetryVars {
  rv_claim : ResourceClaim;
  rv_lastErr : option error
}.

Section update_status.
Context {E : Type} `{ApiErrors} `{WaitLib E}.

Definition retryCondition (claims : ResourceClaimStatusClient E)
    (desired : list AllocatedDeviceStatus) (driverName : string) (v : retry_vars)
  : M E (retry_vars * result bool) :=
  let claim := rv_claim v in
  updated ← UpdateStatus claims claim;
  match updated with
  | Ok _ => mret (v, Ok true)
  | Err updateErr =>
      if IsConflict updateErr then
        fetched ← GetClaim claims (claim_Name claim);
        match fetched with
        | Err fetchErr =>
            let v := mkRetryVars claim (Some fetchErr) in
            if IsPermanentStatusUpdateError fetchErr then mret (v, Err fetchErr)
            else mret (v, Ok false)
        | Ok freshClaim =>
            if decide (claim_UID freshClaim ≠ claim_UID claim) then
              let lastErr := errorw "claim %s was replaced (UID %s is now %s): %w"
                [claim_Name claim; claim_UID claim; claim_UID freshClaim]
                (NewNotFound "resourceclaims" (claim_Name claim)) in
              mret (mkRetryVars claim (Some lastErr), Err lastErr)
            else
              let freshClaim := set_claim_Devices
                (MergeDeviceStatuses (claim_Devices freshClaim) desired driverName) freshClaim in
              mret (mkRetryVars freshClaim (Some updateErr), Ok false)
        end
      else
        let v := mkRetryVars claim (Some updateErr) in
        if IsPermanentStatusUpdateError updateErr then mret (v, Err updateErr)
        else mret (v, Ok false)
  end.

Definition UpdateClaimStatusWithRetry (claims : ResourceClaimStatusClient E)
    (claim : ResourceClaim) (driverName : string) (backoff : Backoff) : M E (result unit) :=
  let desired := claim_Devices claim in
  '(v, err) ← ExponentialBackoffWithContext backoff
                (retryCondition claims desired driverName) (mkRetryVars claim None);
  cancelled ← gets ctx_Err;
  match err, rv_lastErr v, cancelled with
  | Err _, Some lastErr, None => mret (Err lastErr)
  | _, _, _ => mret err
  end.

(** A claim this loop may send: the caller's own, or a fetched one with this
    driver's entries merged in. *)
Definition sendable (claims : ResourceClaimStatusClient E) (claim : ResourceClaim)
    (driverName : string) (c : ResourceClaim) : Prop :=
  c = claim \/
  exists name latest e1 e2, GetClaim claims name e1 = (Ret (Ok latest), e2)
    /\ claim_UID latest = claim_UID claim
    /\ c = set_claim_Devices
         (MergeDeviceStatuses (claim_Devices latest) (claim_Devices claim) driverName) latest.
End update_status.

Section update_status_facts.
Context {E : Type} `{ApiErrors} `{WaitLaws E}.
Variable claims : ResourceClaimStatusClient E.

(** The last error that the API gives to an attempt that starts with [claim] in the
    world [e]: of the update, or, after a conflict, of the fetch, or that the claim was
    replaced. *)
Definition attemptError (claim : ResourceClaim) (e : E) : option error :=
  match UpdateStatus claims claim e with
  | (Ret (Err updateErr), e1) =>
      if IsConflict updateErr then
        match GetClaim claims (claim_Name claim) e1 with
        | (Ret (Err fetchErr), _) => Some fetchErr
        | (Ret (Ok fresh), _) =>
            if decide (claim_UID fresh = claim_UID claim) then Some updateErr
            else Some (errorw "claim %s was replaced (UID %s is now %s): %w"
                         [claim_Name claim; claim_UID claim; claim_UID fresh]
                         (NewNotFound "resourceclaims" (claim_Name claim)))
        | (Panic _, _) => None
        end
      else Some updateErr
  | _ => None
  end.

Definition vars_ok (claim : ResourceClaim) (driverName : string) (v : retry_vars) : Prop :=
  sendable claims claim driverName (rv_claim v) /\ claim_UID (rv_claim v) = claim_UID claim.

Lemma retryCondition_ok claim d v e v' r e' :
  vars_ok claim d v ->
  retryCondition claims (claim_Devices claim) d v e = (Ret (v', r), e') ->
  vars_ok claim d v' /\
  match r with
  | Ok true => v' = v /\ exists c', UpdateStatus claims (rv_claim v) e = (Ret (Ok c'), e')
  | _ => is_Some (rv_lastErr v') /\ rv_lastErr v' = attemptError (rv_claim v) e
  end.
Proof.
  intros (Hs & Hu). unfold retryCondition, attemptError, mbind, M_bind, mret, M_ret.
  destruct (UpdateStatus claims (rv_claim v) e) as [[[c'|err]|] e1] eqn:Hupd; [|..|done].
  { intros [= <- <- <-]. by split; [|split; [|eexists]]. }
  destruct (IsConflict err).
  - destruct (GetClaim claims (claim_Name (rv_claim v)) e1) as [[[fresh|ferr]|] e2] eqn:Hget;
      [|..|done].
    + destruct (decide (claim_UID fresh ≠ _)) as [Huid|Huid]; intros [= <- <- <-].
      * rewrite decide_False by done. by split; [|split; [eexists|]].
      * rewrite decide_True by (by destruct (decide (claim_UID fresh = claim_UID (rv_claim v)))).
        split; [|by split; [eexists|]].
        assert (claim_UID fresh = claim_UID (rv_claim v)) as Heq
          by (by destruct (decide (claim_UID fresh = claim_UID (rv_claim v)))).
        split; simpl; [|congruence]. right.
        exists (claim_Name (rv_claim v)), fresh, e1, e2. by split_and!; [|congruence|].
    + destruct (IsPermanentStatusUpdateError ferr); intros [= <- <- <-]; by split; [|split; [eexists|]].
  - destruct (IsPermanentStatusUpdateError err); intros [= <- <- <-]; by split; [|split; [eexists|]].
Qed.

(** What a run of the loop leaves: the last attempt decides the variables, and every
    attempt sends a claim that it may send. *)
Lemma backoff_run_ok claim d n v e tr v' r e' :
  vars_ok claim d v ->
  backoff_run (retryCondition claims (claim_Devices claim) d) n v e tr v' r e' ->
  length tr ≤ n /\ Forall (fun a => vars_ok claim d a.1) tr /\ vars_ok claim d v' /\
  match r with
  | Ok _ => exists e1 c', UpdateStatus claims (rv_claim v') e1 = (Ret (Ok c'), e')
  | Err _ => match last tr with
             | None => v' = v
             | Some (u, e1) => is_Some (rv_lastErr v') /\ rv_lastErr v' = attemptError (rv_claim u) e1
             end
  end.
Proof.
  intros Hv Hrun. induction Hrun as [| |n v e v' e' Hc|n v e v' err e' Hc
    |n v e v1 e1 e2 tr v' r e' Hc Hrun IH].
  - by split_and!.
  - split_and!; simpl; [lia|done..].
  - apply retryCondition_ok in Hc as [? [-> [c' ?]]]; [|done]. split_and!; simpl; [lia|by constructor|done|by eexists _, _].
  - apply retryCondition_ok in Hc as [? ?]; [|done]. split_and!; simpl; [lia|by constructor|done..].
  - apply retryCondition_ok in Hc as [Hv1 Hlast]; [|done].
    destruct (IH Hv1) as (Hlen & Hall & Hv' & Hr). split_and!; simpl; [lia|by constructor|done|].
    destruct r; [done|]. rewrite last_cons. destruct (last tr) as [[u eu]|]; [done|by subst].
Qed.

(** The loop as the code starts it. *)
Definition update_loop (claim : ResourceClaim) (d : string) (backoff : Backoff) (e : E)
    (tr : list (retry_vars * E)) (v : retry_vars) (r : result unit) (e' : E) : Prop :=
  ExponentialBackoffWithContext backoff (retryCondition claims (claim_Devices claim) d)
    (mkRetryVars claim None) e = (Ret (v, r), e') /\
  backoff_run (retryCondition claims (claim_Devices claim) d) (Z.to_nat (Steps backoff))
    (mkRetryVars claim None) e tr v r e'.

Lemma update_run claim d backoff e r e' :
  UpdateClaimStatusWithRetry claims claim d backoff e = (Ret r, e') ->
  exists tr v r0, update_loop claim d backoff e tr v r0 e' /\
    r = match r0, rv_lastErr v, ctx_Err e' with
        | Err _, Some lastErr, None => Err lastErr
        | _, _, _ => r0
        end.
Proof.
  unfold UpdateClaimStatusWithRetry, update_loop, mbind, M_bind, mret, M_ret, gets.
  destruct (ExponentialBackoffWithContext _ _ _ _) as [[[v r0]|] e1] eqn:Hrun; [|done].
  apply backoff_follows_run in Hrun as Htr. destruct Htr as [tr Htr].
  intros Hr. exists tr, v, r0.
  destruct r0 as [[]|], (rv_lastErr v), (ctx_Err e1) eqn:Hctx; simpl in Hr; simplify_eq;
    rewrite ?Hctx; auto.
Qed.

Lemma start_vars_ok claim d : vars_ok claim d (mkRetryVars claim None).
Proof. by split; [left|]. Qed.

(** C24: A reported success means the status was written: the last call updated
    the claim, with either the caller's own list or, after a conflict, the list
    another driver left on the API server with only this driver's entries
    replaced, and on the same claim object (same UID). *)
Theorem update_success_written claim d backoff e e' :
  UpdateClaimStatusWithRetry claims claim d backoff e = (Ret (Ok tt), e') ->
  exists c c' e1, UpdateStatus claims c e1 = (Ret (Ok c'), e') /\
    sendable claims claim d c /\ claim_UID c = claim_UID claim.
Proof.
  intros (tr & v & r0 & [_ Hrun] & Hr)%update_run.
  apply (backoff_run_ok claim d) in Hrun as (_ & _ & [Hs Hu] & Hok); [|apply start_vars_ok].
  destruct r0 as [[]|]; [|by repeat case_match]. destruct Hok as (e1 & c' & Hupd). eauto 10.
Qed.

(** C36: Unless the context was cancelled, a reported error is the last error that the
    API gave to the last attempt of the run (of the update, of the fetch after a
    conflict, or that the claim was replaced by another of the same name), not one of
    an earlier attempt nor the timeout of the retry loop, whichever attempts the run
    consists of; there are at most as many as the backoff has steps, each with the
    caller's claim or a fetched one of the same UID; only a loop that made no attempt
    reports its own error. *)
Theorem update_error_is_api_error claim d backoff e err e' :
  UpdateClaimStatusWithRetry claims claim d backoff e = (Ret (Err err), e') ->
  ctx_Err e' = None ->
  exists v loopErr, (exists tr, update_loop claim d backoff e tr v (Err loopErr) e') /\
    forall tr, update_loop claim d backoff e tr v (Err loopErr) e' ->
      length tr ≤ Z.to_nat (Steps backoff) /\
      Forall (fun '(u, _) => sendable claims claim d (rv_claim u) /\
                             claim_UID (rv_claim u) = claim_UID claim) tr /\
      match last tr with
      | Some (u, e1) => attemptError (rv_claim u) e1 = Some err
      | None => err = loopErr
      end.
Proof.
  intros (tr & v & r0 & Hloop & Hr)%update_run Hctx. rewrite Hctx in Hr.
  destruct r0 as [[]|loopErr]; [done|]. exists v, loopErr. split; [by exists tr|].
  clear tr Hloop. intros tr [_ Hrun].
  apply (backoff_run_ok claim d) in Hrun as (Hlen & Hall & _ & Hlast); [|apply start_vars_ok].
  split_and!; [done|by eapply Forall_impl; [exact Hall|intros []]|].
  destruct (last tr) as [[u e1]|]; [|subst v; by injection Hr].
  destruct Hlast as [[lastErr Hsome] Heq]. rewrite <- Heq, Hsome in *. by injection Hr as ->.
Qed.
End update_status_facts.

(** ** Concrete runs: an API server with optimistic concurrency *)
Module ClaimStatusRuns.
Record server : Type := mkServer { srv_claim : ResourceClaim }.

Definition bump (rv : string) : string := rv +:+ "'".

Definition store (ds : list AllocatedDeviceStatus) (c : ResourceClaim) : ResourceClaim :=
  mkClaim (claim_Name c) (claim_Namespace c) (claim_UID c) (bump (claim_ResourceVersion c))
    (claim_Allocation c) (claim_ReservedFor c) ds.

#[export] Instance api_errors : ApiErrors := {|
  IsInvalid e := errors_Is e "Invalid";
  IsForbidden e := errors_Is e "Forbidden";
  IsNotFound e := errors_Is e "NotFound";
  IsConflict e := errors_Is e "Conflict";
  NewNotFound r n := ErrExternal "NotFound" (r +:+ " " +:+ n)
|}.

Definition client : ResourceClaimStatusClient server := {|
  UpdateStatus c := fun srv =>
    if decide (claim_ResourceVersion c = claim_ResourceVersion (srv_claim srv)) then
      let c' := store (claim_Devices c) (srv_claim srv) in
      (Ret (Ok c'), mkServer c')
    else (Ret (Err (ErrExternal "Conflict" (claim_Name c))), srv);
  GetClaim name := fun srv => (Ret (Ok (srv_claim srv)), srv)
|}.

(** Retry at once; the first attempt may lose a race. *)
Fixpoint attempts {V} (n : nat) (cond : V -> M server (V * result bool)) (v : V)
  : M server (V * result unit) := fun srv =>
  match n with
  | 0 => (Ret (v, Err (ErrExternal "Timeout" "")), srv)
  | S n' =>
      match cond v srv with
      | (Ret (v', Ok true), srv') => (Ret (v', Ok tt), srv')
      | (Ret (v', Ok false), srv') => attempts n' cond v' srv'
      | (Ret (v', Err err), srv') => (Ret (v', Err err), srv')
      | (Panic why, srv') => (Panic why, srv')
      end
  end.

#[export] Instance wait_lib : WaitLib server := {|
  ctx_Err _ := None;
  ExponentialBackoffWithContext V backoff cond v := attempts (Z.to_nat (Steps backoff)) cond v
|}.

#[export] Instance wait_laws : WaitLaws server.
Proof.
  intros V backoff cond v e v' r e'. simpl. generalize (Z.to_nat (Steps backoff)). intros n.
  revert v e. induction n as [|n IH]; intros v e; simpl.
  - intros [= -> <- ->]. exists []. constructor.
  - destruct (cond v e) as [[[v1 [[]|err]]|] e1] eqn:Hc; intros Hrun; simplify_eq.
    + exists [(v, e)]. by constructor.
    + apply IH in Hrun as [tr Htr]. exists ((v, e) :: tr). eapply backoff_retry; eauto.
    + exists [(v, e)]. by constructor.
Defined.

Definition entry (drv dev : string) (data : option string) : AllocatedDeviceStatus :=
  mkDeviceStatus drv "node" dev None [] data None.

Definition claim_v (rv : string) (ds : list AllocatedDeviceStatus) : ResourceClaim :=
  mkClaim "c" "ns" "uid-1" rv None ["pod"] ds.

(** This driver read version 1; meanwhile another driver wrote its entry. *)
Definition mine : ResourceClaim := claim_v "1" [entry DriverName "vf0" (Some "cfg")].
Definition raced : server := mkServer (claim_v "2" [entry "gpu.example.com" "gpu0" None]).

Definition merged : ResourceClaim :=
  claim_v "2'" [entry "gpu.example.com" "gpu0" None; entry DriverName "vf0" (Some "cfg")].

Lemma update_success_written_witness :
  UpdateClaimStatusWithRetry client mine DriverName DefaultBackoff raced
    = (Ret (Ok tt), mkServer merged) /\
  exists c c' e1, UpdateStatus client c e1 = (Ret (Ok c'), mkServer merged) /\
    sendable client mine DriverName c /\ claim_UID c = claim_UID mine.
Proof.
  assert (Hrun : UpdateClaimStatusWithRetry client mine DriverName DefaultBackoff raced
    = (Ret (Ok tt), mkServer merged)) by (vm_compute; reflexivity).
  split; [exact Hrun|]. exact (update_success_written client mine DriverName _ _ _ Hrun).
Defined.

(** A claim recreated under the same name. *)
Definition recreated : server := mkServer (mkClaim "c" "ns" "uid-2" "9" None ["pod"] []).

Definition replaced_error : error :=
  errorw "claim %s was replaced (UID %s is now %s): %w" ["c"; "uid-1"; "uid-2"]
    (ErrExternal "NotFound" "resourceclaims c").

Lemma update_error_is_api_error_witness : exists tr u srv,
  last tr = Some (u, srv) /\ length tr ≤ 5 /\ attemptError client (rv_claim u) srv = Some replaced_error.
Proof.
  assert (Hrun : UpdateClaimStatusWithRetry client mine DriverName DefaultBackoff recreated
    = (Ret (Err replaced_error), recreated)) by (vm_compute; reflexivity).
  destruct (update_error_is_api_error client mine DriverName _ _ _ _ Hrun eq_refl)
    as (v & loopErr & [tr Hloop] & Hall).
  destruct (Hall tr Hloop) as (Hlen & _ & Hlast). exists tr.
  destruct (last tr) as [[u srv]|] eqn:Htr; [by exists u, srv|].
  destruct Hloop as [Hlib Htrace]. vm_compute in Hlib. injection Hlib as <- _.
  apply last_None in Htr. subst tr. inversion Htrace.
Defined.

(** The list of the server has its own order, this driver wants an entry written twice. *)
Lemma merge_preserves_foreign_witness :
  let latest := [entry "gpu.example.com" "gpu1" None; entry DriverName "vf9" None;
                 entry "gpu.example.com" "gpu0" None] in
  let merged := MergeDeviceStatuses latest
    [entry DriverName "vf0" None; entry DriverName "vf0" (Some "cfg")] DriverName in
  List.filter (foreign DriverName) merged = [entry "gpu.example.com" "gpu1" None; entry "gpu.example.com" "gpu0" None] /\
  unique_keys merged.
Proof.
  intros latest merged.
  destruct (merge_preserves_foreign latest [entry DriverName "vf0" None; entry DriverName "vf0" (Some "cfg")] DriverName)
    as [Hforeign Hunique].
  split; [exact Hforeign|]. apply Hunique. apply (bool_decide_unpack (NoDup _)). vm_compute. exact I.
Defined.

Lemma upsert_refines_insert_witness :
  length (UpsertDeviceStatus (claim_Devices merged) (entry DriverName "vf0" None)) = 2.
Proof.
  assert (Hu : unique_keys (claim_Devices merged)).
  { apply NoDup_cons; split; [|apply NoDup_singleton].
    rewrite list_elem_of_singleton. discriminate. }
  destruct (upsert_refines_insert _ (entry DriverName "vf0" None) Hu) as (_ & _ & Hlen).
  rewrite Hlen. reflexivity.
Defined.
End ClaimStatusRuns.
