(* ===== verification/Config.v ===== *)
(** * Configuration (pkg/types/config.go, cmd/dra-driver-sriov/main.go)

    The command-line flags, their defaults, and the paths derived from them. *)

From S2P Require Import Prelude GoLib Consts.

(** [types.Flags], without the settings of the API client and of logging. *)
Record Flags : Type := mkFlags {
  flag_NodeName : string;
  flag_Namespace : string;
  flag_CdiRoot : string;
  flag_KubeletRegistrarDirectoryPath : string;
  flag_KubeletPluginsDirectoryPath : string;
  flag_HealthcheckPort : Z;
  flag_MetricsBindAddress : string;
  flag_DefaultInterfacePrefix : string;
  flag_ConfigurationMode : string;
  flag_EnableDeviceMetadata : bool
}.

(** The values of newApp's flags when only the required node name is given; the two
    directories are constants of the kubelet plugin library. *)
Definition defaultFlags (KubeletRegistryDir KubeletPluginsDir nodeName : string) : Flags := {|
  flag_NodeName := nodeName;
  flag_Namespace := "dra-driver-sriov";
  flag_CdiRoot := "/var/run/cdi";
  flag_KubeletRegistrarDirectoryPath := KubeletRegistryDir;
  flag_KubeletPluginsDirectoryPath := KubeletPluginsDir;
  flag_HealthcheckPort := -1;
  flag_MetricsBindAddress := "0";
  flag_DefaultInterfacePrefix := "vfnet";
  flag_ConfigurationMode := ConfigurationModeStandalone;
  flag_EnableDeviceMetadata := false
|}.

Definition DriverPluginPath (flags : Flags) : string :=
  filepath_Join [flag_KubeletPluginsDirectoryPath flags; DriverName].
