(* ===== verification/Manager.v ===== *)
(** * The device-state manager: advertised devices and policy attributes
      (pkg/devicestate/state.go, pkg/devicestate/interface.go)

    The manager holds the devices found at start-up.  A policy update decides
    which of them are advertised and which extra attributes they carry; discovery
    attributes are reserved and must survive every update. *)

From S2P Require Import Prelude GoLib Consts K8sTypes.

(** The part of [Manager] that changes, [allocatable] and [policyAttrKeys], and
    the settings it is built with. *)
Record Manager : Type := mkManager {
  allocatable : AllocatableDevices;
  policyAttrKeys : gmap string (gmap string bool);
  defaultInterfacePrefix : string;
  configurationMode : string;
  iommuAvailable : bool
}.

Definition set_allocatable (ds : AllocatableDevices) (s : Manager) : Manager :=
  mkManager ds (policyAttrKeys s) (defaultInterfacePrefix s) (configurationMode s)
    (iommuAvailable s).

Definition set_policyAttrKeys (ks : gmap string (gmap string bool)) (s : Manager) : Manager :=
  mkManager (allocatable s) ks (defaultInterfacePrefix s) (configurationMode s)
    (iommuAvailable s).

(** [map[string]map[QualifiedName]DeviceAttribute], the controller's result. *)
Abbreviation PolicyDevices := (gmap string (gmap string DeviceAttribute)).

Definition normalizeConfigurationMode (mode : string) : result string :=
  if decide (mode = "") then Ok ConfigurationModeStandalone
  else if decide (mode = ConfigurationModeStandalone) then Ok ConfigurationModeStandalone
  else if decide (mode = ConfigurationModeMultus) then Ok ConfigurationModeMultus
  else Err (errorf "unsupported configuration mode %q, expected %q or %q"
              [mode; ConfigurationModeStandalone; ConfigurationModeMultus]).

Definition isStandaloneMode (s : Manager) : bool :=
  bool_decide (configurationMode s = "") ||
  bool_decide (configurationMode s = ConfigurationModeStandalone).

Definition isMultusMode (s : Manager) : bool :=
  bool_decide (configurationMode s = ConfigurationModeMultus).

Definition GetAllocatableDevices (s : Manager) : AllocatableDevices := allocatable s.

(** [device, exists := s.allocatable[deviceName]]. *)
Definition GetAllocatableDeviceByName (s : Manager) (deviceName : string) : option Device :=
  allocatable s !! deviceName.

(** [reflect.DeepEqual] on two attributes. *)
Definition deviceAttributeEqual (a b : DeviceAttribute) : bool := bool_decide (a = b).

Definition with_attributes (attrs : gmap string DeviceAttribute) (d : Device) : Device :=
  mkDevice (dev_Name d) attrs.

Section policy.
Context `{RangeOrder}.

Definition GetAdvertisedDevices (s : Manager) : AllocatableDevices :=
  range_fold (fun name _ acc =>
    match allocatable s !! name with
    | Some device => <[name := device]> acc
    | None => acc
    end) (policyAttrKeys s) ∅.

Definition clearPolicyAttributes (deviceName : string) (s : Manager) : bool * Manager :=
  let forget := set_policyAttrKeys (delete deviceName (policyAttrKeys s)) in
  match policyAttrKeys s !! deviceName with
  | None => (false, forget s)
  | Some oldKeys =>
      if decide (size oldKeys = 0) then (false, forget s)
      else
        match allocatable s !! deviceName with
        | None => (false, forget s)
        | Some device =>
            let attrs := range_fold (fun key _ attrs => delete key attrs) oldKeys
                           (dev_Attributes device) in
            (true, forget (set_allocatable
                     (<[deviceName := with_attributes attrs device]> (allocatable s)) s))
        end
  end.

(** First loop: clear the attributes of devices that are no longer matched. *)
Definition clearUnmatched (policyDevices : PolicyDevices) (s : Manager) : Manager * bool :=
  range_fold (fun deviceName _ '(s, changesMade) =>
    match policyDevices !! deviceName with
    | Some _ => (s, changesMade)
    | None => let '(cleared, s) := clearPolicyAttributes deviceName s in
              (s, changesMade || cleared)
    end) (policyAttrKeys s) (s, false).

(** The check for a changed advertised set, on the state after the first loop. *)
Definition advertisedSetChanged (policyDevices : PolicyDevices) (s : Manager) : bool :=
  if decide (size policyDevices ≠ size (policyAttrKeys s)) then true
  else existsb (fun '(name, _) => negb (bool_decide (is_Some (policyAttrKeys s !! name))))
         (range policyDevices).

(** Inner loop over the attributes of one device: the device's attributes, the
    keys set, and whether anything changed. *)
Definition applyAttribute (key : string) (val : DeviceAttribute)
    (st : gmap string DeviceAttribute * gmap string bool * bool)
  : gmap string DeviceAttribute * gmap string bool * bool :=
  let '(attributes, newKeys, changesMade) := st in
  if reserved key then st
  else
    let newKeys := <[key := true]> newKeys in
    match attributes !! key with
    | Some existing =>
        if deviceAttributeEqual existing val then (attributes, newKeys, changesMade)
        else (<[key := val]> attributes, newKeys, true)
    | None => (<[key := val]> attributes, newKeys, true)
    end.

(** Inner loop over the keys the device had before. *)
Definition dropStale (newKeys : gmap string bool) (oldKey : string) (_ : bool)
    (st : gmap string DeviceAttribute * bool) : gmap string DeviceAttribute * bool :=
  let '(attributes, changesMade) := st in
  if has_key newKeys oldKey then (attributes, changesMade)
  else (delete oldKey attributes, true).

(** Body of the third loop. *)
Definition applyDevice (deviceName : string) (attrs : gmap string DeviceAttribute)
    (st : Manager * bool) : Manager * bool :=
  let '(s, changesMade) := st in
  match allocatable s !! deviceName with
  | None => (s, changesMade)
  | Some device =>
      let '(attributes, newKeys, changesMade) :=
        range_fold applyAttribute attrs (dev_Attributes device, ∅, changesMade) in
      let '(attributes, changesMade) :=
        match policyAttrKeys s !! deviceName with
        | Some oldKeys => range_fold (dropStale newKeys) oldKeys (attributes, changesMade)
        | None => (attributes, changesMade)
        end in
      (set_policyAttrKeys (<[deviceName := newKeys]> (policyAttrKeys s))
         (set_allocatable (<[deviceName := with_attributes attributes device]> (allocatable s)) s),
       changesMade)
  end.

Definition applyPolicies (policyDevices : PolicyDevices) (st : Manager * bool) : Manager * bool :=
  range_fold applyDevice policyDevices st.

(** The state transformation of [UpdatePolicyDevices], with [changesMade]. *)
Definition updatePolicyState (policyDevices : PolicyDevices) (s : Manager) : Manager * bool :=
  let '(s, changesMade) := clearUnmatched policyDevices s in
  let changesMade := if changesMade then true else advertisedSetChanged policyDevices s in
  applyPolicies policyDevices (s, changesMade).

(** [UpdatePolicyDevices]; the callback publishes what the manager advertises
    when it is called. *)
Definition UpdatePolicyDevices {E} (republishCallback : option (Manager -> M E (result unit)))
    (policyDevices : PolicyDevices) : M (Manager * E) (result unit) := fun '(s, e) =>
  let '(s, changesMade) := updatePolicyState policyDevices s in
  if negb changesMade then (Ret (Ok tt), (s, e))
  else
    match republishCallback with
    | None => (Ret (Ok tt), (s, e))
    | Some callback =>
        match callback s e with
        | (Ret (Err err), e) => (Ret (Err (errorw "failed to republish resources: %w" [] err)), (s, e))
        | (Ret (Ok _), e) => (Ret (Ok tt), (s, e))
        | (Panic why, e) => (Panic why, (s, e))
        end
    end.
End policy.

(** A sequence of updates, each caller ignoring (after logging) the error. *)
Definition run_updates `{RangeOrder} {E} (cb : option (Manager -> M E (result unit)))
    (pds : list PolicyDevices) : M (Manager * E) unit :=
  for_each pds (fun pd _ => _ ← UpdatePolicyDevices cb pd; mret tt) tt.

(** ** The abstract view

    Discovery fixes the reserved attributes of a device; a policy update sets all
    the others.  The state after an update is a function of the discovery
    attributes and of the requested policy alone. *)

Definition nonreserved (m : gmap string DeviceAttribute) : gmap string DeviceAttribute :=
  filter (fun '(k, _) => reserved k = false) m.

Definition discovery (m : gmap string DeviceAttribute) : gmap string DeviceAttribute :=
  filter (fun '(k, _) => reserved k = true) m.

Definition keyset (m : gmap string DeviceAttribute) : gmap string bool := (fun _ => true) <$> m.

Definition spec_attributes (policy attrs : gmap string DeviceAttribute)
  : gmap string DeviceAttribute := nonreserved policy ∪ discovery attrs.

Definition spec_allocatable (pd : PolicyDevices) (ds : AllocatableDevices) : AllocatableDevices :=
  map_imap (fun d dev =>
    Some (with_attributes (spec_attributes (default ∅ (pd !! d)) (dev_Attributes dev)) dev)) ds.

Definition spec_keys (pd : PolicyDevices) (ds : AllocatableDevices)
  : gmap string (gmap string bool) :=
  map_imap (fun d attrs => if decide (is_Some (ds !! d)) then Some (keyset (nonreserved attrs)) else None) pd.

Definition spec_update (pd : PolicyDevices) (s : Manager) : Manager :=
  set_policyAttrKeys (spec_keys pd (allocatable s))
    (set_allocatable (spec_allocatable pd (allocatable s)) s).

(** Well-formed states: tracked keys belong to discovered devices and are never
    reserved, and every attribute that discovery did not set is tracked. *)
Record device_ok (attrs : gmap string DeviceAttribute) (keys : gmap string bool) : Prop := {
  keys_not_reserved k b : keys !! k = Some b -> b = true /\ reserved k = false;
  extra_is_tracked k : reserved k = false -> is_Some (attrs !! k) -> is_Some (keys !! k)
}.

Record manager_ok (s : Manager) : Prop := {
  tracked_allocatable d : is_Some (policyAttrKeys s !! d) -> is_Some (allocatable s !! d);
  tracked_ok d dev : allocatable s !! d = Some dev ->
    device_ok (dev_Attributes dev) (default ∅ (policyAttrKeys s !! d))
}.

Section map_facts.
Implicit Types m attrs : gmap string DeviceAttribute.

Lemma lookup_nonreserved m k :
  nonreserved m !! k = if reserved k then None else m !! k.
Proof.
  unfold nonreserved. destruct (reserved k) eqn:Hk.
  - apply map_lookup_filter_None. right. intros v _. by rewrite Hk.
  - apply option_eq. intros v. rewrite map_lookup_filter_Some, Hk. tauto.
Qed.

Lemma nonreserved_empty : nonreserved ∅ = ∅.
Proof. apply map_filter_empty. Qed.

Lemma nonreserved_insert m k v : m !! k = None ->
  nonreserved (<[k:=v]> m) = if reserved k then nonreserved m else <[k:=v]> (nonreserved m).
Proof.
  intros Hm. apply map_eq. intros i. rewrite lookup_nonreserved.
  destruct (decide (k = i)) as [<-|Hne].
  - destruct (reserved k) eqn:Hk; [by rewrite lookup_nonreserved, Hk|by rewrite !lookup_insert_eq].
  - destruct (reserved k); rewrite !lookup_insert_ne by done; by rewrite lookup_nonreserved.
Qed.

Lemma lookup_discovery m k : discovery m !! k = if reserved k then m !! k else None.
Proof.
  unfold discovery. destruct (reserved k) eqn:Hk.
  - apply option_eq. intros v. rewrite map_lookup_filter_Some, Hk. tauto.
  - apply map_lookup_filter_None. right. intros v _. by rewrite Hk.
Qed.

Lemma lookup_keyset m k : keyset m !! k = (fun _ => true) <$> m !! k.
Proof. apply lookup_fmap. Qed.

Lemma has_key_keyset m k : has_key (keyset m) k = bool_decide (is_Some (m !! k)).
Proof. unfold has_key. rewrite lookup_keyset. by destruct (m !! k). Qed.

Lemma lookup_spec_attributes policy attrs k :
  spec_attributes policy attrs !! k = if reserved k then attrs !! k else policy !! k.
Proof.
  unfold spec_attributes. rewrite lookup_union, lookup_nonreserved, lookup_discovery.
  by destruct (reserved k), (attrs !! k), (policy !! k).
Qed.

Lemma discovery_spec_attributes policy attrs :
  discovery (spec_attributes policy attrs) = discovery attrs.
Proof.
  apply map_eq. intros k. rewrite !lookup_discovery, lookup_spec_attributes.
  by destruct (reserved k).
Qed.

Lemma lookup_spec_allocatable pd ds d :
  spec_allocatable pd ds !! d =
    (fun dev => with_attributes (spec_attributes (default ∅ (pd !! d)) (dev_Attributes dev)) dev)
      <$> ds !! d.
Proof. unfold spec_allocatable. rewrite map_lookup_imap. by destruct (ds !! d). Qed.

Lemma lookup_spec_keys pd ds d :
  spec_keys pd ds !! d =
    match ds !! d with Some _ => (fun attrs => keyset (nonreserved attrs)) <$> pd !! d | None => None end.
Proof.
  unfold spec_keys. rewrite map_lookup_imap.
  by destruct (pd !! d), (ds !! d).
Qed.

Lemma device_ok_empty attrs : device_ok attrs ∅ -> spec_attributes ∅ attrs = attrs.
Proof.
  intros [_ Hx]. apply map_eq. intros k. rewrite lookup_spec_attributes, lookup_empty.
  destruct (reserved k) eqn:Hk; [done|]. destruct (attrs !! k) eqn:Ha; [|done].
  destruct (Hx k) as [? Hs]; [done|by rewrite Ha|]. by rewrite lookup_empty in Hs.
Qed.
End map_facts.

#[export] Hint Rewrite lookup_nonreserved lookup_discovery lookup_keyset has_key_keyset
  lookup_spec_attributes lookup_spec_allocatable lookup_spec_keys : gorw.

Section policy_facts.
Context `{RangeOrder}.

Lemma range_fold_deletes (keys : gmap string bool) (attrs : gmap string DeviceAttribute) k :
  range_fold (fun key _ attrs => delete key attrs) keys attrs !! k =
    match keys !! k with Some _ => None | None => attrs !! k end.
Proof.
  revert k. apply (range_fold_ind (fun (m' : gmap string bool) (a : gmap string DeviceAttribute) =>
    forall k, a !! k = match m' !! k with Some _ => None | None => attrs !! k end)); [done|].
  intros key b m' a Hm' _ _ IH k. destruct (decide (key = k)) as [<-|Hne].
  - by rewrite lookup_delete_eq, lookup_insert_eq.
  - by rewrite lookup_delete_ne, lookup_insert_ne, IH by done.
Qed.

(** Clearing a well-formed device leaves exactly its discovery attributes. *)
Lemma clear_device attrs keys :
  device_ok attrs keys ->
  range_fold (fun key _ attrs => delete key attrs) keys attrs = spec_attributes ∅ attrs.
Proof.
  intros [Hr Hx]. apply map_eq. intros k. rewrite range_fold_deletes, lookup_spec_attributes.
  rewrite lookup_empty. destruct (keys !! k) as [b|] eqn:Hk.
  - by destruct (Hr _ _ Hk) as [_ ->].
  - destruct (reserved k) eqn:Hres; [done|]. destruct (attrs !! k) eqn:Ha; [|done].
    destruct (Hx k) as [? ?]; [done|by rewrite Ha|congruence].
Qed.

Lemma applyAttribute_loop policy attrs ch :
  exists ch', range_fold applyAttribute policy (attrs, ∅, ch) =
    (nonreserved policy ∪ attrs, keyset (nonreserved policy), ch') /\
    (ch' = true ↔ ch = true \/ ¬ nonreserved policy ⊆ attrs).
Proof.
  apply (range_fold_ind (fun m' st => exists ch', st =
    (nonreserved m' ∪ attrs, keyset (nonreserved m'), ch') /\
    (ch' = true ↔ ch = true \/ ¬ nonreserved m' ⊆ attrs))).
  { exists ch. rewrite nonreserved_empty, map_empty_union.
    split; [done|]. pose proof (map_empty_subseteq attrs). tauto. }
  intros k v m' st Hm' Hk _ (ch' & -> & Hch). unfold applyAttribute.
  destruct (reserved k) eqn:Hres.
  { exists ch'. by rewrite nonreserved_insert, Hres. }
  rewrite nonreserved_insert, Hres by done.
  assert (Hnm : nonreserved m' !! k = None).
  { rewrite lookup_nonreserved, Hres. done. }
  unfold keyset. rewrite fmap_insert. fold (keyset (nonreserved m')).
  rewrite lookup_union_r, <- insert_union_l by done.
  assert (Hsub : <[k:=v]> (nonreserved m') ⊆ attrs ↔
    nonreserved m' ⊆ attrs /\ attrs !! k = Some v).
  { rewrite !map_subseteq_spec. split.
    - intros Hs. split; [|apply Hs, lookup_insert_eq]. intros i x Hi. apply Hs.
      rewrite lookup_insert_ne; [done|]. by intros ->; simplify_eq.
    - intros [Hs ?] i x [[<- <-]|[? ?]]%lookup_insert_Some; auto. }
  unfold deviceAttributeEqual.
  destruct (attrs !! k) as [v'|] eqn:Ha; [case_bool_decide as Heq|].
  - subst v'. exists ch'. split; [|rewrite Hsub; naive_solver].
    by rewrite (insert_id (nonreserved m' ∪ attrs)) by by rewrite lookup_union_r.
  - exists true. split; [done|]. rewrite Hsub.
    split; [intros _; right; intros [_ ?]; congruence|done].
  - exists true. split; [done|]. rewrite Hsub.
    split; [intros _; right; intros [_ ?]; congruence|done].
Qed.

Lemma dropStale_loop newKeys (oldKeys : gmap string bool) attrs ch :
  exists attrs' ch', range_fold (dropStale newKeys) oldKeys (attrs, ch) = (attrs', ch') /\
    (forall k, attrs' !! k =
       match oldKeys !! k with
       | Some _ => if has_key newKeys k then attrs !! k else None
       | None => attrs !! k
       end) /\
    (ch' = true ↔ ch = true \/ exists k, is_Some (oldKeys !! k) /\ has_key newKeys k = false).
Proof.
  apply (range_fold_ind (fun (m' : gmap string bool) (st : gmap string DeviceAttribute * bool) =>
    exists attrs' ch', st = (attrs', ch') /\
    (forall k, attrs' !! k =
       match m' !! k with
       | Some _ => if has_key newKeys k then attrs !! k else None
       | None => attrs !! k
       end) /\
    (ch' = true ↔ ch = true \/ exists k, is_Some (m' !! k) /\ has_key newKeys k = false))).
  { exists attrs, ch. split_and!; [done|done|]. setoid_rewrite lookup_empty.
    split; [by left|intros [?|(k & [? ?] & _)]; done]. }
  intros key b m' st Hm' _ _ (attrs' & ch' & -> & Hattrs & Hch). unfold dropStale.
  assert (Hex : (exists k, is_Some (<[key:=b]> m' !! k) /\ has_key newKeys k = false) ↔
    has_key newKeys key = false \/ exists k, is_Some (m' !! k) /\ has_key newKeys k = false).
  { setoid_rewrite lookup_insert_is_Some. split.
    - intros (k & [<-|[_ ?]] & ?); eauto.
    - intros [?|(k & ? & ?)]; [by eauto|].
      destruct (decide (key = k)); exists k; split; auto. }
  destruct (has_key newKeys key) eqn:Hnew; do 2 eexists; (split_and!; [done| |rewrite Hex]).
  - intros k. rewrite Hattrs. destruct (decide (key = k)) as [<-|Hne].
    + by rewrite Hm', lookup_insert_eq, Hnew.
    + by rewrite lookup_insert_ne.
  - rewrite Hch. split; [intros [|]; auto|intros [|[|]]; auto; done].
  - intros k. destruct (decide (key = k)) as [<-|Hne].
    + by rewrite lookup_delete_eq, lookup_insert_eq, Hnew.
    + by rewrite lookup_delete_ne, lookup_insert_ne, Hattrs.
  - split; auto.
Qed.

(** One device: the new attributes are those of the specification. *)
Lemma apply_device policy attrs keys ch :
  device_ok attrs keys ->
  exists ch1 ch2,
    range_fold applyAttribute policy (attrs, ∅, ch) =
      (nonreserved policy ∪ attrs, keyset (nonreserved policy), ch1) /\
    range_fold (dropStale (keyset (nonreserved policy))) keys (nonreserved policy ∪ attrs, ch1) =
      (spec_attributes policy attrs, ch2) /\
    (ch2 = true ↔ ch = true \/ spec_attributes policy attrs ≠ attrs \/
       exists k, is_Some (keys !! k) /\ nonreserved policy !! k = None).
Proof.
  intros [Hr Hx].
  destruct (applyAttribute_loop policy attrs ch) as (ch1 & Hloop & Hch1).
  destruct (dropStale_loop (keyset (nonreserved policy)) keys (nonreserved policy ∪ attrs) ch1)
    as (attrs' & ch2 & Hdrop & Hattrs & Hch2).
  assert (attrs' = spec_attributes policy attrs) as ->.
  { apply map_eq. intros k. rewrite Hattrs, lookup_spec_attributes, lookup_union,
      has_key_keyset, lookup_nonreserved.
    destruct (keys !! k) as [b|] eqn:Hk.
    - destruct (Hr _ _ Hk) as [_ ->]. by destruct (policy !! k), (attrs !! k).
    - destruct (reserved k) eqn:Hres; [by destruct (attrs !! k)|].
      destruct (attrs !! k) eqn:Ha; [|by destruct (policy !! k)].
      destruct (Hx k) as [? ?]; [done|by rewrite Ha|congruence]. }
  exists ch1, ch2. split_and!; [done..|]. rewrite Hch2, Hch1.
  setoid_rewrite has_key_keyset. setoid_rewrite bool_decide_eq_false.
  setoid_rewrite <- eq_None_not_Some.
  assert (Hsub : ¬ nonreserved policy ⊆ attrs -> spec_attributes policy attrs ≠ attrs).
  { intros Hn Heq. apply Hn. apply map_subseteq_spec. intros k v Hk.
    rewrite <- Heq, lookup_spec_attributes. rewrite lookup_nonreserved in Hk. by destruct (reserved k). }
  assert (Hne : spec_attributes policy attrs ≠ attrs -> ¬ nonreserved policy ⊆ attrs \/
    exists k, is_Some (keys !! k) /\ nonreserved policy !! k = None).
  { intros Hne. destruct (decide (nonreserved policy ⊆ attrs)) as [Hs|]; [|by left]. right.
    destruct (decide (map_Forall (fun k _ => is_Some (nonreserved policy !! k)) keys)) as [Hall|Hnot].
    - destruct Hne. apply map_eq. intros k. rewrite lookup_spec_attributes.
      destruct (reserved k) eqn:Hres; [done|]. destruct (policy !! k) as [v|] eqn:Hp.
      + symmetry. rewrite map_subseteq_spec in Hs. apply Hs. by rewrite lookup_nonreserved, Hres.
      + destruct (attrs !! k) eqn:Ha; [|done]. destruct (Hx k) as [b Hb]; [done|by rewrite Ha|].
        destruct (Hall _ _ Hb) as [? Hn]. rewrite lookup_nonreserved, Hres in Hn. congruence.
    - apply map_not_Forall in Hnot; [|apply _]. destruct Hnot as (k & b & Hk & Hn).
      exists k. split; [eauto|by apply eq_None_not_Some]. }
  clear - Hsub Hne. tauto.
Qed.
End policy_facts.

(** ** The whole update *)

Definition with_maps (s : Manager) (ds : AllocatableDevices)
    (ks : gmap string (gmap string bool)) : Manager :=
  set_policyAttrKeys ks (set_allocatable ds s).

Definition cleared_device (dev : Device) : Device :=
  with_attributes (spec_attributes ∅ (dev_Attributes dev)) dev.

Definition applied_device (policy : gmap string DeviceAttribute) (dev : Device) : Device :=
  with_attributes (spec_attributes policy (dev_Attributes dev)) dev.

(** What the update changes on one matched device. *)
Definition device_changes (policy : gmap string DeviceAttribute) (dev : Device)
    (keys : gmap string bool) : Prop :=
  spec_attributes policy (dev_Attributes dev) ≠ dev_Attributes dev \/
  exists k, is_Some (keys !! k) /\ nonreserved policy !! k = None.

Section update_facts.
Context `{RangeOrder}.

Lemma with_maps_self s : with_maps s (allocatable s) (policyAttrKeys s) = s.
Proof. by destruct s. Qed.

Lemma with_attributes_self dev : with_attributes (dev_Attributes dev) dev = dev.
Proof. by destruct dev. Qed.

Lemma cleared_device_untracked dev : device_ok (dev_Attributes dev) ∅ -> cleared_device dev = dev.
Proof. intros Hok. unfold cleared_device. by rewrite device_ok_empty, with_attributes_self. Qed.

Lemma clear_step s ds ks d keys dev :
  ks !! d = Some keys -> ds !! d = Some dev -> device_ok (dev_Attributes dev) keys ->
  clearPolicyAttributes d (with_maps s ds ks) =
    (bool_decide (keys ≠ ∅), with_maps s (<[d := cleared_device dev]> ds) (delete d ks)).
Proof.
  intros Hks Hds Hok. unfold clearPolicyAttributes, with_maps. simpl. rewrite Hks.
  case_decide as Hsz.
  - apply map_size_empty_iff in Hsz as ->. rewrite bool_decide_false by tauto.
    rewrite cleared_device_untracked by done. by rewrite insert_id.
  - rewrite map_size_non_empty_iff in Hsz. rewrite bool_decide_true by done.
    rewrite Hds. unfold cleared_device. by rewrite clear_device.
Qed.

Lemma clearUnmatched_spec pd s :
  manager_ok s ->
  exists ds ks ch, clearUnmatched pd s = (with_maps s ds ks, ch) /\
    (forall d, ds !! d = match policyAttrKeys s !! d, pd !! d with
                    | Some _, None => cleared_device <$> allocatable s !! d
                    | _, _ => allocatable s !! d end) /\
    (forall d, ks !! d = match pd !! d with Some _ => policyAttrKeys s !! d | None => None end) /\
    (ch = true ↔ exists d keys, policyAttrKeys s !! d = Some keys /\ pd !! d = None /\ keys ≠ ∅).
Proof.
  intros [Htr Hok].
  assert (Hloop : exists ds ks ch, clearUnmatched pd s = (with_maps s ds ks, ch) /\
    (forall d, ds !! d = match policyAttrKeys s !! d, pd !! d with
                    | Some _, None => cleared_device <$> allocatable s !! d
                    | _, _ => allocatable s !! d end) /\
    (forall d, ks !! d = match policyAttrKeys s !! d, pd !! d with
                    | Some _, None => None | _, _ => policyAttrKeys s !! d end) /\
    (ch = true ↔ exists d keys, policyAttrKeys s !! d = Some keys /\ pd !! d = None /\ keys ≠ ∅)).
  { unfold clearUnmatched.
    apply (range_fold_ind (fun (m' : gmap string (gmap string bool)) (st : Manager * bool) =>
      exists ds ks ch, st = (with_maps s ds ks, ch) /\
      (forall d, ds !! d = match m' !! d, pd !! d with
                      | Some _, None => cleared_device <$> allocatable s !! d
                      | _, _ => allocatable s !! d end) /\
      (forall d, ks !! d = match m' !! d, pd !! d with
                      | Some _, None => None | _, _ => policyAttrKeys s !! d end) /\
      (ch = true ↔ exists d keys, m' !! d = Some keys /\ pd !! d = None /\ keys ≠ ∅))).
    - exists (allocatable s), (policyAttrKeys s), false. rewrite with_maps_self.
      split_and!; [done..|]. split; [done|]. by intros (d & keys & ? & _).
    - intros d keys m' st Hm' Hd _ (ds & ks & ch & -> & Hds & Hks & Hch).
      destruct (pd !! d) as [p|] eqn:Hp.
      + exists ds, ks, ch. split_and!; [done|..].
        * intros d'. rewrite Hds. destruct (decide (d = d')) as [<-|]; [by rewrite Hm', lookup_insert_eq, Hp|].
          by rewrite lookup_insert_ne.
        * intros d'. rewrite Hks. destruct (decide (d = d')) as [<-|]; [by rewrite Hm', lookup_insert_eq, Hp|].
          by rewrite lookup_insert_ne.
        * rewrite Hch. split; intros (d' & keys' & Hk & ? & ?); exists d', keys'; (split; [|done]).
          -- rewrite lookup_insert_ne; [done|]. intros ->. congruence.
          -- rewrite lookup_insert_ne in Hk; [done|]. intros ->. congruence.
      + destruct (Htr d) as [dev Hdev]; [by rewrite Hd|].
        specialize (Hok d dev Hdev). rewrite Hd in Hok. simpl in Hok.
        rewrite (clear_step s ds ks d keys dev);
          [|by rewrite Hks, Hm'|by rewrite Hds, Hm'|done].
        do 3 eexists. split_and!; [done|..].
        * intros d'. destruct (decide (d = d')) as [<-|].
          -- by rewrite !lookup_insert_eq, Hp, Hdev.
          -- by rewrite !lookup_insert_ne, Hds.
        * intros d'. destruct (decide (d = d')) as [<-|].
          -- by rewrite lookup_delete_eq, lookup_insert_eq, Hp.
          -- by rewrite lookup_delete_ne, lookup_insert_ne, Hks.
        * rewrite orb_true_iff, Hch, bool_decide_eq_true. split.
          -- intros [(d' & keys' & Hk & ? & ?)|Hne].
             ++ exists d', keys'. rewrite lookup_insert_ne; [done|]. intros ->. congruence.
             ++ exists d, keys. by rewrite lookup_insert_eq.
          -- intros (d' & keys' & [[<- <-]|[? ?]]%lookup_insert_Some & ? & ?); [by right|]. left; eauto. }
  destruct Hloop as (ds & ks & ch & Hrun & Hds & Hks & Hch). exists ds, ks, ch.
  split_and!; [done..| |done]. intros d. rewrite Hks.
  by destruct (policyAttrKeys s !! d), (pd !! d).
Qed.

Lemma apply_step s ds ks d policy dev ch :
  ds !! d = Some dev -> device_ok (dev_Attributes dev) (default ∅ (ks !! d)) ->
  exists ch', applyDevice d policy (with_maps s ds ks, ch) =
    (with_maps s (<[d := applied_device policy dev]> ds)
       (<[d := keyset (nonreserved policy)]> ks), ch') /\
    (ch' = true ↔ ch = true \/ device_changes policy dev (default ∅ (ks !! d))).
Proof.
  intros Hds Hok.
  destruct (apply_device policy (dev_Attributes dev) _ ch Hok) as (ch1 & ch2 & Ha & Hd & Hch).
  unfold applyDevice. simpl. rewrite Hds, Ha. unfold device_changes.
  destruct (ks !! d) as [keys|]; simpl in Hd.
  - rewrite Hd. by exists ch2.
  - rewrite range_fold_empty in Hd. injection Hd as Hattrs <-. exists ch1.
    split; [|exact Hch]. unfold applied_device. by rewrite <- Hattrs.
Qed.

Lemma apply_step_unknown s ds ks d policy ch :
  ds !! d = None -> applyDevice d policy (with_maps s ds ks, ch) = (with_maps s ds ks, ch).
Proof. intros Hds. unfold applyDevice. simpl. by rewrite Hds. Qed.

Lemma applyPolicies_spec pd s ds0 ks0 ch0 :
  (forall d dev, is_Some (pd !! d) -> ds0 !! d = Some dev ->
     device_ok (dev_Attributes dev) (default ∅ (ks0 !! d))) ->
  exists ds ks ch, applyPolicies pd (with_maps s ds0 ks0, ch0) = (with_maps s ds ks, ch) /\
    (forall d, ds !! d = match pd !! d with
                    | Some policy => applied_device policy <$> ds0 !! d
                    | None => ds0 !! d end) /\
    (forall d, ks !! d = match pd !! d, ds0 !! d with
                    | Some policy, Some _ => Some (keyset (nonreserved policy))
                    | _, _ => ks0 !! d end) /\
    (ch = true ↔ ch0 = true \/ exists d policy dev, pd !! d = Some policy /\
       ds0 !! d = Some dev /\ device_changes policy dev (default ∅ (ks0 !! d))).
Proof.
  intros Hok. unfold applyPolicies.
  apply (range_fold_ind (fun (m' : PolicyDevices) (st : Manager * bool) => exists ds ks ch,
    st = (with_maps s ds ks, ch) /\
    (forall d, ds !! d = match m' !! d with
                    | Some policy => applied_device policy <$> ds0 !! d
                    | None => ds0 !! d end) /\
    (forall d, ks !! d = match m' !! d, ds0 !! d with
                    | Some policy, Some _ => Some (keyset (nonreserved policy))
                    | _, _ => ks0 !! d end) /\
    (ch = true ↔ ch0 = true \/ exists d policy dev, m' !! d = Some policy /\
       ds0 !! d = Some dev /\ device_changes policy dev (default ∅ (ks0 !! d))))).
  { exists ds0, ks0, ch0. split_and!; [done..|]. split; [by left|].
    intros [?|(d & policy & dev & ? & _)]; [done|]. done. }
  intros d policy m' st Hm' Hd _ (ds & ks & ch & -> & Hds & Hks & Hch).
  assert (Hdsd : ds !! d = ds0 !! d) by by rewrite Hds, Hm'.
  assert (Hksd : ks !! d = ks0 !! d) by by rewrite Hks, Hm'.
  destruct (ds0 !! d) as [dev|] eqn:Hdev.
  - destruct (apply_step s ds ks d policy dev ch) as (ch' & Hrun & Hch'); [done| |].
    { rewrite Hksd. eauto. }
    rewrite Hrun. do 3 eexists. split_and!; [done|..].
    + intros d'. destruct (decide (d = d')) as [<-|].
      * by rewrite !lookup_insert_eq, Hdev.
      * by rewrite !lookup_insert_ne, Hds.
    + intros d'. destruct (decide (d = d')) as [<-|].
      * by rewrite !lookup_insert_eq, Hdev.
      * by rewrite !lookup_insert_ne, Hks.
    + rewrite Hch', Hch, Hksd. split.
      * intros [[?|(d' & p' & dev' & ? & ?)]|?]; [by left|right..].
        -- exists d', p', dev'. rewrite lookup_insert_ne; [done|]. intros ->. congruence.
        -- exists d, policy, dev. by rewrite lookup_insert_eq.
      * intros [?|(d' & p' & dev' & [[<- <-]|[? ?]]%lookup_insert_Some & Hd' & ?)];
          [by left; left| |left; right; eauto 10].
        right. congruence.
  - rewrite apply_step_unknown by congruence. exists ds, ks, ch. split_and!; [done|..].
    + intros d'. rewrite Hds. destruct (decide (d = d')) as [<-|].
      * by rewrite Hm', lookup_insert_eq, Hdev.
      * by rewrite lookup_insert_ne.
    + intros d'. rewrite Hks. destruct (decide (d = d')) as [<-|].
      * by rewrite Hm', lookup_insert_eq, Hdev.
      * by rewrite lookup_insert_ne.
    + rewrite Hch. split; (intros [?|(d' & p' & dev' & Hp & Hd' & ?)]; [by left|right]);
        exists d', p', dev'; (split_and!; [|done..]).
      * rewrite lookup_insert_ne; [done|]. intros ->. congruence.
      * rewrite lookup_insert_ne in Hp; [done|]. intros ->. congruence.
Qed.

Lemma advertisedSetChanged_spec pd s :
  advertisedSetChanged pd s = true ↔
    size pd ≠ size (policyAttrKeys s) \/ exists d, is_Some (pd !! d) /\ policyAttrKeys s !! d = None.
Proof.
  unfold advertisedSetChanged. case_decide as Hsz; [by split; [left|]|].
  rewrite existsb_exists. split.
  - intros ([d attrs] & Hin%list_elem_of_In%elem_of_range & Hn). right. exists d.
    split; [eauto|]. apply negb_true_iff, bool_decide_eq_false in Hn. by apply eq_None_not_Some.
  - intros [?|(d & [attrs Hd] & Hn)]; [done|]. exists (d, attrs).
    split; [by apply list_elem_of_In, elem_of_range|]. by rewrite bool_decide_false by by rewrite Hn.
Qed.

(** The state after the first loop. *)
Definition kept_keys (pd : PolicyDevices) (s : Manager) : gmap string (gmap string bool) :=
  map_imap (fun d keys => if decide (is_Some (pd !! d)) then Some keys else None) (policyAttrKeys s).

Lemma lookup_kept_keys pd s d :
  kept_keys pd s !! d = match pd !! d with Some _ => policyAttrKeys s !! d | None => None end.
Proof.
  unfold kept_keys. rewrite map_lookup_imap. by destruct (policyAttrKeys s !! d), (pd !! d).
Qed.

(** The exact condition under which an update reports changes. *)
Definition update_changes (pd : PolicyDevices) (s : Manager) : Prop :=
  (exists d keys, policyAttrKeys s !! d = Some keys /\ pd !! d = None /\ keys ≠ ∅) \/
  (size pd ≠ size (kept_keys pd s) \/ exists d, is_Some (pd !! d) /\ kept_keys pd s !! d = None) \/
  (exists d policy dev, pd !! d = Some policy /\ allocatable s !! d = Some dev /\
     device_changes policy dev (default ∅ (policyAttrKeys s !! d))).

Lemma updatePolicyState_spec pd s :
  manager_ok s ->
  exists ch, updatePolicyState pd s = (spec_update pd s, ch) /\
    (ch = true ↔ update_changes pd s).
Proof.
  intros Hs. destruct Hs as [Htr Hok]. unfold updatePolicyState.
  destruct (clearUnmatched_spec pd s) as (ds1 & ks1 & ch1 & -> & Hds1 & Hks1 & Hch1); [done|].
  assert (ks1 = kept_keys pd s) as -> by (apply map_eq; intros d; by rewrite Hks1, lookup_kept_keys).
  destruct (applyPolicies_spec pd s ds1 (kept_keys pd s)
    (if ch1 then true else advertisedSetChanged pd (with_maps s ds1 (kept_keys pd s))))
    as (ds & ks & ch & -> & Hds & Hks & Hch).
  { intros d dev [policy Hp] Hdev. rewrite lookup_kept_keys, Hp. rewrite Hds1, Hp in Hdev.
    apply Hok. by destruct (policyAttrKeys s !! d). }
  exists ch. split.
  - f_equal. unfold spec_update, with_maps. f_equal; [|f_equal]; apply map_eq; intros d.
    + rewrite Hks, lookup_spec_keys, Hds1, lookup_kept_keys.
      destruct (pd !! d), (policyAttrKeys s !! d) eqn:Hk, (allocatable s !! d) eqn:Ha; try done.
      all: destruct (Htr d) as [? ?]; [by rewrite Hk|congruence].
    + rewrite Hds, lookup_spec_allocatable, Hds1.
      destruct (pd !! d), (policyAttrKeys s !! d) eqn:Hk, (allocatable s !! d) eqn:Ha; try done.
      simpl. f_equal. symmetry. apply cleared_device_untracked. specialize (Hok d _ Ha).
      by rewrite Hk in Hok.
  - rewrite Hch. unfold update_changes. rewrite <- Hch1.
    pose proof (advertisedSetChanged_spec pd (with_maps s ds1 (kept_keys pd s))) as Hset.
    assert (Hdev : (exists d policy dev, pd !! d = Some policy /\ ds1 !! d = Some dev /\
        device_changes policy dev (default ∅ (kept_keys pd s !! d))) ↔
      (exists d policy dev, pd !! d = Some policy /\ allocatable s !! d = Some dev /\
        device_changes policy dev (default ∅ (policyAttrKeys s !! d)))).
    { split; intros (d & policy & dev & Hp & Hd & Hc); exists d, policy, dev.
      all: rewrite lookup_kept_keys, Hp in *; rewrite Hds1, Hp in *.
      all: by destruct (policyAttrKeys s !! d). }
    rewrite Hdev. simpl in Hset. rewrite <- Hset.
    destruct ch1; simpl; [by split; left|]. split; [tauto|by intros [|]].
Qed.
End update_facts.

(** ** Properties of the policy update *)

Section update_properties.
Context `{RangeOrder} {E : Type}.
Implicit Types (s : Manager) (cb : option (Manager -> M E (result unit))).

Lemma lookup_advertised s d :
  GetAdvertisedDevices s !! d =
    match policyAttrKeys s !! d with Some _ => allocatable s !! d | None => None end.
Proof.
  unfold GetAdvertisedDevices. revert d.
  apply (range_fold_ind (fun (m' : gmap string (gmap string bool)) (acc : AllocatableDevices) =>
    forall d, acc !! d = match m' !! d with Some _ => allocatable s !! d | None => None end)); [done|].
  intros d keys m' acc Hm' _ _ IH d'. destruct (decide (d = d')) as [<-|Hne].
  - rewrite lookup_insert_eq. destruct (allocatable s !! d) eqn:Hd.
    + apply lookup_insert_eq.
    + by rewrite IH, Hm'.
  - rewrite lookup_insert_ne by done. rewrite <- IH.
    destruct (allocatable s !! d); [|done]. by rewrite lookup_insert_ne by done.
Qed.

Lemma spec_device_ok policy attrs :
  device_ok (spec_attributes policy attrs) (keyset (nonreserved policy)).
Proof.
  split; intros k.
  - intros b. rewrite lookup_keyset, lookup_nonreserved.
    by destruct (reserved k), (policy !! k); intros [= <-].
  - intros Hk. rewrite lookup_spec_attributes, lookup_keyset, lookup_nonreserved, Hk.
    by destruct (policy !! k).
Qed.

Lemma spec_device_ok_unmatched attrs : device_ok (spec_attributes ∅ attrs) ∅.
Proof.
  split; intros k.
  - intros b. by rewrite lookup_empty.
  - intros Hk. by rewrite lookup_spec_attributes, Hk, lookup_empty.
Qed.

Lemma spec_update_ok pd s : manager_ok (spec_update pd s).
Proof.
  split; simpl.
  - intros d. rewrite lookup_spec_keys, lookup_spec_allocatable.
    destruct (allocatable s !! d); [by eauto|by intros [? ?]].
  - intros d dev. rewrite lookup_spec_keys, lookup_spec_allocatable.
    destruct (allocatable s !! d); [|done]. simpl. intros [= <-]. simpl.
    destruct (pd !! d); [apply spec_device_ok|apply spec_device_ok_unmatched].
Qed.

Lemma update_state_after cb pd s e o s' e' :
  manager_ok s -> UpdatePolicyDevices cb pd (s, e) = (o, (s', e')) -> s' = spec_update pd s.
Proof.
  intros Hs. unfold UpdatePolicyDevices.
  destruct (updatePolicyState_spec pd s Hs) as (ch & -> & _).
  destruct ch; [|by intros [= <- <- <-]]. simpl. destruct cb as [cb|]; [|by intros [= <- <- <-]].
  by destruct (cb _ e) as [[[]|] e1]; intros [= <- <- <-].
Qed.

Lemma update_silent cb pd s e :
  manager_ok s -> ¬ update_changes pd s ->
  UpdatePolicyDevices cb pd (s, e) = (Ret (Ok tt), (spec_update pd s, e)).
Proof.
  intros Hs Hno. unfold UpdatePolicyDevices.
  destruct (updatePolicyState_spec pd s Hs) as (ch & -> & Hch). destruct ch; tauto.
Qed.

Lemma spec_update_idem pd1 pd2 s : spec_update pd2 (spec_update pd1 s) = spec_update pd2 s.
Proof.
  unfold spec_update. destruct s as [ds ks pre mode iommu]. simpl.
  unfold set_policyAttrKeys, set_allocatable. simpl.
  assert (Ha : spec_allocatable pd2 (spec_allocatable pd1 ds) = spec_allocatable pd2 ds).
  { apply map_eq. intros d. rewrite !lookup_spec_allocatable. destruct (ds !! d) as [dev|]; [|done].
    simpl. unfold with_attributes. simpl. do 2 f_equal. apply map_eq. intros k.
    rewrite !lookup_spec_attributes. by destruct (reserved k). }
  rewrite Ha. f_equal. apply map_eq. intros d. rewrite !lookup_spec_keys, lookup_spec_allocatable.
  by destruct (ds !! d).
Qed.

Lemma spec_update_no_changes pd s :
  (forall d, is_Some (pd !! d) -> is_Some (allocatable s !! d)) ->
  ¬ update_changes pd (spec_update pd s).
Proof.
  intros Hnames.
  assert (Hkeys : forall d, kept_keys pd (spec_update pd s) !! d =
      (fun attrs => keyset (nonreserved attrs)) <$> pd !! d).
  { intros d. rewrite lookup_kept_keys. simpl. rewrite lookup_spec_keys.
    destruct (pd !! d) eqn:Hp; [|done]. by destruct (Hnames d) as [? ->]. }
  intros [(d & keys & Hk & Hp & _)|[[Hsz|(d & [p Hp] & Hk)]|(d & p & dev & Hp & Hd & Hc)]].
  - simpl in Hk. rewrite lookup_spec_keys, Hp in Hk. by destruct (allocatable s !! d).
  - apply Hsz. rewrite <- !size_dom. f_equal. apply set_eq. intros d.
    rewrite !elem_of_dom, Hkeys. by rewrite fmap_is_Some.
  - by rewrite Hkeys, Hp in Hk.
  - simpl in Hd, Hc. rewrite lookup_spec_keys, Hp in Hc. rewrite lookup_spec_allocatable, Hp in Hd.
    destruct (allocatable s !! d) as [dev0|]; [|done]. injection Hd as <-. simpl in Hc.
    destruct Hc as [Hne|(k & Hk & Hn)].
    + apply Hne. apply map_eq. intros k. rewrite !lookup_spec_attributes. simpl.
      rewrite lookup_spec_attributes. by destruct (reserved k).
    + rewrite lookup_keyset, Hn in Hk. by destruct Hk.
Qed.

(** C2: On a well-formed manager, UpdatePolicyDevices implements its abstract
    specification for every map iteration order, every callback and whatever the
    callback answers: the matched devices that exist become the advertised set,
    each device has exactly its discovery attributes and the non-reserved policy
    attributes, and the manager stays well-formed. *)
Theorem update_refines_spec cb pd s e o s' e' :
  manager_ok s -> UpdatePolicyDevices cb pd (s, e) = (o, (s', e')) ->
  s' = spec_update pd s /\ manager_ok s' /\
  (forall d, GetAdvertisedDevices s' !! d =
     match pd !! d with
     | Some policy => applied_device policy <$> allocatable s !! d
     | None => None
     end).
Proof.
  intros Hs Hrun. rewrite (update_state_after _ _ _ _ _ _ _ Hs Hrun).
  split_and!; [done|apply spec_update_ok|]. intros d. rewrite lookup_advertised. simpl.
  rewrite lookup_spec_keys, lookup_spec_allocatable.
  by destruct (allocatable s !! d), (pd !! d).
Qed.

(** No policy can change what discovery found: through any update every device
    keeps its name and the exact value (or absence) of every reserved attribute. *)
Lemma update_protects_discovery cb pd s e o s' e' :
  manager_ok s -> UpdatePolicyDevices cb pd (s, e) = (o, (s', e')) ->
  forall d dev, allocatable s !! d = Some dev ->
  exists dev', allocatable s' !! d = Some dev' /\ dev_Name dev' = dev_Name dev /\
    forall k, reserved k = true -> dev_Attributes dev' !! k = dev_Attributes dev !! k.
Proof.
  intros Hs Hrun d dev Hd. rewrite (update_state_after _ _ _ _ _ _ _ Hs Hrun). simpl.
  rewrite lookup_spec_allocatable, Hd. eexists. split_and!; [done|done|]. intros k Hk. simpl.
  by rewrite lookup_spec_attributes, Hk.
Qed.

(** Only the last policy counts: after any sequence of updates that ran to the
    end, whatever the callback did and whether or not its calls failed, the manager
    is the one that a single update with the last policy produces from the start. *)
Lemma updates_history_independent cb pds pd s e s' e' :
  manager_ok s -> run_updates cb (pds ++ [pd]) (s, e) = (Ret tt, (s', e')) ->
  s' = spec_update pd s.
Proof.
  revert s e. induction pds as [|pd' pds IH]; intros s e Hs.
  - simpl. unfold run_updates. simpl. unfold mbind, M_bind.
    destruct (UpdatePolicyDevices cb pd (s, e)) as [[r|why] [s1 e1]] eqn:Hrun; [|done].
    intros [= <- <-]. by eapply update_state_after.
  - unfold run_updates. simpl. unfold mbind at 1, M_bind at 1.
    unfold mbind at 1, M_bind at 1.
    destruct (UpdatePolicyDevices cb pd' (s, e)) as [[r|why] [s1 e1]] eqn:Hrun; [|done].
    apply update_state_after in Hrun as ->; [|done]. intros Hrest.
    rewrite (IH _ _ (spec_update_ok _ _) Hrest). apply spec_update_idem.
Qed.

(** An update that does not call the callback published nothing new because
    there was nothing new: every device advertised afterwards was advertised
    before, with the same attributes. *)
Lemma update_unpublished_adds_nothing pd s :
  manager_ok s -> (updatePolicyState pd s).2 = false ->
  GetAdvertisedDevices (updatePolicyState pd s).1 ⊆ GetAdvertisedDevices s.
Proof.
  intros Hs. destruct (updatePolicyState_spec pd s Hs) as (ch & -> & Hch). simpl. intros ->.
  assert (Hno : ¬ update_changes pd s) by (rewrite <- Hch; done). clear Hch.
  apply map_subseteq_spec. intros d dev. rewrite !lookup_advertised. simpl.
  rewrite lookup_spec_keys, lookup_spec_allocatable.
  destruct (allocatable s !! d) as [dev0|] eqn:Hd, (pd !! d) as [p|] eqn:Hp; simpl; try done.
  intros [= <-]. destruct (policyAttrKeys s !! d) as [keys|] eqn:Hk.
  - f_equal. symmetry. apply dec_stable. intros Hne. apply Hno. right; right.
    exists d, p, dev0. split_and!; [done..|]. left. contradict Hne.
    rewrite Hne. by destruct dev0.
  - destruct Hno. right; left; right. exists d. rewrite Hp, lookup_kept_keys, Hp. eauto.
Qed.

(** A device that loses its last policy without having policy attributes stays
    published: the update drops it from the advertised set but reports no change,
    so whatever the callback is, it is not called. *)
Lemma withdrawal_not_republished cb s e :
  manager_ok s -> (forall d keys, policyAttrKeys s !! d = Some keys -> keys = ∅) ->
  exists s', UpdatePolicyDevices cb ∅ (s, e) = (Ret (Ok tt), (s', e)) /\
    GetAdvertisedDevices s' = ∅.
Proof.
  intros Hs Hempty. exists (spec_update ∅ s). split.
  - apply update_silent; [done|].
    assert (kept_keys ∅ s = ∅) as Hk.
    { apply map_eq. intros d. by rewrite lookup_kept_keys. }
    intros [(d & keys & Hd & _ & Hne)|[[Hsz|(d & [? ?] & _)]|(d & p & _ & ? & _)]].
    + by apply Hne, (Hempty d).
    + rewrite Hk in Hsz. done.
    + done.
    + done.
  - apply map_eq. intros d. rewrite lookup_advertised. simpl. rewrite lookup_spec_keys.
    by destruct (allocatable s !! d).
Qed.

(** C40: A failed publication is never retried: when the callback fails, the manager
    has already adopted the policy, and repeating the same update (which is what
    the controller's requeue does) succeeds at once without calling it again. *)
Theorem failed_republish_not_retried cb cb' pd s e err s' e' :
  manager_ok s -> (forall d, is_Some (pd !! d) -> is_Some (allocatable s !! d)) ->
  UpdatePolicyDevices cb pd (s, e) = (Ret (Err err), (s', e')) ->
  forall e2, UpdatePolicyDevices cb' pd (s', e2) = (Ret (Ok tt), (s', e2)).
Proof.
  intros Hs Hnames Hrun e2. rewrite (update_state_after _ _ _ _ _ _ _ Hs Hrun).
  rewrite update_silent; [|apply spec_update_ok|by apply spec_update_no_changes].
  by rewrite spec_update_idem.
Qed.
End update_properties.

(** ** Concrete runs

    Two discovered functions; the first one is advertised with a resource name and
    an extra attribute. *)
Module ManagerRuns.
#[local] Existing Instance listing_order.

Definition discovered : Manager :=
  mkManager
    (<["0000-01-00-1" := mkDevice "0000-01-00-1"
         (<[AttributeVendorID := StringAttr "8086"]> (<[AttributeVFID := IntAttr 0]> ∅))]>
     (<["0000-01-00-2" := mkDevice "0000-01-00-2"
         (<[AttributeVendorID := StringAttr "8086"]> (<[AttributeVFID := IntAttr 1]> ∅))]> ∅))
    ∅ "vfnet" ConfigurationModeStandalone true.

Definition policyA : PolicyDevices :=
  <["0000-01-00-1" := <["sriovnetwork.openshift.io/resourceName" := StringAttr "a"]>
                      (<[AttributeVendorID := StringAttr "ffff"]> ∅)]> ∅.
Definition policyB : PolicyDevices :=
  <["0000-01-00-2" := <["zone" := StringAttr "east"]> ∅]> ∅.
Definition bare : PolicyDevices := <["0000-01-00-1" := ∅]> ∅.

Definition demo : Manager := spec_update policyA discovered.
Definition demo_ok : manager_ok demo := spec_update_ok policyA discovered.
Definition bare_demo : Manager := spec_update bare discovered.
Definition bare_demo_ok : manager_ok bare_demo := spec_update_ok bare discovered.

(** A callback that counts its calls, and one that also fails. *)
Definition counting : option (Manager -> M nat (result unit)) :=
  Some (fun _ n => (Ret (Ok tt), S n)).
Definition failing : option (Manager -> M nat (result unit)) :=
  Some (fun _ n => (Ret (Err (ErrExternal "Timeout" "publish")), S n)).

Definition run (cb : option (Manager -> M nat (result unit))) (pd : PolicyDevices) (s : Manager) :=
  UpdatePolicyDevices cb pd (s, 0).

Example demo_policy_cannot_override :
  (fun d => dev_Attributes d !! AttributeVendorID) <$> allocatable demo !! "0000-01-00-1" =
    Some (Some (StringAttr "8086")).
Proof. vm_compute. reflexivity. Qed.

Lemma run_counting : run counting policyB demo = (Ret (Ok tt), ((run counting policyB demo).2.1, 1)).
Proof. vm_compute. reflexivity. Qed.

Lemma run_failing : run failing policyB demo =
  (Ret (Err (errorw "failed to republish resources: %w" [] (ErrExternal "Timeout" "publish"))),
   ((run failing policyB demo).2.1, 1)).
Proof. vm_compute. reflexivity. Qed.

Lemma update_refines_spec_witness :
  (run counting policyB demo).2.2 = 1 /\ (run counting policyB demo).2.1 = spec_update policyB demo.
Proof.
  split; [by rewrite run_counting|].
  apply (update_refines_spec counting policyB demo 0 _ _ _ demo_ok run_counting).
Defined.

Lemma update_protects_discovery_witness :
  exists dev dev', allocatable demo !! "0000-01-00-1" = Some dev /\
    allocatable (run counting policyB demo).2.1 !! "0000-01-00-1" = Some dev' /\
    dev_Attributes dev' !! AttributeVFID = dev_Attributes dev !! AttributeVFID.
Proof.
  destruct (allocatable demo !! "0000-01-00-1") as [dev|] eqn:Hdev; [|vm_compute in Hdev; discriminate].
  destruct (update_protects_discovery counting policyB demo 0 _ _ _ demo_ok run_counting _ _ Hdev)
    as (dev' & Hdev' & _ & Hattrs).
  exists dev, dev'. split; [done|]. split; [exact Hdev'|]. apply Hattrs. vm_compute. reflexivity.
Defined.

Lemma run_updates_ends :
  run_updates failing ([policyB; bare] ++ [policyB]) (demo, 0) =
    (Ret tt, ((run_updates failing ([policyB; bare] ++ [policyB]) (demo, 0)).2.1, 3)).
Proof. vm_compute. reflexivity. Qed.

Lemma updates_history_independent_witness :
  (run_updates failing ([policyB; bare] ++ [policyB]) (demo, 0)).2.1 = spec_update policyB demo.
Proof.
  exact (updates_history_independent failing [policyB; bare] policyB demo 0 _ _ demo_ok
           run_updates_ends).
Defined.

Lemma withdrawal_not_republished_witness :
  is_Some (GetAdvertisedDevices bare_demo !! "0000-01-00-1") /\
  exists s', UpdatePolicyDevices counting ∅ (bare_demo, 0) = (Ret (Ok tt), (s', 0)) /\
    GetAdvertisedDevices s' = ∅.
Proof.
  split; [vm_compute; by eexists|].
  apply (withdrawal_not_republished counting bare_demo 0 bare_demo_ok).
  intros d keys. change (policyAttrKeys bare_demo) with (spec_keys bare (allocatable discovered)).
  rewrite lookup_spec_keys. unfold bare. destruct (decide (d = "0000-01-00-1")) as [->|Hne].
  - rewrite lookup_insert_eq. vm_compute. by intros [= <-].
  - rewrite lookup_insert_ne by done. by destruct (allocatable discovered !! d).
Defined.

Lemma failed_republish_not_retried_witness :
  (run failing policyB demo).2.2 = 1 /\
  UpdatePolicyDevices failing policyB ((run failing policyB demo).2.1, 1) =
    (Ret (Ok tt), ((run failing policyB demo).2.1, 1)).
Proof.
  split; [by rewrite run_failing|].
  eapply (failed_republish_not_retried failing failing policyB demo 0 _ _ _ demo_ok).
  - intros d [attrs Hd]. unfold policyB in Hd.
    apply lookup_insert_Some in Hd as [[<- _]|[_ Hd]]; [vm_compute; by eexists|done].
  - exact run_failing.
Defined.
End ManagerRuns.
