(* ===== verification/Prepared.v ===== *)
(** * Prepared devices and the world of the node plugin (pkg/types/types.go)

    A PreparedDevice is a heap object: the pod manager, the kubelet hooks and the
    NRI plugin hold pointers to the same one.  [World] collects that heap, the pod
    manager's table and everything outside of the process. *)

From S2P Require Import Prelude GoLib Consts K8sTypes VfConfigApi Manager.

(** [cdispec.DeviceNode] and [cdispec.ContainerEdits]: the fields the driver sets. *)
Record DeviceNode : Type := mkNode {
  node_Path : string;
  node_HostPath : string;
  node_Type : string
}.

Record ContainerEdits : Type := mkEdits {
  ce_Env : list string;
  ce_DeviceNodes : list DeviceNode
}.

(** [drapbv1.Device]. *)
Record DrapbDevice : Type := mkDrapb {
  drapb_RequestNames : list string;
  drapb_PoolName : string;
  drapb_DeviceName : string;
  drapb_CdiDeviceIds : list string
}.

(** The two levels of [*cdiapi.ContainerEdits] are one option: nil at either. *)
Record PreparedDevice : Type := mkPrepared {
  pd_Device : DrapbDevice;
  pd_ClaimNamespacedName : NamespacedObject;
  pd_ContainerEdits : option ContainerEdits;
  pd_Config : option VfConfig;
  pd_IfName : string;
  pd_PciAddress : string;
  pd_MultusDeviceID : string;
  pd_MultusResourceName : string;
  pd_DeviceAttributes : gmap string DeviceAttribute;
  pd_NetworkDeviceData : option NetworkDeviceData;
  pd_PodUID : string;
  pd_NetAttachDefConfig : string;
  pd_OriginalDriver : string
}.

(** [kubeletplugin.Device] with its [DeviceMetadata]. *)
Record KubeletDevice : Type := mkKubeletDevice {
  kd_Requests : list string;
  kd_PoolName : string;
  kd_DeviceName : string;
  kd_CDIDeviceIDs : list string;
  kd_Attributes : gmap string DeviceAttribute;
  kd_NetworkData : option NetworkDeviceData
}.

Definition MetadataAttributes (p : PreparedDevice) : gmap string DeviceAttribute :=
  pd_DeviceAttributes p.

Definition ToKubeletPluginDevice (p : PreparedDevice) (networkData : option NetworkDeviceData)
  : KubeletDevice :=
  let networkData := match networkData with
                     | None => pd_NetworkDeviceData p
                     | Some _ => networkData
                     end in
  {| kd_Requests := drapb_RequestNames (pd_Device p);
     kd_PoolName := drapb_PoolName (pd_Device p);
     kd_DeviceName := drapb_DeviceName (pd_Device p);
     kd_CDIDeviceIDs := drapb_CdiDeviceIds (pd_Device p);
     kd_Attributes := MetadataAttributes p;
     kd_NetworkData := networkData |}.

Definition SetNetworkDeviceData (networkData : option NetworkDeviceData) (p : PreparedDevice)
  : PreparedDevice :=
  {| pd_Device := pd_Device p; pd_ClaimNamespacedName := pd_ClaimNamespacedName p;
     pd_ContainerEdits := pd_ContainerEdits p; pd_Config := pd_Config p;
     pd_IfName := pd_IfName p; pd_PciAddress := pd_PciAddress p;
     pd_MultusDeviceID := pd_MultusDeviceID p; pd_MultusResourceName := pd_MultusResourceName p;
     pd_DeviceAttributes := pd_DeviceAttributes p; pd_NetworkDeviceData := networkData;
     pd_PodUID := pd_PodUID p; pd_NetAttachDefConfig := pd_NetAttachDefConfig p;
     pd_OriginalDriver := pd_OriginalDriver p |}.

(** ** Pointers *)

Abbreviation loc := positive.
Abbreviation Heap := (gmap loc PreparedDevice).

(** [PreparedDevices] is a slice of pointers, which may be nil. *)
Abbreviation PreparedDevices := (list (option loc)).
Abbreviation PreparedDevicesByClaimID := (gmap string PreparedDevices).
Abbreviation PreparedClaimsByPodUID := (gmap string PreparedDevicesByClaimID).

(** The devices that a slice, or a table, denotes. *)
Definition view_devices (h : Heap) (ds : PreparedDevices) : list (option PreparedDevice) :=
  (fun p => l ← p; h !! l) <$> ds.

Definition view_claims (h : Heap) (t : PreparedClaimsByPodUID)
  : gmap string (gmap string (list (option PreparedDevice))) :=
  fmap (M:=gmap string) (fmap (M:=gmap string) (view_devices h)) t.

(** ** The world *)

Record World (E : Type) : Type := mkWorld {
  w_heap : Heap;
  w_claims : PreparedClaimsByPodUID;
  w_manager : Manager;
  w_env : E
}.
Arguments mkWorld {E}.
Arguments w_heap {E}.
Arguments w_claims {E}.
Arguments w_manager {E}.
Arguments w_env {E}.

Section world.
Context {E : Type}.
Implicit Types w : World E.

Definition set_heap (h : Heap) w : World E := mkWorld h (w_claims w) (w_manager w) (w_env w).
Definition set_claims (t : PreparedClaimsByPodUID) w : World E :=
  mkWorld (w_heap w) t (w_manager w) (w_env w).
Definition set_env (e : E) w : World E := mkWorld (w_heap w) (w_claims w) (w_manager w) e.

(** A call that leaves the process. *)
Definition outside {A} (m : M E A) : M (World E) A := fun w =>
  let '(o, e) := m (w_env w) in (o, set_env e w).

Definition ext {A} (c : Call E A) : M (World E) A := fun w =>
  let '(a, e) := c (w_env w) in (Ret a, set_env e w).

(** A call on the manager's part of the world. *)
Definition on_manager {A} (c : M (Manager * E) A) : M (World E) A := fun w =>
  let '(o, (s, e)) := c (w_manager w, w_env w) in
  (o, mkWorld (w_heap w) (w_claims w) s e).

(** [&PreparedDevice{...}]. *)
Definition new (d : PreparedDevice) : M (World E) loc := fun w =>
  let l := fresh (dom (w_heap w)) in (Ret l, set_heap (<[l := d]> (w_heap w)) w).

(** [p.field] for a pointer that may be nil. *)
Definition load (p : option loc) : M (World E) PreparedDevice := fun w =>
  match l ← p; w_heap w !! l with
  | Some d => (Ret d, w)
  | None => (Panic "nil pointer dereference", w)
  end.

Definition store (l : loc) (d : PreparedDevice) : M (World E) unit :=
  modify (fun w => set_heap (<[l := d]> (w_heap w)) w).
End world.
