(* ===== verification/PodManager.v ===== *)
(** * The pod manager: the table of prepared claims and its checkpoint
      (pkg/podmanager/podmanager.go)

    Every operation holds the manager's mutex, so it is one atomic step of the
    world.  The checkpoint manager of the kubelet library is a parameter. *)

From S2P Require Import Prelude GoLib Consts K8sTypes VfConfigApi Manager Prepared.

(** What a checkpoint file holds: the payload of [Checkpoint.V1], nil when the
    file has none. *)
Abbreviation CheckpointV1 := (gmap string (gmap string (list (option PreparedDevice)))).

Class CheckpointManager (E : Type) : Type := {
  ListCheckpoints : Call E (result (list string));
  GetCheckpoint : string -> Call E (result (option CheckpointV1));
  CreateCheckpoint : string -> CheckpointV1 -> Call E (result unit)
}.

(** ** Decoding a checkpoint allocates its devices *)

Definition alloc_ptr (d : option PreparedDevice) (h : Heap) : option loc * Heap :=
  match d with
  | None => (None, h)
  | Some d => let l := fresh (dom h) in (Some l, <[l := d]> h)
  end.

Fixpoint alloc_list {A B} (f : A -> Heap -> B * Heap) (l : list A) (h : Heap) : list B * Heap :=
  match l with
  | [] => ([], h)
  | a :: l => let '(b, h) := f a h in let '(bs, h) := alloc_list f l h in (b :: bs, h)
  end.

Definition alloc_map {A B} (f : A -> Heap -> B * Heap) (m : gmap string A) (h : Heap)
  : gmap string B * Heap :=
  map_fold (fun k a '(acc, h) => let '(b, h) := f a h in (<[k := b]> acc, h)) (∅, h) m.

Definition alloc_claims : CheckpointV1 -> Heap -> PreparedClaimsByPodUID * Heap :=
  alloc_map (alloc_map (alloc_list alloc_ptr)).

Section pod_manager.
Context `{RangeOrder} {E : Type} `{CheckpointManager E}.

Definition syncToCheckpoint : M (World E) (result unit) := fun w =>
  wrap_err (errorv "unable to sync to checkpoint: %v" [])
    (ext (CreateCheckpoint DriverPluginCheckpointFile (view_claims (w_heap w) (w_claims w)))) w.

Definition newPodManager : M (World E) (result unit) :=
  checkpoints ←? wrap_err (errorv "unable to list checkpoints: %v" []) (ext ListCheckpoints);
  if bool_decide (DriverPluginCheckpointFile ∈ checkpoints) then
    v1 ←? wrap_err (errorv "unable to load checkpoint: %v" [])
            (ext (GetCheckpoint DriverPluginCheckpointFile));
    claims ← deref "checkpoint.V1" v1;
    modify (fun w => let '(t, h) := alloc_claims claims (w_heap w) in
                     set_claims t (set_heap h w)) ;;
    mret (Ok tt)
  else
    _ ←? wrap_err (errorv "unable to sync to checkpoint: %v" [])
           (ext (CreateCheckpoint DriverPluginCheckpointFile ∅));
    modify (set_claims ∅) ;; mret (Ok tt).

Definition Set_ (podUID claimID : string) (preparedDevices : PreparedDevices)
  : M (World E) (result unit) :=
  modify (fun w =>
    let claims := default ∅ (w_claims w !! podUID) in
    set_claims (<[podUID := <[claimID := preparedDevices]> claims]> (w_claims w)) w) ;;
  syncToCheckpoint.

Definition Get (podUID claimID : string) (w : World E) : option PreparedDevices :=
  match w_claims w !! podUID with
  | Some podConfigs => podConfigs !! claimID
  | None => None
  end.

Definition GetDevicesByPodUID (podUID : string) (w : World E) : option PreparedDevices :=
  match w_claims w !! podUID with
  | None => None
  | Some claims => Some (range_fold (fun _ devices acc => acc ++ devices) claims [])
  end.

Definition DeletePod (podUID : string) : M (World E) (result unit) :=
  modify (fun w => set_claims (delete podUID (w_claims w)) w) ;; syncToCheckpoint.

(** The first entry, in iteration order, that has the claim. *)
Fixpoint findClaim (claimUID : string) (l : list (string * PreparedDevicesByClaimID))
  : option (string * PreparedDevices) :=
  match l with
  | [] => None
  | (uid, byClaim) :: l =>
      match byClaim !! claimUID with
      | Some devices => Some (uid, devices)
      | None => findClaim claimUID l
      end
  end.

Definition GetByClaim (claim : NamespacedObject) (w : World E) : option PreparedDevices :=
  snd <$> findClaim (no_UID claim) (range (w_claims w)).

Definition UpdatePreparedDeviceNetworkData (preparedDevice : option loc)
    (networkData : option NetworkDeviceData) : M (World E) (result unit) :=
  match preparedDevice with
  | None => mret (Err (errorf "prepared device is nil" []))
  | Some l =>
      d ← load (Some l); store l (SetNetworkDeviceData networkData d) ;; syncToCheckpoint
  end.

Definition DeleteClaim (claim : NamespacedObject) : M (World E) (result unit) := fun w =>
  match findClaim (no_UID claim) (range (w_claims w)) with
  | Some (uid, _) => (modify (fun w => set_claims (delete uid (w_claims w)) w) ;; syncToCheckpoint) w
  | None => (Ret (Ok tt), w)
  end.
End pod_manager.

(** ** Allocation of a decoded checkpoint *)

Definition repr_ptr (h : Heap) (p : option loc) (d : option PreparedDevice) : Prop :=
  match p, d with
  | None, None => True
  | Some l, Some d => h !! l = Some d
  | _, _ => False
  end.
Definition repr_devices (h : Heap) : PreparedDevices -> list (option PreparedDevice) -> Prop :=
  Forall2 (repr_ptr h).
Definition repr_table {A B} (R : Heap -> B -> A -> Prop) (h : Heap)
  : gmap string B -> gmap string A -> Prop := map_Forall2 (fun _ => R h).
Definition repr_claims : Heap -> PreparedClaimsByPodUID -> CheckpointV1 -> Prop :=
  repr_table (repr_table repr_devices).

(** A representation that only grows with the heap, and allocators that build it. *)
Definition monotone {A B} (R : Heap -> B -> A -> Prop) : Prop :=
  forall h h' b a, h ⊆ h' -> R h b a -> R h' b a.
Definition allocates {A B} (R : Heap -> B -> A -> Prop) (f : A -> Heap -> B * Heap) : Prop :=
  forall a h, h ⊆ (f a h).2 /\ R (f a h).2 (f a h).1 a.

Section alloc_facts.
Context {A B : Type} (R : Heap -> B -> A -> Prop) (f : A -> Heap -> B * Heap).
Context (R_mono : monotone R) (f_ok : allocates R f).

Lemma monotone_table : monotone (repr_table R).
Proof using R_mono.
  intros h h' m1 m2 Hh Hm. eapply map_Forall2_impl; [exact Hm|].
  intros k b a. by apply R_mono.
Qed.

Lemma monotone_list : monotone (fun h => Forall2 (R h)).
Proof using R_mono.
  intros h h' l1 l2 Hh Hl. eapply Forall2_impl; [exact Hl|].
  intros b a. by apply R_mono.
Qed.

Lemma allocates_list : allocates (fun h => Forall2 (R h)) (alloc_list f).
Proof using R_mono f_ok.
  intros l. induction l as [|a l IH]; intros h; simpl; [by split|].
  destruct (f_ok a h) as [H1 H2]. destruct (f a h) as [b h1]. simpl in *.
  destruct (IH h1) as [H3 H4]. destruct (alloc_list f l h1) as [bs h2]. simpl in *.
  split; [by trans h1|]. constructor; [by eapply R_mono|done].
Qed.

Lemma allocates_map : allocates (repr_table R) (alloc_map f).
Proof using R_mono f_ok.
  intros m h. unfold alloc_map.
  apply (map_fold_weak_ind (fun (acc : gmap string B * Heap) (m : gmap string A) =>
    h ⊆ acc.2 /\ repr_table R acc.2 acc.1 m)).
  - split; [done|]. apply map_Forall2_empty.
  - intros k a m' [acc h1] _ [H1 H2]. simpl in *. destruct (f_ok a h1) as [H3 H4].
    destruct (f a h1) as [b h2]. simpl in *. split; [by trans h1|].
    apply map_Forall2_insert_2; [done|]. by eapply monotone_table.
Qed.
End alloc_facts.

Lemma monotone_ptr : monotone repr_ptr.
Proof. intros h h' [l|] [d|] Hh; simpl; try done. intros Hl. by eapply lookup_weaken. Qed.

Lemma allocates_ptr : allocates repr_ptr alloc_ptr.
Proof.
  intros [d|] h; simpl; [|done]. split; [|apply lookup_insert_eq].
  apply insert_subseteq, not_elem_of_dom, is_fresh.
Qed.

#[export] Hint Resolve monotone_ptr allocates_ptr monotone_list monotone_table allocates_list
  allocates_map : go.

Lemma allocates_claims : allocates repr_claims alloc_claims.
Proof. unfold repr_claims, alloc_claims, repr_devices. auto 10 with go. Qed.

Lemma view_of_devices h ps ds : repr_devices h ps ds -> view_devices h ps = ds.
Proof.
  induction 1 as [|p d ps ds Hp _ IH]; [done|].
  change (view_devices h (p :: ps)) with ((l ← p; h !! l) :: view_devices h ps).
  rewrite IH. f_equal. by destruct p, d.
Qed.

Lemma view_of_table {A B} (R : Heap -> B -> A -> Prop) (v : Heap -> B -> A) h m1 m2 :
  (forall b a, R h b a -> v h b = a) -> repr_table R h m1 m2 -> v h <$> m1 = m2.
Proof.
  intros Hv Hm. apply map_eq. intros k. rewrite lookup_fmap. specialize (Hm k).
  destruct (m1 !! k), (m2 !! k); inversion Hm; simplify_eq/=; [|done]. f_equal. by apply Hv.
Qed.

Lemma view_of_claims h t v : repr_claims h t v -> view_claims h t = v.
Proof.
  apply (view_of_table (repr_table repr_devices) (fun h => fmap (view_devices h))).
  intros b a. apply (view_of_table repr_devices view_devices). intros. by apply view_of_devices.
Qed.

Lemma alloc_claims_view v h :
  view_claims (alloc_claims v h).2 (alloc_claims v h).1 = v.
Proof. apply view_of_claims, allocates_claims. Qed.

(** ** What the checkpoint library promises

    [stored] is the content of a checkpoint file as the library decodes it. *)
Class CheckpointLaws (E : Type) `{CheckpointManager E} : Type := {
  stored : E -> string -> option CheckpointV1;
  create_stored k v e e' : CreateCheckpoint k v e = (Ok tt, e') -> stored e' k = Some v;
  list_stored e e' l : ListCheckpoints e = (Ok l, e') ->
    e' = e /\ forall k, k ∈ l ↔ is_Some (stored e k);
  get_stored k v e e' c : GetCheckpoint k e = (Ok v, e') -> stored e k = Some c ->
    e' = e /\ v = Some c
}.

(** The calls a driver makes on the pod manager that change it. *)
Inductive pm_call : Type :=
  | CallSet (podUID claimID : string) (ds : PreparedDevices)
  | CallDeletePod (podUID : string)
  | CallUpdateNetworkData (p : option loc) (nd : option NetworkDeviceData)
  | CallDeleteClaim (claim : NamespacedObject).

Section pod_manager_facts.
Context `{RangeOrder} {E : Type} `{CheckpointManager E}.
Implicit Types (w : World E) (t : PreparedClaimsByPodUID).

Definition run_call (c : pm_call) : M (World E) (result unit) :=
  match c with
  | CallSet podUID claimID ds => Set_ podUID claimID ds
  | CallDeletePod podUID => DeletePod podUID
  | CallUpdateNetworkData p nd => UpdatePreparedDeviceNetworkData p nd
  | CallDeleteClaim claim => DeleteClaim claim
  end.

Definition run_calls (cs : list pm_call) : M (World E) (result unit) :=
  for_each_ok cs (fun c _ => run_call c) tt.

(** The table, as this process sees it through its pointers. *)
Definition view (w : World E) : CheckpointV1 := view_claims (w_heap w) (w_claims w).

(** A claim is reserved for one pod at a time. *)
Definition one_pod_per_claim (t : PreparedClaimsByPodUID) : Prop :=
  forall pod1 pod2 cs1 cs2 claim, t !! pod1 = Some cs1 -> t !! pod2 = Some cs2 ->
    is_Some (cs1 !! claim) -> is_Some (cs2 !! claim) -> pod1 = pod2.

Lemma sync_result w :
  exists r e, syncToCheckpoint w = (Ret r, set_env e w) /\
    exists r0, CreateCheckpoint DriverPluginCheckpointFile (view w) (w_env w) = (r0, e) /\
      is_ok r = is_ok r0.
Proof.
  unfold syncToCheckpoint, wrap_err, ext, mbind, M_bind, mret, M_ret. unfold view.
  destruct (CreateCheckpoint _ _ _) as [[[]|err] e].
  - exists (Ok tt), e. split; [done|]. by exists (Ok tt).
  - eexists _, e. split; [done|]. by exists (Err err).
Qed.

Lemma findClaim_elem claim l pod ds :
  findClaim claim l = Some (pod, ds) ->
  exists cs, (pod, cs) ∈ l /\ cs !! claim = Some ds.
Proof.
  induction l as [|[uid cs] l IH]; simpl; [done|].
  destruct (cs !! claim) eqn:Hc.
  - intros [= <- <-]. exists cs. split; [by left|done].
  - intros (cs' & ? & ?)%IH. exists cs'. split; [by right|done].
Qed.

Lemma findClaim_none claim l :
  findClaim claim l = None -> forall pod cs, (pod, cs) ∈ l -> cs !! claim = None.
Proof.
  induction l as [|[uid cs] l IH]; simpl; [by intros _ ? ? ?%elem_of_nil|].
  destruct (cs !! claim) eqn:Hc; [done|].
  intros Hn pod cs' [[= -> ->]|Hin]%elem_of_cons; [done|by eapply IH].
Qed.

Lemma findClaim_range claim t pod ds :
  findClaim claim (range t) = Some (pod, ds) ->
  exists cs, t !! pod = Some cs /\ cs !! claim = Some ds.
Proof. intros (cs & Hin & ?)%findClaim_elem. exists cs. split; [by apply elem_of_range|done]. Qed.

Lemma findClaim_range_none claim t :
  findClaim claim (range t) = None -> forall pod cs, t !! pod = Some cs -> cs !! claim = None.
Proof. intros Hn pod cs Hp. eapply findClaim_none; [done|by apply elem_of_range]. Qed.

Lemma findClaim_unique claim t pod cs ds :
  one_pod_per_claim t -> t !! pod = Some cs -> cs !! claim = Some ds ->
  findClaim claim (range t) = Some (pod, ds).
Proof.
  intros Huniq Hp Hc. destruct (findClaim claim (range t)) as [[pod' ds']|] eqn:Hf.
  - apply findClaim_range in Hf as (cs' & Hp' & Hc').
    assert (pod' = pod) as -> by (eapply (Huniq _ _ cs' cs claim); eauto). congruence.
  - eapply findClaim_range_none in Hf; [|done]. congruence.
Qed.

Lemma Get_Some pod claim w ds :
  Get pod claim w = Some ds ↔ exists cs, w_claims w !! pod = Some cs /\ cs !! claim = Some ds.
Proof.
  unfold Get. destruct (w_claims w !! pod) as [cs|]; split; [by exists cs| |done|].
  - by intros (cs' & [= <-] & ?).
  - by intros (cs' & ? & ?).
Qed.

Lemma elem_of_all_devices (claims : PreparedDevicesByClaimID) p :
  p ∈ range_fold (fun (_ : string) devices acc => acc ++ devices) claims [] ↔
    exists claim ds, claims !! claim = Some ds /\ p ∈ ds.
Proof.
  apply (range_fold_ind (fun (m' : PreparedDevicesByClaimID) (acc : PreparedDevices) =>
    p ∈ acc ↔ exists claim ds, m' !! claim = Some ds /\ p ∈ ds)).
  - split; [by intros ?%elem_of_nil|by intros (? & ? & ? & ?)].
  - intros k ds m' acc Hm' _ _ IH. rewrite elem_of_app, IH. split.
    + intros [(c & ds' & ? & ?)|?]; [|exists k, ds; by rewrite lookup_insert_eq].
      exists c, ds'. rewrite lookup_insert_ne by congruence. done.
    + intros (c & ds' & [[<- <-]|[? ?]]%lookup_insert_Some & ?); [by right|].
      left. by exists c, ds'.
Qed.
End pod_manager_facts.

(** ** Properties of the table *)

Section table_properties.
Context `{RangeOrder} {E : Type} `{CheckpointManager E}.
Implicit Types (w : World E).

Lemma Set_spec pod claim ds w :
  exists r w', Set_ pod claim ds w = (Ret r, w') /\
    (is_ok r = true ↔ is_ok (CreateCheckpoint DriverPluginCheckpointFile (view w') (w_env w)).1 = true) /\
    w_heap w' = w_heap w /\ w_manager w' = w_manager w /\
    Get pod claim w' = Some ds /\
    forall pod' claim', (pod', claim') ≠ (pod, claim) -> Get pod' claim' w' = Get pod' claim' w.
Proof.
  unfold Set_, mbind, M_bind, modify. set (w1 := set_claims _ w).
  destruct (sync_result w1) as (r & e & -> & r0 & Hr0 & Hr). exists r, (set_env e w1).
  change (view (set_env e w1)) with (view w1). change (w_env w) with (w_env w1).
  rewrite Hr0, Hr. split_and!; [done..| |].
  - unfold Get. simpl. by rewrite lookup_insert_eq, lookup_insert_eq.
  - intros pod' claim' Hne. unfold Get. simpl. destruct (decide (pod = pod')) as [<-|].
    + rewrite lookup_insert_eq, lookup_insert_ne by congruence.
      by destruct (w_claims w !! pod).
    + by rewrite lookup_insert_ne.
Qed.

(** Set makes the claim visible at once and touches nothing else, even when it
    reports an error: a failed checkpoint write does not undo the table entry. *)
Lemma set_visible_even_unsaved pod claim ds w :
  exists r w', Set_ pod claim ds w = (Ret r, w') /\
    (is_ok r = true ↔ is_ok (CreateCheckpoint DriverPluginCheckpointFile (view w') (w_env w)).1 = true) /\
    w_heap w' = w_heap w /\ w_manager w' = w_manager w /\
    Get pod claim w' = Some ds /\
    forall pod' claim', (pod', claim') ≠ (pod, claim) -> Get pod' claim' w' = Get pod' claim' w.
Proof. apply Set_spec. Qed.

(** GetByClaim finds a claim exactly when some pod holds it, and returns that
    pod's devices, in whatever order the pods are visited. *)
Lemma get_by_claim_correct claim w ds :
  one_pod_per_claim (w_claims w) ->
  GetByClaim claim w = Some ds ↔ exists pod, Get pod (no_UID claim) w = Some ds.
Proof.
  intros Huniq. unfold GetByClaim. split.
  - destruct (findClaim _ _) as [[pod ds']|] eqn:Hf; [|done]. intros [= <-].
    apply findClaim_range in Hf. exists pod. by apply Get_Some.
  - intros (pod & (cs & Hp & Hc)%Get_Some). by rewrite (findClaim_unique _ _ _ _ _ Huniq Hp Hc).
Qed.

(** GetDevicesByPodUID returns exactly the devices of the pod's claims, and
    reports absence exactly when no claim of the pod was ever stored. *)
Lemma get_by_pod_correct pod w p :
  (exists ds, GetDevicesByPodUID pod w = Some ds /\ p ∈ ds) ↔
    exists claim ds, Get pod claim w = Some ds /\ p ∈ ds.
Proof.
  unfold GetDevicesByPodUID. destruct (w_claims w !! pod) as [cs|] eqn:Hp.
  - split.
    + intros (ds & [= <-] & (claim & ds' & ? & ?)%elem_of_all_devices).
      exists claim, ds'. split; [apply Get_Some; by exists cs|done].
    + intros (claim & ds & (cs' & Hp' & ?)%Get_Some & ?). eexists. split; [done|].
      apply elem_of_all_devices. exists claim, ds. by simplify_eq.
  - split; [by intros (? & ? & ?)|].
    intros (claim & ds & (cs' & Hp' & ?)%Get_Some & ?). congruence.
Qed.

Lemma DeleteClaim_spec claim pod ds w :
  one_pod_per_claim (w_claims w) -> Get pod (no_UID claim) w = Some ds ->
  exists r w', DeleteClaim claim w = (Ret r, w') /\ GetByClaim claim w' = None /\
    GetDevicesByPodUID pod w' = None /\ (forall claim', Get pod claim' w' = None) /\
    (forall pod' claim', pod' ≠ pod -> Get pod' claim' w' = Get pod' claim' w).
Proof.
  intros Huniq (cs & Hp & Hc)%Get_Some. unfold DeleteClaim.
  rewrite (findClaim_unique _ _ _ _ _ Huniq Hp Hc).
  unfold mbind, M_bind, modify. set (w1 := set_claims _ w).
  destruct (sync_result w1) as (r & e & -> & _). exists r, (set_env e w1). split_and!; [done|..].
  - unfold GetByClaim. destruct (findClaim _ _) as [[pod' ds']|] eqn:Hf; [|done].
    apply findClaim_range in Hf as (cs' & Hp' & Hc'). simpl in Hp'.
    apply lookup_delete_Some in Hp' as [Hne Hp']. destruct Hne.
    by eapply (Huniq pod pod' cs cs' (no_UID claim)).
  - unfold GetDevicesByPodUID. simpl. by rewrite lookup_delete_eq.
  - intros claim'. unfold Get. simpl. by rewrite lookup_delete_eq.
  - intros pod' claim' Hne. unfold Get. simpl. by rewrite lookup_delete_ne.
Qed.

(** DeleteClaim forgets the whole pod: whether or not the checkpoint is
    written, afterwards no claim of the pod that held the claim is known, so the
    pod's other claims can never be unprepared; other pods are untouched. *)
Lemma delete_claim_forgets_pod claim pod ds w :
  one_pod_per_claim (w_claims w) -> Get pod (no_UID claim) w = Some ds ->
  exists r w', DeleteClaim claim w = (Ret r, w') /\ GetByClaim claim w' = None /\
    GetDevicesByPodUID pod w' = None /\ (forall claim', Get pod claim' w' = None) /\
    (forall pod' claim', pod' ≠ pod -> Get pod' claim' w' = Get pod' claim' w).
Proof. apply DeleteClaim_spec. Qed.

(** Network data written through one pointer is seen through every other
    pointer to the same device, in the table and in the checkpoint that the call
    writes, and no other device changes. *)
Lemma network_data_is_shared l d nd w :
  w_heap w !! l = Some d ->
  exists r w', UpdatePreparedDeviceNetworkData (Some l) nd w = (Ret r, w') /\
    w_claims w' = w_claims w /\
    w_heap w' !! l = Some (SetNetworkDeviceData nd d) /\
    (forall l', l' ≠ l -> w_heap w' !! l' = w_heap w !! l') /\
    (is_ok r = true ↔ is_ok (CreateCheckpoint DriverPluginCheckpointFile (view w') (w_env w)).1 = true).
Proof.
  intros Hl. unfold UpdatePreparedDeviceNetworkData, load, mbind, M_bind, store, modify. simpl.
  rewrite Hl. set (w1 := set_heap _ w).
  destruct (sync_result w1) as (r & e & -> & r0 & Hr0 & Hr). exists r, (set_env e w1).
  change (view (set_env e w1)) with (view w1). change (w_env w) with (w_env w1).
  rewrite Hr0, Hr. split_and!; simpl; try done.
  - apply lookup_insert_eq.
  - intros l' Hne. by rewrite lookup_insert_ne.
Qed.
End table_properties.

(** ** Persistence *)

Section persistence.
Context `{RangeOrder} {E : Type} `{!CheckpointManager E} `{!CheckpointLaws E}.
Implicit Types (w : World E).

Definition synced (w : World E) : Prop :=
  stored (w_env w) DriverPluginCheckpointFile = Some (view w).

Lemma sync_synced w r w' : syncToCheckpoint w = (Ret (Ok r), w') -> synced w'.
Proof.
  destruct (sync_result w) as (r1 & e & -> & r0 & Hr0 & Hr). intros [= -> <-].
  destruct r0 as [[]|]; [|done]. by apply create_stored in Hr0.
Qed.

Lemma run_call_synced c w r w' :
  synced w -> run_call c w = (Ret (Ok r), w') -> synced w'.
Proof.
  intros Hs. destruct c as [pod claim ds|pod|[l|] nd|claim]; simpl.
  - apply sync_synced.
  - apply sync_synced.
  - unfold mbind, M_bind, load. simpl. destruct (w_heap w !! l); [|done]. apply sync_synced.
  - done.
  - unfold DeleteClaim. destruct (findClaim _ _) as [[uid ?]|].
    + apply sync_synced.
    + by intros [= <- <-].
Qed.

Lemma run_calls_synced cs w r w' :
  synced w -> run_calls cs w = (Ret (Ok r), w') -> synced w'.
Proof.
  revert w. induction cs as [|c cs IH]; intros w Hs.
  - by intros [= <- <-].
  - unfold run_calls. simpl. unfold bind_ok, mbind, M_bind.
    destruct (run_call c w) as [[[[]|err]|why] w1] eqn:Hc; [|done..].
    apply IH. by eapply run_call_synced.
Qed.

Lemma load_view claims w :
  view (let '(t, h) := alloc_claims claims (w_heap w) in set_claims t (set_heap h w)) = claims.
Proof.
  pose proof (alloc_claims_view claims (w_heap w)) as Hv.
  by destruct (alloc_claims claims (w_heap w)).
Qed.

(** Starting on an environment with a written checkpoint. *)
Lemma start_on_checkpoint w c :
  stored (w_env w) DriverPluginCheckpointFile = Some c ->
  match newPodManager w with
  | (Ret (Ok _), w') => view w' = c /\ w_env w' = w_env w
  | (Ret (Err _), _) =>
      is_ok (ListCheckpoints (w_env w)).1 = false \/
      is_ok (GetCheckpoint DriverPluginCheckpointFile (w_env w)).1 = false
  | (Panic _, _) => False
  end.
Proof.
  intros Hc. unfold newPodManager, bind_ok, wrap_err, ext, mbind, M_bind, mret, M_ret.
  destruct (ListCheckpoints (w_env w)) as [[l|err] e] eqn:Hl; simpl; [|by left].
  apply list_stored in Hl as [-> Hl]. rewrite bool_decide_true by (apply Hl; by rewrite Hc).
  simpl. destruct (GetCheckpoint _ _) as [[v|err] e] eqn:Hg; simpl; [|by right].
  destruct (get_stored _ _ _ _ _ Hg Hc) as [-> ->]. unfold modify. simpl. split.
  - apply (load_view c (set_env (w_env w) (set_env (w_env w) w))).
  - by destruct (alloc_claims c _).
Qed.

Lemma start_synced w r w' : newPodManager w = (Ret (Ok r), w') -> synced w'.
Proof.
  intros Hrun. destruct (stored (w_env w) DriverPluginCheckpointFile) as [c|] eqn:Hc.
  - pose proof (start_on_checkpoint w c Hc) as Hst. rewrite Hrun in Hst. destruct Hst as [Hv He].
    unfold synced. by rewrite He, Hv.
  - revert Hrun. unfold newPodManager, bind_ok, wrap_err, ext, mbind, M_bind, mret, M_ret.
    destruct (ListCheckpoints (w_env w)) as [[l|err] e] eqn:Hl; simpl; [|done].
    apply list_stored in Hl as [-> Hl].
    rewrite bool_decide_false by (rewrite Hl, Hc; by intros [? ?]). simpl.
    destruct (CreateCheckpoint _ _ _) as [[[]|err] e] eqn:Hcr; simpl; [|done].
    intros [= <- <-]. by apply create_stored in Hcr.
Qed.

(** C8: A restart loses nothing: after any sequence of successful calls since the
    pod manager was started, a new process that starts on the same checkpoint
    directory sees exactly the table, device by device, that the old one had;
    it can only fail where listing or reading the checkpoint fails. *)
Theorem restart_restores w0 w cs w' m :
  newPodManager w0 = (Ret (Ok tt), w) -> run_calls cs w = (Ret (Ok tt), w') ->
  match newPodManager (mkWorld ∅ ∅ m (w_env w')) with
  | (Ret (Ok _), w2) => view w2 = view w'
  | (Ret (Err _), _) =>
      is_ok (ListCheckpoints (w_env w')).1 = false \/
      is_ok (GetCheckpoint DriverPluginCheckpointFile (w_env w')).1 = false
  | (Panic _, _) => False
  end.
Proof.
  intros Hstart Hrun.
  pose proof (run_calls_synced _ _ _ _ (start_synced _ _ _ Hstart) Hrun) as Hs.
  generalize (start_on_checkpoint (mkWorld ∅ ∅ m (w_env w')) (view w') Hs). simpl w_env.
  destruct (newPodManager (mkWorld ∅ ∅ m (w_env w'))) as [[[[]|]|] w2]; [by intros [? _]|done..].
Qed.
End persistence.

(** ** Concrete runs

    A checkpoint directory is a map from file names to contents; it may be
    read-only. *)
Module PodManagerRuns.
#[local] Existing Instance listing_order.

Record directory : Type := mkDir { files : gmap string CheckpointV1; writable : bool }.

#[local] Instance checkpoints : CheckpointManager directory := {|
  ListCheckpoints := fun e => (Ok (map_to_list (files e)).*1, e);
  GetCheckpoint := fun k e =>
    (match files e !! k with
     | Some c => Ok (Some c)
     | None => Err (ErrExternal "NotExist" "checkpoint is not found")
     end, e);
  CreateCheckpoint := fun k v e =>
    if writable e then (Ok tt, mkDir (<[k := v]> (files e)) true)
    else (Err (ErrExternal "EROFS" "read-only file system"), e)
|}.

#[local] Instance checkpoints_lawful : CheckpointLaws directory.
Proof.
  exists (fun e k => files e !! k).
  - intros k v e e'. simpl. destruct (writable e); [|done]. intros [= <-]. simpl.
    by rewrite lookup_insert_eq.
  - intros e e' l. simpl. intros [= <- <-]. split; [done|]. intros k.
    rewrite list_elem_of_fmap. split.
    + intros ([k' v] & -> & Hin%elem_of_map_to_list). by exists v.
    + intros [v Hv]. exists (k, v). split; [done|by apply elem_of_map_to_list].
  - intros k v e e' c. simpl. intros Hg Hc. rewrite Hc in Hg. by injection Hg as <- <-.
Defined.

Definition manager : Manager := mkManager ∅ ∅ "vfnet" ConfigurationModeStandalone false.

Definition device (name : string) : PreparedDevice :=
  mkPrepared (mkDrapb ["r"] "pool" name []) (mkNsObject "ns" "c" "claim-1") None
    (Some DefaultVfConfig) "net1" "0000:01:00.1" "" "" ∅ None "pod-1" "{}" "iavf".

(** Two claims of one pod, both prepared. *)
Definition world : World directory :=
  mkWorld (<[1%positive := device "a"]> (<[2%positive := device "b"]> ∅))
    (<["pod-1" := <["claim-1" := [Some 1%positive]]> (<["claim-2" := [Some 2%positive]]> ∅)]> ∅)
    manager (mkDir ∅ true).

Definition claim1 : NamespacedObject := mkNsObject "ns" "c" "claim-1".

Lemma world_one_pod : one_pod_per_claim (w_claims world).
Proof.
  intros pod1 pod2 cs1 cs2 claim H1 H2 _ _. simpl in H1, H2.
  apply lookup_insert_Some in H1 as [[<- _]|[_ H1]]; [|done].
  apply lookup_insert_Some in H2 as [[<- _]|[_ H2]]; done.
Qed.

Lemma get_by_claim_correct_witness : GetByClaim claim1 world = Some [Some 1%positive].
Proof. apply (get_by_claim_correct claim1 world _ world_one_pod). exists "pod-1". reflexivity. Defined.

(** The second claim's devices are still in the heap, but nothing refers to them. *)
Lemma delete_claim_forgets_pod_witness :
  Get "pod-1" "claim-2" world = Some [Some 2%positive] /\
  exists w', DeleteClaim claim1 world = (Ret (Ok tt), w') /\ Get "pod-1" "claim-2" w' = None.
Proof.
  split; [reflexivity|].
  destruct (delete_claim_forgets_pod claim1 "pod-1" [Some 1%positive] world world_one_pod eq_refl)
    as (r & w' & Hrun & _ & _ & Hgone & _).
  exists w'. split; [|apply Hgone]. rewrite Hrun. vm_compute in Hrun. by injection Hrun as <- _.
Defined.

Lemma network_data_is_shared_witness :
  exists w', UpdatePreparedDeviceNetworkData (Some 1%positive)
      (Some (mkNetworkData "net1" ["10.0.0.2/24"] "aa:bb")) world = (Ret (Ok tt), w') /\
    pd_NetworkDeviceData <$> w_heap w' !! 1%positive =
      Some (Some (mkNetworkData "net1" ["10.0.0.2/24"] "aa:bb")).
Proof.
  destruct (network_data_is_shared 1%positive (device "a")
    (Some (mkNetworkData "net1" ["10.0.0.2/24"] "aa:bb")) world eq_refl)
    as (r & w' & Hrun & _ & Hl & _).
  exists w'. rewrite Hl. split; [|reflexivity]. rewrite Hrun. vm_compute in Hrun.
  by injection Hrun as <- _.
Defined.

(** Start on an empty directory, store two claims, set network data, restart. *)
Definition boot : World directory := mkWorld (w_heap world) ∅ manager (mkDir ∅ true).
Definition started : World directory := (newPodManager boot).2.
Definition session : list pm_call :=
  [CallSet "pod-1" "claim-1" [Some 1%positive; None]; CallSet "pod-2" "claim-2" [Some 2%positive];
   CallUpdateNetworkData (Some 1%positive) (Some (mkNetworkData "net1" [] "aa:bb"));
   CallDeletePod "pod-3"].
Definition final : World directory := (run_calls session started).2.

Lemma boot_ok : newPodManager boot = (Ret (Ok tt), started).
Proof. vm_compute. reflexivity. Qed.

Lemma session_ok : run_calls session started = (Ret (Ok tt), final).
Proof. vm_compute. reflexivity. Qed.

Definition restarted : World directory := mkWorld ∅ ∅ manager (w_env final).

Lemma restart_restores_witness :
  newPodManager restarted = (Ret (Ok tt), (newPodManager restarted).2) /\
  view (newPodManager restarted).2 = view final /\ size (view final) = 2.
Proof.
  assert (Hr : newPodManager restarted = (Ret (Ok tt), (newPodManager restarted).2))
    by (vm_compute; reflexivity).
  split_and!; [exact Hr| |vm_compute; reflexivity].
  pose proof (restart_restores boot started session final manager boot_ok session_ok) as Hv.
  change (mkWorld ∅ ∅ manager (w_env final)) with restarted in Hv. by rewrite Hr in Hv.
Defined.
End PodManagerRuns.
