(* ===== verification/Checkpoint.v ===== *)
(** * The checkpoint payload (pkg/types/types.go)

    Checkpoint with its checksum, as the checkpoint manager library serializes it.  The
    JSON codec and the checksum function are parameters, with the laws they document. *)

From S2P Require Import Prelude GoLib Prepared PodManager.

(** [V1] is a pointer that may be nil. *)
Record Checkpoint : Type := mkCheckpoint {
  Checksum : Z;
  V1 : option CheckpointV1
}.

Definition NewCheckpoint : Checkpoint := mkCheckpoint 0 (Some ∅).

Definition set_Checksum (c : Z) (cp : Checkpoint) : Checkpoint := mkCheckpoint c (V1 cp).

(** [json.Marshal] of a checkpoint, [json.Unmarshal] into one that may have content,
    and package checksum. *)
Class CheckpointCodec : Type := {
  json_Marshal_Checkpoint : Checkpoint -> result string;
  json_Unmarshal_Checkpoint : string -> Checkpoint -> result Checkpoint;
  checksum_New : string -> Z;
  checksum_Verify : Z -> string -> result unit
}.

Section checkpoint.
Context `{CheckpointCodec}.

Definition MarshalCheckpoint : M Checkpoint (result string) :=
  modify (set_Checksum 0) ;;
  cp ← gets id;
  match json_Marshal_Checkpoint cp with
  | Err err => mret (Err err)
  | Ok out =>
      modify (set_Checksum (checksum_New out)) ;;
      gets json_Marshal_Checkpoint
  end.

(** On an error the object keeps what it had. *)
Definition UnmarshalCheckpoint (data : string) : M Checkpoint (result unit) := fun cp =>
  match json_Unmarshal_Checkpoint data cp with
  | Ok cp => (Ret (Ok tt), cp)
  | Err err => (Ret (Err err), cp)
  end.

Definition VerifyChecksum : M Checkpoint (result unit) :=
  ck ← gets Checksum;
  modify (set_Checksum 0) ;;
  out ← gets json_Marshal_Checkpoint;
  r ← mret (match out with Err err => Err err | Ok out => checksum_Verify ck out end);
  modify (set_Checksum ck) ;;
  mret r.
End checkpoint.

(** What the packages document: a text that was marshalled from a checkpoint with
    content unmarshals to it, in a new one; a checksum verifies the data it was made
    of and nothing with another checksum. *)
Class CheckpointCodecLaws `{CheckpointCodec} : Prop := {
  unmarshal_marshal cp out : is_Some (V1 cp) -> json_Marshal_Checkpoint cp = Ok out ->
    json_Unmarshal_Checkpoint out NewCheckpoint = Ok cp;
  verify_iff ck data : checksum_Verify ck data = Ok tt ↔ ck = checksum_New data
}.

Section checkpoint_properties.
Context `{CheckpointCodecLaws}.

(** C35: A checkpoint survives the disk: what MarshalCheckpoint writes reads back into a
    new checkpoint with the same claims and passes its own checksum, and the check
    leaves the object as it was. *)
Theorem checkpoint_roundtrip cp data cp' :
  is_Some (V1 cp) -> MarshalCheckpoint cp = (Ret (Ok data), cp') ->
  V1 cp' = V1 cp /\ UnmarshalCheckpoint data NewCheckpoint = (Ret (Ok tt), cp') /\
  VerifyChecksum cp' = (Ret (Ok tt), cp').
Proof.
  intros Hv. unfold MarshalCheckpoint, mbind, M_bind, modify, gets. simpl.
  destruct (json_Marshal_Checkpoint (set_Checksum 0 cp)) as [out|err] eqn:Hout; [|done].
  intros Hrun. injection Hrun as Hdata <-. split; [done|]. split.
  - unfold UnmarshalCheckpoint. rewrite (unmarshal_marshal (set_Checksum (checksum_New out) (set_Checksum 0 cp)) data Hv Hdata). done.
  - unfold VerifyChecksum, mbind, M_bind, modify, gets, mret, M_ret. simpl.
    change (set_Checksum 0 (set_Checksum (checksum_New out) (set_Checksum 0 cp))) with (set_Checksum 0 cp).
    rewrite Hout. by rewrite (proj2 (verify_iff (checksum_New out) out) eq_refl).
Qed.
End checkpoint_properties.

(** ** A concrete codec: bit strings, for tables whose pods have no claims *)
Module CheckpointRuns.
Fixpoint bits (p : positive) : string :=
  match p with xH => "" | xO p => String "0" (bits p) | xI p => String "1" (bits p) end.
Fixpoint unbits (s : string) : positive :=
  match s with
  | EmptyString => xH
  | String c s => if bool_decide (c = "0"%char) then xO (unbits s) else xI (unbits s)
  end.
Lemma unbits_bits p : unbits (bits p) = p.
Proof. by induction p as [p IH|p IH|]; simpl; rewrite ?IH. Qed.

Abbreviation claims := (gmap string (list (option PreparedDevice))).
Definition no_claims (t : CheckpointV1) : bool :=
  forallb (fun x : string * claims => bool_decide (size x.2 = 0)) (map_to_list t).
Definition pods (t : CheckpointV1) : list string := (map_to_list t).*1.
Definition of_pods (l : list string) : CheckpointV1 :=
  list_to_map ((fun pod => (pod, ∅ : claims)) <$> l).

Lemma of_pods_keys (t : CheckpointV1) : no_claims t = true -> of_pods (pods t) = t.
Proof.
  intros Ht. unfold of_pods, pods. rewrite <- (list_to_map_to_list t) at 2. f_equal.
  unfold no_claims in Ht. induction (map_to_list t) as [|[pod cs] l IH]; [done|].
  simpl in *. apply andb_prop in Ht as [Hcs%bool_decide_eq_true Hl].
  apply map_size_empty_inv in Hcs as ->. f_equal. by apply IH.
Qed.

#[local] Instance codec : CheckpointCodec := {|
  json_Marshal_Checkpoint cp :=
    match V1 cp with
    | Some t => if no_claims t then Ok (bits (encode (Checksum cp, pods t)))
                else Err (ErrExternal "unsupported" "claims")
    | None => Ok "null"
    end;
  json_Unmarshal_Checkpoint data _ :=
    match (decode (unbits data) : option (Z * list string)) with
    | Some (c, l) => Ok (mkCheckpoint c (Some (of_pods l)))
    | None => Err (ErrExternal "syntax" data)
    end;
  checksum_New data := Z.pos (encode data);
  checksum_Verify ck data :=
    if decide (ck = Z.pos (encode data)) then Ok tt else Err (ErrExternal "corrupt" "checksum")
|}.
#[local] Instance codec_laws : CheckpointCodecLaws.
Proof.
  split.
  - intros [c [t|]] out [? Hv]; [|done]. simpl. destruct (no_claims t) eqn:Ht; [|done].
    intros [= <-]. simpl. rewrite unbits_bits, decode_encode, of_pods_keys by done. done.
  - intros ck data. simpl. case_decide; naive_solver.
Qed.

Definition stored : Checkpoint := mkCheckpoint 0 (Some {["pod-1" := ∅]}).
Definition data : string :=
  match (MarshalCheckpoint stored).1 with Ret (Ok d) => d | _ => "" end.

Lemma marshalled : MarshalCheckpoint stored = (Ret (Ok data), (MarshalCheckpoint stored).2).
Proof. vm_cast_no_check (eq_refl (MarshalCheckpoint stored)). Qed.

Lemma checkpoint_roundtrip_witness : exists cp,
  UnmarshalCheckpoint data NewCheckpoint = (Ret (Ok tt), cp) /\ VerifyChecksum cp = (Ret (Ok tt), cp) /\
  V1 cp = Some {["pod-1" := ∅]}.
Proof.
  destruct (checkpoint_roundtrip stored data (MarshalCheckpoint stored).2) as (Hv & Hread & Hverify);
    [by eexists|exact marshalled|].
  exists (MarshalCheckpoint stored).2. split; [exact Hread|]. split; [exact Hverify|exact Hv].
Defined.
End CheckpointRuns.
