(* ===== verification/Controller.v ===== *)
(** * The resource-policy controller
      (pkg/controller/resourcepolicycontroller.go, pkg/api/sriovdra/v1alpha1/api.go)

    Policies select nodes and devices; the reconciler computes the map from device
    names to extra attributes and hands it to the device-state manager.  Label
    selectors, the API server and the controller runtime are parameters. *)

From S2P Require Import Prelude GoLib Consts K8sTypes Manager.

(** ** API types *)

(** [metav1.LabelSelectorRequirement]; [corev1.NodeSelectorRequirement] has the same
    fields. *)
Record Requirement : Type := mkRequirement {
  req_Key : string;
  req_Operator : string;
  req_Values : list string
}.

Record LabelSelector : Type := mkLabelSelector {
  ls_MatchLabels : gmap string string;
  ls_MatchExpressions : list Requirement
}.

Record NodeSelectorTerm : Type := mkTerm {
  term_MatchExpressions : list Requirement;
  term_MatchFields : list Requirement
}.

(** [*corev1.NodeSelector] by its terms. *)
Abbreviation NodeSelector := (list NodeSelectorTerm).

Record ResourceFilter : Type := mkFilter {
  Vendors : list string;
  Devices : list string;
  PciAddresses : list string;
  PfNames : list string;
  PfPciAddresses : list string;
  Drivers : list string;
  LinkType : string
}.

Record Config : Type := mkConfig {
  DeviceAttributesSelector : option LabelSelector;
  ResourceFilters : list ResourceFilter
}.

Record SriovResourcePolicy : Type := mkPolicy {
  pol_Name : string;
  pol_NodeSelector : option NodeSelector;
  pol_Configs : list Config
}.

Record DeviceAttributes : Type := mkDeviceAttributes {
  da_Name : string;
  da_Labels : gmap string string;
  da_Attributes : gmap string DeviceAttribute
}.

Definition NormalizeLinkType (val : string) : string :=
  let l := ToLower val in
  if bool_decide (l = LinkTypeEth) || bool_decide (l = LinkTypeEthernet) then LinkTypeEthernet
  else if bool_decide (l = LinkTypeIB) || bool_decide (l = LinkTypeInfiniband) then LinkTypeInfiniband
  else l.

(** [metav1.LabelSelectorAsSelector]: the selector's test on label sets. *)
Class LabelSelectors : Type :=
  LabelSelectorAsSelector : LabelSelector -> result (gmap string string -> bool).

(** ** Device filters *)

Fixpoint stringSliceContains (slice : list string) (item : string) : bool :=
  match slice with
  | [] => false
  | s :: slice => if String.eqb s item then true else stringSliceContains slice item
  end.

(** One list criterion of a filter: an empty list restricts nothing. *)
Definition attributeAllowed (values : list string) (key : string) (device : Device) : bool :=
  if decide (0 < length values) then
    match dev_Attributes device !! key with
    | Some (mkAttr _ _ (Some s) _) => stringSliceContains values s
    | _ => false
    end
  else true.

Definition linkTypeAllowed (linkType : string) (device : Device) : bool :=
  if decide (linkType ≠ "") then
    match dev_Attributes device !! AttributeLinkType with
    | Some (mkAttr _ _ (Some s) _) => bool_decide (NormalizeLinkType linkType = s)
    | _ => false
    end
  else true.

Definition deviceMatchesFilter (device : Device) (filter : ResourceFilter) : bool :=
  attributeAllowed (Vendors filter) AttributeVendorID device &&
  attributeAllowed (Devices filter) AttributeDeviceID device &&
  attributeAllowed (PciAddresses filter) AttributePciAddress device &&
  attributeAllowed (PfNames filter) AttributePFName device &&
  attributeAllowed (PfPciAddresses filter) AttributePfPciAddress device &&
  linkTypeAllowed (LinkType filter) device.

Definition deviceMatchesFilters (device : Device) (filters : list ResourceFilter) : bool :=
  if decide (length filters = 0) then true else existsb (deviceMatchesFilter device) filters.

(** ** Node selection *)

Definition nodeSelectorTermToLabelSelector (term : NodeSelectorTerm) : LabelSelector :=
  mkLabelSelector ∅ (term_MatchExpressions term).

Section controller.
Context `{RangeOrder} `{SliceSort} `{LabelSelectors}.

Fixpoint anyTermMatches (nodeLabels : gmap string string) (terms : list NodeSelectorTerm) : bool :=
  match terms with
  | [] => false
  | term :: terms =>
      match LabelSelectorAsSelector (nodeSelectorTermToLabelSelector term) with
      | Err _ => anyTermMatches nodeLabels terms
      | Ok selector => if selector nodeLabels then true else anyTermMatches nodeLabels terms
      end
  end.

Definition matchesNodeSelector (nodeLabels : gmap string string)
    (nodeSelector : option NodeSelector) : bool :=
  match nodeSelector with
  | None | Some [] => true
  | Some terms => anyTermMatches nodeLabels terms
  end.

(** ** Attributes *)

Definition resolveDeviceAttributes (selector : option LabelSelector)
    (allDeviceAttrs : list DeviceAttributes) : gmap string DeviceAttribute :=
  match selector with
  | None => ∅
  | Some selector =>
      match LabelSelectorAsSelector selector with
      | Err _ => ∅
      | Ok sel =>
          let matched := List.filter (fun da => sel (da_Labels da)) allDeviceAttrs in
          foldl (fun merged da =>
            range_fold (fun key val merged => <[key := val]> merged) (da_Attributes da) merged)
            ∅ (sort_Slice (by_name da_Name) matched)
      end
  end.

(** ** The policy map *)

(** Loop over the devices for one configuration. *)
Definition applyConfig (allDeviceAttrs : list DeviceAttributes)
    (allocatableDevices : AllocatableDevices) (policyDevices : PolicyDevices) (config : Config)
  : PolicyDevices :=
  let resolvedAttrs := resolveDeviceAttributes (DeviceAttributesSelector config) allDeviceAttrs in
  range_fold (fun deviceName device policyDevices =>
    match policyDevices !! deviceName with
    | Some _ => policyDevices
    | None =>
        if deviceMatchesFilters device (ResourceFilters config)
        then <[deviceName := range_fold (fun k v attrs => <[k := v]> attrs) resolvedAttrs ∅]> policyDevices
        else policyDevices
    end) allocatableDevices policyDevices.

Definition applyPolicy (allDeviceAttrs : list DeviceAttributes)
    (allocatableDevices : AllocatableDevices) (policyDevices : PolicyDevices)
    (policy : SriovResourcePolicy) : PolicyDevices :=
  foldl (applyConfig allDeviceAttrs allocatableDevices) policyDevices (pol_Configs policy).

Definition getPolicyDeviceMap (allocatableDevices : AllocatableDevices)
    (policies : list SriovResourcePolicy) (allDeviceAttrs : list DeviceAttributes) : PolicyDevices :=
  if decide (length policies = 0) then ∅
  else foldl (applyPolicy allDeviceAttrs allocatableDevices) ∅
         (sort_Slice (by_name pol_Name) policies).
End controller.

(** ** The reconciler *)

(** What the reconciler uses of the API client, and of the device-state manager
    (the interface of pkg/devicestate/interface.go); [S] is the manager's state and
    [E] everything outside of it. *)
Class PolicyClient (E : Type) : Type := {
  GetNode : string -> Call E (result (gmap string string));
  ListPolicies : string -> Call E (result (list SriovResourcePolicy));
  ListDeviceAttributes : string -> Call E (result (list DeviceAttributes))
}.

Class DeviceState (S E : Type) : Type := {
  ds_GetAllocatableDevices : S -> AllocatableDevices;
  ds_UpdatePolicyDevices : PolicyDevices -> M (S * E) (result unit)
}.

(** [ctrl.Result] by its [RequeueAfter] (nanoseconds), with the returned error. *)
Record ReconcileResult : Type := mkReconcileResult {
  RequeueAfter : Z;
  reconcile_err : option error
}.

Section reconcile.
Context `{RangeOrder} `{SliceSort} `{LabelSelectors} `{ApiErrors}.
Context {S E : Type} `{PolicyClient E} `{DeviceState S E} (nodeName namespace : string).

Definition api {A} (c : Call E A) : M (S * E) A := fun '(s, e) =>
  let '(a, e) := c e in (Ret a, (s, e)).

Definition matchingPolicies (nodeLabels : gmap string string) (items : list SriovResourcePolicy)
  : list SriovResourcePolicy :=
  List.filter (fun policy => matchesNodeSelector nodeLabels (pol_NodeSelector policy)) items.

Definition Reconcile : M (S * E) ReconcileResult :=
  node ← api (GetNode nodeName);
  match node with
  | Err err =>
      if IsNotFound err then mret (mkReconcileResult 30000000000 None)
      else mret (mkReconcileResult 0 (Some err))
  | Ok nodeLabels =>
      resourcePolicyList ← api (ListPolicies namespace);
      match resourcePolicyList with
      | Err err => mret (mkReconcileResult 0 (Some err))
      | Ok items =>
          deviceAttrList ← api (ListDeviceAttributes namespace);
          match deviceAttrList with
          | Err err => mret (mkReconcileResult 0 (Some err))
          | Ok attrs =>
              allocatableDevices ← gets (fun w => ds_GetAllocatableDevices w.1);
              let policyDevices := getPolicyDeviceMap allocatableDevices
                                     (matchingPolicies nodeLabels items) attrs in
              updated ← ds_UpdatePolicyDevices policyDevices;
              match updated with
              | Err err => mret (mkReconcileResult 0 (Some err))
              | Ok _ => mret (mkReconcileResult 0 None)
              end
          end
      end
  end.
End reconcile.

(** ** Event filtering (SetupWithManager) *)

(** An object as an event carries it. *)
Record Object : Type := mkObject {
  obj_Name : string;
  obj_Namespace : string;
  obj_Labels : gmap string string
}.

Inductive Event : Type :=
  | CreateEvent (obj : Object)
  | UpdateEvent (old new : Object)
  | DeleteEvent (obj : Object)
  | GenericEvent (obj : Object).

(** The object that [predicate.NewPredicateFuncs] looks at. *)
Definition event_object (e : Event) : Object :=
  match e with CreateEvent o | UpdateEvent _ o | DeleteEvent o | GenericEvent o => o end.

Definition namespacePredicate (namespace : string) (e : Event) : bool :=
  bool_decide (obj_Namespace (event_object e) = namespace).

(** The handlers: whether an event enqueues the sync request. *)
Definition delayedEventHandler (e : Event) : bool := true.

Definition nodeEventHandler (nodeName : string) (e : Event) : bool :=
  match e with
  | CreateEvent o => bool_decide (obj_Name o = nodeName)
  | UpdateEvent old new =>
      bool_decide (obj_Name new = nodeName) && negb (bool_decide (obj_Labels old = obj_Labels new))
  | DeleteEvent o => bool_decide (obj_Name o = nodeName)
  | GenericEvent _ => false
  end.

(** The controller builder: whether an event of a watched kind reaches its handler
    and enqueues a request, under the filter given to [WithEventFilter]. *)
Class EventSource : Type := {
  dispatch : (Event -> bool) -> (Event -> bool) -> Event -> bool;
  dispatch_filtered p h e : p e = false -> dispatch p h e = false;
  dispatch_passed p h e : p e = true -> dispatch p h e = h e
}.

Definition nodeEventEnqueues `{EventSource} (nodeName namespace : string) (e : Event) : bool :=
  dispatch (namespacePredicate namespace) (nodeEventHandler nodeName) e.

Definition policyEventEnqueues `{EventSource} (namespace : string) (e : Event) : bool :=
  dispatch (namespacePredicate namespace) delayedEventHandler e.

(** ** Facts about the loops *)

Section loop_facts.
Context `{RangeOrder}.

Lemma range_fold_copy {V} (m m0 : gmap string V) :
  range_fold (fun k v acc => <[k := v]> acc) m m0 = m ∪ m0.
Proof.
  apply (range_fold_ind (fun m' (acc : gmap string V) => acc = m' ∪ m0)).
  - by rewrite map_empty_union.
  - intros k v m' acc _ _ _ ->. by rewrite insert_union_l.
Qed.

Lemma foldl_pointwise {A B} (f g : B -> A -> B) (Hfg : forall b a, f b a = g b a) l b :
  foldl f b l = foldl g b l.
Proof. revert b. induction l as [|a l IH]; intros b; [done|]. simpl. by rewrite Hfg. Qed.

Lemma foldl_overwrite {A} (f : A -> gmap string DeviceAttribute) l m0 k v :
  foldl (fun merged a => f a ∪ merged) m0 l !! k = Some v ↔
    (exists l1 a l2, l = l1 ++ a :: l2 /\ f a !! k = Some v /\ forall b, b ∈ l2 -> ¬ is_Some (f b !! k))
    \/ ((forall b, b ∈ l -> ¬ is_Some (f b !! k)) /\ m0 !! k = Some v).
Proof.
  revert m0. induction l as [|a l IH]; intros m0; simpl.
  - split; [intros ?; right; split; [intros ? []%elem_of_nil|done]|].
    intros [(l1 & a & l2 & Hnil & _)|[_ ?]]; [by destruct l1|done].
  - rewrite IH, lookup_union_Some_raw. split.
    + intros [(l1 & b & l2 & -> & ? & ?)|[Hnone [Ha|[Ha Hm]]]].
      * left. by exists (a :: l1), b, l2.
      * left. by exists [], a, l.
      * right. split; [|done]. intros b [->|Hb]%elem_of_cons; [by rewrite Ha; intros [??]|by apply Hnone].
    + intros [([|a' l1] & b & l2 & Heq & ? & ?)|[Hnone Hm]]; simplify_eq/=.
      * right. split; [done|by left].
      * left. by exists l1, b, l2.
      * right. split; [intros b Hb; apply Hnone; by right|].
        right. split; [|done]. apply eq_None_not_Some, Hnone. by left.
Qed.
End loop_facts.

Definition string_attr (device : Device) (key : string) : option string :=
  a ← dev_Attributes device !! key; attr_String a.

Lemma stringSliceContains_elem l s : stringSliceContains l s = true ↔ s ∈ l.
Proof.
  induction l as [|x l IH]; simpl; [by rewrite elem_of_nil|].
  rewrite elem_of_cons. destruct (String.eqb_spec x s) as [->|Hne]; [by split; [left|]|].
  rewrite IH. split; [by right|by intros [->|]].
Qed.

(** What a criterion of a filter asks of a device. *)
Definition restricts (values : list string) (key : string) (device : Device) : Prop :=
  values = [] \/ exists s, string_attr device key = Some s /\ s ∈ values.

Lemma attributeAllowed_spec values key device :
  attributeAllowed values key device = true ↔ restricts values key device.
Proof.
  unfold attributeAllowed, restricts, string_attr. destruct values as [|x l]; simpl.
  - split; [by left|done].
  - destruct (dev_Attributes device !! key) as [[i b [s|] v]|]; simpl.
    + change (if String.eqb x s then true else stringSliceContains l s)
        with (stringSliceContains (x :: l) s).
      rewrite stringSliceContains_elem. split; [intros ?; right; by exists s|].
      by intros [|(? & [= <-] & ?)].
    + split; [done|by intros [|(? & ? & ?)]].
    + split; [done|by intros [|(? & ? & ?)]].
Qed.

(** What a whole filter asks of a device; [Drivers] asks nothing. *)
Record admits (f : ResourceFilter) (device : Device) : Prop := {
  admits_vendor : restricts (Vendors f) AttributeVendorID device;
  admits_device : restricts (Devices f) AttributeDeviceID device;
  admits_pci : restricts (PciAddresses f) AttributePciAddress device;
  admits_pf : restricts (PfNames f) AttributePFName device;
  admits_pf_pci : restricts (PfPciAddresses f) AttributePfPciAddress device;
  admits_link : LinkType f = "" \/ string_attr device AttributeLinkType = Some (NormalizeLinkType (LinkType f))
}.

Lemma linkTypeAllowed_spec l device :
  linkTypeAllowed l device = true ↔
    l = "" \/ string_attr device AttributeLinkType = Some (NormalizeLinkType l).
Proof.
  unfold linkTypeAllowed, string_attr. case_decide as Hl.
  - destruct (dev_Attributes device !! AttributeLinkType) as [[i b [s|] v]|]; simpl.
    + rewrite bool_decide_eq_true. split; [intros ->; by right|by intros [|[= ->]]].
    + split; [done|by intros [|]].
    + split; [done|by intros [|]].
  - destruct (decide (l = "")) as [->|]; [by split; [left|]|done].
Qed.

Lemma deviceMatchesFilter_spec device f : deviceMatchesFilter device f = true ↔ admits f device.
Proof.
  unfold deviceMatchesFilter.
  rewrite !andb_true_iff, !attributeAllowed_spec, linkTypeAllowed_spec.
  split; [intros [[[[[] ] ] ] ]; by constructor|by intros []].
Qed.

Lemma deviceMatchesFilters_spec device fs :
  deviceMatchesFilters device fs = true ↔ fs = [] \/ exists f, f ∈ fs /\ admits f device.
Proof.
  unfold deviceMatchesFilters. destruct fs as [|f fs]; simpl; [by split; [left|]|].
  change (deviceMatchesFilter device f || existsb (deviceMatchesFilter device) fs)
    with (existsb (deviceMatchesFilter device) (f :: fs)).
  rewrite existsb_exists. setoid_rewrite deviceMatchesFilter_spec.
  setoid_rewrite list_elem_of_In. split; [by right|by intros [|]].
Qed.

Section map_facts.
Context `{RangeOrder} `{SliceSort} `{LabelSelectors}.
Implicit Types (device : Device) (policies : list SriovResourcePolicy).

(** The first configuration of a list that selects a device. *)
Definition selecting (device : Device) (configs : list Config) : option Config :=
  List.find (fun c => deviceMatchesFilters device (ResourceFilters c)) configs.

Lemma lookup_applyConfig attrs alloc acc config d :
  applyConfig attrs alloc acc config !! d =
    match acc !! d with
    | Some a => Some a
    | None => device ← alloc !! d;
        if deviceMatchesFilters device (ResourceFilters config)
        then Some (resolveDeviceAttributes (DeviceAttributesSelector config) attrs) else None
    end.
Proof.
  unfold applyConfig. rewrite range_fold_copy, map_union_empty.
  set (res := resolveDeviceAttributes _ _).
  revert d. apply (range_fold_ind (fun (m' : AllocatableDevices) (acc' : PolicyDevices) =>
    forall d, acc' !! d = match acc !! d with
      | Some a => Some a
      | None => device ← m' !! d;
          if deviceMatchesFilters device (ResourceFilters config) then Some res else None
      end)).
  - intros d. rewrite lookup_empty. by destruct (acc !! d).
  - intros k device m' acc' Hm' _ _ IH d. destruct (acc' !! k) eqn:Hk.
    + rewrite IH. destruct (decide (k = d)) as [<-|]; [|by rewrite lookup_insert_ne].
      rewrite IH, Hm' in Hk. by destruct (acc !! k).
    + pose proof (IH k) as IHk. rewrite Hk, Hm' in IHk.
      destruct (decide (k = d)) as [<-|Hne].
      * rewrite lookup_insert_eq. destruct (acc !! k); [done|]. simpl.
        destruct (deviceMatchesFilters _ _); [by rewrite lookup_insert_eq|done].
      * rewrite (lookup_insert_ne m') by done. rewrite <- IH.
        destruct (deviceMatchesFilters _ _); [by rewrite lookup_insert_ne|done].
Qed.

Lemma lookup_applyConfigs attrs alloc configs acc d :
  foldl (applyConfig attrs alloc) acc configs !! d =
    match acc !! d with
    | Some a => Some a
    | None => device ← alloc !! d;
        (fun c => resolveDeviceAttributes (DeviceAttributesSelector c) attrs)
          <$> selecting device configs
    end.
Proof.
  revert acc. induction configs as [|c configs IH]; intros acc; simpl.
  - destruct (acc !! d); [done|]. by destruct (alloc !! d).
  - rewrite IH, lookup_applyConfig. destruct (acc !! d); [done|].
    destruct (alloc !! d) as [device|]; [|done]. simpl.
    by destruct (deviceMatchesFilters device (ResourceFilters c)).
Qed.

Lemma foldl_applyPolicy attrs alloc policies acc :
  foldl (applyPolicy attrs alloc) acc policies =
    foldl (applyConfig attrs alloc) acc (mjoin (pol_Configs <$> policies)).
Proof.
  revert acc. induction policies as [|p policies IH]; intros acc; [done|]. csimpl.
  by rewrite foldl_app, IH.
Qed.

Lemma selecting_join device policies c :
  selecting device (mjoin (pol_Configs <$> policies)) = Some c ↔
    exists l1 p l2, policies = l1 ++ p :: l2 /\ selecting device (pol_Configs p) = Some c /\
      forall q, q ∈ l1 -> ¬ is_Some (selecting device (pol_Configs q)).
Proof.
  assert (Happ : forall l1 l2, selecting device (l1 ++ l2) =
    match selecting device l1 with Some c => Some c | None => selecting device l2 end).
  { intros l1 l2. induction l1 as [|c' l1 IH]; [done|]. unfold selecting in *. simpl.
    by destruct (deviceMatchesFilters device (ResourceFilters c')). }
  induction policies as [|p policies IH]; csimpl.
  - split; [done|]. by intros ([|] & ? & ? & ? & _).
  - rewrite Happ. destruct (selecting device (pol_Configs p)) as [c'|] eqn:Hp.
    + split.
      * intros [= ->]. exists [], p, policies. split_and!; [done..|]. by intros ? ?%elem_of_nil.
      * intros ([|p' l1] & q & l2 & Heq & Hq & Hno); simplify_eq/=; [congruence|].
        destruct (Hno p'); [by left|by rewrite Hp].
    + rewrite IH. split.
      * intros (l1 & q & l2 & -> & Hq & Hno). exists (p :: l1), q, l2. split_and!; [done..|].
        intros q' [->|?]%elem_of_cons; [rewrite Hp; by intros [??]|by apply Hno].
      * intros ([|p' l1] & q & l2 & Heq & Hq & Hno); simplify_eq/=.
        exists l1, q, l2. split_and!; [done..|]. intros q' ?. apply Hno. by right.
Qed.

Lemma lookup_policy_map alloc policies attrs d :
  getPolicyDeviceMap alloc policies attrs !! d =
    device ← alloc !! d;
    (fun c => resolveDeviceAttributes (DeviceAttributesSelector c) attrs) <$>
      selecting device (mjoin (pol_Configs <$> sort_Slice (by_name pol_Name) policies)).
Proof.
  unfold getPolicyDeviceMap. case_decide as Hlen.
  - apply length_zero_iff_nil in Hlen as ->. rewrite lookup_empty.
    assert (sort_Slice (by_name pol_Name) [] = []) as ->.
    { apply Permutation_nil_r. by rewrite sort_perm. }
    by destruct (alloc !! d).
  - by rewrite foldl_applyPolicy, lookup_applyConfigs, lookup_empty.
Qed.

(** A device is in the map when it exists and some policy selects it. *)
Lemma policy_map_domain alloc policies attrs d :
  is_Some (getPolicyDeviceMap alloc policies attrs !! d) ↔
    exists device p c, alloc !! d = Some device /\ p ∈ policies /\ c ∈ pol_Configs p /\
      deviceMatchesFilters device (ResourceFilters c) = true.
Proof.
  rewrite lookup_policy_map. destruct (alloc !! d) as [device|]; simpl;
    [|by split; [intros [? ?]|intros (? & ? & ? & ? & _)]].
  set (l := mjoin _). assert (Hl : forall c, c ∈ l ↔ exists p, p ∈ policies /\ c ∈ pol_Configs p).
  { intros c. unfold l. rewrite list_elem_of_join. split.
    - intros (cs & Hc & (p & -> & Hp)%list_elem_of_fmap). exists p. by rewrite sort_perm in Hp.
    - intros (p & Hp & Hc). exists (pol_Configs p). split; [done|]. apply list_elem_of_fmap.
      exists p. by rewrite sort_perm. }
  rewrite fmap_is_Some. unfold selecting. destruct (find _ l) as [c|] eqn:Hf.
  - split; [intros _|by eauto]. apply find_some in Hf as [Hc Hm].
    apply list_elem_of_In, Hl in Hc as (p & ? & ?). by exists device, p, c.
  - split; [by intros [? ?]|]. intros (? & p & c & [= <-] & Hp & Hc & Hm).
    assert (Hin : In c l) by (apply list_elem_of_In, Hl; by exists p).
    by rewrite (find_none _ _ Hf _ Hin) in Hm.
Qed.
End map_facts.

(** ** The contract between reconciler and manager *)

(** Two devices that discovery could not tell apart. *)
Definition same_discovery (a b : Device) : Prop :=
  dev_Name a = dev_Name b /\
  forall k, reserved k = true -> dev_Attributes a !! k = dev_Attributes b !! k.

(** What the manager promises: an update advertises the requested devices that
    exist, whatever becomes of the publication, and never changes what discovery
    found. *)
Class DeviceStateLaws (S E : Type) `{DeviceState S E} : Type := {
  ds_ok : S -> Prop;
  ds_advertised : S -> AllocatableDevices;
  ds_update pd s e o s' e' : ds_ok s -> ds_UpdatePolicyDevices pd (s, e) = (o, (s', e')) ->
    ds_ok s' /\
    (forall d, is_Some (ds_advertised s' !! d) ↔
       is_Some (pd !! d) /\ is_Some (ds_GetAllocatableDevices s !! d)) /\
    (forall d, option_Forall2 same_discovery (ds_GetAllocatableDevices s !! d)
       (ds_GetAllocatableDevices s' !! d))
}.

(** An update advertises the requested devices that exist. *)
Lemma advertised_update `{RangeOrder} pd s d :
  is_Some (GetAdvertisedDevices (spec_update pd s) !! d) ↔ is_Some (pd !! d) /\ is_Some (allocatable s !! d).
Proof.
  rewrite lookup_advertised. simpl. rewrite lookup_spec_keys, lookup_spec_allocatable.
  destruct (allocatable s !! d), (pd !! d); simpl; split; try (by intros [??]); try (by intros [[??][??]]); eauto.
Qed.

(** The manager of Manager.v keeps that promise. *)
Section manager_instance.
Context `{RangeOrder} {E : Type} (cb : option (Manager -> M E (result unit))).

Definition manager_state : DeviceState Manager E :=
  {| ds_GetAllocatableDevices := GetAllocatableDevices;
     ds_UpdatePolicyDevices := UpdatePolicyDevices cb |}.

#[local] Existing Instance manager_state.

Definition manager_state_lawful : DeviceStateLaws Manager E.
Proof.
  refine {| ds_ok := manager_ok; ds_advertised := GetAdvertisedDevices |}.
  intros pd s e o s' e' Hs Hrun. apply (update_state_after _ _ _ _ _ _ _ Hs) in Hrun as ->.
  split_and!; [apply spec_update_ok|intros d; apply advertised_update|].
  intros d. simpl. unfold GetAllocatableDevices. simpl. rewrite lookup_spec_allocatable.
  destruct (allocatable s !! d) as [dev|]; constructor. split; [done|]. intros k Hk. simpl.
  by rewrite lookup_spec_attributes, Hk.
Defined.
End manager_instance.

Lemma same_discovery_matches a b fs :
  same_discovery a b -> deviceMatchesFilters a fs = deviceMatchesFilters b fs.
Proof.
  intros [_ Hattrs]. unfold deviceMatchesFilters. case_decide; [done|].
  assert (Hone : forall f, deviceMatchesFilter a f = deviceMatchesFilter b f).
  { intros f. unfold deviceMatchesFilter, attributeAllowed, linkTypeAllowed.
    rewrite !Hattrs by (vm_compute; reflexivity). done. }
  induction fs as [|f fs IH]; [done|]. simpl. rewrite Hone. destruct fs; [done|]. by rewrite IH.
Qed.

Lemma elem_of_matchingPolicies `{LabelSelectors} nodeLabels items p :
  p ∈ matchingPolicies nodeLabels items ↔ p ∈ items /\ matchesNodeSelector nodeLabels (pol_NodeSelector p) = true.
Proof. unfold matchingPolicies. by rewrite !list_elem_of_In, filter_In. Qed.

(** The policy map only depends on what discovery found. *)
Lemma policy_map_update `{RangeOrder} `{SliceSort} `{LabelSelectors} pd s policies attrs :
  getPolicyDeviceMap (allocatable (spec_update pd s)) policies attrs = getPolicyDeviceMap (allocatable s) policies attrs.
Proof.
  apply map_eq. intros d. rewrite !lookup_policy_map. simpl. rewrite lookup_spec_allocatable.
  destruct (allocatable s !! d) as [dev|]; [|done]. simpl.
  f_equal. unfold selecting. set (l := mjoin _). clearbody l.
  induction l as [|c l IH]; [done|]. simpl. rewrite IH.
  rewrite (same_discovery_matches _ dev); [done|]. split; [done|]. intros k Hk. simpl.
  by rewrite lookup_spec_attributes, Hk.
Qed.

(** ** Properties *)

Section controller_properties.
Context `{RangeOrder} `{SliceSort} `{LabelSelectors}.

(** A list of filters accepts a device exactly when it is empty or one of its
    filters admits the device: each criterion that is given lists the device's
    value of the attribute, link types compared after normalisation. *)
Lemma filters_correct device fs :
  deviceMatchesFilters device fs = true ↔ fs = [] \/ exists f, f ∈ fs /\ admits f device.
Proof. apply deviceMatchesFilters_spec. Qed.

(** The drivers criterion of a filter is ignored: changing it never changes
    which devices the filter accepts. *)
Lemma drivers_criterion_ignored device vendors devices pcis pfs pfPcis drivers1 drivers2 link :
  deviceMatchesFilter device (mkFilter vendors devices pcis pfs pfPcis drivers1 link) =
  deviceMatchesFilter device (mkFilter vendors devices pcis pfs pfPcis drivers2 link).
Proof. reflexivity. Qed.

(** Of the DeviceAttributes objects a selector picks, the one with the
    alphabetically last name decides each attribute it defines, for every order in
    which the API lists them and every sort algorithm. *)
Lemma last_name_wins selector sel all k v :
  NoDup (da_Name <$> all) -> LabelSelectorAsSelector selector = Ok sel ->
  resolveDeviceAttributes (Some selector) all !! k = Some v ↔
    exists da, (da ∈ all /\ sel (da_Labels da) = true) /\ da_Attributes da !! k = Some v /\
      forall da', da' ∈ all -> sel (da_Labels da') = true -> is_Some (da_Attributes da' !! k) ->
        da' = da \/ str_lt (da_Name da') (da_Name da) = true.
Proof.
  intros Hnd Hsel. unfold resolveDeviceAttributes. rewrite Hsel.
  set (matched := List.filter _ all).
  assert (Hin : forall da, da ∈ matched ↔ da ∈ all /\ sel (da_Labels da) = true).
  { intros da. unfold matched. by rewrite !list_elem_of_In, filter_In. }
  assert (Hndm : NoDup (da_Name <$> matched)).
  { unfold matched. clear -Hnd. induction all as [|da all IH]; [done|]. csimpl in *.
    apply NoDup_cons in Hnd as [Hx Hnd]. destruct (sel (da_Labels da)); [|by apply IH].
    csimpl. apply NoDup_cons. split; [|by apply IH].
    intros (da' & Heq & Hda%list_elem_of_In%filter_In)%list_elem_of_fmap. apply Hx.
    rewrite Heq. apply list_elem_of_fmap_2, list_elem_of_In. apply Hda. }
  rewrite (foldl_pointwise _ (fun merged da => da_Attributes da ∪ merged)
    ltac:(intros; apply range_fold_copy)).
  rewrite foldl_overwrite, lookup_empty.
  pose proof (last_by_name da_Name (fun da => is_Some (da_Attributes da !! k)) matched) as Hlast.
  split.
  - intros [(l1 & da & l2 & Hl & Hk & Hno)|[_ ?]]; [|done]. exists da.
    destruct (proj1 (Hlast da Hndm)) as (Hda & _ & Hmax).
    { exists l1, l2. split_and!; [exact Hl|by eexists|exact Hno]. }
    split; [by apply Hin|]. split; [done|]. intros da' ? ? ?. by apply Hmax; [apply Hin|].
  - intros (da & Hda & Hk & Hmax). left.
    destruct (proj2 (Hlast da Hndm)) as (l1 & l2 & Hl & _ & Hno).
    { split_and!; [by apply Hin|by eexists|]. intros da' [? ?]%Hin ?. by apply Hmax. }
    by exists l1, da, l2.
Qed.

(** Each device takes the attributes of the first policy, by name, that has a
    configuration selecting it, and of the first such configuration in it: later
    policies never override it, for every iteration order. *)
Lemma first_policy_wins alloc policies attrs d a :
  NoDup (pol_Name <$> policies) ->
  getPolicyDeviceMap alloc policies attrs !! d = Some a ↔
    exists device p c, alloc !! d = Some device /\ p ∈ policies /\
      selecting device (pol_Configs p) = Some c /\
      a = resolveDeviceAttributes (DeviceAttributesSelector c) attrs /\
      forall q, q ∈ policies -> is_Some (selecting device (pol_Configs q)) ->
        q = p \/ str_lt (pol_Name p) (pol_Name q) = true.
Proof.
  intros Hnd. rewrite lookup_policy_map, bind_Some. setoid_rewrite fmap_Some.
  setoid_rewrite selecting_join.
  assert (Hfirst : forall device p,
    (exists l1 l2, sort_Slice (by_name pol_Name) policies = l1 ++ p :: l2 /\
       is_Some (selecting device (pol_Configs p)) /\
       forall q, q ∈ l1 -> ¬ is_Some (selecting device (pol_Configs q))) ↔ _)
    by (intros; by apply (first_by_name pol_Name
          (fun q => is_Some (selecting device (pol_Configs q))) policies p Hnd)).
  split.
  - intros (device & Hd & c & (l1 & p & l2 & Hl & Hp & Hno) & ->). exists device, p, c.
    destruct (proj1 (Hfirst device p)) as (Hin & _ & Hmin).
    { exists l1, l2. split_and!; [exact Hl|by eexists|exact Hno]. }
    split_and!; done.
  - intros (device & p & c & Hd & Hp & Hc & -> & Hmin). exists device. split; [done|]. exists c.
    split; [|done]. destruct (proj2 (Hfirst device p)) as (l1 & l2 & Hl & _ & Hno).
    { split_and!; [done|by eexists|exact Hmin]. }
    by exists l1, p, l2.
Qed.

(** An empty node selector term selects every node, whatever its field
    requirements: label selectors without requirements match everything. *)
Lemma empty_term_selects_every_node (sel : gmap string string -> bool) fields terms labels :
  LabelSelectorAsSelector (mkLabelSelector ∅ []) = Ok sel -> (forall ls, sel ls = true) ->
  matchesNodeSelector labels (Some (mkTerm [] fields :: terms)) = true.
Proof.
  intros Hsel Hall. unfold matchesNodeSelector. simpl.
  unfold nodeSelectorTermToLabelSelector. simpl. by rewrite Hsel, Hall.
Qed.

(** Recomputing the policy after an update gives the same map and changes
    nothing: for any policy objects, the second of two reconciliations with the
    same API contents is a no-op that publishes nothing. *)
Lemma reconciliation_converges {E} (cb cb' : option (Manager -> M E (result unit)))
    s (e e' : E) o s' policies attrs e2 :
  manager_ok s ->
  UpdatePolicyDevices cb (getPolicyDeviceMap (GetAllocatableDevices s) policies attrs) (s, e)
    = (o, (s', e')) ->
  UpdatePolicyDevices cb' (getPolicyDeviceMap (GetAllocatableDevices s') policies attrs) (s', e2)
    = (Ret (Ok tt), (s', e2)).
Proof.
  intros Hs Hrun. apply (update_state_after _ _ _ _ _ _ _ Hs) in Hrun as ->.
  set (pd := getPolicyDeviceMap (GetAllocatableDevices s) policies attrs).
  assert (getPolicyDeviceMap (GetAllocatableDevices (spec_update pd s)) policies attrs = pd) as ->
    by apply policy_map_update.
  rewrite update_silent; [by rewrite spec_update_idem|apply spec_update_ok|].
  apply spec_update_no_changes. intros d (device & _ & _ & Hd & _)%policy_map_domain. by eexists.
Qed.
End controller_properties.

Section reconcile_properties.
Context `{RangeOrder} `{SliceSort} `{LabelSelectors} `{ApiErrors}.
Context {S E : Type} `{PolicyClient E} `{!DeviceState S E} `{!DeviceStateLaws S E}.
Context (nodeName namespace : string).

(** The API answers the three reads of a reconciliation. *)
Definition api_answers (e : E) (nodeLabels : gmap string string)
    (items : list SriovResourcePolicy) (attrs : list DeviceAttributes) (e3 : E) : Prop :=
  exists e1 e2, GetNode nodeName e = (Ok nodeLabels, e1) /\
    ListPolicies namespace e1 = (Ok items, e2) /\ ListDeviceAttributes namespace e2 = (Ok attrs, e3).

(** C10: A reconciliation whose reads succeed leaves advertised exactly the
    discovered devices that some configuration of a policy for this node selects,
    even when publishing them fails, and reports success only if the update did. *)
Theorem reconcile_advertises_selected s e nodeLabels items attrs e3 o s' e' :
  ds_ok s -> api_answers e nodeLabels items attrs e3 ->
  Reconcile nodeName namespace (s, e) = (o, (s', e')) ->
  ds_ok s' /\
  (forall d, is_Some (ds_advertised s' !! d) ↔
    exists device p c, ds_GetAllocatableDevices s !! d = Some device /\ p ∈ items /\
      matchesNodeSelector nodeLabels (pol_NodeSelector p) = true /\ c ∈ pol_Configs p /\
      deviceMatchesFilters device (ResourceFilters c) = true).
Proof.
  intros Hs (e1 & e2 & Hnode & Hpol & Hattr). unfold Reconcile, mbind, M_bind, api, gets.
  rewrite Hnode, Hpol, Hattr. simpl.
  set (pd := getPolicyDeviceMap _ _ _).
  destruct (ds_UpdatePolicyDevices pd (s, e3)) as [r [s1 e4]] eqn:Hupd.
  destruct (ds_update _ _ _ _ _ _ Hs Hupd) as (Hs1 & Hadv & _). intros Hend.
  assert (s' = s1) as -> by (destruct r as [[|]|]; by injection Hend as _ -> _).
  split; [done|]. intros d. rewrite Hadv. unfold pd. rewrite policy_map_domain. split.
  - intros [(device & p & c & Hd & Hp & Hc & Hm) _]. exists device, p, c.
    by apply elem_of_matchingPolicies in Hp as [Hp Hsel].
  - intros (device & p & c & Hd & Hp & Hsel & Hc & Hm). split; [|by eexists]. exists device, p, c.
    by rewrite elem_of_matchingPolicies.
Qed.

(** A reconciliation that cannot read the API changes nothing in the manager:
    a missing node is retried after thirty seconds, any other error is reported. *)
Lemma reconcile_read_failure s e :
  (forall nodeLabels items attrs e3, ¬ api_answers e nodeLabels items attrs e3) ->
  exists r e', Reconcile nodeName namespace (s, e) = (Ret r, (s, e')) /\
    ((exists err, reconcile_err r = Some err /\ RequeueAfter r = 0%Z) \/
     (reconcile_err r = None /\ RequeueAfter r = 30000000000%Z /\
      exists err, (GetNode nodeName e).1 = Err err /\ IsNotFound err = true)).
Proof.
  intros Hno. unfold Reconcile, mbind, M_bind, api.
  destruct (GetNode nodeName e) as [[labels|err] e1] eqn:Hnode; simpl.
  - destruct (ListPolicies namespace e1) as [[items|err] e2] eqn:Hpol; simpl.
    + destruct (ListDeviceAttributes namespace e2) as [[attrs|err] e3] eqn:Hattr; simpl.
      * destruct (Hno labels items attrs e3). by exists e1, e2.
      * eexists _, _. split; [done|]. left. by exists err.
    + eexists _, _. split; [done|]. left. by exists err.
  - destruct (IsNotFound err) eqn:Hnf; eexists _, _; (split; [done|]).
    + right. split_and!; [done..|]. by exists err.
    + left. by exists err.
Qed.

(** Node events never reach their handler: the filter compares the event's
    namespace with the policies' one, and a Node has none, so a change of node
    labels does not trigger a reconciliation, although the handler asks for one. *)
Lemma node_events_are_dropped `{EventSource} e :
  obj_Namespace (event_object e) = "" -> namespace ≠ "" ->
  nodeEventEnqueues nodeName namespace e = false.
Proof.
  intros He Hns. apply dispatch_filtered. unfold namespacePredicate.
  apply bool_decide_eq_false. congruence.
Qed.
End reconcile_properties.

(** ** Concrete runs *)
Module ControllerRuns.
#[local] Existing Instance listing_order.
#[local] Existing Instance stable_sort.

(** The documented meaning of label selector requirements. *)
Definition requirement_holds (ls : gmap string string) (r : Requirement) : bool :=
  match ls !! req_Key r with
  | Some v => if decide (req_Operator r = "In") then stringSliceContains (req_Values r) v
              else if decide (req_Operator r = "NotIn") then negb (stringSliceContains (req_Values r) v)
              else bool_decide (req_Operator r = "Exists")
  | None => bool_decide (req_Operator r = "NotIn") || bool_decide (req_Operator r = "DoesNotExist")
  end.

#[local] Instance selectors : LabelSelectors := fun sel =>
  if forallb (fun r => stringSliceContains ["In"; "NotIn"; "Exists"; "DoesNotExist"] (req_Operator r))
       (ls_MatchExpressions sel)
  then Ok (fun ls => bool_decide (ls_MatchLabels sel ⊆ ls) &&
                     forallb (requirement_holds ls) (ls_MatchExpressions sel))
  else Err (ErrExternal "Invalid" "not a valid label selector operator").

#[local] Instance errors_lib : ApiErrors := {|
  IsInvalid := fun e => errors_Is e "Invalid"; IsForbidden := fun e => errors_Is e "Forbidden";
  IsNotFound := fun e => errors_Is e "NotFound"; IsConflict := fun e => errors_Is e "Conflict";
  NewNotFound := fun r n => ErrExternal "NotFound" (r +:+ " " +:+ n) |}.

Definition intel : ResourceFilter := mkFilter ["8086"] [] [] [] [] [] "".
Definition everyone : LabelSelector := mkLabelSelector ∅ [].
Definition attrs_a : DeviceAttributes :=
  mkDeviceAttributes "a" ∅ (<["zone" := StringAttr "east"]> (<["rack" := StringAttr "1"]> ∅)).
Definition attrs_b : DeviceAttributes :=
  mkDeviceAttributes "b" ∅ (<["zone" := StringAttr "west"]> ∅).
Definition objects : list DeviceAttributes := [attrs_b; attrs_a].

Definition policy_1 : SriovResourcePolicy :=
  mkPolicy "p1" (Some [mkTerm [mkRequirement "sriov" "In" ["yes"]] []])
    [mkConfig (Some everyone) [intel]].
Definition policy_2 : SriovResourcePolicy := mkPolicy "p2" None [mkConfig None []].
Definition node_labels : gmap string string := <["sriov" := "yes"]> ∅.

Lemma objects_named : NoDup (da_Name <$> objects).
Proof. apply (bool_decide_unpack _). vm_compute. reflexivity. Qed.

Lemma policies_named : NoDup (pol_Name <$> [policy_2; policy_1]).
Proof. apply (bool_decide_unpack _). vm_compute. reflexivity. Qed.

Lemma last_name_wins_witness :
  resolveDeviceAttributes (Some everyone) objects !! "zone" = Some (StringAttr "west").
Proof.
  apply (last_name_wins everyone (fun ls => bool_decide (∅ ⊆ ls) && true) objects "zone"
           (StringAttr "west") objects_named eq_refl).
  exists attrs_b. split_and!; [left|reflexivity|reflexivity|].
  intros da' Hda _ _. apply elem_of_cons in Hda as [->|Hda]; [by left|].
  apply elem_of_cons in Hda as [->|Hda]; [by right|by apply elem_of_nil in Hda].
Defined.

Lemma first_policy_wins_witness :
  getPolicyDeviceMap (allocatable ManagerRuns.discovered) [policy_2; policy_1] objects
    !! "0000-01-00-1" = Some (resolveDeviceAttributes (Some everyone) objects).
Proof.
  apply (first_policy_wins _ _ objects "0000-01-00-1" _ policies_named).
  exists (mkDevice "0000-01-00-1"
            (<[AttributeVendorID := StringAttr "8086"]> (<[AttributeVFID := IntAttr 0]> ∅))).
  exists policy_1, (mkConfig (Some everyone) [intel]).
  split_and!; [reflexivity|right; left|vm_compute; reflexivity|reflexivity|].
  intros q Hq _. apply elem_of_cons in Hq as [->|Hq]; [by right|].
  apply elem_of_cons in Hq as [->|Hq]; [by left|by apply elem_of_nil in Hq].
Defined.

Lemma empty_term_selects_every_node_witness :
  matchesNodeSelector ∅ (Some [mkTerm [] [mkRequirement "metadata.name" "In" ["other-node"]]]) = true.
Proof.
  by apply (empty_term_selects_every_node (fun ls => bool_decide (∅ ⊆ ls) && true)); [|
    intros ls; rewrite bool_decide_true; [done|apply map_empty_subseteq]].
Defined.

Definition computed (s : Manager) : PolicyDevices :=
  getPolicyDeviceMap (GetAllocatableDevices s) [policy_2; policy_1] objects.

Lemma first_reconciliation :
  UpdatePolicyDevices ManagerRuns.counting (computed ManagerRuns.demo) (ManagerRuns.demo, 0) =
    (Ret (Ok tt), ((UpdatePolicyDevices ManagerRuns.counting (computed ManagerRuns.demo)
                     (ManagerRuns.demo, 0)).2.1, 1)).
Proof. vm_compute. reflexivity. Qed.

Lemma reconciliation_converges_witness :
  exists s', UpdatePolicyDevices ManagerRuns.counting (computed ManagerRuns.demo)
               (ManagerRuns.demo, 0) = (Ret (Ok tt), (s', 1)) /\
    UpdatePolicyDevices ManagerRuns.failing (computed s') (s', 1) = (Ret (Ok tt), (s', 1)).
Proof.
  eexists. split; [exact first_reconciliation|].
  exact (reconciliation_converges ManagerRuns.counting ManagerRuns.failing ManagerRuns.demo 0 1
    _ _ [policy_2; policy_1] objects 1 ManagerRuns.demo_ok first_reconciliation).
Defined.

(** An API that answers, on an environment that counts the calls. *)
#[local] Instance answering : PolicyClient nat := {|
  GetNode := fun _ n => (Ok node_labels, S n);
  ListPolicies := fun _ n => (Ok [policy_2; policy_1], S n);
  ListDeviceAttributes := fun _ n => (Ok objects, S n) |}.
#[local] Instance state_instance : DeviceState Manager nat := manager_state ManagerRuns.failing.
#[local] Instance state_lawful : DeviceStateLaws Manager nat :=
  manager_state_lawful ManagerRuns.failing.

Definition reconciled : outcome ReconcileResult * (Manager * nat) :=
  Reconcile "node" "ns" (ManagerRuns.demo, 0).

Lemma reconcile_advertises_selected_witness :
  is_Some (GetAdvertisedDevices reconciled.2.1 !! "0000-01-00-2").
Proof.
  destruct reconciled as [o [s' e']] eqn:Hrun.
  assert (Hok : ds_ok ManagerRuns.demo) by exact ManagerRuns.demo_ok.
  destruct (reconcile_advertises_selected "node" "ns" ManagerRuns.demo 0 node_labels
    [policy_2; policy_1] objects 3 o s' e' Hok) as [_ Hadv].
  - exists 1, 2. split_and!; reflexivity.
  - exact Hrun.
  - apply Hadv. exists (mkDevice "0000-01-00-2"
      (<[AttributeVendorID := StringAttr "8086"]> (<[AttributeVFID := IntAttr 1]> ∅))).
    exists policy_2, (mkConfig None []).
    split_and!; [vm_compute; reflexivity|left|reflexivity|left|reflexivity].
Defined.

Definition missing : PolicyClient nat := {|
  GetNode := fun _ n => (Err (ErrExternal "NotFound" "node"), S n);
  ListPolicies := fun _ n => (Ok [], S n);
  ListDeviceAttributes := fun _ n => (Ok [], S n) |}.

Lemma reconcile_read_failure_witness :
  exists r e', Reconcile (H3:=missing) "node" "ns" (ManagerRuns.demo, 0)
      = (Ret r, (ManagerRuns.demo, e')) /\ RequeueAfter r = 30000000000%Z.
Proof.
  destruct (reconcile_read_failure (H3:=missing) "node" "ns" ManagerRuns.demo 0)
    as (r & e' & Hrun & Hr).
  - intros labels items attrs e3 (e1 & e2 & Hnode & _). simpl in Hnode. discriminate.
  - exists r, e'. split; [exact Hrun|]. destruct Hr as [(err & Hr & _)|(_ & Hr & _)]; [|exact Hr].
    vm_compute in Hrun. injection Hrun as <- _. discriminate.
Defined.

#[local] Instance events : EventSource.
Proof.
  refine {| dispatch := fun p h e => p e && h e |}.
  - by intros p h e ->.
  - by intros p h e ->.
Defined.

Definition relabelled : Event :=
  UpdateEvent (mkObject "node" "" ∅) (mkObject "node" "" node_labels).

Lemma node_events_are_dropped_witness :
  nodeEventHandler "node" relabelled = true /\ nodeEventEnqueues "node" "ns" relabelled = false.
Proof.
  split; [vm_compute; reflexivity|].
  apply (node_events_are_dropped "node" "ns" relabelled); [reflexivity|discriminate].
Defined.
End ControllerRuns.
