(* ===== verification/Host.v ===== *)
(** * Access to the host: sysfs, drivers, kernel modules, RDMA (pkg/host/host.go)

    The functions are translated against the operating system as a parameter
    ([OS], [Providers]); what the PCI subsystem of the kernel does with a write to
    sysfs is stated as laws ([PciKernel]), and the driver-binding theorems are
    proved from them. *)

From S2P Require Import Prelude GoLib Consts K8sTypes VfConfigApi.

(** The parts of package os (and [exec]) that host.go calls.  [os_Lstat] answers
    whether the file is a symbolic link. *)
Class OS (E : Type) : Type := {
  os_Lstat : string -> Call E (result bool);
  os_Stat : string -> Call E (result unit);
  os_Readlink : string -> Call E (result string);
  os_ReadDir : string -> Call E (result (list string));
  os_ReadFile : string -> Call E (result string);
  os_WriteFile : string -> string -> Call E (result unit);
  EvalSymlinks : string -> Call E (result string);
  (** [chroot /proc/1/root modprobe name]: the combined output and the error. *)
  run_modprobe : string -> Call E (string * option error)
}.

Definition os_IsNotExist (e : error) : bool :=
  match e with ErrExternal code _ => bool_decide (code = "NotExist") | _ => false end.

(** The provider interfaces (rdma, sriovnet, netlink) and the PCIe root lookup. *)
Class Providers (E : Type) : Type := {
  GetRdmaDevicesForPcidev : string -> Call E (list string);
  GetRdmaCharDevices : string -> Call E (list string);
  GetUplinkRepresentor : string -> Call E (result string);
  GetDevLinkDeviceEswitchMode : string -> Call E (result string);
  GetPCIeRootAttributeByPCIBusID : string -> Call E (result DeviceAttribute)
}.

Record VFInfo : Type := mkVFInfo {
  vf_PciAddress : string;
  vf_VFID : Z;
  vf_DeviceID : string
}.

Section paths.
Context (RootDir : string).

Definition buildSysPath (path : string) : string :=
  if decide (RootDir ≠ "") then filepath_Join [RootDir; path] else path.

Definition buildSysBusPciPath (pciAddress subPath : string) : string :=
  let basePath := filepath_Join [SysBusPci; pciAddress] in
  let basePath := if decide (subPath ≠ "") then filepath_Join [basePath; subPath] else basePath in
  buildSysPath basePath.

Definition buildSysBusPciDriverPath (driver subPath : string) : string :=
  let basePath := filepath_Join ["/sys/bus/pci/drivers"; driver] in
  let basePath := if decide (subPath ≠ "") then filepath_Join [basePath; subPath] else basePath in
  buildSysPath basePath.

Definition buildProcPath (path : string) : string :=
  if decide (RootDir ≠ "") then filepath_Join [RootDir; path] else path.

Definition buildDevPath (path : string) : string :=
  if decide (RootDir ≠ "") then filepath_Join [RootDir; path] else path.
End paths.

Definition newline : Ascii.ascii := Ascii.ascii_of_nat 10.
Definition nul : string := String (Ascii.ascii_of_nat 0) "".

Section host.
Context {E : Type} `{OS E} `{Providers E} (RootDir : string).

(** ** SR-IOV detection *)

Definition IsSriovVF (pciAddress : string) : Call E bool :=
  r ← os_Lstat (buildSysBusPciPath RootDir pciAddress "physfn"); mret (is_ok r).

Definition IsSriovPF (pciAddress : string) : Call E bool :=
  r ← os_Lstat (buildSysBusPciPath RootDir pciAddress "virtfn0"); mret (is_ok r).

(** Body of the loop over the PF's directory. *)
Definition vfOfEntry (pfPath entry : string) (vfList : list VFInfo) : Call E (list VFInfo) :=
  if HasPrefix entry "virtfn" then
    target ← os_Readlink (filepath_Join [pfPath; entry]);
    match target with
    | Err _ => mret vfList
    | Ok target =>
        match Atoi (TrimPrefix entry "virtfn") with
        | Err _ => mret vfList
        | Ok vfID =>
            let vfAddr := filepath_Base target in
            deviceIDBytes ← os_ReadFile (buildSysBusPciPath RootDir vfAddr "device");
            let vfDeviceID := match deviceIDBytes with
                              | Err _ => ""
                              | Ok bytes => TrimPrefix (TrimSpace bytes) "0x"
                              end in
            mret (vfList ++ [mkVFInfo vfAddr vfID vfDeviceID])
        end
    end
  else mret vfList.

Definition GetVFList (pfPciAddress : string) : Call E (result (list VFInfo)) :=
  let pfPath := buildSysBusPciPath RootDir pfPciAddress "" in
  entries ←! call_err (errorv "failed to read PF directory: %v" []) (os_ReadDir pfPath);
  vfList ← call_each entries (vfOfEntry pfPath) [];
  mret (Ok vfList).

(** ** PCI discovery *)

Definition TryGetPFInterfaceName (pciAddr : string) : Call E string :=
  name ← GetUplinkRepresentor pciAddr;
  match name with
  | Ok name => mret name
  | Err err =>
      if negb (errors_Is err "ErrRepresentorNotFound") then mret ""
      else
        let netDir := buildSysBusPciPath RootDir pciAddr "net" in
        st ← os_Lstat netDir;
        match st with
        | Err _ => mret ""
        | Ok _ =>
            fInfos ← os_ReadDir netDir;
            match fInfos with
            | Ok (first :: _) => mret first
            | _ => mret ""
            end
        end
  end.

Definition GetNicSriovMode (pciAddr : string) : Call E string :=
  mode ← GetDevLinkDeviceEswitchMode pciAddr;
  match mode with
  | Err _ => mret EswitchModeLegacy
  | Ok mode => mret (if decide (mode = "") then EswitchModeLegacy else mode)
  end.

Definition ArphrdEther : Z := 1.
Definition ArphrdInfiniband : Z := 32.

Definition GetLinkType (pciAddr : string) : Call E (result string) :=
  ifName ← TryGetPFInterfaceName pciAddr;
  if decide (ifName = "") then
    mret (Err (errorf "unable to get interface name for PCI address %s" [pciAddr]))
  else
    content ←! call_err (errorw "failed to read link type for interface %s: %w" [ifName])
                 (os_ReadFile (buildSysPath RootDir ("/sys/class/net/" +:+ ifName +:+ "/type")));
    let typeValue := TrimSpace content in
    match Atoi typeValue with
    | Err err =>
        mret (Err (errorw "failed to parse link type value %s for interface %s: %w"
                     [typeValue; ifName] err))
    | Ok typeInt =>
        mret (Ok (if decide (typeInt = ArphrdEther) then LinkTypeEthernet
                  else if decide (typeInt = ArphrdInfiniband) then LinkTypeInfiniband
                  else LinkTypeUnknown))
    end.

Definition GetNumaNode (pciAddress : string) : Call E (result string) :=
  content ← os_ReadFile (buildSysBusPciPath RootDir pciAddress "numa_node");
  match content with
  | Err err =>
      if os_IsNotExist err then mret (Ok "-1")
      else mret (Err (errorv "failed to read numa_node for %s: %v" [pciAddress] err))
  | Ok content => mret (Ok (TrimSpace content))
  end.

Definition GetPCIeRoot (pciAddress : string) : Call E (result string) :=
  attr ←! call_err (errorw "failed to get PCIe root for %s: %w" [pciAddress])
            (GetPCIeRootAttributeByPCIBusID pciAddress);
  match attr_String attr with
  | Some s => mret (Ok s)
  | None => mret (Err (errorf "PCIe root attribute for %s has no string value" [pciAddress]))
  end.

(** ** Kernel modules *)

Definition moduleLine (moduleName line : string) : bool :=
  HasPrefix line (moduleName +:+ " ") || bool_decide (line = moduleName).

Definition IsKernelModuleLoaded (moduleName : string) : Call E bool :=
  content ← os_ReadFile (buildProcPath RootDir "/proc/modules");
  match content with
  | Err _ => mret false
  | Ok content => mret (existsb (moduleLine moduleName) (Split content newline))
  end.

Definition LoadKernelModule (moduleName : string) : Call E (result unit) :=
  '(output, err) ← run_modprobe moduleName;
  match err with
  | Some err =>
      mret (Err (errorw "failed to load kernel module %s: %w (output: %s)" [moduleName; output] err))
  | None => mret (Ok tt)
  end.

(** The two loops that [EnsureDpdkModuleLoaded] and [EnsureVhostModulesLoaded]
    share line for line: collect the missing modules, then load and verify each. *)
Definition collectMissing (modulesNames : list string) : Call E (list string) :=
  call_each modulesNames (fun moduleName modulesToLoad =>
    loaded ← IsKernelModuleLoaded moduleName;
    mret (if loaded : bool then modulesToLoad else modulesToLoad ++ [moduleName])) [].

Definition loadAndVerify (moduleName : string) (errs : list error) : Call E (list error) :=
  r ← LoadKernelModule moduleName;
  match r with
  | Err err => mret (errs ++ [errorw "failed to load module %s: %w" [moduleName] err])
  | Ok _ =>
      loaded ← IsKernelModuleLoaded moduleName;
      if loaded : bool then mret errs
      else mret (errs ++ [errorf "module %s was not loaded after LoadKernelModule call" [moduleName]])
  end.

Definition loadMissing (fmt : string) (args modulesToLoad : list string) : Call E (result unit) :=
  errs ← call_each modulesToLoad loadAndVerify [];
  match errs with
  | [] => mret (Ok tt)
  | _ => mret (Err (Errorf fmt (itoa (Z.of_nat (length errs)) :: itoa (Z.of_nat (length modulesToLoad)) :: args) errs []))
  end.

Definition IsDpdkDriver (driver : string) : bool :=
  existsb (String.eqb driver) ["vfio-pci"; "uio_pci_generic"; "igb_uio"].

Definition EnsureDpdkModuleLoaded (driver : string) : Call E (result unit) :=
  if negb (IsDpdkDriver driver) then mret (Ok tt)
  else if negb (String.eqb driver "vfio-pci") then
    mret (Err (errorf "unknown DPDK driver: %s" [driver]))
  else
    modulesToLoad ← collectMissing ["vfio"; "vfio_pci"];
    if decide (length modulesToLoad = 0) then mret (Ok tt)
    else loadMissing "failed to load %d out of %d required kernel modules for DPDK driver %s: %v"
           [driver] modulesToLoad.

Definition EnsureVhostModulesLoaded : Call E (result unit) :=
  modulesToLoad ← collectMissing ["tun"; "vhost_net"];
  if decide (length modulesToLoad = 0) then mret (Ok tt)
  else loadMissing "failed to load %d out of %d required kernel modules for vhost functionality: %v"
         [] modulesToLoad.

(** ** Drivers *)

Definition GetDriverByBusAndDevice (device : string) : Call E (result string) :=
  driverInfo ← os_Readlink (buildSysBusPciPath RootDir device "driver");
  match driverInfo with
  | Err err => if errors_Is err "NotExist" then mret (Ok "") else mret (Err err)
  | Ok driverInfo => mret (Ok (filepath_Base driverInfo))
  end.

Definition bindDriver (device driver : string) : Call E (result unit) :=
  os_WriteFile (buildSysBusPciDriverPath RootDir driver "bind") device.

Definition unbindDriver (device driver : string) : Call E (result unit) :=
  os_WriteFile (buildSysBusPciDriverPath RootDir driver "unbind") device.

Definition probeDriver (device : string) : Call E (result unit) :=
  os_WriteFile (buildSysPath RootDir "/sys/bus/pci/drivers_probe") device.

Definition setDriverOverride (device override : string) : Call E (result unit) :=
  let driverOverridePath := buildSysBusPciPath RootDir device "driver_override" in
  st ← os_Stat driverOverridePath;
  match st with
  | Err err => if os_IsNotExist err then mret (Ok tt) else mret (Err err)
  | Ok _ =>
      let overrideData := if decide (override ≠ "") then override else nul in
      os_WriteFile driverOverridePath overrideData
  end.

Definition UnbindDriverByBusAndDevice (device : string) : Call E (result unit) :=
  driver ←! GetDriverByBusAndDevice device;
  if decide (driver = "") then mret (Ok tt) else unbindDriver device driver.

(** Unbind the device if it has a driver: the step both ways of binding share. *)
Definition unbindCurrent (device curDriver : string) : Call E (result unit) :=
  if decide (curDriver ≠ "") then UnbindDriverByBusAndDevice device else mret (Ok tt).

Definition BindDriverByBusAndDevice (device driver : string) : Call E (result unit) :=
  _ ←! call_err (errorw "failed to ensure DPDK module is loaded for driver %s: %w" [driver])
         (EnsureDpdkModuleLoaded driver);
  curDriver ←! GetDriverByBusAndDevice device;
  if decide (curDriver = driver /\ curDriver ≠ "") then mret (Ok tt)
  else
    _ ←! unbindCurrent device curDriver;
    _ ←! setDriverOverride device driver;
    _ ←! bindDriver device driver;
    setDriverOverride device "".

Definition BindDefaultDriver (pciAddress : string) : Call E (result unit) :=
  curDriver ←! GetDriverByBusAndDevice pciAddress;
  if bool_decide (curDriver ≠ "") && negb (IsDpdkDriver curDriver) then mret (Ok tt)
  else
    _ ←! unbindCurrent pciAddress curDriver;
    _ ←! setDriverOverride pciAddress "";
    probeDriver pciAddress.

(** Returns the driver the device was bound to before. *)
Definition BindDeviceDriver (pciAddress : string) (config : VfConfig) : Call E (result string) :=
  if decide (vf_Driver config = "") then mret (Ok "")
  else
    currentDriver ←! call_err (errorw "failed to get current driver for device %s: %w" [pciAddress])
                       (GetDriverByBusAndDevice pciAddress);
    if decide (vf_Driver config = "default") then
      _ ←! call_err (errorw "failed to bind device %s to default driver: %w" [pciAddress])
             (BindDefaultDriver pciAddress);
      mret (Ok currentDriver)
    else
      _ ←! call_err (errorw "failed to bind device %s to driver %s: %w" [pciAddress; vf_Driver config])
             (BindDriverByBusAndDevice pciAddress (vf_Driver config));
      mret (Ok currentDriver).

Definition RestoreDeviceDriver (pciAddress originalDriver : string) : Call E (result unit) :=
  if decide (originalDriver = "") then BindDefaultDriver pciAddress
  else BindDriverByBusAndDevice pciAddress originalDriver.

(** ** VFIO *)

(** The host and the container path of the VFIO group device. *)
Definition GetVFIODeviceFile (pciAddress : string) : Call E (result (string * string)) :=
  let devDir := "/dev" in
  let devPath := buildSysBusPciPath RootDir pciAddress "" in
  _ ←! call_err (errorv "GetVFIODeviceFile(): Could not get directory information for device: %s, Err: %v"
                   [pciAddress]) (os_Lstat devPath);
  let iommuDir := filepath_Join [devPath; "iommu_group"] in
  isSymlink ←! call_err (errorv "GetVFIODeviceFile(): unable to find iommu_group %v" [])
                 (os_Lstat iommuDir);
  if negb isSymlink then
    mret (Err (errorf "GetVFIODeviceFile(): invalid symlink to iommu_group %v" ["<nil>"]))
  else
    linkName ←! call_err (errorv "GetVFIODeviceFile(): error reading symlink to iommu_group %v" [])
                  (EvalSymlinks iommuDir);
    let devFileContainer := filepath_Join [devDir; "vfio"; filepath_Base linkName] in
    vfioName ← os_ReadFile (filepath_Join [linkName; "name"]);
    match vfioName with
    | Ok vfioName =>
        if decide (TrimSpace vfioName = "vfio-noiommu") then
          let linkName := filepath_Join [filepath_Dir linkName; "noiommu-" +:+ filepath_Base linkName] in
          mret (Ok (filepath_Join [devDir; "vfio"; filepath_Base linkName], devFileContainer))
        else mret (Ok (devFileContainer, devFileContainer))
    | Err _ => mret (Ok (devFileContainer, devFileContainer))
    end.

Definition GetVFIOCdevPath (pciAddress : string) : Call E (result string) :=
  entries ← os_ReadDir (buildSysBusPciPath RootDir pciAddress "vfio-dev");
  match entries with
  | Err err =>
      if os_IsNotExist err then mret (Ok "")
      else mret (Err (errorw "GetVFIOCdevPath(): failed to read vfio-dev directory for device %s: %w"
                        [pciAddress] err))
  | Ok [] => mret (Ok "")
  | Ok [entry] => mret (Ok (filepath_Join ["/dev/vfio/devices"; entry]))
  | Ok names =>
      mret (Err (errorf "GetVFIOCdevPath(): unexpected multiple cdev entries for device %s: %v"
                   (pciAddress :: names)))
  end.

Definition IsIommufdAvailable : Call E bool :=
  st ← os_Stat (buildDevPath RootDir "/dev/iommu"); mret (is_ok st).

(** ** RDMA *)

Definition GetRDMADevicesForPCI (pciAddr : string) : Call E (list string) :=
  GetRdmaDevicesForPcidev pciAddr.

Definition VerifyRDMACapability (pciAddr : string) : Call E bool :=
  rdmaDevices ← GetRDMADevicesForPCI pciAddr; mret (bool_decide (0 < length rdmaDevices)).

Definition GetRDMACharDevices (rdmaDeviceName : string) : Call E (result (list string)) :=
  if decide (rdmaDeviceName = "") then mret (Err (errorf "rdmaDeviceName cannot be empty" []))
  else charDevices ← GetRdmaCharDevices rdmaDeviceName; mret (Ok charDevices).
End host.

(** ** What the kernel does

    [same_kernel] relates two states of the world between which the driver
    bindings and the loaded modules did not change.  Reads do not change them.
    A write to a sysfs attribute that reports success has had its documented
    effect (Documentation/ABI/testing/sysfs-bus-pci); one that fails has had none.
    Loading a module may let the kernel attach it to unbound devices, but takes no
    device away from its driver. *)
Class PciKernel (E : Type) `{OS E} (RootDir : string) : Type := {
  pci_device : string -> Prop;
  pci_driver : string -> Prop;
  bound : E -> string -> option string;
  modules : E -> list string;
  same_kernel e e' := (forall dev, bound e' dev = bound e dev) /\ modules e' = modules e;

  bound_valid e dev drv : bound e dev = Some drv -> pci_driver drv;
  lstat_reads p e : same_kernel e (os_Lstat p e).2;
  stat_reads p e : same_kernel e (os_Stat p e).2;
  readlink_reads p e : same_kernel e (os_Readlink p e).2;
  readdir_reads p e : same_kernel e (os_ReadDir p e).2;
  readfile_reads p e : same_kernel e (os_ReadFile p e).2;
  evalsymlinks_reads p e : same_kernel e (EvalSymlinks p e).2;

  driver_link dev e : pci_device dev ->
    match (os_Readlink (buildSysBusPciPath RootDir dev "driver") e).1 with
    | Ok target => bound e dev = Some (filepath_Base target)
    | Err err => errors_Is err "NotExist" = true -> bound e dev = None
    end;

  write_unbind dev drv e r e' : pci_device dev -> pci_driver drv ->
    os_WriteFile (buildSysBusPciDriverPath RootDir drv "unbind") dev e = (r, e') ->
    modules e' = modules e /\ (forall dev', bound e' dev' =
      if decide (is_ok r = true /\ dev' = dev) then None else bound e dev');
  write_bind dev drv e r e' : pci_device dev -> pci_driver drv ->
    os_WriteFile (buildSysBusPciDriverPath RootDir drv "bind") dev e = (r, e') ->
    modules e' = modules e /\ (forall dev', bound e' dev' =
      if decide (is_ok r = true /\ dev' = dev) then Some drv else bound e dev');
  write_override dev v e : pci_device dev ->
    same_kernel e (os_WriteFile (buildSysBusPciPath RootDir dev "driver_override") v e).2;
  write_probe dev e r e' : pci_device dev ->
    os_WriteFile (buildSysPath RootDir "/sys/bus/pci/drivers_probe") dev e = (r, e') ->
    modules e' = modules e /\
    (forall dev', dev' ≠ dev \/ is_Some (bound e dev') -> bound e' dev' = bound e dev');

  modprobe_keeps m e dev drv : bound e dev = Some drv -> bound (run_modprobe m e).2 dev = Some drv;
  modprobe_adds m e x : x ∈ modules e -> x ∈ modules (run_modprobe m e).2;

  (** Each line of /proc/modules is a name and, after a space, the other columns. *)
  proc_modules e content : (os_ReadFile (buildProcPath RootDir "/proc/modules") e).1 = Ok content ->
    exists rows : list (string * string), modules e = rows.*1 /\
      content = foldr (fun row s => row.1 +:+ " " +:+ row.2 +:+ String newline s) "" rows /\
      Forall (fun row => avoids " "%char row.1 /\ avoids newline row.1 /\ avoids newline row.2) rows
}.

(** ** The module list *)

Lemma avoids_app c s t : avoids c s -> avoids c t -> avoids c (s +:+ t).
Proof. induction s as [|c' s IH]; simpl; [done|]. intros [? ?] ?. split; [done|by apply IH]. Qed.

Lemma prefix_word m n rest :
  avoids " "%char m -> avoids " "%char n ->
  HasPrefix (n +:+ " " +:+ rest) (m +:+ " ") = bool_decide (n = m).
Proof.
  revert n. induction m as [|c m IH]; intros n Hm Hn.
  - destruct n as [|c' n]; [by destruct rest|]. destruct Hn as [Hn _].
    change (HasPrefix (String c' (n +:+ " " +:+ rest)) " " = bool_decide (String c' n = "")).
    rewrite HasPrefix_cons, !bool_decide_false; [done..|congruence].
  - destruct Hm as [Hc Hm]. destruct n as [|c' n].
    + change (HasPrefix (String " " rest) (String c (m +:+ " ")) = bool_decide ("" = String c m)).
      rewrite HasPrefix_cons, !bool_decide_false; done.
    + destruct Hn as [_ Hn].
      change (HasPrefix (String c' (n +:+ " " +:+ rest)) (String c (m +:+ " ")) =
        bool_decide (String c' n = String c m)).
      rewrite HasPrefix_cons, (IH n Hm Hn). rewrite <- bool_decide_and.
      apply bool_decide_ext. split; [intros [-> ->]; done|by intros [= -> ->]].
Qed.

Lemma module_listed (m : string) (rows : list (string * string)) :
  m ≠ "" -> avoids " "%char m ->
  Forall (fun row => avoids " "%char row.1 /\ avoids newline row.1 /\ avoids newline row.2) rows ->
  existsb (moduleLine m)
    (Split (foldr (fun row s => row.1 +:+ " " +:+ row.2 +:+ String newline s) "" rows) newline) = true
  ↔ m ∈ rows.*1.
Proof.
  intros Hm Hsp. induction 1 as [|[n rest] rows (Hn & Hnl & Hrest) _ IH]; simpl.
  - rewrite orb_false_r. unfold moduleLine. split.
    + intros [Hp|Hp]%orb_true_iff.
      * by destruct m.
      * apply bool_decide_eq_true in Hp. by subst.
    + by intros ?%elem_of_nil.
  - simpl in Hn, Hnl, Hrest.
    assert (Hassoc : forall s, n +:+ " " +:+ rest +:+ String newline s =
      (n +:+ " " +:+ rest) +:+ String newline s).
    { intros s. by rewrite !str_app_assoc. }
    rewrite Hassoc, Split_cons_line.
    + simpl. rewrite orb_true_iff, IH, elem_of_cons. unfold moduleLine at 1.
      rewrite prefix_word by done. rewrite orb_true_iff, !bool_decide_eq_true.
      split; [intros [[->|Heq]|]; [by left| |by right]|intros [->|]; [by left; left|by right]].
      exfalso. rewrite <- Heq in Hsp. clear -Hsp. induction n as [|c n IH]; simpl in Hsp; [by destruct Hsp|].
      by apply IH, Hsp.
    + apply avoids_app; [done|]. simpl. split; [done|done].
Qed.

(** ** Facts about the kernel state *)

Section kernel_facts.
Context {E : Type} `{OS E} `{!Providers E} {RootDir : string} `{!PciKernel E RootDir}.
Implicit Types (e : E) (dev drv : string).

(** What every operation on [dev] guarantees, whatever it returns: no other device
    leaves its driver, no module disappears. *)
Definition frame dev e e' : Prop :=
  (forall dev' drv, dev' ≠ dev -> bound e dev' = Some drv -> bound e' dev' = Some drv) /\
  modules e ⊆ modules e'.

(** The same, [dev] included. *)
Definition keeps e e' : Prop :=
  (forall dev drv, bound e dev = Some drv -> bound e' dev = Some drv) /\ modules e ⊆ modules e'.

Lemma same_refl e : same_kernel e e. Proof. by split. Qed.
Lemma same_trans e1 e2 e3 : same_kernel e1 e2 -> same_kernel e2 e3 -> same_kernel e1 e3.
Proof.
  intros [Hb1 Hm1] [Hb2 Hm2]. split; [intros dev; by rewrite Hb2, Hb1|by rewrite Hm2, Hm1].
Qed.
Lemma same_keeps e1 e2 : same_kernel e1 e2 -> keeps e1 e2.
Proof. intros [Hb Hm]. split; [intros dev drv ?; by rewrite Hb|by rewrite Hm]. Qed.
Lemma keeps_trans e1 e2 e3 : keeps e1 e2 -> keeps e2 e3 -> keeps e1 e3.
Proof. intros [Hb1 Hm1] [Hb2 Hm2]. split; [by auto|by trans (modules e2)]. Qed.
Lemma keeps_frame dev e1 e2 : keeps e1 e2 -> frame dev e1 e2.
Proof. intros [Hb Hm]. split; [by auto|done]. Qed.
Lemma same_frame dev e1 e2 : same_kernel e1 e2 -> frame dev e1 e2.
Proof. intros. by apply keeps_frame, same_keeps. Qed.
Lemma frame_trans dev e1 e2 e3 : frame dev e1 e2 -> frame dev e2 e3 -> frame dev e1 e3.
Proof. intros [Hb1 Hm1] [Hb2 Hm2]. split; [by auto|by trans (modules e2)]. Qed.

(** ** Modules *)

Definition module_name (m : string) : Prop := m ≠ "" /\ avoids " "%char m.

Lemma IsKernelModuleLoaded_spec m e b e' :
  module_name m -> IsKernelModuleLoaded RootDir m e = (b, e') ->
  same_kernel e e' /\ (b = true -> m ∈ modules e).
Proof.
  intros [Hne Hsp]. unfold IsKernelModuleLoaded, mbind, Call_bind, mret, Call_ret.
  pose proof (readfile_reads (buildProcPath RootDir "/proc/modules") e) as Hread.
  pose proof (proc_modules (RootDir:=RootDir) e) as Hproc.
  destruct (os_ReadFile _ e) as [[content|err] e1]; simpl in *; intros [= <- <-]; [|done].
  split; [done|]. destruct (Hproc content eq_refl) as (rows & -> & -> & Hrows).
  by apply module_listed.
Qed.

Lemma collectMissing_spec names e missing e' :
  Forall module_name names -> collectMissing RootDir names e = (missing, e') ->
  same_kernel e e' /\ Forall module_name missing /\
  forall m, m ∈ names -> m ∈ missing \/ m ∈ modules e.
Proof.
  intros Hnames. unfold collectMissing.
  assert (Hgen : forall names acc e missing e', Forall module_name names -> Forall module_name acc ->
    call_each names (fun moduleName modulesToLoad =>
      loaded ← IsKernelModuleLoaded RootDir moduleName;
      mret (if loaded : bool then modulesToLoad else modulesToLoad ++ [moduleName])) acc e
      = (missing, e') ->
    same_kernel e e' /\ Forall module_name missing /\ (forall m, m ∈ acc -> m ∈ missing) /\
    forall m, m ∈ names -> m ∈ missing \/ m ∈ modules e).
  { clear. induction names as [|n names IH]; intros acc e missing e' Hn Hacc.
    - intros [= <- <-]. split_and!; [apply same_refl|done|done|by intros m ?%elem_of_nil].
    - apply Forall_cons in Hn as [Hn Hnames]. simpl. unfold mbind, Call_bind.
      destruct (IsKernelModuleLoaded RootDir n e) as [b e1] eqn:Hb. simpl.
      apply IsKernelModuleLoaded_spec in Hb as [Hsame Hb]; [|done].
      intros (Hs & Hm & Hacc' & Hrest)%IH; [|done|].
      + split_and!; [by eapply same_trans|done| |].
        * intros m Hin. apply Hacc'. destruct b; [done|]. apply elem_of_app. by left.
        * intros m [->|Hin]%elem_of_cons.
          -- destruct b; [right; by apply Hb|left]. apply Hacc', elem_of_app. right. by left.
          -- destruct (Hrest m Hin) as [?|Hin']; [by left|right]. destruct Hsame as [_ Hms].
             by rewrite <- Hms.
      + destruct b; [done|]. apply Forall_app. split; [done|by constructor]. }
  intros Hrun. destruct (Hgen names [] e missing e' Hnames ltac:(constructor) Hrun)
    as (? & ? & _ & ?). by split_and!.
Qed.

Lemma loadAndVerify_spec m errs e errs' e' :
  module_name m -> loadAndVerify RootDir m errs e = (errs', e') ->
  keeps e e' /\ exists l, errs' = errs ++ l /\ (l = [] -> m ∈ modules e').
Proof.
  intros Hm. unfold loadAndVerify, LoadKernelModule, mbind, Call_bind, mret, Call_ret.
  assert (Hk : keeps e (run_modprobe m e).2).
  { split; [intros dev drv; apply modprobe_keeps|intros x; apply modprobe_adds]. }
  destruct (run_modprobe m e) as [[output [err|]] e1]; simpl in *.
  - intros [= <- <-]. split; [done|]. by eexists.
  - destruct (IsKernelModuleLoaded RootDir m e1) as [b e2] eqn:Hb.
    apply IsKernelModuleLoaded_spec in Hb as [Hsame Hb]; [|done].
    destruct b; intros [= <- <-].
    + split; [by eapply keeps_trans, same_keeps|]. exists []. rewrite app_nil_r. split; [done|].
      intros _. destruct Hsame as [_ ->]. by apply Hb.
    + split; [by eapply keeps_trans, same_keeps|]. by eexists.
Qed.

Lemma loadMissing_spec fmt args names e r e' :
  Forall module_name names -> loadMissing RootDir fmt args names e = (r, e') ->
  keeps e e' /\ (r = Ok tt -> forall m, m ∈ names -> m ∈ modules e').
Proof.
  intros Hnames. unfold loadMissing, mbind, Call_bind, mret, Call_ret.
  destruct (call_each names (loadAndVerify RootDir) [] e) as [errs e1] eqn:Hrun.
  assert (Hgen : forall acc errs e e1, call_each names (loadAndVerify RootDir) acc e = (errs, e1) ->
    keeps e e1 /\ exists l, errs = acc ++ l /\ (l = [] -> forall m, m ∈ names -> m ∈ modules e1)).
  { clear -Hnames PciKernel0. induction Hnames as [|n names Hn Hnames IH]; intros acc errs e e1.
    - intros [= <- <-]. split; [apply same_keeps, same_refl|]. exists []. rewrite app_nil_r.
      split; [done|]. by intros _ m ?%elem_of_nil.
    - simpl. unfold mbind, Call_bind. destruct (loadAndVerify RootDir n acc e) as [errs1 e2] eqn:Hl.
      apply loadAndVerify_spec in Hl as (Hk & l1 & -> & Hl1); [|done].
      intros (Hk2 & l2 & -> & Hl2)%IH. split; [by eapply keeps_trans|].
      exists (l1 ++ l2). rewrite (assoc_L (++)). split; [done|].
      intros [-> ->]%app_nil m [->|Hin]%elem_of_cons; [|by apply Hl2].
      destruct Hk2 as [_ Hk2]. by apply Hk2, Hl1. }
  destruct (Hgen [] errs e e1 Hrun) as (Hk & l & -> & Hl). simpl. destruct l; intros [= <- <-]; split; [done| |done|done].
  intros _. by apply Hl.
Qed.

(** Both entry points, by the names they require. *)
Lemma ensure_spec names fmt args e r e' :
  Forall module_name names ->
  (modulesToLoad ← collectMissing RootDir names;
   if decide (length modulesToLoad = 0) then mret (Ok tt)
   else loadMissing RootDir fmt args modulesToLoad) e = (r, e') ->
  keeps e e' /\ (r = Ok tt -> forall m, m ∈ names -> m ∈ modules e').
Proof.
  intros Hnames. unfold mbind, Call_bind.
  destruct (collectMissing RootDir names e) as [missing e1] eqn:Hc.
  apply collectMissing_spec in Hc as (Hsame & Hmiss & Hin); [|done].
  case_decide as Hlen.
  - intros [= <- <-]. apply length_zero_iff_nil in Hlen as ->.
    split; [by apply same_keeps|]. intros _ m Hm. destruct Hsame as [_ ->].
    by destruct (Hin m Hm) as [?%elem_of_nil|].
  - intros (Hk & Hok)%loadMissing_spec; [|done]. split; [by eapply keeps_trans; [apply same_keeps|]|].
    intros Hr m Hm. destruct (Hin m Hm) as [?|Hl]; [by apply Hok|].
    destruct Hk as [_ Hk]. apply Hk. destruct Hsame as [_ ->]. done.
Qed.

Lemma EnsureDpdk_keeps drv e r e' : EnsureDpdkModuleLoaded RootDir drv e = (r, e') -> keeps e e'.
Proof.
  unfold EnsureDpdkModuleLoaded. destruct (negb (IsDpdkDriver drv)).
  - intros [= <- <-]. apply same_keeps, same_refl.
  - destruct (negb (String.eqb drv "vfio-pci")).
    + intros [= <- <-]. apply same_keeps, same_refl.
    + intros [Hk _]%ensure_spec; [done|].
      repeat constructor; try done; vm_compute; repeat split; discriminate.
Qed.
End kernel_facts.

Section driver_facts.
Context {E : Type} `{OS E} `{!Providers E} {RootDir : string} `{!PciKernel E RootDir}.
Implicit Types (e : E) (dev drv : string).

Lemma GetDriver_spec dev e r e' :
  pci_device dev -> GetDriverByBusAndDevice RootDir dev e = (r, e') ->
  same_kernel e e' /\
  (forall d, r = Ok d -> bound e dev = if decide (d = "") then None else Some d).
Proof.
  intros Hdev. unfold GetDriverByBusAndDevice, mbind, Call_bind, mret, Call_ret.
  pose proof (readlink_reads (buildSysBusPciPath RootDir dev "driver") e) as Hread.
  pose proof (driver_link dev e Hdev) as Hlink.
  destruct (os_Readlink _ e) as [[target|err] e1]; simpl in *.
  - intros [= <- <-]. split; [done|]. intros d [= <-].
    by rewrite decide_False by apply filepath_Base_nonempty.
  - destruct (errors_Is err "NotExist") eqn:Hne; intros [= <- <-]; (split; [done|]); [|done].
    intros d [= <-]. rewrite decide_True by done. by apply Hlink.
Qed.

Lemma setDriverOverride_same dev v e r e' :
  pci_device dev -> setDriverOverride RootDir dev v e = (r, e') -> same_kernel e e'.
Proof.
  intros Hdev. unfold setDriverOverride, mbind, Call_bind, mret, Call_ret.
  pose proof (stat_reads (buildSysBusPciPath RootDir dev "driver_override") e) as Hst.
  destruct (os_Stat _ e) as [[[]|err] e1]; simpl in *.
  - pose proof (write_override dev (if decide (v ≠ "") then v else nul) e1 Hdev) as Hw.
    destruct (os_WriteFile _ _ e1) as [r1 e2]. simpl in *. intros [= <- <-].
    by eapply same_trans.
  - destruct (os_IsNotExist err); by intros [= <- <-].
Qed.

(** Unbinding: on success the device has no driver. *)
Lemma Unbind_spec dev e r e' :
  pci_device dev -> UnbindDriverByBusAndDevice RootDir dev e = (r, e') ->
  frame dev e e' /\ (r = Ok tt -> bound e' dev = None).
Proof.
  intros Hdev. unfold UnbindDriverByBusAndDevice, call_ok, mbind, Call_bind, mret, Call_ret.
  destruct (GetDriverByBusAndDevice RootDir dev e) as [[d|err] e1] eqn:Hd.
  - apply GetDriver_spec in Hd as [Hsame Hd]; [|done]. specialize (Hd d eq_refl).
    destruct (decide (d = "")) as [Hempty|Hempty].
    + intros [= <- <-]. split; [by apply same_frame|]. intros _. destruct Hsame as [-> _]. done.
    + unfold unbindDriver. intros Hw.
      destruct (write_unbind dev d _ _ _ Hdev (bound_valid _ _ _ Hd) Hw) as [Hm Hb].
      split.
      * eapply frame_trans; [by apply same_frame|]. split; [|by rewrite Hm].
        intros dev' drv Hne Hbd. rewrite Hb, decide_False by naive_solver. done.
      * intros ->. rewrite Hb. by rewrite decide_True.
  - apply GetDriver_spec in Hd as [Hsame _]; [|done]. intros [= <- <-].
    by split; [apply same_frame|].
Qed.

Lemma write_bind_spec dev drv e r e' :
  pci_device dev -> pci_driver drv -> bindDriver RootDir dev drv e = (r, e') ->
  frame dev e e' /\ (r = Ok tt -> bound e' dev = Some drv).
Proof.
  intros Hdev Hdrv Hw. destruct (write_bind dev drv _ _ _ Hdev Hdrv Hw) as [Hm Hb]. split.
  - split; [|by rewrite Hm]. intros dev' d Hne Hbd. rewrite Hb, decide_False by naive_solver. done.
  - intros ->. rewrite Hb. by rewrite decide_True.
Qed.

(** The unbind step shared by both ways of binding. *)
Lemma unbind_if_bound dev d e r e' :
  pci_device dev ->
  unbindCurrent RootDir dev d e = (r, e') ->
  frame dev e e' /\ (r = Ok tt -> d ≠ "" -> bound e' dev = None).
Proof.
  intros Hdev. unfold unbindCurrent, mret, Call_ret. case_decide as Hd.
  - intros [Hf Hn]%Unbind_spec; [|done]. split; [done|]. intros Hr _. by apply Hn.
  - intros [= <- <-]. split; [apply same_frame, same_refl|done].
Qed.

Lemma BindDriver_spec dev drv e r e' :
  pci_device dev -> pci_driver drv -> BindDriverByBusAndDevice RootDir dev drv e = (r, e') ->
  frame dev e e' /\ (r = Ok tt -> bound e' dev = Some drv).
Proof.
  intros Hdev Hdrv. unfold BindDriverByBusAndDevice, call_err, call_ok, mbind, Call_bind, mret, Call_ret.
  destruct (EnsureDpdkModuleLoaded RootDir drv e) as [[[]|err] e1] eqn:Hens; simpl;
    apply EnsureDpdk_keeps, (keeps_frame dev) in Hens; [|by intros [= <- <-]].
  destruct (GetDriverByBusAndDevice RootDir dev e1) as [[cur|err] e2] eqn:Hcur;
    apply GetDriver_spec in Hcur as [Hsame Hcur]; try done;
    [|intros [= <- <-]; split; [|done]; eapply frame_trans; [done|by apply same_frame]].
  apply (same_frame dev) in Hsame as Hf2. specialize (Hcur cur eq_refl).
  destruct (decide (cur = drv /\ cur ≠ "")) as [Heq|Heq].
  { intros [= <- <-]. split; [by eapply frame_trans|]. intros _. destruct Heq as [<- Hne].
    rewrite decide_False in Hcur by done. destruct Hsame as [-> _]. done. }
  destruct (unbindCurrent RootDir dev cur e2) as [[[]|err] e3] eqn:Hun;
    apply unbind_if_bound in Hun as [Hf3 _]; try done;
    [|intros [= <- <-]; split; [|done]; eauto using frame_trans].
  destruct (setDriverOverride RootDir dev drv e3) as [[[]|err] e4] eqn:Hov;
    apply setDriverOverride_same, (same_frame dev) in Hov; try done;
    [|intros [= <- <-]; split; [|done]; eauto using frame_trans].
  destruct (bindDriver RootDir dev drv e4) as [[[]|err] e5] eqn:Hb;
    apply write_bind_spec in Hb as [Hf5 Hb]; try done;
    [|intros [= <- <-]; split; [|done]; eauto using frame_trans].
  intros Hlast. apply setDriverOverride_same in Hlast; [|done].
  split; [eauto 8 using frame_trans, same_frame|].
  intros _. destruct Hlast as [-> _]. by apply Hb.
Qed.

Lemma probe_frame dev e r e' :
  pci_device dev -> probeDriver RootDir dev e = (r, e') -> frame dev e e'.
Proof.
  intros Hdev Hp. destruct (write_probe dev _ _ _ Hdev Hp) as [Hm Hb]. split; [|by rewrite Hm].
  intros dev' d Hne Hbd. rewrite Hb; [done|by left].
Qed.

Lemma BindDefault_spec dev e r e' :
  pci_device dev -> BindDefaultDriver RootDir dev e = (r, e') ->
  frame dev e e' /\
  (forall d, bound e dev = Some d -> IsDpdkDriver d = false -> r = Ok tt -> bound e' dev = Some d).
Proof.
  intros Hdev. unfold BindDefaultDriver, call_ok, mbind, Call_bind, mret, Call_ret.
  destruct (GetDriverByBusAndDevice RootDir dev e) as [[cur|err] e1] eqn:Hcur;
    apply GetDriver_spec in Hcur as [Hsame Hcur]; try done;
    [|intros [= <- <-]; split; [by apply same_frame|done]].
  apply (same_frame dev) in Hsame as Hf1. specialize (Hcur cur eq_refl).
  destruct (bool_decide (cur ≠ "") && negb (IsDpdkDriver cur)) eqn:Hdef; cbv beta.
  { intros [= <- <-]. split; [done|]. intros d Hd _ _. destruct Hsame as [-> _]. done. }
  assert (Hdpdk : forall d, bound e dev = Some d -> IsDpdkDriver d = false -> False).
  { intros d Hd Hnd. rewrite Hcur in Hd. case_decide as Hc; [done|]. injection Hd as ->.
    rewrite bool_decide_true, Hnd in Hdef by done. done. }
  destruct (unbindCurrent RootDir dev cur e1) as [[[]|err] e2] eqn:Hun;
    apply unbind_if_bound in Hun as [Hf2 _]; try done;
    [|intros [= <- <-]; split; [by eapply frame_trans|done]].
  destruct (setDriverOverride RootDir dev "" e2) as [[[]|err] e3] eqn:Hov;
    apply setDriverOverride_same, (same_frame dev) in Hov; try done;
    [|intros [= <- <-]; split; [|done]; eauto using frame_trans].
  intros Hp. apply probe_frame in Hp; [|done]. split; [eauto using frame_trans|].
  intros d Hd Hnd. by destruct (Hdpdk d Hd Hnd).
Qed.

Lemma BindDevice_spec dev c e r e' :
  pci_device dev -> pci_driver (vf_Driver c) \/ vf_Driver c = "default" ->
  BindDeviceDriver RootDir dev c e = (r, e') ->
  frame dev e e' /\
  (forall orig, r = Ok orig -> vf_Driver c ≠ "" ->
    bound e dev = (if decide (orig = "") then None else Some orig) /\
    (vf_Driver c ≠ "default" -> bound e' dev = Some (vf_Driver c))).
Proof.
  intros Hdev Hdrv. unfold BindDeviceDriver, call_err, call_ok, mbind, Call_bind, mret, Call_ret.
  destruct (decide (vf_Driver c = "")) as [Hempty|Hempty].
  { intros [= <- <-]. split; [apply same_frame, same_refl|done]. }
  destruct (GetDriverByBusAndDevice RootDir dev e) as [[cur|err] e1] eqn:Hcur; simpl;
    apply GetDriver_spec in Hcur as [Hsame Hcur]; try done;
    [|intros [= <- <-]; split; [by apply same_frame|done]].
  apply (same_frame dev) in Hsame as Hf1. specialize (Hcur cur eq_refl).
  destruct (decide (vf_Driver c = "default")) as [Hdef|Hdef].
  - destruct (BindDefaultDriver RootDir dev e1) as [[[]|err] e2] eqn:Hb; simpl;
      apply BindDefault_spec in Hb as [Hf2 _]; try done; intros [= <- <-];
      (split; [by eapply frame_trans|]); [|done].
    intros orig [= <-] _. by split.
  - destruct Hdrv as [Hdrv|]; [|done].
    destruct (BindDriverByBusAndDevice RootDir dev (vf_Driver c) e1) as [[[]|err] e2] eqn:Hb; simpl;
      apply BindDriver_spec in Hb as [Hf2 Hb]; try done; intros [= <- <-];
      (split; [by eapply frame_trans|]); [|done].
    intros orig [= <-] _. split; [done|]. intros _. by apply Hb.
Qed.
End driver_facts.

(** ** Properties *)

Section host_properties.
Context {E : Type} `{OS E} `{!Providers E} {RootDir : string} `{!PciKernel E RootDir}.
Implicit Types (e : E) (dev drv : string).

(** C30: When BindDeviceDriver succeeds for a named driver, the device is bound to
    it, the reported original driver is the one it had before (the empty string for
    none), and every other device keeps its driver. *)
Theorem bind_device_correct dev c e orig e' :
  pci_device dev -> pci_driver (vf_Driver c) -> vf_Driver c ≠ "" -> vf_Driver c ≠ "default" ->
  BindDeviceDriver RootDir dev c e = (Ok orig, e') ->
  bound e' dev = Some (vf_Driver c) /\
  bound e dev = (if decide (orig = "") then None else Some orig) /\
  (forall dev' drv, dev' ≠ dev -> bound e dev' = Some drv -> bound e' dev' = Some drv).
Proof.
  intros Hdev Hdrv Hne Hnd Hrun. apply BindDevice_spec in Hrun as [[Hf _] Hok]; [|done|by left].
  destruct (Hok orig eq_refl Hne) as [Hold Hnew]. split_and!; [by apply Hnew|done|done].
Qed.

(** C9: Restoring what BindDeviceDriver reported brings the device back to the
    driver it had before, whatever happened to it in between, for a named driver
    and for the default one. *)
Theorem bind_restore_roundtrip dev c e orig e1 e2 e3 drv :
  pci_device dev -> pci_driver (vf_Driver c) \/ vf_Driver c = "default" -> vf_Driver c ≠ "" ->
  bound e dev = Some drv ->
  BindDeviceDriver RootDir dev c e = (Ok orig, e1) ->
  RestoreDeviceDriver RootDir dev orig e2 = (Ok tt, e3) ->
  bound e3 dev = Some drv.
Proof.
  intros Hdev Hdrv Hne Hb Hbind Hrest. apply BindDevice_spec in Hbind as [_ Hok]; [|done..].
  destruct (Hok orig eq_refl Hne) as [Hold _]. rewrite Hb in Hold. revert Hrest.
  unfold RestoreDeviceDriver. destruct (decide (orig = "")); [done|]. injection Hold as <-.
  intros [_ Hr]%BindDriver_spec; [by apply Hr|done|by eapply bound_valid].
Qed.

(** C31: Whatever binding or restoring a device returns, success or error, no other
    device leaves its driver and no kernel module is unloaded. *)
Theorem other_devices_untouched dev c orig e r1 e1 r2 e2 :
  pci_device dev -> pci_driver (vf_Driver c) \/ vf_Driver c = "default" ->
  pci_driver orig \/ orig = "" ->
  BindDeviceDriver RootDir dev c e = (r1, e1) -> RestoreDeviceDriver RootDir dev orig e1 = (r2, e2) ->
  (forall dev' drv, dev' ≠ dev -> bound e dev' = Some drv -> bound e2 dev' = Some drv) /\
  modules e ⊆ modules e2.
Proof.
  intros Hdev Hc Horig Hb Hr. apply BindDevice_spec in Hb as [Hf1 _]; [|done..].
  assert (Hf2 : frame dev e1 e2).
  { revert Hr. unfold RestoreDeviceDriver. destruct (decide (orig = "")) as [|Hne].
    - by intros [? _]%BindDefault_spec.
    - destruct Horig as [Horig|]; [|done]. by intros [? _]%BindDriver_spec. }
  exact (frame_trans _ _ _ _ Hf1 Hf2).
Qed.

(** When EnsureVhostModulesLoaded succeeds, tun and vhost_net are loaded: a
    module that modprobe claims to have loaded but that does not appear in
    /proc/modules is reported. *)
Lemma vhost_modules_loaded e e' :
  EnsureVhostModulesLoaded RootDir e = (Ok tt, e') ->
  "tun" ∈ modules e' /\ "vhost_net" ∈ modules e'.
Proof.
  intros [_ Hok]%ensure_spec.
  - split; apply Hok; [done|left|done|right; left].
  - repeat constructor; try done; vm_compute; repeat split; discriminate.
Qed.

(** A device that was bound to uio_pci_generic or igb_uio cannot be given its
    driver back: both count as DPDK drivers, but restoring them always fails,
    before anything is changed. *)
Lemma uio_never_restored dev drv e :
  drv = "uio_pci_generic" \/ drv = "igb_uio" ->
  exists err, RestoreDeviceDriver RootDir dev drv e = (Err err, e).
Proof. by intros [-> | ->]; eexists. Qed.

(** A device that had no driver before the claim keeps the claim's driver after
    it, when that is a kernel driver: the restore reports success and changes no
    binding. *)
Lemma driverless_device_not_restored dev drv e r e' :
  pci_device dev -> bound e dev = Some drv -> IsDpdkDriver drv = false ->
  RestoreDeviceDriver RootDir dev "" e = (r, e') -> r = Ok tt -> bound e' dev = Some drv.
Proof.
  intros Hdev Hb Hd Hr ->. unfold RestoreDeviceDriver in Hr. simpl in Hr.
  apply BindDefault_spec in Hr as [_ Hr]; [|done]. by apply Hr.
Qed.
End host_properties.

(** ** A simulated kernel

    Two devices, a kernel driver and vfio-pci, whose binding needs the vfio_pci
    module; four modules that modprobe can load. *)
Module HostRuns.
Inductive driver : Type := Iavf | VfioPci.
#[local] Instance driver_dec : EqDecision driver.
Proof. solve_decision. Defined.

Definition driver_name (d : driver) : string :=
  match d with Iavf => "iavf" | VfioPci => "vfio-pci" end.
Definition dev1 : string := "0000:01:00.1".
Definition dev2 : string := "0000:01:00.2".

Record sim : Type := mkSim {
  bound1 : option driver;
  bound2 : option driver;
  mod_vfio : bool;
  mod_vfio_pci : bool;
  mod_tun : bool;
  mod_vhost : bool
}.

Definition set_bound (dev : string) (d : option driver) (s : sim) : sim :=
  if String.eqb dev dev1 then
    mkSim d (bound2 s) (mod_vfio s) (mod_vfio_pci s) (mod_tun s) (mod_vhost s)
  else mkSim (bound1 s) d (mod_vfio s) (mod_vfio_pci s) (mod_tun s) (mod_vhost s).

Definition driver_of (s : sim) (dev : string) : option driver :=
  if String.eqb dev dev1 then bound1 s else if String.eqb dev dev2 then bound2 s else None.

Definition rows (s : sim) : list (string * string) :=
  (if mod_vfio s then [("vfio", "57344 1 vfio_pci, Live 0x0")] else []) ++
  (if mod_vfio_pci s then [("vfio_pci", "16384 0 - Live 0x0")] else []) ++
  (if mod_tun s then [("tun", "61440 2 vhost_net, Live 0x0")] else []) ++
  (if mod_vhost s then [("vhost_net", "36864 0 - Live 0x0")] else []).

Definition path (p : string) (dev sub : string) : bool := String.eqb p (buildSysBusPciPath "" dev sub).
Definition drv_path (p : string) (d : driver) (sub : string) : bool :=
  String.eqb p (buildSysBusPciDriverPath "" (driver_name d) sub).
Definition no_file : error := ErrExternal "NotExist" "no such file or directory".
Definition no_device : error := ErrExternal "ENODEV" "no such device".

Definition link (d : option driver) : result string :=
  match d with
  | Some d => Ok ("../../../bus/pci/drivers/" +:+ driver_name d)
  | None => Err no_file
  end.

Definition write_driver (s : sim) (d : driver) (p dev : string) : option (result unit * sim) :=
  if drv_path p d "unbind" then
    Some (if bool_decide (driver_of s dev = Some d) then (Ok tt, set_bound dev None s)
          else (Err no_device, s))
  else if drv_path p d "bind" then
    Some (if bool_decide (driver_of s dev = None) && (mod_vfio_pci s || bool_decide (d = Iavf)) &&
             (String.eqb dev dev1 || String.eqb dev dev2)
          then (Ok tt, set_bound dev (Some d) s) else (Err no_device, s))
  else None.

Definition write (p v : string) (s : sim) : result unit * sim :=
  match write_driver s Iavf p v with
  | Some r => r
  | None =>
      match write_driver s VfioPci p v with
      | Some r => r
      | None =>
          if String.eqb p "/sys/bus/pci/drivers_probe" then
            if bool_decide (driver_of s v = None) && (String.eqb v dev1 || String.eqb v dev2)
            then (Ok tt, set_bound v (Some Iavf) s) else (Ok tt, s)
          else if path p dev1 "driver_override" || path p dev2 "driver_override" then (Ok tt, s)
          else (Err no_file, s)
      end
  end.

#[local] Instance sim_os : OS sim := {|
  os_Lstat := fun p s => (Err no_file, s);
  os_Stat := fun p s =>
    (if path p dev1 "driver_override" || path p dev2 "driver_override" then Ok tt else Err no_file, s);
  os_Readlink := fun p s =>
    (if path p dev1 "driver" then link (bound1 s)
     else if path p dev2 "driver" then link (bound2 s) else Err no_file, s);
  os_ReadDir := fun p s => (Err no_file, s);
  os_ReadFile := fun p s =>
    (if String.eqb p "/proc/modules"
     then Ok (foldr (fun row s => row.1 +:+ " " +:+ row.2 +:+ String newline s) "" (rows s))
     else Err no_file, s);
  os_WriteFile := write;
  EvalSymlinks := fun p s => (Err no_file, s);
  run_modprobe := fun m s =>
    if String.eqb m "vfio" then
      (("", None), mkSim (bound1 s) (bound2 s) true (mod_vfio_pci s) (mod_tun s) (mod_vhost s))
    else if String.eqb m "vfio_pci" then
      (("", None), mkSim (bound1 s) (bound2 s) (mod_vfio s) true (mod_tun s) (mod_vhost s))
    else if String.eqb m "tun" then
      (("", None), mkSim (bound1 s) (bound2 s) (mod_vfio s) (mod_vfio_pci s) true (mod_vhost s))
    else if String.eqb m "vhost_net" then
      (("", None), mkSim (bound1 s) (bound2 s) (mod_vfio s) (mod_vfio_pci s) (mod_tun s) true)
    else (("FATAL", Some no_file), s)
|}.

#[local] Instance sim_providers : Providers sim := {|
  GetRdmaDevicesForPcidev := fun _ s => ([], s);
  GetRdmaCharDevices := fun _ s => ([], s);
  GetUplinkRepresentor := fun _ s => (Err no_file, s);
  GetDevLinkDeviceEswitchMode := fun _ s => (Err no_file, s);
  GetPCIeRootAttributeByPCIBusID := fun _ s => (Err no_file, s) |}.

Definition sim_device (dev : string) : Prop := dev = dev1 \/ dev = dev2.
Definition sim_driver (d : string) : Prop := d = "iavf" \/ d = "vfio-pci".
Definition sim_bound (s : sim) (dev : string) : option string := driver_name <$> driver_of s dev.

(** A write to a binding attribute of a known device and driver. *)
Lemma sim_write dev d sub s r s' :
  sim_device dev -> (sub = "unbind" \/ sub = "bind") ->
  write (buildSysBusPciDriverPath "" (driver_name d) sub) dev s = (r, s') ->
  (rows s').*1 = (rows s).*1 /\ forall dev', sim_bound s' dev' =
    if decide (is_ok r = true /\ dev' = dev)
    then (if String.eqb sub "unbind" then None else Some (driver_name d)) else sim_bound s dev'.
Proof.
  intros Hdev Hsub Hw. destruct s as [b1 b2 v vp t vh].
  assert (Hcase : (r, s') = (Err no_device, mkSim b1 b2 v vp t vh) \/
    (r, s') = (Ok tt, set_bound dev (if String.eqb sub "unbind" then None else Some d)
                       (mkSim b1 b2 v vp t vh))).
  { rewrite <- Hw. destruct Hdev as [-> | ->], Hsub as [-> | ->], d, b1 as [[]|], b2 as [[]|], vp;
      vm_compute; auto. }
  destruct Hcase as [[= -> ->]|[= -> ->]].
  - split; [done|]. intros dev'. rewrite decide_False; [done|]. by intros [? _].
  - split; [by destruct Hdev as [-> | ->]|]. intros dev'. unfold sim_bound.
    destruct (decide _) as [[_ ->]|Hne].
    + destruct Hdev as [-> | ->], Hsub as [-> | ->]; reflexivity.
    + assert (dev' ≠ dev) by (intros ->; by apply Hne).
      unfold driver_of. destruct Hdev as [-> | ->]; simpl.
      * by rewrite (proj2 (String.eqb_neq dev' dev1)).
      * by rewrite (proj2 (String.eqb_neq dev' dev2)).
Qed.

#[local] Instance sim_kernel : PciKernel sim "".
Proof.
  refine {| pci_device := sim_device; pci_driver := sim_driver; bound := sim_bound;
            modules := fun s => (rows s).*1 |}.
  - intros s dev drv. unfold sim_bound. destruct (driver_of s dev) as [[]|]; [left|right|];
      simpl in *; congruence.
  - done.
  - done.
  - done.
  - done.
  - done.
  - done.
  - intros dev s [-> | ->]; unfold sim_bound; simpl;
      [destruct (bound1 s) as [[]|] eqn:Hb|destruct (bound2 s) as [[]|] eqn:Hb];
      unfold driver_of; simpl; rewrite Hb; vm_compute; done.
  - intros dev drv s r s' Hdev [-> | ->] Hw.
    + exact (sim_write dev Iavf "unbind" s r s' Hdev (or_introl eq_refl) Hw).
    + exact (sim_write dev VfioPci "unbind" s r s' Hdev (or_introl eq_refl) Hw).
  - intros dev drv s r s' Hdev [-> | ->] Hw.
    + exact (sim_write dev Iavf "bind" s r s' Hdev (or_intror eq_refl) Hw).
    + exact (sim_write dev VfioPci "bind" s r s' Hdev (or_intror eq_refl) Hw).
  - intros dev v s [-> | ->]; done.
  - intros dev s r s' Hdev Hw. destruct s as [b1 b2 v vp t vh].
    destruct Hdev as [-> | ->]; [destruct b1 as [d|]|destruct b2 as [d|]];
      vm_compute in Hw; injection Hw as <- <-; (split; [done|]); intros dev'; try done.
    all: intros Hcond; unfold sim_bound, driver_of in *; simpl in *.
    + destruct (String.eqb_spec dev' dev1); [by destruct Hcond as [|[??]]|done].
    + destruct (String.eqb_spec dev' dev1); [done|].
      destruct (String.eqb_spec dev' dev2); [by destruct Hcond as [|[??]]|done].
  - intros m s dev drv. simpl. repeat case_match; done.
  - intros m s x. destruct s as [b1 b2 [] [] [] []]; simpl; repeat case_match; simpl; set_solver.
  - intros s content. simpl. intros [= <-]. exists (rows s). split_and!; [done..|].
    destruct s as [b1 b2 [] [] [] []]; repeat constructor; vm_compute; repeat split; discriminate.
Defined.

Definition vfio_config : VfConfig := mkVfConfig "" "" "vfio-pci" false "" "" "".
Definition plain_config : VfConfig := mkVfConfig "" "" "iavf" false "" "" "".
Definition before : sim := mkSim (Some Iavf) (Some Iavf) false false false false.
Definition during : sim := (BindDeviceDriver "" dev1 vfio_config before).2.
Definition after : sim := (RestoreDeviceDriver "" dev1 "iavf" during).2.

Lemma before_bind : BindDeviceDriver "" dev1 vfio_config before = (Ok "iavf", during).
Proof. vm_compute. reflexivity. Qed.
Lemma during_restore : RestoreDeviceDriver "" dev1 "iavf" during = (Ok tt, after).
Proof. vm_compute. reflexivity. Qed.

(** A bind that fails (here because the driver's module cannot be found) may leave
    the device without any driver: the original driver is not restored. *)
Example failed_bind_leaves_device_unbound :
  exists err s', BindDriverByBusAndDevice "" dev1 "no-such-driver" before = (Err err, s') /\
    sim_bound before dev1 = Some "iavf" /\ sim_bound s' dev1 = None.
Proof. eexists _, _. vm_compute. split_and!; reflexivity. Qed.

Lemma dev1_known : pci_device dev1. Proof. by left. Qed.
Lemma vfio_known : pci_driver (vf_Driver vfio_config). Proof. by right. Qed.

Lemma bind_device_correct_witness :
  sim_bound during dev1 = Some "vfio-pci" /\ sim_bound during dev2 = Some "iavf".
Proof.
  destruct (bind_device_correct dev1 vfio_config before "iavf" during dev1_known vfio_known)
    as (Hb & _ & Ho); [discriminate|discriminate|exact before_bind|].
  split; [exact Hb|]. apply (Ho dev2 "iavf"); [discriminate|reflexivity].
Defined.

Lemma bind_restore_roundtrip_witness : sim_bound after dev1 = Some "iavf".
Proof.
  exact (bind_restore_roundtrip dev1 vfio_config before "iavf" during during after "iavf"
    dev1_known (or_introl vfio_known) ltac:(discriminate) eq_refl before_bind during_restore).
Defined.

Lemma other_devices_untouched_witness : sim_bound after dev2 = Some "iavf".
Proof.
  apply (other_devices_untouched dev1 vfio_config "iavf" before (Ok "iavf") during (Ok tt) after
    dev1_known (or_introl vfio_known) (or_introl (or_introl eq_refl)) before_bind during_restore);
    [discriminate|reflexivity].
Defined.

Lemma vhost_modules_loaded_witness :
  "tun" ∈ modules (EnsureVhostModulesLoaded "" before).2 /\
  "vhost_net" ∈ modules (EnsureVhostModulesLoaded "" before).2.
Proof.
  apply (vhost_modules_loaded before (EnsureVhostModulesLoaded "" before).2).
  vm_compute. reflexivity.
Defined.

(** The device had no driver; the claim binds iavf; the restore leaves it bound. *)
Definition unbound : sim := mkSim None (Some Iavf) false false false false.
Definition claimed : sim := (BindDeviceDriver "" dev1 plain_config unbound).2.

Lemma driverless_device_not_restored_witness :
  BindDeviceDriver "" dev1 plain_config unbound = (Ok "", claimed) /\
  sim_bound unbound dev1 = None /\
  sim_bound (RestoreDeviceDriver "" dev1 "" claimed).2 dev1 = Some "iavf".
Proof.
  split_and!; [vm_compute; reflexivity|reflexivity|].
  eapply (driverless_device_not_restored dev1 "iavf" claimed (Ok tt)
           (RestoreDeviceDriver "" dev1 "" claimed).2 dev1_known); vm_compute; reflexivity.
Defined.
End HostRuns.
