(* ===== verification/Cdi.v ===== *)
(** * The CDI handler (pkg/cdi/cdi.go)

    Builds the CDI specs of the driver, of a claim and of a pod, and the qualified
    device names the kubelet receives.  The CDI library (spec cache, name
    generation, minimum version) is a parameter. *)

From S2P Require Import Prelude GoLib Consts K8sTypes VfConfigApi Manager Prepared.

(** [cdispec.Device] and [cdispec.Spec]. *)
Record CdiDevice : Type := mkCdiDevice {
  cdid_Name : string;
  cdid_ContainerEdits : ContainerEdits
}.

Record CdiSpec : Type := mkCdiSpec {
  spec_Version : string;
  spec_Kind : string;
  spec_Devices : list CdiDevice
}.

Class CdiLib (E : Type) : Type := {
  MinimumRequiredVersion : CdiSpec -> result string;
  GenerateNameForTransientSpec : CdiSpec -> string -> result string;
  GenerateTransientSpecName : string -> string -> string -> string;
  QualifiedName : string -> string -> string -> string;
  cache_WriteSpec : CdiSpec -> string -> Call E (result unit);
  cache_RemoveSpec : string -> Call E (result unit);
  os_Getenv : string -> Call E string
}.

Definition cdiVendor : string := DriverName.
Definition cdiClass : string := "vf".
Definition cdiKind : string := cdiVendor +:+ "/" +:+ cdiClass.
Definition cdiCommonDeviceName : string := "dra-driver-sriov".

Section cdi.
Context {E : Type} `{CdiLib E}.

(** [spec.Version = minVersion]. *)
Definition with_version (v : string) (spec : CdiSpec) : CdiSpec :=
  mkCdiSpec v (spec_Kind spec) (spec_Devices spec).

Definition minVersionError : error -> error :=
  errorv "failed to get minimum required CDI spec version: %v" [].

Definition CreateCommonSpecFile : Call E (result unit) :=
  nodeName ← os_Getenv "NODE_NAME";
  let spec := mkCdiSpec "" cdiKind
    [mkCdiDevice cdiCommonDeviceName
       (mkEdits ["KUBERNETES_NODE_NAME=" +:+ nodeName; "DRA_RESOURCE_DRIVER_NAME=" +:+ DriverName] [])] in
  minVersion ←! mret (result_map_err minVersionError (MinimumRequiredVersion spec));
  let spec := with_version minVersion spec in
  specName ←! mret (result_map_err (errorw "failed to generate Spec name: %w" [])
                      (GenerateNameForTransientSpec spec cdiCommonDeviceName));
  cache_WriteSpec spec specName.

(** The device of the spec that one prepared device gives. *)
Definition claimDeviceName (claimUID device : string) : string := claimUID +:+ "-" +:+ device.

Definition cdiDeviceOf (claimUID : string) (p : option loc) : M (World E) CdiDevice :=
  device ← load p;
  edits ← deref "ContainerEdits" (pd_ContainerEdits device);
  mret (mkCdiDevice (claimDeviceName claimUID (drapb_DeviceName (pd_Device device))) edits).

Definition CreateClaimSpecFile (preparedDevices : PreparedDevices) : M (World E) (result unit) :=
  first ← deref "index out of range [0]" (head preparedDevices);
  firstDevice ← load first;
  let claimUID := no_UID (pd_ClaimNamespacedName firstDevice) in
  let specName := GenerateTransientSpecName cdiVendor cdiClass claimUID in
  devices ← for_each preparedDevices (fun p devices =>
    cdiDevice ← cdiDeviceOf claimUID p; mret (devices ++ [cdiDevice])) [];
  let spec := mkCdiSpec "" cdiKind devices in
  minVersion ←? mret (result_map_err minVersionError (MinimumRequiredVersion spec));
  ext (cache_WriteSpec (with_version minVersion spec) specName).

Definition CreateGlobalPodSpecFile (podUID : string) (pciAddresses : list string)
  : Call E (result unit) :=
  let envs := ["SRIOVNETWORK_PCI_ADDRESSES=" +:+ Join pciAddresses ","] in
  let specName := GenerateTransientSpecName cdiVendor cdiClass podUID in
  let spec := mkCdiSpec "" cdiKind [mkCdiDevice podUID (mkEdits envs [])] in
  minVersion ←! mret (result_map_err minVersionError (MinimumRequiredVersion spec));
  cache_WriteSpec (with_version minVersion spec) specName.

Definition DeleteSpecFile (uid : string) : Call E (result unit) :=
  cache_RemoveSpec (GenerateTransientSpecName cdiVendor cdiClass uid).

Definition GetClaimDevices (claimUID device : string) : string :=
  QualifiedName cdiVendor cdiClass (claimDeviceName claimUID device).

Definition GetPodSpecName (podUID : string) : string :=
  QualifiedName cdiVendor cdiClass podUID.
End cdi.
