(* ===== verification/Prepare.v ===== *)
(** * Preparing and unpreparing the devices of a claim
      (pkg/devicestate/state.go, deviceinfo.go; AddDeviceIDToNetConf of
      pkg/types/types.go)

    The manager's side of the kubelet hooks: bind the drivers, collect the container
    edits, record the devices, and undo it.  The host helpers are used through the
    interface of pkg/host ([HostInterface]); the Kubernetes client, the JSON encoder
    and the device-info files are parameters. *)

From S2P Require Import Prelude GoLib Consts K8sTypes VfConfigApi OpaqueConfig ClaimStatus Manager Prepared Cdi Host Hoare.

(** The functions of host.Interface that the manager calls. *)
Class HostInterface (E : Type) : Type := {
  hi_BindDeviceDriver : string -> VfConfig -> Call E (result string);
  hi_RestoreDeviceDriver : string -> string -> Call E (result unit);
  hi_EnsureVhostModulesLoaded : Call E (result unit);
  hi_GetVFIODeviceFile : string -> Call E (result (string * string));
  hi_GetVFIOCdevPath : string -> Call E (result string);
  hi_GetRDMADevicesForPCI : string -> Call E (list string);
  hi_GetRDMACharDevices : string -> Call E (result (list string))
}.

(** The implementation of pkg/host. *)
Definition host_helpers {E} `{OS E} `{Providers E} (RootDir : string) : HostInterface E := {|
  hi_BindDeviceDriver := BindDeviceDriver RootDir;
  hi_RestoreDeviceDriver := RestoreDeviceDriver RootDir;
  hi_EnsureVhostModulesLoaded := EnsureVhostModulesLoaded RootDir;
  hi_GetVFIODeviceFile := GetVFIODeviceFile RootDir;
  hi_GetVFIOCdevPath := GetVFIOCdevPath RootDir;
  hi_GetRDMADevicesForPCI := GetRDMADevicesForPCI;
  hi_GetRDMACharDevices := GetRDMACharDevices
|}.

(** The Spec.Config of the NetworkAttachmentDefinition with a namespace and name. *)
Class NadClient (E : Type) : Type :=
  GetNetAttachDef : string -> string -> Call E (result string).

(** encoding/json on what the driver encodes: a decoded object is its members by
    name, or nil when the text is the JSON null. *)
Class JsonLib : Type := {
  json_value : Type;
  json_string : string -> json_value;
  json_Unmarshal_object : string -> result (option (gmap string json_value));
  json_Marshal_object : gmap string json_value -> result string;
  json_Marshal_VfConfig : VfConfig -> result string
}.

(** [nettypes.DeviceInfo] of type PCI, and the store of the device-info files. *)
Record DeviceInfo : Type := mkDeviceInfo {
  di_PciAddress : string;
  di_RdmaDevice : string
}.

Class DeviceInfoStore (E : Type) : Type := {
  CleanDeviceInfoForDP : string -> string -> Call E (result unit);
  SaveDeviceInfoForDP : string -> string -> DeviceInfo -> Call E (result unit)
}.

(** ** Device-info files (deviceinfo.go) *)

Definition getStringDeviceAttribute (attributes : gmap string DeviceAttribute) (key : string)
  : string * bool :=
  match attributes !! key with
  | Some (mkAttr _ _ (Some s) _) => if decide (s = "") then ("", false) else (s, true)
  | _ => ("", false)
  end.

Definition extractMultusDeviceInfoAttrs (attributes : gmap string DeviceAttribute)
  : string * string * bool :=
  let '(resourceName, hasResourceName) :=
    getStringDeviceAttribute attributes AttributeMultusResourceName in
  let '(deviceID, hasDeviceID) := getStringDeviceAttribute attributes AttributeMultusDeviceID in
  if negb hasResourceName || negb hasDeviceID then ("", "", false)
  else (resourceName, deviceID, true).

Section device_info.
Context {E : Type} `{HostInterface E} `{DeviceInfoStore E}.

Definition deviceInfoArgs (d : PreparedDevice) : list string :=
  [drapb_DeviceName (pd_Device d); pd_MultusResourceName d; pd_MultusDeviceID d].

Definition saveDeviceInfoForPreparedDevice (d : PreparedDevice) : Call E (result unit) :=
  if decide (pd_PciAddress d = "") then
    mret (Err (errorf "failed to save device-info for device %q: PCI address is empty"
                 [drapb_DeviceName (pd_Device d)]))
  else
    rdmaDevices ← hi_GetRDMADevicesForPCI (pd_PciAddress d);
    let devInfo := mkDeviceInfo (pd_PciAddress d)
      (if decide (0 < length rdmaDevices) then Join rdmaDevices "," else "") in
    _ ←! call_err (errorw "failed to clean stale device-info for device %q (resourceName=%q, deviceID=%q): %w"
                     (deviceInfoArgs d))
           (CleanDeviceInfoForDP (pd_MultusResourceName d) (pd_MultusDeviceID d));
    call_err (errorw "failed to save device-info for device %q (resourceName=%q, deviceID=%q): %w"
                (deviceInfoArgs d))
      (SaveDeviceInfoForDP (pd_MultusResourceName d) (pd_MultusDeviceID d) devInfo).

(** The loop both functions below share, and its body: nil pointers are errors, devices
    without Multus attributes are skipped, all errors are collected. *)
Definition multusDevice (action : PreparedDevice -> Call E (result unit)) (p : option loc)
    (errs : list error) : M (World E) (list error) :=
  match p with
  | None => mret (errs ++ [errorf "prepared device is nil" []])
  | Some l =>
      d ← load (Some l);
      if bool_decide (pd_MultusResourceName d = "") || bool_decide (pd_MultusDeviceID d = "")
      then mret errs
      else r ← ext (action d);
           mret (match r with Ok _ => errs | Err err => errs ++ [err] end)
  end.

Definition forEachMultusDevice (action : PreparedDevice -> Call E (result unit))
    (preparedDevices : PreparedDevices) : M (World E) (result unit) :=
  errs ← for_each preparedDevices (multusDevice action) [];
  mret (join_errors errs).

Definition syncDeviceInfoFilesForPreparedDevices : PreparedDevices -> M (World E) (result unit) :=
  forEachMultusDevice saveDeviceInfoForPreparedDevice.

Definition cleanDeviceInfoForPreparedDevice (d : PreparedDevice) : Call E (result unit) :=
  call_err (errorw "failed to clean device-info for device %q (resourceName=%q, deviceID=%q): %w"
              (deviceInfoArgs d))
    (CleanDeviceInfoForDP (pd_MultusResourceName d) (pd_MultusDeviceID d)).

Definition cleanDeviceInfoFilesForPreparedDevices : PreparedDevices -> M (World E) (result unit) :=
  forEachMultusDevice cleanDeviceInfoForPreparedDevice.

Definition syncDeviceInfoFilesForPreparedDevicesIfNeeded (preparedDevices : PreparedDevices)
  : M (World E) (result unit) :=
  s ← gets w_manager;
  if negb (isMultusMode s) then mret (Ok tt)
  else syncDeviceInfoFilesForPreparedDevices preparedDevices.

Definition cleanDeviceInfoFilesForPreparedDevicesIfNeeded (preparedDevices : PreparedDevices)
  : M (World E) (result unit) :=
  s ← gets w_manager;
  if negb (isMultusMode s) then mret (Ok tt)
  else cleanDeviceInfoFilesForPreparedDevices preparedDevices.
End device_info.

(** ** Metadata *)

Definition cloneDeviceAttributes `{RangeOrder} (attrs : gmap string DeviceAttribute)
  : gmap string DeviceAttribute :=
  range_fold (fun key value cloned => <[key := value]> cloned) attrs ∅.

Definition buildMetadataAttributes `{RangeOrder} (attrs : gmap string DeviceAttribute)
    (ifName : string) : gmap string DeviceAttribute :=
  let metadataAttributes := cloneDeviceAttributes attrs in
  if decide (ifName = "") then metadataAttributes
  else <[AttributeInterfaceName := StringAttr ifName]> metadataAttributes.

(** ** Configuring one device (applyConfigOnDevice) *)

Section prepare.
Context `{RangeOrder} {E : Type} `{HostInterface E} `{DeviceInfoStore E} `{NadClient E}
  `{JsonLib} `{CdiLib E}.

Definition getNetAttachDefRawConfig (namespace netAttachDefName : string) : Call E (result string) :=
  call_err (errorw "error getting net attach def for net attach def %s/%s: %w"
              [namespace; netAttachDefName]) (GetNetAttachDef namespace netAttachDefName).

(** The assignment to a nil map panics. *)
Definition AddDeviceIDToNetConf (originalConfig deviceID : string) : M (World E) (result string) :=
  rawConfig ←? mret (result_map_err (errorw "failed to unmarshal existing config: %w" [])
                       (json_Unmarshal_object originalConfig));
  rawConfig ← deref "assignment to entry in nil map" rawConfig;
  let rawConfig := <["deviceID" := json_string deviceID]> rawConfig in
  mret (result_map_err (errorw "failed to marshal modified config: %w" [])
          (json_Marshal_object rawConfig)).

(** [*device.Attributes[consts.AttributePciAddress].StringValue]. *)
Definition pciAddressOf (device : Device) : M (World E) string :=
  match dev_Attributes device !! AttributePciAddress with
  | Some (mkAttr _ _ (Some s) _) => mret s
  | _ => panic "nil pointer dereference"
  end.

Definition charNode (path hostPath : string) : DeviceNode := mkNode path hostPath "c".

Definition dash : Ascii.ascii := "-"%char.
Definition underscore : Ascii.ascii := "_"%char.

(** The environment variable of one RDMA character device. *)
Definition rdmaEnv (devicePrefix charDev : string) : list string :=
  let base := filepath_Base charDev in
  let var suffix := ["SRIOVNETWORK_" +:+ devicePrefix +:+ suffix +:+ charDev] in
  if HasPrefix base "uverbs" then var "_RDMA_UVERB="
  else if HasPrefix base "umad" then var "_RDMA_UMAD="
  else if HasPrefix base "issm" then var "_RDMA_ISSM="
  else if decide (base = "rdma_cm") then var "_RDMA_CM="
  else [].

Definition rdmaCapable (deviceInfo : Device) : bool :=
  match dev_Attributes deviceInfo !! AttributeRDMACapable with
  | Some (mkAttr _ (Some b) _ _) => b
  | _ => false
  end.

(** The device nodes and environment variables, or an error. *)
Definition handleRDMADevice (deviceInfo : Device) (pciAddress deviceName : string)
  : Call E (result (list DeviceNode * list string)) :=
  if negb (rdmaCapable deviceInfo) then mret (Ok ([], []))
  else
    rdmaDevices ← hi_GetRDMADevicesForPCI pciAddress;
    match rdmaDevices with
    | [] => mret (Ok ([], []))
    | [rdmaDevice] =>
        charDevices ←! hi_GetRDMACharDevices rdmaDevice;
        if decide (length charDevices = 0) then
          mret (Err (errorf "no RDMA character devices found for RDMA device %s (PCI: %s)"
                       [rdmaDevice; pciAddress]))
        else
          let devicePrefix := ReplaceAll deviceName dash underscore in
          let '(deviceNodes, envs) :=
            foldl (fun '(nodes, envs) charDev =>
              (nodes ++ [charNode charDev charDev], envs ++ rdmaEnv devicePrefix charDev))
              ([], []) charDevices in
          mret (Ok (deviceNodes, envs ++ ["SRIOVNETWORK_" +:+ devicePrefix +:+ "_RDMA_DEVICE=" +:+ rdmaDevice]))
    | _ => mret (Err (errorf "expected exactly one RDMA device for PCI address %s, but found %d: %v"
                        (pciAddress :: itoa (Z.of_nat (length rdmaDevices)) :: rdmaDevices)))
    end.

(** The VFIO block: nothing unless the configured driver is vfio-pci. *)
Definition vfioDeviceNodes (s : Manager) (config : VfConfig) (pciAddress deviceName : string)
  : Call E (result (list DeviceNode * list string)) :=
  if decide (vf_Driver config = "vfio-pci") then
    files ←! call_err (errorw "error getting VFIO device file for device %s: %w" [pciAddress])
               (hi_GetVFIODeviceFile pciAddress);
    let '(devFileHost, devFileContainer) := files in
    let deviceNodes := [charNode devFileContainer devFileHost;
                        charNode "/dev/vfio/vfio" "/dev/vfio/vfio"] in
    let envs := ["SRIOVNETWORK_" +:+ ReplaceAll deviceName dash underscore +:+ "_VFIO_DEVICE=" +:+
                 devFileContainer] in
    if iommuAvailable s then
      cdevPath ←! call_err (errorw "error getting VFIO cdev for device %s: %w" [pciAddress])
                    (hi_GetVFIOCdevPath pciAddress);
      let cdevNodes := if decide (cdevPath ≠ "") then [charNode cdevPath cdevPath] else [] in
      mret (Ok (deviceNodes ++ cdevNodes ++ [charNode "/dev/iommu" "/dev/iommu"], envs))
    else mret (Ok (deviceNodes, envs))
  else mret (Ok ([], [])).

Definition vhostDeviceNodes (config : VfConfig) : list DeviceNode :=
  if vf_AddVhostMount config
  then [charNode "/dev/vhost-net" "/dev/vhost-net"; charNode "/dev/net/tun" "/dev/net/tun"] else [].

(** The closure of the same name: undo the driver change, keeping the cause. *)
Definition restoreDriverOnError (config : VfConfig) (pciAddress originalDriver : string)
    (cause : error) : Call E error :=
  if decide (vf_Driver config = "") then mret cause
  else
    restored ← hi_RestoreDeviceDriver pciAddress originalDriver;
    match restored with
    | Ok _ => mret cause
    | Err restoreErr =>
        mret (Errorf "%w; additionally failed to restore original driver for device %s: %v"
                [pciAddress] [restoreErr] [cause])
    end.

Definition or_restore {A} (config : VfConfig) (pciAddress originalDriver : string)
    (c : Call E (result A)) : Call E (result A) :=
  r ← c;
  match r with
  | Ok a => mret (Ok a)
  | Err cause =>
      err ← restoreDriverOnError config pciAddress originalDriver cause; mret (Err err)
  end.

(** What the steps between the driver binding and the end produce: the container
    edits. *)
Definition collectEdits (s : Manager) (config : VfConfig) (deviceInfo : Device)
    (pciAddress originalDriver deviceName : string) : Call E (result ContainerEdits) :=
  _ ←! or_restore config pciAddress originalDriver
         (if vf_AddVhostMount config then
            call_err (errorw "failed to ensure vhost modules are loaded: %w" [])
              hi_EnsureVhostModulesLoaded
          else mret (Ok tt));
  let envs := ["SRIOVNETWORK_VF_DEVICE_" +:+ ReplaceAll deviceName dash underscore +:+ "=" +:+ pciAddress;
               "SRIOVNETWORK_NET_ATTACH_DEF_NAME=" +:+ vf_NetAttachDefName config] in
  vfio ←! or_restore config pciAddress originalDriver
            (vfioDeviceNodes s config pciAddress deviceName);
  let deviceNodes := vfio.1 ++ vhostDeviceNodes config in
  rdma ←! or_restore config pciAddress originalDriver
            (call_err (errorw "error handling RDMA device: %w" [])
               (handleRDMADevice deviceInfo pciAddress deviceName));
  mret (Ok (mkEdits (envs ++ vfio.2 ++ rdma.2) (deviceNodes ++ rdma.1))).

(** The interface name, and the index after it. *)
Definition chooseIfName (s : Manager) (config : VfConfig) (ifNameIndex : Z) : string * Z :=
  if isStandaloneMode s && bool_decide (vf_IfName config = "") then
    (defaultInterfacePrefix s +:+ itoa ifNameIndex, int_incr ifNameIndex)
  else (vf_IfName config, ifNameIndex).

(** The configuration of the network attachment, with the PCI address added. *)
Definition standaloneNetConf (s : Manager) (claim : ResourceClaim) (config : VfConfig)
    (pciAddress : string) : M (World E) (result string) :=
  if isStandaloneMode s then
    let netAttachDefNamespace := if decide (vf_NetAttachDefNamespace config ≠ "")
                                 then vf_NetAttachDefNamespace config else claim_Namespace claim in
    raw ←? wrap_err (errorw "error getting net attach def raw config: %w" [])
             (ext (getNetAttachDefRawConfig netAttachDefNamespace (vf_NetAttachDefName config)));
    wrap_err (errorw "error converting net attach def config to sriov-cni format: %w" [])
      (AddDeviceIDToNetConf raw pciAddress)
  else mret (Ok "").

(** The record that [applyConfigOnDevice] returns. *)
Definition preparedDeviceOf (claim : ResourceClaim) (config : VfConfig) (result_ : AllocationResult)
    (deviceInfo : Device) (podUID : string) (edits : ContainerEdits) (ifName pciAddress : string)
    (multus : string * string) (netAttachDefRawConfig originalDriver : string) : PreparedDevice :=
  {| pd_Device := mkDrapb [res_Request result_] (res_Pool result_) (res_Device result_)
       [GetClaimDevices (claim_UID claim) (res_Device result_); GetPodSpecName podUID];
     pd_ClaimNamespacedName :=
       mkNsObject (claim_Namespace claim) (claim_Name claim) (claim_UID claim);
     pd_ContainerEdits := Some edits;
     pd_Config := Some config;
     pd_IfName := ifName;
     pd_PciAddress := pciAddress;
     pd_MultusDeviceID := multus.2;
     pd_MultusResourceName := multus.1;
     pd_DeviceAttributes := buildMetadataAttributes (dev_Attributes deviceInfo) ifName;
     pd_NetworkDeviceData := None;
     pd_PodUID := podUID;
     pd_NetAttachDefConfig := netAttachDefRawConfig;
     pd_OriginalDriver := originalDriver |}.

Definition applyConfigOnDevice (ifNameIndex : Z) (claim : ResourceClaim) (config : VfConfig)
    (result_ : AllocationResult) : M (World E) (result (loc * Z)) :=
  s ← gets w_manager;
  match allocatable s !! res_Device result_ with
  | None => mret (Err (errorf "device %s not found in allocatable devices" [res_Device result_]))
  | Some deviceInfo =>
      let '(multusResourceName, multusDeviceID) :=
        if isMultusMode s then
          let '(name, id, _) := extractMultusDeviceInfoAttrs (dev_Attributes deviceInfo) in (name, id)
        else ("", "") in
      pciAddress ← pciAddressOf deviceInfo;
      netAttachDefRawConfig ←? standaloneNetConf s claim config pciAddress;
      originalDriver ←? wrap_err (errorw "error binding device %s to driver: %w" [pciAddress])
                          (ext (hi_BindDeviceDriver pciAddress config));
      edits ←? ext (collectEdits s config deviceInfo pciAddress originalDriver (res_Device result_));
      let '(ifName, ifNameIndex) := chooseIfName s config ifNameIndex in
      podUID ← deref "index out of range [0]" (head (claim_ReservedFor claim));
      l ← new (preparedDeviceOf claim config result_ deviceInfo podUID edits ifName pciAddress
                 (multusResourceName, multusDeviceID) netAttachDefRawConfig originalDriver);
      mret (Ok (l, ifNameIndex))
  end.
End prepare.

(** ** A whole claim *)

Section claim.
Context `{RangeOrder} {E : Type} `{HostInterface E} `{DeviceInfoStore E} `{NadClient E}
  `{JsonLib} `{CdiLib E} `{Decoder}.

(** Restores the drivers in order; the first failure ends the loop. *)
Definition unprepareDevice (p : option loc) (_ : unit) : M (World E) (result unit) :=
  match p with
  | None => mret (Ok tt)
  | Some l =>
      d ← load (Some l);
      match pd_Config d with
      | None => mret (Ok tt)
      | Some config =>
          if decide (vf_Driver config ≠ "") then
            ext (call_err (errorw "failed to restore original driver for device %s: %w" [pd_PciAddress d])
                   (hi_RestoreDeviceDriver (pd_PciAddress d) (pd_OriginalDriver d)))
          else mret (Ok tt)
      end
  end.

Definition unprepareDevices (preparedDevices : PreparedDevices) : M (World E) (result unit) :=
  for_each_ok preparedDevices unprepareDevice tt.

(** The status entry of a configured device. *)
Definition deviceStatus (config : VfConfig) (r : AllocationResult) : AllocatedDeviceStatus :=
  let rawConfig := match json_Marshal_VfConfig config with Ok raw => raw | Err _ => "{}" end in
  mkDeviceStatus (res_Driver r) (res_Pool r) (res_Device r) (res_ShareID r) [] (Some rawConfig) None.

(** The loop of [prepareDevices]; the interface index and the claim are modified
    in place, so they are returned on errors too. *)
Fixpoint prepareLoop (resultsConfig : gmap string VfConfig) (results : list AllocationResult)
    (ifNameIndex : Z) (claim : ResourceClaim) (preparedDevices : PreparedDevices)
  : M (World E) (result PreparedDevices * (Z * ResourceClaim)) :=
  match results with
  | [] => mret (Ok preparedDevices, (ifNameIndex, claim))
  | r :: results =>
      if decide (res_Driver r ≠ DriverName) then
        prepareLoop resultsConfig results ifNameIndex claim preparedDevices
      else
        let config := Normalize (configForRequest resultsConfig (res_Request r)) in
        preparedDevice ← applyConfigOnDevice ifNameIndex claim config r;
        match preparedDevice with
        | Err err =>
            rollback ← unprepareDevices preparedDevices;
            mret (match rollback with
                  | Err rollbackErr =>
                      Err (Errorf "error applying config on device: %v; rollback failed: %v" []
                             [err; rollbackErr] [])
                  | Ok _ => Err (errorv "error applying config on device: %v" [] err)
                  end, (ifNameIndex, claim))
        | Ok (l, ifNameIndex) =>
            let claim := set_claim_Devices
                           (UpsertDeviceStatus (claim_Devices claim) (deviceStatus config r)) claim in
            prepareLoop resultsConfig results ifNameIndex claim (preparedDevices ++ [Some l])
        end
  end.

Definition prepareDevices (ifNameIndex : Z) (claim : ResourceClaim)
    (allocation : DeviceAllocation) (resultsConfig : gmap string VfConfig)
  : M (World E) (result PreparedDevices * (Z * ResourceClaim)) :=
  prepareLoop resultsConfig (alloc_Results allocation) ifNameIndex claim [].

(** Undo a preparation after a later step failed with [cause]: both rollback
    branches of PrepareDevicesForClaim. *)
Definition rollbackPrepared (cause : error) (cleanupFmt : string) (preparedDevices : PreparedDevices)
  : M (World E) error :=
  cleanup ← cleanDeviceInfoFilesForPreparedDevicesIfNeeded preparedDevices;
  rollback ← unprepareDevices preparedDevices;
  mret (ErrJoin ([cause] ++
    match cleanup with Err e => [errorw cleanupFmt [] e] | Ok _ => [] end ++
    match rollback with Err e => [errorw "rollback failed: %w" [] e] | Ok _ => [] end)).

Definition PrepareDevicesForClaim (ifNameIndex : Z) (claim : ResourceClaim)
  : M (World E) (result PreparedDevices * (Z * ResourceClaim)) :=
  allocation ← deref "claim.Status.Allocation" (claim_Allocation claim);
  match getMapOfOpaqueDeviceConfigForDevice (alloc_Config allocation) with
  | Err err =>
      mret (Err (errorv "error creating map of opaque device config for device: %v" [] err),
            (ifNameIndex, claim))
  | Ok resultsConfig =>
      '(prepared, st) ← prepareDevices ifNameIndex claim allocation resultsConfig;
      match prepared with
      | Err err => mret (Err (errorv "prepare failed: %v" [] err), st)
      | Ok [] => mret (Err (errorf "no prepared devices found for claim" []), st)
      | Ok preparedDevices =>
          synced ← syncDeviceInfoFilesForPreparedDevicesIfNeeded preparedDevices;
          match synced with
          | Err err =>
              e ← rollbackPrepared (errorv "unable to create device-info files for claim: %v" [] err)
                    "cleanup after device-info sync failure failed: %w" preparedDevices;
              mret (Err e, st)
          | Ok _ =>
              created ← CreateClaimSpecFile preparedDevices;
              match created with
              | Err err =>
                  e ← rollbackPrepared (errorv "unable to create CDI spec file for claim: %v" [] err)
                        "cleanup after CDI spec failure failed: %w" preparedDevices;
                  mret (Err e, st)
              | Ok _ => mret (Ok preparedDevices, st)
              end
          end
      end
  end.

Definition collect {A} (fmt : string) (r : result A) : list error :=
  match r with Err e => [errorv fmt [] e] | Ok _ => [] end.

(** The spec of the pod of the first device. *)
Definition deletePodSpec (preparedDevices : PreparedDevices) : M (World E) (result unit) :=
  match preparedDevices with
  | Some l :: _ => d ← load (Some l); ext (DeleteSpecFile (pd_PodUID d))
  | _ => mret (Ok tt)
  end.

Definition Unprepare (claimUID : string) (preparedDevices : PreparedDevices)
  : M (World E) (result unit) :=
  cleaned ← cleanDeviceInfoFilesForPreparedDevicesIfNeeded preparedDevices;
  unprepared ← unprepareDevices preparedDevices;
  deleted ← ext (DeleteSpecFile claimUID);
  podDeleted ← deletePodSpec preparedDevices;
  mret (join_errors
    (collect "unable to clean device-info files for claim: %v" cleaned ++
     collect "unprepare failed: %v" unprepared ++
     collect "unable to delete CDI spec file for PodUID: %v" deleted ++
     collect "unable to delete CDI spec file for PodUID: %v" podDeleted)).
End claim.

(** ** Facts about the steps

    [at_core h t m]: the heap, the pod manager's table and the device-state manager
    are these; calls that leave the process cannot change them. *)

Definition at_core {E} (h : Heap) (t : PreparedClaimsByPodUID) (m : Manager) (w : World E) : Prop :=
  w_heap w = h /\ w_claims w = t /\ w_manager w = m.

(** Every pointer of the slice is nil or points to a device. *)
Definition valid_devices (h : Heap) (ds : PreparedDevices) : Prop :=
  forall l, Some l ∈ ds -> is_Some (h !! l).

Lemma valid_devices_sub h ds ds' : (forall x, x ∈ ds' -> x ∈ ds) -> valid_devices h ds -> valid_devices h ds'.
Proof. intros Hs Hv l Hl. by apply Hv, Hs. Qed.

Section steps.
Context {E : Type} (p : Prop).
Implicit Types (w : World E).

Lemma triple_ext {A} (c : Call E A) (P : World E -> Prop) (Q : A -> World E -> Prop) :
  (forall w e a e', P w -> w_env w = e -> c e = (a, e') -> Q a (set_env e' w)) ->
  triple p P (ext c) Q.
Proof.
  intros HQ w HP. unfold ext. destruct (c (w_env w)) as [a e'] eqn:Hc. by eapply HQ.
Qed.

Lemma triple_ext_core {A} (c : Call E A) h t m :
  triple p (at_core h t m) (ext c) (fun _ => at_core h t m).
Proof. apply triple_ext. by intros w e a e' HP _ _. Qed.

Lemma triple_load (q : option loc) h t m (Q : PreparedDevice -> World E -> Prop) :
  (p \/ exists l, q = Some l /\ is_Some (h !! l)) ->
  (forall l d w, q = Some l -> h !! l = Some d -> at_core h t m w -> Q d w) ->
  triple p (at_core h t m) (load q) Q.
Proof.
  intros Hq HQ w (Hh & Ht & Hm). unfold load. destruct q as [l|]; simpl.
  - rewrite Hh. destruct (h !! l) as [d|] eqn:Hl; [by eapply HQ|].
    destruct Hq as [?|(? & [= <-] & [? ?])]; [done|congruence].
  - by destruct Hq as [?|(? & ? & _)].
Qed.
End steps.

Section claim_facts.
Context `{RangeOrder} {E : Type} `{HostInterface E} `{DeviceInfoStore E} `{NadClient E}
  `{JsonLib} `{CdiLib E} `{Decoder}.
Context (p : Prop).
Implicit Types (w : World E) (ds : PreparedDevices).

Lemma triple_unprepareDevice q u h t m :
  p \/ valid_devices h [q] ->
  triple p (at_core (E:=E) h t m) (unprepareDevice q u) (fun _ => at_core h t m).
Proof.
  intros Hv. unfold unprepareDevice. destruct q as [l|]; [|by apply triple_ret].
  apply triple_keep.
  - apply (triple_load p (Some l) h t m (fun _ => at_core h t m)); [|done].
    destruct Hv as [?|Hv]; [by left|right]. exists l. split; [done|]. apply Hv. by left.
  - intros d. destruct (pd_Config d) as [c|]; [|by apply triple_ret].
    destruct (decide _); [|by apply triple_ret]. apply triple_ext_core.
Qed.

Lemma triple_unprepareDevices ds h t m :
  p \/ valid_devices h ds ->
  triple p (at_core (E:=E) h t m) (unprepareDevices ds) (fun _ => at_core h t m).
Proof.
  intros Hv. unfold unprepareDevices.
  apply (triple_for_each_ok p ds unprepareDevice (fun _ _ => at_core h t m)); [|done].
  intros done q rest [] Hds. eapply triple_weaken; [apply triple_unprepareDevice|done|by intros [[]|] w].
  destruct Hv as [?|Hv]; [by left|right]. eapply valid_devices_sub; [|done]. subst. set_solver.
Qed.

Lemma triple_multusDevice action q errs h t m :
  p \/ valid_devices h [q] ->
  triple p (at_core (E:=E) h t m) (multusDevice action q errs) (fun _ => at_core h t m).
Proof.
  intros Hv. destruct q as [l|]; [|by apply triple_ret]. apply triple_keep.
  - apply (triple_load p (Some l) h t m (fun _ => at_core h t m)); [|done].
    destruct Hv as [?|Hv]; [by left|right]. exists l. split; [done|]. apply Hv. by left.
  - intros d. destruct (_ || _); [by apply triple_ret|].
    apply triple_keep; [apply triple_ext_core|]. intros r. by apply triple_ret.
Qed.

Lemma triple_forEachMultus action ds h t m :
  p \/ valid_devices h ds ->
  triple p (at_core (E:=E) h t m) (forEachMultusDevice action ds) (fun _ => at_core h t m).
Proof.
  intros Hv. unfold forEachMultusDevice. apply triple_keep; [|intros errs; by apply triple_ret].
  apply (triple_for_each p ds _ (fun _ _ => at_core h t m)).
  intros done q rest errs Hds. apply triple_multusDevice.
  destruct Hv as [?|Hv]; [by left|right]. eapply valid_devices_sub; [|done]. subst. set_solver.
Qed.

Lemma triple_syncDeviceInfo ds h t m :
  p \/ valid_devices h ds ->
  triple p (at_core (E:=E) h t m) (syncDeviceInfoFilesForPreparedDevicesIfNeeded ds)
    (fun _ => at_core h t m).
Proof.
  intros Hv. apply triple_keep; [by apply triple_gets|].
  intros s. destruct (negb (isMultusMode s)); [by apply triple_ret|by apply triple_forEachMultus].
Qed.

Lemma triple_cleanDeviceInfo ds h t m :
  p \/ valid_devices h ds ->
  triple p (at_core (E:=E) h t m) (cleanDeviceInfoFilesForPreparedDevicesIfNeeded ds)
    (fun _ => at_core h t m).
Proof.
  intros Hv. apply triple_keep; [by apply triple_gets|].
  intros s. destruct (negb (isMultusMode s)); [by apply triple_ret|by apply triple_forEachMultus].
Qed.

Lemma triple_rollbackPrepared cause fmt ds h t m :
  p \/ valid_devices h ds ->
  triple p (at_core (E:=E) h t m) (rollbackPrepared cause fmt ds) (fun _ => at_core h t m).
Proof.
  intros Hv. apply triple_keep; [by apply triple_cleanDeviceInfo|]. intros cleanup.
  apply triple_keep; [by apply triple_unprepareDevices|]. intros rollback. by apply triple_ret.
Qed.

(** The CDI spec of the pod of the first device. *)
Lemma triple_deletePodSpec ds h t m :
  p \/ valid_devices h ds ->
  triple p (at_core (E:=E) h t m) (deletePodSpec ds) (fun _ => at_core h t m).
Proof.
  intros Hv. destruct ds as [|[l|] ds]; [by apply triple_ret| |by apply triple_ret].
  apply triple_keep; [|intros d; apply triple_ext_core].
  apply (triple_load p (Some l) h t m (fun _ => at_core h t m)); [|done].
  destruct Hv as [?|Hv]; [by left|right]. exists l. split; [done|]. apply Hv. by left.
Qed.

Lemma triple_Unprepare uid ds h t m :
  p \/ valid_devices h ds ->
  triple p (at_core (E:=E) h t m) (Unprepare uid ds) (fun _ => at_core h t m).
Proof.
  intros Hv. apply triple_keep; [by apply triple_cleanDeviceInfo|]. intros cleaned.
  apply triple_keep; [by apply triple_unprepareDevices|]. intros unprepared.
  apply triple_keep; [apply triple_ext_core|]. intros deleted.
  apply triple_keep; [by apply triple_deletePodSpec|intros ?; by apply triple_ret].
Qed.

(** Devices that can be written to the CDI spec of a claim. *)
Definition has_edits (h : Heap) ds : Prop :=
  forall q, q ∈ ds -> exists l d, q = Some l /\ h !! l = Some d /\ is_Some (pd_ContainerEdits d).

Lemma triple_CreateClaimSpecFile h t m ds :
  ds ≠ [] -> has_edits h ds ->
  triple p (at_core (E:=E) h t m) (CreateClaimSpecFile ds) (fun _ => at_core h t m).
Proof.
  intros Hne Hload. unfold CreateClaimSpecFile. eapply triple_bind.
  { apply (triple_deref p _ _ _ (fun q w => q ∈ ds /\ at_core h t m w)).
    - right. destruct ds; [done|by eexists].
    - intros q w Hq Hw. split; [|done]. destruct ds; [done|]. injection Hq as ->. by left. }
  intros q. apply triple_pure. intros Hq. apply triple_keep.
  { apply (triple_load p q h t m (fun _ => at_core h t m)); [|done].
    right. destruct (Hload q Hq) as (l & d & -> & Hd & _). exists l. split; [done|by eexists]. }
  intros first. apply triple_keep.
  { apply (triple_for_each p ds _ (fun _ _ => at_core h t m)). intros done q' rest devices Hdone.
    assert (Hq' : q' ∈ ds) by (subst; set_solver).
    destruct (Hload q' Hq') as (l & d & -> & Hd & He).
    apply triple_keep; [|intros ?; by apply triple_ret]. unfold cdiDeviceOf.
    eapply triple_bind.
    - apply (triple_load p (Some l) h t m (fun d' w => d' = d /\ at_core h t m w)).
      + right. exists l. split; [done|by eexists].
      + intros l' d' w [= ->] Hd' Hw. split; [congruence|done].
    - intros d'. apply triple_pure. intros ->. eapply triple_bind.
      + apply (triple_deref p _ _ _ (fun _ => at_core h t m)); [by right|done].
      + intros edits. by apply triple_ret. }
  intros devices. apply (triple_bind_ok p _ _ _ (fun _ => at_core h t m)).
  - apply triple_ret. intros w Hw. by destruct (MinimumRequiredVersion _).
  - intros v. apply triple_ext_core.
Qed.
End claim_facts.

(** ** What a prepared device must be *)

Section prepared.
Context `{RangeOrder} {E : Type} `{HostInterface E} `{DeviceInfoStore E} `{NadClient E}
  `{JsonLib} `{CdiLib E} `{Decoder}.

(** [d] is the device that allocation result [r] of [claim] gives under [config],
    when the interface index is [i]. *)
Record prepared_for (m : Manager) (claim : ResourceClaim) (config : VfConfig)
    (r : AllocationResult) (i : Z) (d : PreparedDevice) : Prop := {
  pf_config : pd_Config d = Some config;
  pf_edits : is_Some (pd_ContainerEdits d);
  pf_ifname : pd_IfName d = (chooseIfName m config i).1;
  pf_claim : pd_ClaimNamespacedName d =
    mkNsObject (claim_Namespace claim) (claim_Name claim) (claim_UID claim);
  pf_pod : head (claim_ReservedFor claim) = Some (pd_PodUID d);
  pf_device : pd_Device d = mkDrapb [res_Request r] (res_Pool r) (res_Device r)
    [GetClaimDevices (claim_UID claim) (res_Device r); GetPodSpecName (pd_PodUID d)];
  pf_pci : exists device, allocatable m !! res_Device r = Some device /\
    attr_String <$> dev_Attributes device !! AttributePciAddress = Some (Some (pd_PciAddress d));
  pf_network : pd_NetworkDeviceData d = None
}.

(** Every discovered device has a PCI address. *)
Definition addressed (m : Manager) : Prop :=
  forall d dev, allocatable m !! d = Some dev ->
    exists a, attr_String <$> dev_Attributes dev !! AttributePciAddress = Some (Some a).

(** No network attachment definition that the API server hands out has a configuration
    that decodes to a nil map, as the JSON null does. *)
Definition no_null_nads : Prop := forall namespace name e raw e',
  GetNetAttachDef namespace name e = (Ok raw, e') -> json_Unmarshal_object raw ≠ Ok None.

Context (p : Prop) (h : Heap) (t : PreparedClaimsByPodUID) (m : Manager).
Context (Hjson : p \/ no_null_nads) (Haddr : p \/ addressed m).

Lemma triple_AddDeviceID raw pci P :
  p \/ json_Unmarshal_object raw ≠ Ok None ->
  triple p P (AddDeviceIDToNetConf (E:=E) raw pci) (fun _ => P).
Proof.
  intros Hraw. eapply triple_bind_ok.
  - apply triple_ret. intros w Hw.
    instantiate (1 := fun a w => P w /\ json_Unmarshal_object raw = Ok a).
    by destruct (json_Unmarshal_object raw).
  - intros [a|].
    + apply triple_ret. by intros w [? _].
    + intros w [_ Hn]. by destruct Hraw.
Qed.

Lemma triple_netConf claim config pci P :
  (forall w e, P w -> P (set_env (E:=E) e w)) ->
  triple p P (standaloneNetConf m claim config pci) (fun _ => P).
Proof using Hjson.
  intros HP. unfold standaloneNetConf. destruct (isStandaloneMode m); [|by apply triple_ret].
  apply (triple_bind_ok p _ _ _ (fun raw w => (p \/ json_Unmarshal_object raw ≠ Ok None) /\ P w)).
  - apply triple_wrap_err, triple_ext. intros w e a e' Hw _.
    unfold getNetAttachDefRawConfig, call_err, mbind, Call_bind, mret, Call_ret.
    destruct (GetNetAttachDef _ _ e) as [[raw|err] e1] eqn:Hget; intros [= <- <-]; [|by apply HP].
    split; [|by apply HP]. destruct Hjson as [?|Hj]; [by left|right]. by eapply Hj.
  - intros raw. apply triple_pure. intros Hraw. by apply triple_wrap_err, triple_AddDeviceID.
Qed.

Lemma triple_pciAddress device P (Q : string -> World E -> Prop) :
  (p \/ exists a, attr_String <$> dev_Attributes device !! AttributePciAddress = Some (Some a)) ->
  (forall a w, attr_String <$> dev_Attributes device !! AttributePciAddress = Some (Some a) ->
     P w -> Q a w) ->
  triple p P (pciAddressOf device) Q.
Proof.
  intros Ha HQ w Hw. unfold pciAddressOf.
  destruct (dev_Attributes device !! AttributePciAddress) as [[a b [s|] v]|]; simpl in *.
  - by apply HQ.
  - by destruct Ha as [?|[? ?]].
  - by destruct Ha as [?|[? ?]].
Qed.

(** The frame of applyConfigOnDevice: on success exactly one fresh device. *)
Lemma triple_applyConfig i claim config r :
  (p \/ is_Some (head (claim_ReservedFor claim))) ->
  triple p (at_core (E:=E) h t m) (applyConfigOnDevice i claim config r)
    (fun res w => match res with
      | Err _ => at_core h t m w
      | Ok (l, i') => i' = (chooseIfName m config i).2 /\ exists d, h !! l = None /\
          prepared_for m claim config r i d /\ at_core (<[l := d]> h) t m w
      end).
Proof using Hjson Haddr.
  intros Hpod. unfold applyConfigOnDevice.
  eapply triple_bind; [apply (triple_gets p w_manager _ (fun s w => s = m /\ at_core h t m w))|].
  { intros w Hw. by destruct Hw as (? & ? & ?). }
  intros s. apply triple_pure. intros ->.
  destruct (allocatable m !! res_Device r) as [deviceInfo|] eqn:Hdev; [|by apply triple_ret].
  destruct (if isMultusMode m then _ else _) as [multusName multusID].
  eapply triple_bind.
  { apply (triple_pciAddress deviceInfo _ (fun a w =>
      attr_String <$> dev_Attributes deviceInfo !! AttributePciAddress = Some (Some a) /\ at_core h t m w)).
    - destruct Haddr as [?|Ha]; [by left|right]. by eapply Ha.
    - by intros a w. }
  intros pci. apply triple_pure. intros Hpci.
  apply (triple_bind_ok p _ _ _ (fun _ => at_core h t m)).
  { apply (triple_weaken p _ _ (at_core h t m) _ (fun _ => at_core h t m));
      [by apply triple_netConf|done|by intros []]. }
  intros netConf. apply (triple_bind_ok p _ _ _ (fun _ => at_core h t m)).
  { apply triple_wrap_err. eapply triple_weaken; [apply triple_ext_core|done|]. by intros [] w. }
  intros original. apply (triple_bind_ok p _ _ _ (fun _ => at_core h t m)).
  { eapply triple_weaken; [apply triple_ext_core|done|]. by intros [] w. }
  intros edits. destruct (chooseIfName m config i) as [ifName i'] eqn:Hif.
  eapply triple_bind.
  { apply (triple_deref p _ _ _ (fun a w => head (claim_ReservedFor claim) = Some a /\ at_core h t m w));
      [done|]. by intros a w. }
  intros pod. apply triple_pure. intros Hp. intros w (Hh & Ht & Hm).
  unfold mbind, M_bind, new, mret, M_ret. split; [done|]. rewrite Hh.
  eexists. split; [apply not_elem_of_dom, is_fresh|]. split; [|by split].
  constructor; simpl; try done; [by rewrite Hif|]. by exists deviceInfo.
Qed.
End prepared.

(** ** The devices of a claim *)

Section plan.
Context `{RangeOrder} {E : Type} `{HostInterface E} `{DeviceInfoStore E} `{NadClient E}
  `{JsonLib} `{CdiLib E} `{Decoder}.

(** This driver's allocation results, with the interface index each one sees: the
    index advances exactly at the devices that take a default name. *)
Fixpoint plan (m : Manager) (resultsConfig : gmap string VfConfig)
    (results : list AllocationResult) (i : Z) : list (AllocationResult * Z) :=
  match results with
  | [] => []
  | r :: results =>
      if decide (res_Driver r ≠ DriverName) then plan m resultsConfig results i
      else (r, i) :: plan m resultsConfig results
                       (chooseIfName m (configForRequest resultsConfig (res_Request r)) i).2
  end.

(** The interface index after all of them. *)
Fixpoint next_index (m : Manager) (resultsConfig : gmap string VfConfig)
    (results : list AllocationResult) (i : Z) : Z :=
  match results with
  | [] => i
  | r :: results =>
      if decide (res_Driver r ≠ DriverName) then next_index m resultsConfig results i
      else next_index m resultsConfig results
             (chooseIfName m (configForRequest resultsConfig (res_Request r)) i).2
  end.

(** [ds] are the devices of the planned results, in order. *)
Definition prepared_list (m : Manager) (claim : ResourceClaim) (resultsConfig : gmap string VfConfig)
    (h : Heap) (ds : PreparedDevices) (l : list (AllocationResult * Z)) : Prop :=
  Forall2 (fun q ri => exists a d, q = Some a /\ h !! a = Some d /\
    prepared_for m claim (configForRequest resultsConfig (res_Request ri.1)) ri.1 ri.2 d) ds l.

Lemma prepared_list_mono m claim rc h h' ds l :
  h ⊆ h' -> prepared_list m claim rc h ds l -> prepared_list m claim rc h' ds l.
Proof.
  intros Hh Hl. eapply Forall2_impl; [exact Hl|]. intros q ri (a & d & -> & Ha & Hd).
  exists a, d. split_and!; [done|by eapply lookup_weaken|done].
Qed.

Lemma prepared_list_valid m claim rc h ds l : prepared_list m claim rc h ds l -> valid_devices h ds.
Proof.
  intros Hl a Ha. apply list_elem_of_lookup in Ha as [k Hk].
  destruct (Forall2_lookup_l _ _ _ _ _ Hl Hk) as (ri & _ & a' & d & [= ->] & Hd & _). by eexists.
Qed.

(** Recording a device status changes nothing a prepared device depends on. *)
Lemma prepared_for_claim_devices m claim ss config r i d :
  prepared_for m (set_claim_Devices ss claim) config r i d -> prepared_for m claim config r i d.
Proof. by intros []; constructor. Qed.

Context (p : Prop) (t : PreparedClaimsByPodUID) (m : Manager).
Context (Hjson : p \/ no_null_nads) (Haddr : p \/ addressed m).

Definition prepare_post (h : Heap) (claim : ResourceClaim) (rc : gmap string VfConfig)
    (acc : PreparedDevices) (pl : list (AllocationResult * Z)) (next : Z)
    (res : result PreparedDevices * (Z * ResourceClaim)) (w : World E) : Prop :=
  exists h', h ⊆ h' /\ at_core h' t m w /\
    match res.1 with
    | Err _ => True
    | Ok ds => res.2.1 = next /\ exists new, ds = acc ++ new /\ prepared_list m claim rc h' new pl
    end.

Lemma triple_prepareLoop rc results i claim acc h :
  (p \/ is_Some (head (claim_ReservedFor claim))) -> valid_devices h acc ->
  triple p (at_core h t m) (prepareLoop rc results i claim acc)
    (prepare_post h claim rc acc (plan m rc results i) (next_index m rc results i)).
Proof using Hjson Haddr.
  revert i claim acc h. induction results as [|r results IH]; intros i claim acc h Hpod Hacc; simpl.
  - apply triple_ret. intros w Hw. exists h. split_and!; [done|done|]. split; [done|]. exists [].
    by rewrite app_nil_r; split; [|constructor].
  - destruct (decide (res_Driver r ≠ DriverName)); [by apply IH|].
    unfold Normalize. set (config := configForRequest rc (res_Request r)).
    eapply triple_bind; [by apply triple_applyConfig|]. intros [[l i']|err].
    + apply triple_pure. intros ->. intros w (d & Hl & Hd & Hw).
      assert (Hsub : h ⊆ <[l := d]> h) by by apply insert_subseteq.
      eapply (triple_weaken p _ (at_core (<[l := d]> h) t m)); [apply IH|done| |exact Hw].
      * done.
      * intros a [?|[= ->]%list_elem_of_singleton]%elem_of_app;
          [by eapply lookup_weaken_is_Some; [apply Hacc|]|by rewrite lookup_insert_eq].
      * intros [res st] w' (h' & Hh' & Hw' & Hres). exists h'. split_and!; [by etrans|done|].
        destruct res as [ds|]; [|done]. destruct Hres as (Hnext & new & -> & Hnew). split; [done|]. simpl.
        exists (Some l :: new). split; [by rewrite <- app_assoc|]. constructor.
        -- exists l, d. split_and!; [done|eapply lookup_weaken; [apply lookup_insert_eq|done]|done].
        -- eapply Forall2_impl; [exact Hnew|]. intros q ri (a & d' & -> & Ha & Hd').
           exists a, d'. split_and!; [done..|]. by eapply prepared_for_claim_devices.
    + apply triple_keep; [apply triple_unprepareDevices; by right|]. intros rollback.
      apply triple_ret. intros w Hw. exists h. split_and!; [done|done|]. by destruct rollback.
Qed.

Lemma prepared_list_edits claim rc h ds pl : prepared_list m claim rc h ds pl -> has_edits h ds.
Proof.
  intros Hds q Hq. apply list_elem_of_lookup in Hq as [k Hk].
  destruct (Forall2_lookup_l _ _ _ _ _ Hds Hk) as (ri & _ & a & d & -> & Ha & Hd).
  exists a, d. split_and!; [done..|by eapply pf_edits].
Qed.

(** The whole preparation, with the interface index that it leaves. *)
Lemma triple_PrepareDevicesForClaim_index i claim allocation h :
  claim_Allocation claim = Some allocation -> (p \/ is_Some (head (claim_ReservedFor claim))) ->
  triple p (at_core h t m) (PrepareDevicesForClaim i claim)
    (fun res w => exists h', h ⊆ h' /\ at_core h' t m w /\
      match res.1 with
      | Err _ => True
      | Ok ds => ds ≠ [] /\ exists rc,
          getMapOfOpaqueDeviceConfigForDevice (alloc_Config allocation) = Ok rc /\
          prepared_list m claim rc h' ds (plan m rc (alloc_Results allocation) i) /\
          res.2.1 = next_index m rc (alloc_Results allocation) i
      end).
Proof using Hjson Haddr.
  intros Halloc Hpod. unfold PrepareDevicesForClaim. rewrite Halloc.
  eapply triple_bind.
  { apply (triple_deref p _ _ _ (fun a w => a = allocation /\ at_core h t m w)); [by right; eexists|].
    by intros a w [= ->]. }
  intros a. apply triple_pure. intros ->.
  destruct (getMapOfOpaqueDeviceConfigForDevice _) as [rc|err] eqn:Hrc;
    [|apply triple_ret; intros w Hw; exists h; by split_and!].
  eapply triple_bind; [by apply triple_prepareLoop; [|intros l ?%elem_of_nil]|].
  intros [[ds|err] st] w (h' & Hh' & Hw & Hres); simpl in Hres.
  2: { by exists h'. }
  destruct Hres as (Hnext & new & -> & Hds). simpl in Hnext |- *. destruct new as [|q new]; [by exists h'|].
  pose proof (prepared_list_valid _ _ _ _ _ _ Hds) as Hvalid.
  revert w Hw. apply (triple_bind p _ _ _ (fun _ => at_core h' t m)).
  { apply triple_syncDeviceInfo. by right. }
  assert (Hroll : forall cause fmt (Q : result PreparedDevices * (Z * ResourceClaim) -> World E -> Prop),
    (forall e w, at_core h' t m w -> Q (Err e, st) w) ->
    triple p (at_core (E:=E) h' t m)
      (e ← rollbackPrepared cause fmt (q :: new); mret (Err e, st)) Q).
  { intros cause fmt Q HQ. apply triple_keep; [apply triple_rollbackPrepared; by right|].
    intros e. apply triple_ret. intros w Hw. by apply HQ. }
  intros [[]|err]; [|apply Hroll; intros e w Hw; by exists h'].
  apply triple_keep; [by apply triple_CreateClaimSpecFile; [|eapply prepared_list_edits]|].
  intros [[]|err]; [|apply Hroll; intros e w Hw; by exists h'].
  apply triple_ret. intros w Hw. exists h'. split_and!; [done|done|]. simpl. split; [done|]. by exists rc.
Qed.

Lemma triple_PrepareDevicesForClaim i claim allocation h :
  claim_Allocation claim = Some allocation -> (p \/ is_Some (head (claim_ReservedFor claim))) ->
  triple p (at_core h t m) (PrepareDevicesForClaim i claim)
    (fun res w => exists h', h ⊆ h' /\ at_core h' t m w /\
      match res.1 with
      | Err _ => True
      | Ok ds => ds ≠ [] /\ exists rc,
          getMapOfOpaqueDeviceConfigForDevice (alloc_Config allocation) = Ok rc /\
          prepared_list m claim rc h' ds (plan m rc (alloc_Results allocation) i)
      end).
Proof using Hjson Haddr.
  intros Halloc Hpod. eapply triple_weaken; [by apply triple_PrepareDevicesForClaim_index|done|].
  intros [[ds|err] st] w (h' & Hh & Hw & Hres); exists h'; split_and!; [done..| |done|done|done].
  destruct Hres as (Hne & rc & Hrc & Hds & _). split; [done|]. by exists rc.
Qed.
End plan.

(** ** Host laws, as the manager relies on them *)

Class HostLaws (E : Type) `{HostInterface E} : Type := {
  (** The driver a PCI device is bound to, and the addresses and drivers that exist. *)
  hl_driver : E -> string -> option string;
  hl_valid : string -> string -> Prop;
  hl_restored a orig e e' : hl_valid a orig -> orig ≠ "" ->
    hi_RestoreDeviceDriver a orig e = (Ok tt, e') -> hl_driver e' a = Some orig;
  hl_restore_frame a orig e r e' a' d : hl_valid a orig -> a' ≠ a ->
    hi_RestoreDeviceDriver a orig e = (r, e') -> hl_driver e a' = Some d -> hl_driver e' a' = Some d
}.

(** pkg/host keeps them, on a kernel with the laws of Host.v. *)
Definition host_helpers_lawful {E} `{OS E} `{Providers E} (RootDir : string)
    `{!PciKernel E RootDir} : @HostLaws E (host_helpers RootDir).
Proof.
  refine (@Build_HostLaws E (host_helpers RootDir) bound
            (fun a d => pci_device a /\ (pci_driver d \/ d = "")) _ _).
  - intros a orig e e' [Ha [Hd|]] Hne Hr; [|done]. simpl in Hr. unfold RestoreDeviceDriver in Hr.
    destruct (decide (orig = "")); [done|]. by eapply BindDriver_spec in Hr as [_ Hr]; [apply Hr|..].
  - intros a orig e r e' a' d [Ha Hd] Hne Hr. simpl in Hr. unfold RestoreDeviceDriver in Hr.
    destruct (decide (orig = "")).
    + eapply BindDefault_spec in Hr as [[Hf _] _]; [|done]. by apply Hf.
    + destruct Hd as [Hd|]; [|done]. eapply BindDriver_spec in Hr as [[Hf _] _]; [|done..]. by apply Hf.
Defined.

Section prepare_properties.
Context `{RangeOrder} {E : Type} `{HostInterface E} `{DeviceInfoStore E} `{NadClient E}
  `{JsonLib} `{CdiLib E} `{Decoder}.
Implicit Types (w : World E) (ds : PreparedDevices).

(** C1: A successful preparation returns one device per allocation result of this
    driver, in order, each configured from the configuration of its request and
    named by the shared interface index; the table, the manager and every device
    that existed before are left as they were. *)
Theorem prepare_claim_correct i claim allocation w ds st w' :
  claim_Allocation claim = Some allocation ->
  PrepareDevicesForClaim i claim w = (Ret (Ok ds, st), w') ->
  ds ≠ [] /\ w_claims w' = w_claims w /\ w_manager w' = w_manager w /\ w_heap w ⊆ w_heap w' /\
  exists rc, getMapOfOpaqueDeviceConfigForDevice (alloc_Config allocation) = Ok rc /\
    prepared_list (w_manager w) claim rc (w_heap w') ds
      (plan (w_manager w) rc (alloc_Results allocation) i).
Proof.
  intros Halloc Hrun.
  destruct (triple_run True _ _ _ _ _ _ (triple_PrepareDevicesForClaim True (w_claims w)
    (w_manager w) (or_introl I) (or_introl I) i claim allocation (w_heap w) Halloc (or_introl I))
    ltac:(by split_and!) Hrun) as (h' & Hh & (<- & Ht & Hm) & Hne & Hrc).
  by split_and!.
Qed.

(** C23: Preparing a claim never panics, and returns with the table and the manager
    unchanged, whatever the host, the API and the file system answer, if the claim is
    allocated and reserved, discovery gave every device its PCI address (as it does,
    [new_manager_ready]), and no network attachment definition that the API server hands
    out has the JSON null as its configuration; with one that has, it does panic
    ([null_definition_panics]). *)
Theorem prepare_never_panics i claim allocation w :
  claim_Allocation claim = Some allocation -> is_Some (head (claim_ReservedFor claim)) ->
  addressed (w_manager w) -> no_null_nads ->
  exists res st w', PrepareDevicesForClaim i claim w = (Ret (res, st), w') /\
    w_claims w' = w_claims w /\ w_manager w' = w_manager w.
Proof.
  intros Halloc Hpod Haddr Hjson.
  destruct (triple_returns _ _ _ w (triple_PrepareDevicesForClaim False (w_claims w)
    (w_manager w) (or_intror Hjson) (or_intror Haddr) i claim allocation (w_heap w) Halloc
    (or_intror Hpod)) ltac:(by split_and!)) as ([res st] & w' & Hrun & h' & _ & (_ & Ht & Hm) & _).
  by exists res, st, w'.
Qed.

(** The name planned for a result whose configuration names no interface. *)
Definition plannedName (m : Manager) (rc : gmap string VfConfig) (ri : AllocationResult * Z) : option string :=
  let config := configForRequest rc (res_Request ri.1) in
  if decide (vf_IfName config = "") then Some (chooseIfName m config ri.2).1 else None.

(** The default names that a plan gives. *)
Lemma plan_names m rc results i :
  isStandaloneMode m = true -> (0 ≤ i)%Z -> (i + Z.of_nat (length results) < 2 ^ 63)%Z ->
  exists n, next_index m rc results i = (i + Z.of_nat n)%Z /\ n ≤ length results /\
    omap (plannedName m rc) (plan m rc results i) = (fun k => defaultInterfacePrefix m +:+ itoa k) <$> seqZ i (Z.of_nat n).
Proof.
  intros Hm. revert i. induction results as [|r results IH]; intros i Hi Hlen; simpl in *.
  { exists 0. split_and!; [lia|lia|done]. }
  destruct (decide _) as [_|_]. { destruct (IH i) as (n & ? & ? & ?); [lia..|]. exists n. split_and!; [done|lia|done]. }
  cbn [omap list_omap]. unfold plannedName at 1. cbn [fst snd].
  set (config := configForRequest rc (res_Request r)) in *.
  destruct (decide (vf_IfName config = "")) as [Hif|Hif]; unfold chooseIfName; rewrite Hm; simpl.
  - rewrite bool_decide_true by done. simpl. unfold int_incr. rewrite wrap64_small by lia.
    destruct (IH (i + 1)%Z) as (n & Hn & Hle & Hnames); [lia..|]. exists (S n).
    split_and!; [lia|lia|]. rewrite Hnames, (seqZ_cons i) by lia. simpl. do 3 f_equal; lia.
  - rewrite bool_decide_false by done. simpl.
    destruct (IH i) as (n & ? & ? & ?); [lia..|]. exists n. split_and!; [done|lia|done].
Qed.

(** The name of a device whose configuration names no interface. *)
Definition defaultName (h : Heap) (q : option loc) : option string :=
  l ← q; d ← h !! l; config ← pd_Config d;
  if decide (vf_IfName config = "") then Some (pd_IfName d) else None.

Lemma prepared_default_names m claim rc h ds pl :
  prepared_list m claim rc h ds pl ->
  omap (defaultName h) ds = omap (plannedName m rc) pl.
Proof.
  induction 1 as [|q ri ds pl (l & d & -> & Hl & Hd) _ IH]; [done|].
  assert (Hname : defaultName h (Some l) = plannedName m rc ri).
  { unfold defaultName, plannedName. simpl. rewrite Hl. simpl.
    by rewrite (pf_config _ _ _ _ _ _ Hd), <- (pf_ifname _ _ _ _ _ _ Hd). }
  cbn [omap list_omap]. rewrite Hname, IH. done.
Qed.

(** C32: In standalone mode the devices of a successful preparation whose configurations
    name no interface are named by the prefix and consecutive numbers from the shared
    index on, in order; so no two of them share a name, and as the index that is left
    for the next claim is the first unused number, neither do those of different claims
    of one request of the kubelet; as long as the index stays in the range of int. *)
Theorem default_names_distinct i claim allocation w ds st w' :
  claim_Allocation claim = Some allocation -> isStandaloneMode (w_manager w) = true ->
  (0 ≤ i)%Z -> (i + Z.of_nat (length (alloc_Results allocation)) < 2 ^ 63)%Z ->
  PrepareDevicesForClaim i claim w = (Ret (Ok ds, st), w') ->
  let names := omap (defaultName (w_heap w')) ds in
  names = (fun k => defaultInterfacePrefix (w_manager w) +:+ itoa k) <$> seqZ i (Z.of_nat (length names)) /\
  st.1 = (i + Z.of_nat (length names))%Z /\ NoDup names.
Proof.
  intros Halloc Hm Hi Hlen Hrun names.
  destruct (triple_run True _ _ _ _ _ _ (triple_PrepareDevicesForClaim_index True (w_claims w)
    (w_manager w) (or_introl I) (or_introl I) i claim allocation (w_heap w) Halloc (or_introl I))
    ltac:(by split_and!) Hrun) as (h' & _ & (Hh & _) & _ & rc & _ & Hds & Hst). subst h'.
  destruct (plan_names (w_manager w) rc (alloc_Results allocation) i Hm Hi Hlen) as (n & Hn & _ & Hnames).
  rewrite <- (prepared_default_names _ _ _ _ _ _ Hds) in Hnames. fold names in Hnames.
  assert (Hcount : length names = n) by (rewrite Hnames, length_fmap, length_seqZ; lia).
  rewrite Hcount. split_and!; [done|by simpl in Hst; rewrite Hst|].
  rewrite Hnames. apply NoDup_fmap_2; [|apply NoDup_seqZ].
  intros a b Heq. by apply (inj _), itoa_inj in Heq.
Qed.

(** No container ever gets the vhost devices, and no network attachment
    definition is taken from another namespace: the configuration recorded in every
    prepared device has both parameters unset, whatever class and claim ask for. *)
Lemma prepared_never_vhost i claim allocation w ds st w' :
  claim_Allocation claim = Some allocation ->
  PrepareDevicesForClaim i claim w = (Ret (Ok ds, st), w') ->
  forall q, q ∈ ds -> exists l d c, q = Some l /\ w_heap w' !! l = Some d /\ pd_Config d = Some c /\
    vf_AddVhostMount c = false /\ vf_NetAttachDefNamespace c = "".
Proof.
  intros Halloc Hrun q Hq.
  destruct (triple_run True _ _ _ _ _ _ (triple_PrepareDevicesForClaim True (w_claims w)
    (w_manager w) (or_introl I) (or_introl I) i claim allocation (w_heap w) Halloc (or_introl I))
    ltac:(by split_and!) Hrun) as (h' & _ & (<- & _ & _) & _ & rc & Hrc & Hds).
  apply list_elem_of_lookup in Hq as [k Hk].
  destruct (Forall2_lookup_l _ _ _ _ _ Hds Hk) as ([r j] & _ & l & d & -> & Hd & Hpf).
  exists l, d, (configForRequest rc (res_Request r)). split_and!; [done..|by apply pf_config in Hpf| |].
  all: unfold configForRequest; destruct (rc !! _) as [c|] eqn:Hc;
    [by apply (resolved_unset _ _ _ _ Hrc Hc)|].
  all: destruct (rc !! "") as [c|] eqn:Hc'; [by apply (resolved_unset _ _ _ _ Hrc Hc')|done].
Qed.

(** C21: When unpreparing devices succeeds, every device whose configuration changed
    the driver is back on the driver recorded when it was prepared. *)
Theorem unprepare_restores_drivers `{!HostLaws E} ds w w' :
  NoDup (omap (fun q => l ← q; pd_PciAddress <$> w_heap w !! l) ds) ->
  (forall l d, Some l ∈ ds -> w_heap w !! l = Some d -> hl_valid (pd_PciAddress d) (pd_OriginalDriver d)) ->
  unprepareDevices ds w = (Ret (Ok tt), w') ->
  forall l d c, Some l ∈ ds -> w_heap w !! l = Some d -> pd_Config d = Some c -> vf_Driver c ≠ "" ->
    pd_OriginalDriver d ≠ "" -> hl_driver (w_env w') (pd_PciAddress d) = Some (pd_OriginalDriver d).
Proof.
  intros Hnd Hvalid Hrun. set (h := w_heap w) in *.
  set (restored := fun (done : PreparedDevices) (w : World E) => forall l d c, Some l ∈ done ->
    h !! l = Some d -> pd_Config d = Some c -> vf_Driver c ≠ "" -> pd_OriginalDriver d ≠ "" ->
    hl_driver (w_env w) (pd_PciAddress d) = Some (pd_OriginalDriver d)).
  assert (Ht : triple True (fun w => w_heap w = h /\ restored [] w) (unprepareDevices ds)
    (fun r w => r = Ok tt -> restored ds w)).
  { apply (triple_for_each_ok True ds unprepareDevice (fun done _ w => w_heap w = h /\ restored done w)).
    2: { by intros [] w1 [_ Hr] _. }
    intros done q rest [] Hds w1 [Hh Hr]. unfold unprepareDevice. destruct q as [l|].
    2: { split; [done|]. intros l d c [Hl|Hl]%elem_of_app; [by eapply Hr|set_solver]. }
    unfold mbind, M_bind, load. simpl. rewrite Hh. destruct (h !! l) as [d|] eqn:Hl; [|done].
    assert (Hother : forall l' d', Some l' ∈ done -> h !! l' = Some d' -> pd_PciAddress d' ≠ pd_PciAddress d).
    { intros l' d' Hin Hl' Heq. rewrite Hds, omap_app in Hnd. simpl in Hnd. rewrite Hl in Hnd. simpl in Hnd.
      apply NoDup_app in Hnd as (_ & Hdis & _). apply (Hdis (pd_PciAddress d)); [|by left].
      apply list_elem_of_omap. exists (Some l'). split; [done|]. simpl. by rewrite Hl', <- Heq. }
    destruct (pd_Config d) as [c|] eqn:Hc.
    2: { split; [done|]. intros l' d' c' [Hin|[= ->]%list_elem_of_singleton]%elem_of_app; [by eapply Hr|by intros; simplify_eq]. }
    destruct (decide (vf_Driver c ≠ "")) as [Hdrv|Hdrv].
    2: { split; [done|]. intros l' d' c' [Hin|[= ->]%list_elem_of_singleton]%elem_of_app; [by eapply Hr|by intros; simplify_eq]. }
    unfold ext, call_err, mbind, Call_bind, mret, Call_ret.
    destruct (hi_RestoreDeviceDriver _ _ (w_env w1)) as [[[]|err] e1] eqn:Hrest; simpl; [|done].
    split; [done|]. assert (Hval : hl_valid (pd_PciAddress d) (pd_OriginalDriver d)).
    { apply (Hvalid l); [subst; set_solver|done]. }
    intros l' d' c' [Hin|[= ->]%list_elem_of_singleton]%elem_of_app Hl' Hc' Hd' Ho'; simpl.
    - eapply hl_restore_frame; [exact Hval|by eapply Hother|exact Hrest|by eapply Hr].
    - rewrite Hl in Hl'. injection Hl' as <-. by eapply hl_restored. }
  assert (Hfinal : restored ds w').
  { apply (triple_run True _ _ _ w (Ok tt) w' Ht); [|exact Hrun|done]. split; [done|].
    intros l d c Hin. by apply elem_of_nil in Hin. }
  exact Hfinal.
Qed.

(** C22: The CDI spec of a claim agrees with what the kubelet is told: it is written
    under the claim's name, has one device per prepared device, and the first CDI
    device id of each prepared device is the qualified name of its spec device,
    whose edits are the ones collected for it. *)
Theorem claim_spec_matches_ids m claim rc w ds pl w' :
  ds ≠ [] -> prepared_list m claim rc (w_heap w) ds pl ->
  CreateClaimSpecFile ds w = (Ret (Ok tt), w') ->
  exists version devices,
    cache_WriteSpec (mkCdiSpec version cdiKind devices)
      (GenerateTransientSpecName cdiVendor cdiClass (claim_UID claim)) (w_env w) = (Ok tt, w_env w') /\
    Forall2 (fun q device => exists l d, q = Some l /\ w_heap w !! l = Some d /\
      head (drapb_CdiDeviceIds (pd_Device d)) =
        Some (QualifiedName cdiVendor cdiClass (cdid_Name device)) /\
      pd_ContainerEdits d = Some (cdid_ContainerEdits device)) ds devices.
Proof.
  intros Hne Hds. unfold CreateClaimSpecFile.
  destruct ds as [|q0 ds0]; [done|]. inversion Hds as [|? ri0 ? pl0 Hq0]; subst.
  destruct Hq0 as (l0 & d0 & -> & Hl0 & Hd0).
  assert (Hload : forall l d, w_heap w !! l = Some d -> load (Some l) w = (Ret d, w)).
  { intros l d Hl. unfold load. simpl. by rewrite Hl. }
  unfold mbind at 1, M_bind at 1. simpl deref. unfold mret at 1, M_ret at 1.
  unfold mbind at 1, M_bind at 1. rewrite (Hload _ _ Hl0), (pf_claim _ _ _ _ _ _ Hd0). simpl no_UID.
  set (body := fun p devices => cdiDevice ← cdiDeviceOf (claim_UID claim) p; mret (devices ++ [cdiDevice])).
  assert (Hloop : forall ds pl acc, prepared_list m claim rc (w_heap w) ds pl -> exists devices,
    for_each ds body acc w = (Ret (acc ++ devices), w) /\
    Forall2 (fun q device => exists l d, q = Some l /\ w_heap w !! l = Some d /\
      head (drapb_CdiDeviceIds (pd_Device d)) =
        Some (QualifiedName cdiVendor cdiClass (cdid_Name device)) /\
      pd_ContainerEdits d = Some (cdid_ContainerEdits device)) ds devices).
  { clear -Hload. induction ds as [|q ds IH]; intros pl acc Hds.
    - exists []. by rewrite app_nil_r; split; [|constructor].
    - inversion Hds as [|? ri ? pl' (l & d & -> & Hl & Hd) Hrest]; subst.
      destruct (pf_edits _ _ _ _ _ _ Hd) as [edits He].
      set (dev := mkCdiDevice (claimDeviceName (claim_UID claim) (drapb_DeviceName (pd_Device d))) edits).
      destruct (IH pl' (acc ++ [dev]) Hrest) as (devices & Hrun & Hdev). exists (dev :: devices). split.
      + simpl. unfold mbind at 1, M_bind at 1. unfold body at 1, cdiDeviceOf.
        unfold mbind, M_bind. rewrite (Hload _ _ Hl), He. simpl.
        unfold mret, M_ret. fold dev. rewrite Hrun. by rewrite <- app_assoc.
      + constructor; [|done]. exists l, d. split_and!; [done|done| |done].
        unfold dev. rewrite (pf_device _ _ _ _ _ _ Hd). done. }
  destruct (Hloop (Some l0 :: ds0) (ri0 :: pl0) [] Hds) as (devices & Hrun & Hdev).
  unfold mbind at 1, M_bind at 1. rewrite Hrun. simpl app.
  unfold bind_ok, mbind, M_bind, mret, M_ret.
  destruct (MinimumRequiredVersion _) as [v|err]; simpl; [|done]. unfold ext.
  destruct (cache_WriteSpec _ _ _) as [r e'] eqn:Hw. intros [= -> <-]. exists v, devices. by split.
Qed.
End prepare_properties.

(** ** Concrete runs

    The simulated kernel of Host.v, a CDI cache as a map, and a claim for two
    devices, the first one with the vfio-pci driver. *)
Module PrepareRuns.
#[local] Existing Instance listing_order.
#[local] Existing Instance HostRuns.sim_os.
#[local] Existing Instance HostRuns.sim_providers.
#[local] Existing Instance HostRuns.sim_kernel.

Record outside_world : Type := mkOutside {
  kernel : HostRuns.sim;
  specs : gmap string CdiSpec
}.

Definition on_kernel {A} (c : Call HostRuns.sim A) : Call outside_world A := fun e =>
  let '(a, k) := c (kernel e) in (a, mkOutside k (specs e)).

#[export] Instance helpers : HostInterface outside_world := {|
  hi_BindDeviceDriver := fun a c => on_kernel (BindDeviceDriver "" a c);
  hi_RestoreDeviceDriver := fun a d => on_kernel (RestoreDeviceDriver "" a d);
  hi_EnsureVhostModulesLoaded := on_kernel (EnsureVhostModulesLoaded "");
  hi_GetVFIODeviceFile := fun a e => (Ok ("/dev/vfio/7", "/dev/vfio/7"), e);
  hi_GetVFIOCdevPath := fun a => on_kernel (GetVFIOCdevPath "" a);
  hi_GetRDMADevicesForPCI := fun a => on_kernel (GetRDMADevicesForPCI a);
  hi_GetRDMACharDevices := fun a => on_kernel (GetRDMACharDevices a) |}.

#[export] Instance helpers_lawful : HostLaws outside_world.
Proof.
  refine {| hl_driver := fun e a => bound (kernel e) a;
            hl_valid := fun a d => HostRuns.sim_device a /\ (HostRuns.sim_driver d \/ d = "") |}.
  - intros a orig e e' Hv Hne Hr. simpl in Hr. unfold on_kernel in Hr.
    destruct (RestoreDeviceDriver "" a orig (kernel e)) as [r k] eqn:Hk. injection Hr as -> <-.
    exact (hl_restored (HostLaws:=host_helpers_lawful "") a orig (kernel e) k Hv Hne Hk).
  - intros a orig e r e' a' d Hv Hne Hr Hb. simpl in Hr. unfold on_kernel in Hr.
    destruct (RestoreDeviceDriver "" a orig (kernel e)) as [r' k] eqn:Hk. injection Hr as -> <-.
    exact (hl_restore_frame (HostLaws:=host_helpers_lawful "") a orig (kernel e) r k a' d Hv Hne Hk Hb).
Defined.

#[export] Instance no_store : DeviceInfoStore outside_world := {|
  CleanDeviceInfoForDP := fun _ _ e => (Ok tt, e);
  SaveDeviceInfoForDP := fun _ _ _ e => (Ok tt, e) |}.

#[export] Instance nads : NadClient outside_world := fun _ _ e => (Ok "{}", e).

(** Objects whose members are all strings; only the text "null" is interpreted. *)
#[export] Instance json : JsonLib := {|
  json_value := string;
  json_string := fun s => s;
  json_Unmarshal_object := fun raw => if decide (raw = "null") then Ok None else Ok (Some ∅);
  json_Marshal_object := fun m => Ok (Join ((fun '(k, v) => k +:+ ":" +:+ v) <$> map_to_list m) ",");
  json_Marshal_VfConfig := fun c => Ok (vf_Driver c) |}.

#[export] Instance cdi : CdiLib outside_world := {|
  MinimumRequiredVersion := fun _ => Ok "0.3.0";
  GenerateNameForTransientSpec := fun _ id => Ok id;
  GenerateTransientSpecName := fun v c id => v +:+ "_" +:+ c +:+ "_" +:+ id;
  QualifiedName := fun v c n => v +:+ "/" +:+ c +:+ "=" +:+ n;
  cache_WriteSpec := fun s n e => (Ok tt, mkOutside (kernel e) (<[n := s]> (specs e)));
  cache_RemoveSpec := fun n e => (Ok tt, mkOutside (kernel e) (delete n (specs e)));
  os_Getenv := fun _ e => ("node-1", e) |}.

#[export] Instance decoder : Decoder := OpaqueConfigRuns.decoder.

Definition vf (name pci : string) : Device :=
  mkDevice name (<[AttributePciAddress := StringAttr pci]> ∅).
Definition manager : Manager :=
  mkManager (<["vf-1" := vf "vf-1" HostRuns.dev1]> (<["vf-2" := vf "vf-2" HostRuns.dev2]> ∅))
    ∅ "vfnet" ConfigurationModeStandalone false.

Definition allocation : DeviceAllocation :=
  mkAllocation [mkAllocResult "fast" DriverName "pool" "vf-1" None;
                mkAllocResult "gpu" "gpu.example.com" "pool" "gpu-0" None;
                mkAllocResult "plain" DriverName "pool" "vf-2" None;
                mkAllocResult "plain" DriverName "pool" "vf-2" None]
    [mkAllocConfig AllocationConfigSourceClaim ["fast"] (Some (mkOpaque DriverName "vfio"))].
Definition claim : ResourceClaim :=
  mkClaim "c" "ns" "claim-1" "1" (Some allocation) ["pod-1"] [].

Definition world : World outside_world :=
  mkWorld ∅ ∅ manager (mkOutside HostRuns.before ∅).
Definition prepared : World outside_world := (PrepareDevicesForClaim 0 claim world).2.
Definition left_over : Z * ResourceClaim :=
  match (PrepareDevicesForClaim 0 claim world).1 with Ret (_, st) => st | Panic _ => (0%Z, claim) end.

Lemma run_ok : PrepareDevicesForClaim 0 claim world =
  (Ret (Ok [Some 1%positive; Some 2%positive; Some 3%positive], left_over), prepared).
Proof.
  assert (Hrun : match (PrepareDevicesForClaim 0 claim world).1 with
                 | Ret (r, _) => r = Ok [Some 1%positive; Some 2%positive; Some 3%positive]
                 | Panic _ => False
                 end) by (vm_cast_no_check (eq_refl (Ok [Some 1%positive; Some 2%positive; Some 3%positive]))).
  unfold prepared, left_over. destruct (PrepareDevicesForClaim 0 claim world) as [[[r st]|] w]; [|done].
  simpl in Hrun. by rewrite Hrun.
Qed.

(** The name, address and drivers of each device. *)
Definition summary (l : loc) : option (string * string * string * option string * option bool) :=
  (fun d => (pd_IfName d, pd_PciAddress d, pd_OriginalDriver d, vf_Driver <$> pd_Config d,
             vf_AddVhostMount <$> pd_Config d)) <$> w_heap prepared !! l.

Lemma summaries : summary <$> [1; 2; 3]%positive =
  [Some ("net1", HostRuns.dev1, "iavf", Some "vfio-pci", Some false);
   Some ("vfnet0", HostRuns.dev2, "", Some "", Some false);
   Some ("vfnet1", HostRuns.dev2, "", Some "", Some false)].
Proof. vm_cast_no_check (eq_refl [Some ("net1", HostRuns.dev1, "iavf", Some "vfio-pci", Some false);
   Some ("vfnet0", HostRuns.dev2, "", Some "", Some false);
   Some ("vfnet1", HostRuns.dev2, "", Some "", Some false)]). Qed.

(** Only the virtual machine evaluates the runs. *)
#[local] Strategy opaque [prepared left_over].

Lemma summary_1 : summary 1 = Some ("net1", HostRuns.dev1, "iavf", Some "vfio-pci", Some false).
Proof. pose proof (f_equal (fun l => l !! 0) summaries) as Hs. exact (inj Some _ _ Hs). Qed.

Lemma summary_2 : summary 2 = Some ("vfnet0", HostRuns.dev2, "", Some "", Some false).
Proof. pose proof (f_equal (fun l => l !! 1) summaries) as Hs. exact (inj Some _ _ Hs). Qed.

Lemma summary_device l d name pci driver config vhost :
  summary l = Some (name, pci, driver, config, vhost) -> w_heap prepared !! l = Some d ->
  pd_PciAddress d = pci /\ pd_OriginalDriver d = driver /\ vf_Driver <$> pd_Config d = config /\
  vf_AddVhostMount <$> pd_Config d = vhost.
Proof. unfold summary. intros Hs Hd. rewrite Hd in Hs. simpl in Hs. injection Hs as _ <- <- <- <-. by split_and!. Qed.


Lemma prepare_claim_correct_witness :
  w_claims prepared = ∅ /\ exists rc,
    prepared_list manager claim rc (w_heap prepared) [Some 1; Some 2; Some 3]%positive
      (plan manager rc (alloc_Results allocation) 0).
Proof.
  destruct (prepare_claim_correct 0 claim allocation world _ _ prepared eq_refl run_ok)
    as (_ & Ht & _ & _ & rc & _ & Hds).
  split; [exact Ht|]. exists rc. exact Hds.
Defined.

Lemma manager_addressed : addressed manager.
Proof.
  intros d dev Hd. simpl in Hd.
  apply lookup_insert_Some in Hd as [[_ <-]|[_ Hd]]; [by eexists|].
  apply lookup_insert_Some in Hd as [[_ <-]|[_ Hd]]; [by eexists|done].
Qed.

(** The only attachment definition of the server is an object. *)
Lemma never_null : no_null_nads.
Proof. intros namespace name e raw e' [= <- _]. vm_compute. discriminate. Qed.

Lemma prepare_never_panics_witness :
  exists res st w', PrepareDevicesForClaim 5 claim world = (Ret (res, st), w') /\ w_claims w' = ∅.
Proof.
  destruct (prepare_never_panics 5 claim allocation world eq_refl (ex_intro _ "pod-1" eq_refl)
    manager_addressed never_null) as (res & st & w' & Hrun & Ht & _).
  exists res, st, w'. split; [exact Hrun|exact Ht].
Defined.

(** The second and the third device have no name of their own. *)
Lemma default_names_distinct_witness :
  omap (defaultName (w_heap prepared)) [Some 1; Some 2; Some 3]%positive = ["vfnet0"; "vfnet1"] /\
  left_over.1 = 2%Z.
Proof.
  destruct (default_names_distinct 0 claim allocation world _ _ prepared eq_refl eq_refl
    ltac:(lia) ltac:(vm_compute; reflexivity) run_ok) as (Hnames & Hst & _).
  assert (Hcount : length (omap (defaultName (w_heap prepared)) [Some 1; Some 2; Some 3]%positive) = 2)
    by (vm_cast_no_check (eq_refl 2)).
  rewrite Hcount in Hnames, Hst. split; [exact Hnames|exact Hst].
Defined.

(** A server whose attachment definition is the JSON null: the preparation panics. *)
Example null_definition_panics :
  (PrepareDevicesForClaim (H2 := fun _ _ e => (Ok "null", e)) 0 claim world).1 =
    Panic "assignment to entry in nil map".
Proof. vm_cast_no_check (eq_refl (Panic (A:=result PreparedDevices * (Z * ResourceClaim)) "assignment to entry in nil map")). Qed.

Lemma prepared_never_vhost_witness :
  vf_AddVhostMount OpaqueConfigRuns.vfio = true /\
  exists d c, w_heap prepared !! 1%positive = Some d /\ pd_Config d = Some c /\
    vf_Driver c = "vfio-pci" /\ vf_AddVhostMount c = false.
Proof.
  split; [reflexivity|].
  destruct (prepared_never_vhost 0 claim allocation world _ _ prepared eq_refl run_ok
    (Some 1%positive) ltac:(left)) as (l & d & c & [= <-] & Hd & Hc & Hv & _).
  exists d, c. split_and!; [exact Hd|exact Hc| |exact Hv].
  destruct (summary_device _ _ _ _ _ _ _ summary_1 Hd) as (_ & _ & Hdriver & _).
  rewrite Hc in Hdriver. by injection Hdriver.
Defined.

Definition taken : PreparedDevices := [Some 1; Some 2]%positive.
Lemma unprepared_ok : unprepareDevices taken prepared = (Ret (Ok tt), (unprepareDevices taken prepared).2).
Proof.
  assert (Hrun : (unprepareDevices taken prepared).1 = Ret (Ok tt))
    by (vm_cast_no_check (eq_refl (Ret (Ok tt) : outcome (result unit)))).
  destruct (unprepareDevices taken prepared) as [o w]. simpl in *. by subst o.
Qed.

Lemma unprepare_restores_drivers_witness :
  hl_driver (w_env prepared) HostRuns.dev1 = Some "vfio-pci" /\
  hl_driver (w_env (unprepareDevices taken prepared).2) HostRuns.dev1 = Some "iavf".
Proof.
  split; [vm_cast_no_check (eq_refl (Some "vfio-pci"))|].
  pose proof summary_1 as Hsum. unfold summary in Hsum.
  destruct (w_heap prepared !! 1%positive) as [d|] eqn:Hd; [|discriminate]. clear Hsum.
  destruct (summary_device _ _ _ _ _ _ _ summary_1 Hd) as (Hpci & Horig & Hdriver & _).
  destruct (pd_Config d) as [c|] eqn:Hc; [|discriminate]. injection Hdriver as Hdriver.
  rewrite <- Hpci, <- Horig.
  apply (unprepare_restores_drivers taken prepared (unprepareDevices taken prepared).2) with 1%positive c.
  - apply (bool_decide_unpack _). vm_cast_no_check I.
  - intros l d' Hin Hl. apply elem_of_cons in Hin as [[= ->]|Hin].
    + rewrite Hd in Hl. injection Hl as <-. rewrite Hpci, Horig. split; [by left|by left; left].
    + apply list_elem_of_singleton in Hin as [= ->].
      destruct (summary_device _ _ _ _ _ _ _ summary_2 Hl) as (Hpci2 & Horig2 & _).
      rewrite Hpci2, Horig2. split; [by right|by right].
  - exact unprepared_ok.
  - left.
  - exact Hd.
  - exact Hc.
  - by rewrite Hdriver.
  - by rewrite Horig.
Defined.

Lemma created_ok : CreateClaimSpecFile [Some 1; Some 2; Some 3]%positive prepared =
  (Ret (Ok tt), (CreateClaimSpecFile [Some 1; Some 2; Some 3]%positive prepared).2).
Proof.
  assert (Hrun : (CreateClaimSpecFile [Some 1; Some 2; Some 3]%positive prepared).1 = Ret (Ok tt))
    by (vm_cast_no_check (eq_refl (Ret (Ok tt) : outcome (result unit)))).
  destruct (CreateClaimSpecFile _ _) as [o w]. simpl in *. by subst o.
Qed.

Lemma claim_spec_matches_ids_witness :
  exists version devices,
    cache_WriteSpec (mkCdiSpec version cdiKind devices)
      (GenerateTransientSpecName cdiVendor cdiClass "claim-1") (w_env prepared)
      = (Ok tt, w_env (CreateClaimSpecFile [Some 1; Some 2; Some 3]%positive prepared).2) /\
    length devices = 3.
Proof.
  destruct (triple_run True _ _ _ world _ _ (triple_PrepareDevicesForClaim True ∅ manager
    (or_introl I) (or_introl I) 0 claim allocation ∅ eq_refl (or_introl I))
    (conj eq_refl (conj eq_refl eq_refl)) run_ok) as (_ & _ & (<- & _) & _ & rc & _ & Hds).
  destruct (claim_spec_matches_ids manager claim rc prepared [Some 1; Some 2; Some 3]%positive _
    (CreateClaimSpecFile [Some 1; Some 2; Some 3]%positive prepared).2 ltac:(done) Hds)
    as (version & devices & Hw & Hdev); [exact created_ok|].
  exists version, devices. split; [exact Hw|]. symmetry. exact (Forall2_length _ _ _ Hdev).
Defined.
End PrepareRuns.
