(* ===== verification/DriverHook.v ===== *)
(** * The kubelet hooks (pkg/driver/dra_hook.go)

    PrepareResourceClaims and UnprepareResourceClaims: the top of the node plugin,
    over the device-state manager, the pod manager, the CDI handler and the claim
    status client. *)

From S2P Require Import Prelude GoLib Consts K8sTypes VfConfigApi OpaqueConfig ClaimStatus Manager Prepared PodManager Cdi Host Prepare Hoare.

(** [kubeletplugin.PrepareResult]. *)
Record PrepareResult : Type := mkPrepareResult {
  pr_Devices : list KubeletDevice;
  pr_Err : option error
}.

Definition prepareFailed (err : error) : PrepareResult := mkPrepareResult [] (Some err).

(** [d.client.ResourceV1().ResourceClaims(namespace)]. *)
Class ClaimClients (E : Type) : Type :=
  ResourceClaims : string -> ResourceClaimStatusClient E.

Section driver.
Context `{RangeOrder} {E : Type} `{HostInterface E} `{DeviceInfoStore E} `{NadClient E}
  `{JsonLib} `{CdiLib E} `{Decoder} `{CheckpointManager E} `{ApiErrors} `{WaitLib E}
  `{ClaimClients E}.

Definition claimObject (claim : ResourceClaim) : NamespacedObject :=
  mkNsObject (claim_Namespace claim) (claim_Name claim) (claim_UID claim).

Definition appendKubelet (p : option loc) (acc : list KubeletDevice)
  : M (World E) (list KubeletDevice) :=
  d ← load p; mret (acc ++ [ToKubeletPluginDevice d None]).

Definition toKubelet (preparedDevices : PreparedDevices) : M (World E) (list KubeletDevice) :=
  for_each preparedDevices appendKubelet [].

Definition claimArgs (claim : ResourceClaim) : list string :=
  [claim_Namespace claim; claim_Name claim; claim_UID claim].

(** The result of one claim, and the interface index after it. *)
Definition prepareResourceClaim (ifNameIndex : Z) (claim : ResourceClaim)
  : M (World E) (PrepareResult * Z) :=
  match claim_ReservedFor claim with
  | [] => mret (prepareFailed (errorf "no pod info found for claim %s/%s/%s" (claimArgs claim)),
                ifNameIndex)
  | _ :: _ :: _ =>
      mret (prepareFailed (errorf "multiple pods found for claim %s/%s/%s not supported"
                             (claimArgs claim)), ifNameIndex)
  | [podUID] =>
      match claim_Allocation claim with
      | None => mret (prepareFailed (errorf "claim not yet allocated" []), ifNameIndex)
      | Some _ =>
          known ← gets (Get podUID (claim_UID claim));
          match known with
          | Some preparedDevices =>
              prepared ← toKubelet preparedDevices;
              mret (mkPrepareResult prepared None, ifNameIndex)
          | None =>
              '(preparedDevices, (ifNameIndex, updated)) ← PrepareDevicesForClaim ifNameIndex claim;
              match preparedDevices with
              | Err err =>
                  mret (prepareFailed (errorw "error preparing devices for claim %v: %w"
                                         [claim_UID claim] err), ifNameIndex)
              | Ok preparedDevices =>
                  prepared ← toKubelet preparedDevices;
                  stored ← Set_ podUID (claim_UID claim) preparedDevices;
                  match stored with
                  | Err err =>
                      cleanup ← Unprepare (claim_UID claim) preparedDevices;
                      mret (match cleanup with
                            | Err cleanupErr =>
                                prepareFailed (Errorf "error setting prepared devices for pod %s into pod manager: %w; cleanup failed: %v"
                                                 [podUID] [cleanupErr] [err])
                            | Ok _ =>
                                prepareFailed (errorw "error setting prepared devices for pod %s into pod manager: %w"
                                                 [podUID] err)
                            end, ifNameIndex)
                  | Ok _ =>
                      (* best effort: the error is only logged *)
                      _ ← outside (UpdateClaimStatusWithRetry (ResourceClaims (claim_Namespace claim))
                                     updated DriverName DefaultBackoff);
                      mret (mkPrepareResult prepared None, ifNameIndex)
                  end
              end
          end
      end
  end.

Definition unprepareResourceClaim (claim : NamespacedObject) : M (World E) (result unit) :=
  known ← gets (GetByClaim claim);
  match known with
  | None => mret (Ok tt)
  | Some preparedDevices =>
      _ ←? wrap_err (errorw "error unpreparing devices for claim %v: %w" [no_UID claim])
             (Unprepare (no_UID claim) preparedDevices);
      wrap_err (errorw "error deleting claim %s from pod manager: %w" [no_UID claim])
        (DeleteClaim claim)
  end.

Definition UnprepareResourceClaims (claims : list NamespacedObject)
  : M (World E) (gmap string (result unit)) :=
  for_each claims (fun claim result =>
    r ← unprepareResourceClaim claim; mret (<[no_UID claim := r]> result)) ∅.

(** Every error is kept; a nil claim is skipped. *)
Definition rollbackPreparedClaims (claims : list (option ResourceClaim)) : M (World E) (result unit) :=
  errs ← for_each claims (fun claim errs =>
    match claim with
    | None => mret errs
    | Some claim =>
        r ← unprepareResourceClaim (claimObject claim);
        mret (match r with
              | Err err => errs ++ [errorw "failed to rollback claim %s: %w" [claim_UID claim] err]
              | Ok _ => errs
              end)
    end) [];
  mret (join_errors errs).

(** The pod of the first claim that is reserved for one. *)
Fixpoint podOfClaims (claims : list (option ResourceClaim)) : string :=
  match claims with
  | [] => ""
  | Some claim :: claims =>
      match claim_ReservedFor claim with podUID :: _ => podUID | [] => podOfClaims claims end
  | None :: claims => podOfClaims claims
  end.

(** The loop that looks up the PCI address of every prepared device. *)
Definition podPciAddress (p : option loc) (pciAddresses : list string)
  : M (World E) (result (list string)) :=
  d ← load p;
  s ← gets w_manager;
  match GetAllocatableDeviceByName s (drapb_DeviceName (pd_Device d)) with
  | None => mret (Err (errorf "device not found for device name %s" [drapb_DeviceName (pd_Device d)]))
  | Some device => pciAddress ← pciAddressOf device; mret (Ok (pciAddresses ++ [pciAddress]))
  end.

Definition podPciAddresses (preparedDevices : PreparedDevices) : M (World E) (result (list string)) :=
  for_each_ok preparedDevices podPciAddress [].

(** Give up after [baseErr]: roll every claim back. *)
Definition failPrepare (claims : list (option ResourceClaim)) (baseErr : error) (cleanupFmt : string)
  : M (World E) error :=
  cleanup ← rollbackPreparedClaims claims;
  mret (match cleanup with
        | Err cleanupErr => ErrJoin [baseErr; errorw cleanupFmt [] cleanupErr]
        | Ok _ => baseErr
        end).

Definition PrepareResourceClaims (claims : list (option ResourceClaim))
  : M (World E) (gmap string PrepareResult * option error) :=
  if decide (length claims = 0) then mret (∅, None)
  else
    '(result, _) ← for_each claims (fun claim '(result, ifNameIndex) =>
      claim ← deref "claim.UID" claim;
      '(r, ifNameIndex) ← prepareResourceClaim ifNameIndex claim;
      mret (<[claim_UID claim := r]> result, ifNameIndex)) (∅, 0%Z);
    let podUID := podOfClaims claims in
    if decide (podUID = "") then
      mret (result, Some (errorf "no pod info found for prepared claims" []))
    else
      known ← gets (GetDevicesByPodUID podUID);
      match known with
      | None => mret (result, Some (errorf "no prepared devices found for pod %s" [podUID]))
      | Some preparedDevices =>
          pciAddresses ← podPciAddresses preparedDevices;
          match pciAddresses with
          | Err baseErr =>
              err ← failPrepare claims baseErr "cleanup failed after prepare error: %w";
              mret (result, Some err)
          | Ok pciAddresses =>
              created ← ext (CreateGlobalPodSpecFile podUID pciAddresses);
              match created with
              | Err err =>
                  err ← failPrepare claims (errorw "error creating global spec file for pod: %w" [] err)
                          "cleanup failed after global spec error: %w";
                  mret (result, Some err)
              | Ok _ => mret (result, None)
              end
          end
      end.
End driver.

(** ** Facts about the hooks *)

Section hook_facts.
Context `{RangeOrder} {E : Type} `{HostInterface E} `{DeviceInfoStore E} `{NadClient E}
  `{JsonLib} `{CdiLib E} `{Decoder} `{CheckpointManager E} `{ApiErrors} `{WaitLib E}
  `{ClaimClients E}.
Implicit Types (w : World E).

(** The kubelet's view of devices that are in the heap. *)
Lemma toKubelet_run ds w :
  (forall q, q ∈ ds -> exists l d, q = Some l /\ w_heap w !! l = Some d) ->
  exists kds, toKubelet ds w = (Ret kds, w) /\
    Forall2 (fun q kd => exists l d, q = Some l /\ w_heap w !! l = Some d /\
      kd = ToKubeletPluginDevice d None) ds kds.
Proof.
  intros Hds. unfold toKubelet.
  assert (Hgen : forall ds acc, (forall q, q ∈ ds -> exists l d, q = Some l /\ w_heap w !! l = Some d) ->
    exists kds, for_each ds appendKubelet acc w = (Ret (acc ++ kds), w) /\
      Forall2 (fun q kd => exists l d, q = Some l /\ w_heap w !! l = Some d /\
        kd = ToKubeletPluginDevice d None) ds kds).
  { clear. induction ds as [|q ds IH]; intros acc Hds.
    - exists []. by rewrite app_nil_r.
    - destruct (Hds q ltac:(by left)) as (l & d & -> & Hl).
      destruct (IH (acc ++ [ToKubeletPluginDevice d None])) as (kds & Hrun & Hk).
      { intros q Hq. apply Hds. by right. }
      exists (ToKubeletPluginDevice d None :: kds). split.
      + simpl. unfold mbind at 1, M_bind at 1. unfold appendKubelet at 1, mbind at 1, M_bind at 1.
        unfold load. simpl. rewrite Hl. simpl. rewrite Hrun. by rewrite <- app_assoc.
      + constructor; [by exists l, d|done]. }
  destruct (Hgen ds [] Hds) as (kds & Hrun & Hk). by exists kds.
Qed.

(** Preparing a claim that the pod manager knows. *)
Lemma prepare_known i claim pod ds kds w :
  claim_ReservedFor claim = [pod] -> is_Some (claim_Allocation claim) ->
  Get pod (claim_UID claim) w = Some ds -> toKubelet ds w = (Ret kds, w) ->
  prepareResourceClaim i claim w = (Ret (mkPrepareResult kds None, i), w).
Proof.
  intros Hpod [a Ha] Hget Hk. unfold prepareResourceClaim. rewrite Hpod, Ha.
  unfold mbind, M_bind, gets, mret, M_ret. by rewrite Hget, Hk.
Qed.
End hook_facts.

(** ** Properties *)

Section hook_properties.
Context `{RangeOrder} {E : Type} `{HostInterface E} `{DeviceInfoStore E} `{NadClient E}
  `{JsonLib} `{CdiLib E} `{Decoder} `{CheckpointManager E} `{ApiErrors} `{WaitLib E}
  `{ClaimClients E}.
Implicit Types (w : World E).

(** Preparing a claim again is idempotent: a claim that is already known to the
    pod manager, for instance after a restart, is answered from it, without any call
    outside of the process and without using up an interface index. *)
Lemma prepare_idempotent i claim pod ds w :
  claim_ReservedFor claim = [pod] -> is_Some (claim_Allocation claim) ->
  Get pod (claim_UID claim) w = Some ds ->
  (forall q, q ∈ ds -> exists l d, q = Some l /\ w_heap w !! l = Some d) ->
  exists kds, prepareResourceClaim i claim w = (Ret (mkPrepareResult kds None, i), w) /\
    Forall2 (fun q kd => exists l d, q = Some l /\ w_heap w !! l = Some d /\
      kd = ToKubeletPluginDevice d None) ds kds.
Proof.
  intros Hpod Ha Hget Hds. destruct (toKubelet_run ds w Hds) as (kds & Hk & Hkds).
  exists kds. split; [by eapply prepare_known|done].
Qed.

(** C39: A failed checkpoint write poisons the retry: the hook answers with an error and
    no devices, and unprepares the devices [ds] that it has just prepared, so the state
    that it leaves is that of [Unprepare]; but the claim stays known, and in that very
    state the kubelet's next attempt is answered with success and exactly the devices of
    [ds], in order, each as it was prepared, without another call outside. *)
Theorem retry_after_failed_checkpoint_succeeds i claim pod allocation w ds st w1 err w2 i' :
  claim_ReservedFor claim = [pod] -> claim_Allocation claim = Some allocation ->
  Get pod (claim_UID claim) w = None ->
  PrepareDevicesForClaim i claim w = (Ret (Ok ds, st), w1) ->
  Set_ pod (claim_UID claim) ds w1 = (Ret (Err err), w2) ->
  exists cleanup w3 hookErr kds,
    Unprepare (claim_UID claim) ds w2 = (Ret cleanup, w3) /\
    prepareResourceClaim i claim w = (Ret (prepareFailed hookErr, st.1), w3) /\
    prepareResourceClaim i' claim w3 = (Ret (mkPrepareResult kds None, i'), w3) /\
    Forall2 (fun q kd => exists l d, q = Some l /\ w_heap w1 !! l = Some d /\
      kd = ToKubeletPluginDevice d None) ds kds.
Proof.
  intros Hpod Ha Hget Hprep Hset.
  destruct (triple_run True _ _ _ _ _ _ (triple_PrepareDevicesForClaim True (w_claims w)
    (w_manager w) (or_introl I) (or_introl I) i claim allocation (w_heap w) Ha (or_introl I))
    ltac:(by split_and!) Hprep) as (h' & _ & (<- & _ & _) & _ & rc & _ & Hds).
  assert (Hptr : forall q, q ∈ ds -> exists l d, q = Some l /\ w_heap w1 !! l = Some d).
  { intros q Hq. apply list_elem_of_lookup in Hq as [k Hk].
    destruct (Forall2_lookup_l _ _ _ _ _ Hds Hk) as (ri & _ & l & d & -> & Hl & _). by exists l, d. }
  destruct (toKubelet_run ds w1 Hptr) as (kds & Hk & _).
  destruct (Set_spec pod (claim_UID claim) ds w1) as (r2 & w2' & Hset' & _ & Hheap & _ & Hknown & _).
  rewrite Hset in Hset'. injection Hset' as <- <-.
  destruct (triple_returns (Unprepare (claim_UID claim) ds) _ _ w2
    (triple_Unprepare False (claim_UID claim) ds (w_heap w2) (w_claims w2) (w_manager w2)
       ltac:(right; rewrite Hheap; by eapply prepared_list_valid)) ltac:(by split_and!))
    as (cleanup & w3 & Hun & Hh3 & Ht3 & _).
  assert (Hknown3 : Get pod (claim_UID claim) w3 = Some ds).
  { unfold Get in *. by rewrite Ht3. }
  destruct st as [i1 updated].
  destruct (toKubelet_run ds w3) as (kds3 & Hk3 & Hkds3).
  { intros q Hq. destruct (Hptr q Hq) as (l & d & -> & Hl). exists l, d. by rewrite Hh3, Hheap. }
  rewrite Hh3, Hheap in Hkds3.
  assert (Hfirst : exists hookErr, prepareResourceClaim i claim w = (Ret (prepareFailed hookErr, i1), w3)).
  { unfold prepareResourceClaim. rewrite Hpod, Ha. unfold mbind, M_bind, gets, mret, M_ret.
    rewrite Hget, Hprep, Hk, Hset, Hun. destruct cleanup; by eexists. }
  destruct Hfirst as [hookErr Hfirst]. exists cleanup, w3, hookErr, kds3.
  split_and!; [done..| |done]. eapply prepare_known; [done|by eexists|done..].
Qed.

(** C38: With two claims for one pod, unpreparing the first makes unpreparing the
    second a no-op that reports success: its devices keep the driver of the claim,
    its CDI spec stays on disk, and nothing in the pod manager remembers it. *)
Theorem second_claim_never_unprepared pod claim1 claim2 ds1 ds2 w w1 :
  one_pod_per_claim (w_claims w) ->
  Get pod (no_UID claim1) w = Some ds1 -> Get pod (no_UID claim2) w = Some ds2 ->
  unprepareResourceClaim claim1 w = (Ret (Ok tt), w1) ->
  unprepareResourceClaim claim2 w1 = (Ret (Ok tt), w1) /\ GetDevicesByPodUID pod w1 = None.
Proof.
  intros Huniq Hc1 Hc2. unfold unprepareResourceClaim at 1, mbind at 1, M_bind at 1, gets.
  destruct (GetByClaim claim1 w) as [ds|] eqn:Hby.
  2: { unfold GetByClaim in Hby. apply Get_Some in Hc1 as (cs & Hp & Hc).
       by rewrite (findClaim_unique _ _ _ _ _ Huniq Hp Hc) in Hby. }
  unfold bind_ok, wrap_err, mbind, M_bind, mret, M_ret.
  destruct (Unprepare (no_UID claim1) ds w) as [[[[]|err]|why] w0] eqn:Hun; simpl; [|done..].
  assert (Hcore : w_claims w0 = w_claims w).
  { pose proof (triple_run True _ _ _ w _ _ (triple_Unprepare True (no_UID claim1) ds (w_heap w)
      (w_claims w) (w_manager w) (or_introl I)) ltac:(by split_and!) Hun) as Hc. apply Hc. }
  destruct (DeleteClaim_spec claim1 pod ds1 w0) as (r & w2 & Hdel & _ & Hpodgone & Hgone & Hother).
  { by rewrite Hcore. }
  { unfold Get in *. by rewrite Hcore. }
  rewrite Hdel. destruct r as [[]|]; [|done]. intros [= <-].
  assert (Hnone : GetByClaim claim2 w2 = None).
  { destruct (GetByClaim claim2 w2) as [ds'|] eqn:Hg; [|done]. unfold GetByClaim in Hg.
    destruct (findClaim _ _) as [[pod' ds'']|] eqn:Hf; [|done].
    apply findClaim_range in Hf as Hf'. assert (Hget : Get pod' (no_UID claim2) w2 = Some ds'')
      by by apply Get_Some.
    destruct (decide (pod' = pod)) as [->|Hne]; [by rewrite Hgone in Hget|].
    rewrite Hother in Hget by done. unfold Get in Hget. rewrite Hcore in Hget.
    destruct Hne. apply Get_Some in Hc2 as (cs2 & Hp2 & Hd2).
    destruct (w_claims w !! pod') as [cs'|] eqn:Hp'; [|done].
    by eapply (Huniq pod' pod cs' cs2 (no_UID claim2)). }
  split; [|done]. unfold unprepareResourceClaim, mbind, M_bind, gets. by rewrite Hnone.
Qed.
End hook_properties.

(** ** Concrete runs: the world of Prepare.v, with a checkpoint directory that is
    read-only or discards what is written. *)
Module DriverHookRuns.
#[local] Existing Instance listing_order.
#[local] Existing Instance PrepareRuns.helpers.
#[local] Existing Instance PrepareRuns.no_store.
#[local] Existing Instance PrepareRuns.nads.
#[local] Existing Instance PrepareRuns.json.
#[local] Existing Instance PrepareRuns.cdi.
#[local] Existing Instance PrepareRuns.decoder.

Abbreviation env := PrepareRuns.outside_world.

Definition read_only : CheckpointManager env := {|
  ListCheckpoints := fun e => (Ok [], e);
  GetCheckpoint := fun _ e => (Err (ErrExternal "NotExist" "checkpoint"), e);
  CreateCheckpoint := fun _ _ e => (Err (ErrExternal "EROFS" "read-only file system"), e) |}.

Definition discarding : CheckpointManager env := {|
  ListCheckpoints := fun e => (Ok [], e);
  GetCheckpoint := fun _ e => (Err (ErrExternal "NotExist" "checkpoint"), e);
  CreateCheckpoint := fun _ _ e => (Ok tt, e) |}.

#[local] Instance errors_lib : ApiErrors := {|
  IsInvalid := fun e => errors_Is e "Invalid"; IsForbidden := fun e => errors_Is e "Forbidden";
  IsNotFound := fun e => errors_Is e "NotFound"; IsConflict := fun e => errors_Is e "Conflict";
  NewNotFound := fun r n => ErrExternal "NotFound" (r +:+ " " +:+ n) |}.

(** One attempt, no cancellation. *)
#[local] Instance wait : WaitLib env := {|
  ctx_Err := fun _ => None;
  ExponentialBackoffWithContext := fun V _ cond v =>
    '(v, r) ← cond v;
    mret (v, match r with Ok _ => Ok tt | Err err => Err err end) |}.

#[local] Instance clients : ClaimClients env := fun _ => {|
  UpdateStatus := fun c e => (Ret (Ok c), e);
  GetClaim := fun _ e => (Ret (Err (ErrExternal "NotFound" "claim")), e) |}.

(** A claim known from before a restart. *)
Definition known : World env :=
  mkWorld (w_heap PodManagerRuns.world) (w_claims PodManagerRuns.world) PrepareRuns.manager
    (PrepareRuns.mkOutside HostRuns.before ∅).

Lemma prepare_idempotent_witness :
  exists kd, prepareResourceClaim (H6:=discarding) 3 PrepareRuns.claim known
    = (Ret (mkPrepareResult [kd] None, 3%Z), known) /\ kd_DeviceName kd = "a".
Proof.
  destruct (prepare_idempotent (H6:=discarding) 3 PrepareRuns.claim "pod-1" [Some 1%positive] known)
    as (kds & Hrun & Hkds).
  - reflexivity.
  - by eexists.
  - reflexivity.
  - intros q Hq. apply list_elem_of_singleton in Hq as ->. by eexists _, _.
  - inversion Hkds as [|q kd ds' kds' (l & d & Hq & Hd & Hkd) Hrest]; subst.
    inversion Hrest; subst. exists (ToKubeletPluginDevice d None). split; [exact Hrun|].
    injection Hq as <-. vm_compute in Hd. by injection Hd as <-.
Defined.

Definition ds : PreparedDevices := [Some 1; Some 2; Some 3]%positive.
Definition unsaved : World env := (Set_ (H0:=read_only) "pod-1" "claim-1" ds PrepareRuns.prepared).2.
Definition disk_error : error :=
  errorv "unable to sync to checkpoint: %v" [] (ErrExternal "EROFS" "read-only file system").

Lemma save_fails :
  Set_ (H0:=read_only) "pod-1" "claim-1" ds PrepareRuns.prepared = (Ret (Err disk_error), unsaved).
Proof. reflexivity. Qed.

Lemma retry_after_failed_checkpoint_succeeds_witness : exists cleanup w3 hookErr kds,
  Unprepare "claim-1" ds unsaved = (Ret cleanup, w3) /\
  prepareResourceClaim (H6:=read_only) 0 PrepareRuns.claim PrepareRuns.world
    = (Ret (prepareFailed hookErr, 2%Z), w3) /\
  prepareResourceClaim (H6:=read_only) 0 PrepareRuns.claim w3
    = (Ret (mkPrepareResult kds None, 0%Z), w3) /\ length kds = 3.
Proof.
  destruct (retry_after_failed_checkpoint_succeeds (H6:=read_only) 0 PrepareRuns.claim "pod-1"
    PrepareRuns.allocation PrepareRuns.world ds PrepareRuns.left_over PrepareRuns.prepared disk_error
    unsaved 0 eq_refl eq_refl eq_refl PrepareRuns.run_ok save_fails)
    as (cleanup & w3 & hookErr & kds & Hun & Hfirst & Hretry & Hkds).
  assert (Hindex : PrepareRuns.left_over.1 = 2%Z) by (vm_cast_no_check (eq_refl 2%Z)).
  rewrite Hindex in Hfirst. exists cleanup, w3, hookErr, kds.
  split_and!; [exact Hun|exact Hfirst|exact Hretry|]. symmetry. exact (Forall2_length _ _ _ Hkds).
Defined.

Definition claim2 : NamespacedObject := mkNsObject "ns" "c2" "claim-2".
Definition after_first : World env :=
  (unprepareResourceClaim (H6:=discarding) PodManagerRuns.claim1 known).2.

Lemma second_claim_never_unprepared_witness :
  Get "pod-1" "claim-2" known = Some [Some 2%positive] /\
  unprepareResourceClaim (H6:=discarding) claim2 after_first = (Ret (Ok tt), after_first).
Proof.
  split; [reflexivity|].
  apply (second_claim_never_unprepared (H6:=discarding) "pod-1" PodManagerRuns.claim1 claim2
    [Some 1%positive] [Some 2%positive] known after_first PodManagerRuns.world_one_pod);
    [reflexivity|reflexivity|vm_compute; reflexivity].
Defined.
End DriverHookRuns.
