(* ===== verification/Discovery.v ===== *)
(** * Device discovery and the initial manager
      (pkg/devicestate/discovery.go; NewManager of pkg/devicestate/state.go)

    Finds the physical functions of the node and lists their virtual functions as
    allocatable devices.  The host helpers are used through the interface of
    pkg/host; the PCI listing of the ghw library is a parameter. *)

From S2P Require Import Prelude GoLib Consts K8sTypes Config Manager Host Prepare.

(** The fields of ghw's [pci.Device] that discovery reads. *)
Record PciDevice : Type := mkPciDevice {
  pci_Address : string;
  pci_Class_ID : string;
  pci_Vendor_ID : string;
  pci_Product_ID : string
}.

(** [ghw.PCI()], its [Devices]. *)
Class PciLib (E : Type) : Type := ghw_PCI : Call E (result (list PciDevice)).

(** The functions of host.Interface that discovery calls. *)
Class DiscoveryHost (E : Type) : Type := {
  dh_PCI : Call E (result (list PciDevice));
  dh_IsSriovVF : string -> Call E bool;
  dh_TryGetPFInterfaceName : string -> Call E string;
  dh_GetNicSriovMode : string -> Call E string;
  dh_GetNumaNode : string -> Call E (result string);
  dh_GetPCIeRoot : string -> Call E (result string);
  dh_GetLinkType : string -> Call E (result string);
  dh_GetVFList : string -> Call E (result (list VFInfo));
  dh_VerifyRDMACapability : string -> Call E bool;
  dh_IsIommufdAvailable : Call E bool
}.

(** The implementation of pkg/host. *)
Definition discovery_helpers {E} `{OS E} `{Providers E} `{PciLib E} (RootDir : string)
  : DiscoveryHost E := {|
  dh_PCI := ghw_PCI;
  dh_IsSriovVF := IsSriovVF RootDir;
  dh_TryGetPFInterfaceName := TryGetPFInterfaceName RootDir;
  dh_GetNicSriovMode := GetNicSriovMode;
  dh_GetNumaNode := GetNumaNode RootDir;
  dh_GetPCIeRoot := GetPCIeRoot;
  dh_GetLinkType := GetLinkType RootDir;
  dh_GetVFList := GetVFList RootDir;
  dh_VerifyRDMACapability := VerifyRDMACapability;
  dh_IsIommufdAvailable := IsIommufdAvailable RootDir
|}.

(** ** Discovery *)

Record PFInfo : Type := mkPFInfo {
  pf_PciAddress : string;
  pf_NetName : string;
  pf_VendorID : string;
  pf_DeviceID : string;
  pf_Address : string;
  pf_EswitchMode : string;
  pf_PCIeRoot : string;
  pf_LinkType : string;
  pf_NumaNode : string
}.

(** The two [ReplaceAll] calls. *)
Definition deviceNameOf (pciAddress : string) : string :=
  ReplaceAll (ReplaceAll pciAddress ":"%char "-"%char) "."%char "-"%char.

(** The attributes of one virtual function. *)
Definition vfAttributes (pfInfo : PFInfo) (numaNode : Z) (rdmaCapable : bool) (vfInfo : VFInfo)
  : gmap string DeviceAttribute :=
  list_to_map [
    (AttributeVendorID, StringAttr (pf_VendorID pfInfo));
    (AttributeDeviceID, StringAttr (vf_DeviceID vfInfo));
    (AttributePFDeviceID, StringAttr (pf_DeviceID pfInfo));
    (AttributePciAddress, StringAttr (vf_PciAddress vfInfo));
    (AttributeMultusDeviceID, StringAttr (vf_PciAddress vfInfo));
    (AttributePFName, StringAttr (pf_NetName pfInfo));
    (AttributeEswitchMode, StringAttr (pf_EswitchMode pfInfo));
    (AttributeVFID, IntAttr (vf_VFID vfInfo));
    (AttributePCIeRoot, StringAttr (pf_PCIeRoot pfInfo));
    (AttributePfPciAddress, StringAttr (pf_PciAddress pfInfo));
    (AttributeStandardPciAddress, StringAttr (vf_PciAddress vfInfo));
    (AttributeLinkType, StringAttr (pf_LinkType pfInfo));
    (AttributeRDMACapable, BoolAttr rdmaCapable);
    (AttributeNUMANode, IntAttr numaNode)].

(** [x, err := f(); if err != nil { x = d }]. *)
Definition or_default {A} (d : A) (r : result A) : A := match r with Ok a => a | Err _ => d end.

Section discovery.
Context {E : Type} `{DiscoveryHost E}.

(** Body of the loop over the PCI devices: network controllers that are not virtual
    functions and have an interface name. *)
Definition addPF (device : PciDevice) (pfList : list PFInfo) : Call E (list PFInfo) :=
  match ParseInt (pci_Class_ID device) 16 with
  | Err _ => mret pfList
  | Ok devClass =>
      if decide (devClass ≠ NetClass) then mret pfList
      else
        isVF ← dh_IsSriovVF (pci_Address device);
        if isVF : bool then mret pfList
        else
          pfNetName ← dh_TryGetPFInterfaceName (pci_Address device);
          if decide (pfNetName = "") then mret pfList
          else
            eswitchMode ← dh_GetNicSriovMode (pci_Address device);
            numaNode ← dh_GetNumaNode (pci_Address device);
            pcieRoot ← dh_GetPCIeRoot (pci_Address device);
            linkType ← dh_GetLinkType (pci_Address device);
            mret (pfList ++ [{|
              pf_PciAddress := pci_Address device;
              pf_NetName := pfNetName;
              pf_VendorID := pci_Vendor_ID device;
              pf_DeviceID := pci_Product_ID device;
              pf_Address := pci_Address device;
              pf_EswitchMode := eswitchMode;
              pf_PCIeRoot := or_default "" pcieRoot;
              pf_LinkType := or_default LinkTypeUnknown linkType;
              pf_NumaNode := or_default "-1" numaNode |}])
  end.

(** Body of the loop over the virtual functions of one physical function. *)
Definition addVF (pfInfo : PFInfo) (numaNode : Z) (vfInfo : VFInfo) (resourceList : AllocatableDevices)
  : Call E AllocatableDevices :=
  let deviceName := deviceNameOf (vf_PciAddress vfInfo) in
  rdmaCapable ← dh_VerifyRDMACapability (vf_PciAddress vfInfo);
  mret (<[deviceName := mkDevice deviceName (vfAttributes pfInfo numaNode rdmaCapable vfInfo)]>
          resourceList).

(** Body of the loop over the physical functions. *)
Definition addVFs (pfInfo : PFInfo) (resourceList : AllocatableDevices)
  : Call E (result AllocatableDevices) :=
  vfList ←! call_err (errorv "error getting VF list: %v" []) (dh_GetVFList (pf_Address pfInfo));
  let numaNode := or_default (-1)%Z (ParseInt (pf_NumaNode pfInfo) 10) in
  resourceList ← call_each vfList (addVF pfInfo numaNode) resourceList;
  mret (Ok resourceList).

Definition DiscoverSriovDevices : Call E (result AllocatableDevices) :=
  devices ←! call_err (errorv "error getting PCI info: %v" []) dh_PCI;
  if decide (length devices = 0) then mret (Err (errorf "could not retrieve PCI devices" []))
  else
    pfList ← call_each devices addPF [];
    call_each_ok pfList addVFs ∅.

(** ** The initial manager *)

(** The config and its flags may be nil pointers, and so may the CDI handler ([cdi]
    tells whether one is given). *)
Definition NewManager (config : option (option Flags)) (cdi : bool) : Call E (result Manager) :=
  match config with
  | None => mret (Err (errorf "config must not be nil" []))
  | Some None => mret (Err (errorf "config flags must not be nil" []))
  | Some (Some flags) =>
      if negb cdi then mret (Err (errorf "cdi handler must not be nil" []))
      else
        configurationMode ←! mret (normalizeConfigurationMode (flag_ConfigurationMode flags));
        allocatable ←! call_err (errorv "error enumerating all possible devices: %v" [])
                         DiscoverSriovDevices;
        iommuAvailable ← dh_IsIommufdAvailable;
        mret (Ok {|
          allocatable := allocatable;
          policyAttrKeys := ∅;
          defaultInterfacePrefix := flag_DefaultInterfacePrefix flags;
          configurationMode := configurationMode;
          iommuAvailable := iommuAvailable |})
  end.
End discovery.

(** ** Names

    The device name of a PCI address tells the address apart from every other one. *)

Definition in_address (s : string) : Prop :=
  avoids ":"%char s /\ avoids "."%char s /\ avoids "-"%char s.

(** [domain:bus:device.function]. *)
Definition pci_address (a : string) : Prop := exists dom bus dev fn,
  a = dom +:+ ":" +:+ bus +:+ ":" +:+ dev +:+ "." +:+ fn /\
  Forall in_address [dom; bus; dev; fn].

Lemma map_chars_app f a b : map_chars f (a +:+ b) = map_chars f a +:+ map_chars f b.
Proof. induction a as [|c a IH]; [done|]. exact (f_equal (String (f c)) IH). Qed.

Lemma ReplaceAll_app s t old new : ReplaceAll (s +:+ t) old new = ReplaceAll s old new +:+ ReplaceAll t old new.
Proof. apply map_chars_app. Qed.

Lemma ReplaceAll_avoids s old new : avoids old s -> ReplaceAll s old new = s.
Proof.
  unfold ReplaceAll. induction s as [|c s IH]; [done|]. intros [Hc Hs]. simpl.
  rewrite bool_decide_false by done. by rewrite IH.
Qed.

Lemma deviceNameOf_word s : in_address s -> deviceNameOf s = s.
Proof.
  intros (H1 & H2 & _). unfold deviceNameOf. by rewrite (ReplaceAll_avoids s ":"%char _ H1), (ReplaceAll_avoids s "."%char _ H2).
Qed.

Lemma deviceNameOf_app s t : deviceNameOf (s +:+ t) = deviceNameOf s +:+ deviceNameOf t.
Proof. unfold deviceNameOf. by rewrite !ReplaceAll_app. Qed.

Lemma Split_word sep s : avoids sep s -> Split s sep = [s].
Proof.
  induction s as [|c s IH]; [done|]. intros [Hc Hs]. simpl.
  rewrite bool_decide_false by done. by rewrite IH.
Qed.

(** The words of the name are those of the address. *)
Lemma Split_deviceName dom bus dev fn :
  Forall in_address [dom; bus; dev; fn] ->
  Split (deviceNameOf (dom +:+ ":" +:+ bus +:+ ":" +:+ dev +:+ "." +:+ fn)) "-"%char = [dom; bus; dev; fn].
Proof.
  intros Hall. rewrite !Forall_cons in Hall. destruct Hall as (H1 & H2 & H3 & H4 & _).
  rewrite !deviceNameOf_app, (deviceNameOf_word _ H1), (deviceNameOf_word _ H2),
    (deviceNameOf_word _ H3), (deviceNameOf_word _ H4).
  destruct H1 as (_ & _ & H1), H2 as (_ & _ & H2), H3 as (_ & _ & H3), H4 as (_ & _ & H4).
  etrans; [exact (Split_cons_line dom _ (bus +:+ "-" +:+ dev +:+ "-" +:+ fn) H1)|]. f_equal.
  etrans; [exact (Split_cons_line bus _ (dev +:+ "-" +:+ fn) H2)|]. f_equal.
  etrans; [exact (Split_cons_line dev _ fn H3)|]. f_equal. by apply Split_word.
Qed.

Lemma deviceNameOf_inj a b :
  pci_address a -> pci_address b -> deviceNameOf a = deviceNameOf b -> a = b.
Proof.
  intros (d1 & b1 & v1 & f1 & -> & H1) (d2 & b2 & v2 & f2 & -> & H2) Heq.
  apply (f_equal (fun s => Split s "-"%char)) in Heq. rewrite !Split_deviceName in Heq by done.
  by injection Heq as -> -> -> ->.
Qed.

(** ** What discovery returns *)

Definition discovered (d : string) (device : Device) : Prop := exists pfInfo numaNode rdmaCapable vfInfo,
  d = deviceNameOf (vf_PciAddress vfInfo) /\
  device = mkDevice d (vfAttributes pfInfo numaNode rdmaCapable vfInfo).

Lemma vfAttributes_reserved pf n r vf k :
  is_Some (vfAttributes pf n r vf !! k) -> reserved k = true.
Proof.
  intros [a Ha%elem_of_list_to_map_2]. unfold vfAttributes in Ha.
  repeat (apply elem_of_cons in Ha as [[= -> _]|Ha]; [vm_compute; reflexivity|]).
  by apply elem_of_nil in Ha.
Qed.

Lemma vfAttributes_pci pf n r vf :
  vfAttributes pf n r vf !! AttributePciAddress = Some (StringAttr (vf_PciAddress vf)).
Proof. reflexivity. Qed.

Section discovery_facts.
Context {E : Type} `{DiscoveryHost E}.

Lemma discover_sound e m e' :
  DiscoverSriovDevices e = (Ok m, e') -> forall d device, m !! d = Some device -> discovered d device.
Proof.
  unfold DiscoverSriovDevices, call_ok, call_err, mbind, Call_bind, mret, Call_ret.
  destruct (dh_PCI e) as [[devices|] e1]; [|done]. simpl. destruct (decide _); [done|].
  destruct (call_each devices addPF [] e1) as [pfs e2]. intros Hrun.
  apply (call_each_ok_inv pfs addVFs (fun m => forall d device, m !! d = Some device -> discovered d device)
    ∅ e2 _ e'); [|by intros d device ?%lookup_empty_Some|done].
  clear. intros pf m e m' e' _ Hm. unfold addVFs, call_ok, call_err, mbind, Call_bind, mret, Call_ret.
  destruct (dh_GetVFList (pf_Address pf) e) as [[vfs|] e1]; [|done]. simpl.
  destruct (call_each vfs _ m e1) as [m1 e2] eqn:Hvf. intros [= <- <-].
  apply (call_each_inv vfs (addVF pf (or_default (-1)%Z (ParseInt (pf_NumaNode pf) 10)))
    (fun m => forall d device, m !! d = Some device -> discovered d device)
    m e1 m1 e2); [|done..]. clear.
  intros vf m e m' e' _ Hm. unfold addVF, mbind, Call_bind.
  destruct (dh_VerifyRDMACapability _ e) as [r e1]. intros [= <- <-] d device.
  intros [[<- <-]|[_ ?]]%lookup_insert_Some; [|by apply Hm]. by exists pf, (or_default (-1)%Z (ParseInt (pf_NumaNode pf) 10)), r, vf.
Qed.

Lemma NewManager_ok config cdi e s e' :
  NewManager config cdi e = (Ok s, e') ->
  exists flags mode m e1 iommu, config = Some (Some flags) /\
    normalizeConfigurationMode (flag_ConfigurationMode flags) = Ok mode /\
    DiscoverSriovDevices e = (Ok m, e1) /\
    s = mkManager m ∅ (flag_DefaultInterfacePrefix flags) mode iommu.
Proof.
  destruct config as [[flags|]|]; simpl; [|done..]. destruct cdi; simpl; [|done].
  unfold call_ok, call_err, mbind, Call_bind, mret, Call_ret.
  destruct (normalizeConfigurationMode _) as [mode|] eqn:Hmode; [|done].
  destruct (DiscoverSriovDevices e) as [[m|] e1]; [|done]. simpl.
  destruct (dh_IsIommufdAvailable e1) as [iommu e2]. intros [= <- <-]. by exists flags, mode, m, e1, iommu.
Qed.
End discovery_facts.

(** ** A host that does not change while it is read *)

Definition reads {E A} (c : Call E A) : Prop := forall e, (c e).2 = e.

Lemma reads_run {E A} (c : Call E A) e : reads c -> c e = ((c e).1, e).
Proof. intros Hc. specialize (Hc e). by destruct (c e) as [a e']; simpl in *; subst. Qed.

Lemma reads_ret {E A} (a : A) : reads (E:=E) (mret a).
Proof. done. Qed.

Lemma reads_bind {E A B} (c : Call E A) (k : A -> Call E B) :
  reads c -> (forall a, reads (k a)) -> reads (c ≫= k).
Proof.
  intros Hc Hk e. unfold mbind, Call_bind. rewrite (reads_run c e Hc). apply Hk.
Qed.

Lemma reads_ok {E A B} (c : Call E (result A)) (k : A -> Call E (result B)) :
  reads c -> (forall a, reads (k a)) -> reads (call_ok c k).
Proof. intros Hc Hk. apply reads_bind; [done|]. intros [a|]; [apply Hk|apply reads_ret]. Qed.

Lemma reads_err {E A} f (c : Call E (result A)) : reads c -> reads (call_err f c).
Proof. intros Hc. apply reads_bind; [done|]. intros r. apply reads_ret. Qed.

Lemma reads_each {E A S} (l : list A) (body : A -> S -> Call E S) s :
  (forall x s, reads (body x s)) -> reads (call_each l body s).
Proof.
  intros Hb. revert s. induction l as [|x l IH]; intros s; [apply reads_ret|].
  by apply reads_bind.
Qed.

#[export] Hint Resolve reads_ret reads_bind reads_ok reads_err reads_each : go.

(** The helpers discovery calls only read the host. *)
Class ReadOnlyHost (E : Type) `{DiscoveryHost E} : Prop := {
  ro_PCI : reads dh_PCI;
  ro_IsSriovVF a : reads (dh_IsSriovVF a);
  ro_TryGetPFInterfaceName a : reads (dh_TryGetPFInterfaceName a);
  ro_GetNicSriovMode a : reads (dh_GetNicSriovMode a);
  ro_GetNumaNode a : reads (dh_GetNumaNode a);
  ro_GetPCIeRoot a : reads (dh_GetPCIeRoot a);
  ro_GetLinkType a : reads (dh_GetLinkType a);
  ro_GetVFList a : reads (dh_GetVFList a);
  ro_VerifyRDMACapability a : reads (dh_VerifyRDMACapability a)
}.

(** Those of pkg/host do, when reading files and asking the providers does not change
    the outside. *)
Class ReadOnlyOS (E : Type) `{OS E} `{Providers E} `{PciLib E} : Prop := {
  ro_ghw : reads ghw_PCI;
  ro_Lstat p : reads (os_Lstat p);
  ro_Stat p : reads (os_Stat p);
  ro_Readlink p : reads (os_Readlink p);
  ro_ReadDir p : reads (os_ReadDir p);
  ro_ReadFile p : reads (os_ReadFile p);
  ro_rdma p : reads (GetRdmaDevicesForPcidev p);
  ro_uplink p : reads (GetUplinkRepresentor p);
  ro_eswitch p : reads (GetDevLinkDeviceEswitchMode p);
  ro_pcieroot p : reads (GetPCIeRootAttributeByPCIBusID p)
}.
#[export] Hint Resolve ro_ghw ro_Lstat ro_Stat ro_Readlink ro_ReadDir ro_ReadFile ro_rdma ro_uplink
  ro_eswitch ro_pcieroot : go.

(** Reading through any composition of the constructs above. *)
Ltac solve_reads :=
  repeat first [ progress intros | apply reads_ok | apply reads_err | apply reads_bind
               | apply reads_each | apply reads_ret | solve [eauto with go]
               | case_match ].

#[export] Instance helpers_read_only {E} `{ReadOnlyOS E} (RootDir : string) :
  @ReadOnlyHost E (discovery_helpers RootDir).
Proof.
  split; simpl; intros; unfold IsSriovVF, TryGetPFInterfaceName, GetNicSriovMode, GetNumaNode, GetPCIeRoot,
    GetLinkType, GetVFList, vfOfEntry, VerifyRDMACapability, GetRDMADevicesForPCI; solve_reads.
  all: unfold TryGetPFInterfaceName; solve_reads.
Qed.

Section read_only_facts.
Context {E : Type} `{ReadOnlyHost E}.
Implicit Types (device : PciDevice) (e : E).

(** The devices discovery takes for physical functions. *)
Definition is_PF e device : bool :=
  match ParseInt (pci_Class_ID device) 16 with
  | Ok devClass =>
      bool_decide (devClass = NetClass) && negb (dh_IsSriovVF (pci_Address device) e).1 &&
      bool_decide ((dh_TryGetPFInterfaceName (pci_Address device) e).1 ≠ "")
  | Err _ => false
  end.

(** What discovery reads of a physical function. *)
Definition pfOf e device : PFInfo :=
  let a := pci_Address device in
  mkPFInfo a (dh_TryGetPFInterfaceName a e).1 (pci_Vendor_ID device) (pci_Product_ID device) a
    (dh_GetNicSriovMode a e).1 (or_default "" (dh_GetPCIeRoot a e).1)
    (or_default LinkTypeUnknown (dh_GetLinkType a e).1) (or_default "-1" (dh_GetNumaNode a e).1).

Lemma addPF_run device l e :
  addPF device l e = (l ++ (if is_PF e device then [pfOf e device] else []), e).
Proof.
  unfold addPF, is_PF. destruct (ParseInt _ 16) as [c|]; [|by rewrite app_nil_r].
  destruct (decide (c ≠ NetClass)) as [Hc|Hc]; [rewrite bool_decide_false by done; simpl; by rewrite app_nil_r|].
  rewrite bool_decide_true by (by destruct (decide (c = NetClass))).
  unfold mbind, Call_bind.
  rewrite (reads_run (dh_IsSriovVF _) e) by apply ro_IsSriovVF.
  destruct (dh_IsSriovVF _ e).1; [simpl; by rewrite app_nil_r|].
  rewrite (reads_run (dh_TryGetPFInterfaceName _) e) by apply ro_TryGetPFInterfaceName.
  destruct (decide ((dh_TryGetPFInterfaceName _ e).1 = "")) as [Hn|Hn].
  { rewrite (bool_decide_false (_ ≠ "")) by tauto. simpl. by rewrite app_nil_r. }
  rewrite (bool_decide_true (_ ≠ "")) by done.
  rewrite (reads_run (dh_GetNicSriovMode _) e) by apply ro_GetNicSriovMode.
  rewrite (reads_run (dh_GetNumaNode _) e) by apply ro_GetNumaNode.
  rewrite (reads_run (dh_GetPCIeRoot _) e) by apply ro_GetPCIeRoot.
  by rewrite (reads_run (dh_GetLinkType _) e) by apply ro_GetLinkType.
Qed.

Lemma pfs_run devices l e :
  call_each devices addPF l e = (l ++ (pfOf e <$> List.filter (is_PF e) devices), e).
Proof.
  revert l. induction devices as [|device devices IH]; intros l; simpl; [by rewrite app_nil_r|].
  unfold mbind, Call_bind. rewrite addPF_run, IH, <- app_assoc. by destruct (is_PF e device).
Qed.

(** The device of a virtual function. *)
Definition vfDevice e (pf : PFInfo) (vf : VFInfo) : Device :=
  mkDevice (deviceNameOf (vf_PciAddress vf))
    (vfAttributes pf (or_default (-1)%Z (ParseInt (pf_NumaNode pf) 10))
       (dh_VerifyRDMACapability (vf_PciAddress vf) e).1 vf).

Lemma addVF_one pf vf m e :
  addVF pf (or_default (-1)%Z (ParseInt (pf_NumaNode pf) 10)) vf m e =
    (<[deviceNameOf (vf_PciAddress vf) := vfDevice e pf vf]> m, e).
Proof.
  unfold addVF, mbind, Call_bind.
  by rewrite (reads_run (dh_VerifyRDMACapability _) e) by apply ro_VerifyRDMACapability.
Qed.

(** [m'] is [m] with entries for the virtual functions in [P] of the physical function
    they are paired with; an entry may replace another of the same name. *)
Definition adds e (P : PFInfo -> VFInfo -> Prop) (m m' : AllocatableDevices) : Prop :=
  (forall d, is_Some (m !! d) -> is_Some (m' !! d)) /\
  (forall pf vf, P pf vf -> is_Some (m' !! deviceNameOf (vf_PciAddress vf))) /\
  forall d dev, m' !! d = Some dev -> m !! d = Some dev \/
    exists pf vf, P pf vf /\ d = deviceNameOf (vf_PciAddress vf) /\ dev = vfDevice e pf vf.

Lemma adds_none e (P : PFInfo -> VFInfo -> Prop) m : (forall pf vf, ¬ P pf vf) -> adds e P m m.
Proof. intros HP. split_and!; [done|by intros pf vf ?%HP|by left]. Qed.

Lemma adds_trans e (P1 P2 P : PFInfo -> VFInfo -> Prop) m m1 m2 :
  (forall pf vf, P pf vf ↔ P1 pf vf \/ P2 pf vf) -> adds e P1 m m1 -> adds e P2 m1 m2 -> adds e P m m2.
Proof.
  intros HP (Hold1 & Hnew1 & Hfrom1) (Hold2 & Hnew2 & Hfrom2). split_and!; [by auto| |].
  - intros pf vf [?|?]%HP; [apply Hold2; by eapply Hnew1|by eapply Hnew2].
  - intros d dev [[?|(pf & vf & ? & ? & ?)]%Hfrom1|(pf & vf & ? & ? & ?)]%Hfrom2; [by left|right..];
      exists pf, vf; (split; [apply HP|]); auto.
Qed.

Lemma adds_one e pf vf m :
  adds e (fun pf' vf' => pf' = pf /\ vf' = vf) m (<[deviceNameOf (vf_PciAddress vf) := vfDevice e pf vf]> m).
Proof.
  split_and!.
  - intros d Hd. rewrite lookup_insert_is_Some. destruct (decide (deviceNameOf (vf_PciAddress vf) = d)); auto.
  - intros ? ? [-> ->]. rewrite lookup_insert_eq. by eexists.
  - intros d dev [[<- <-]|[_ ?]]%lookup_insert_Some; [right; by exists pf, vf|by left].
Qed.

Lemma addVF_run pf vfs m e : exists m',
  call_each vfs (addVF pf (or_default (-1)%Z (ParseInt (pf_NumaNode pf) 10))) m e = (m', e) /\
  adds e (fun pf' vf => pf' = pf /\ vf ∈ vfs) m m'.
Proof.
  revert m. induction vfs as [|vf vfs IH]; intros m; simpl.
  - exists m. split; [done|]. apply adds_none. by intros ? ? [_ ?%elem_of_nil].
  - unfold mbind, Call_bind. rewrite addVF_one. edestruct IH as (m' & Hrun & Hm').
    exists m'. split; [exact Hrun|]. eapply adds_trans; [|apply adds_one|exact Hm'].
    intros pf' vf'. rewrite elem_of_cons. naive_solver.
Qed.

Lemma addVFs_run pfs m e m' e' :
  call_each_ok pfs addVFs m e = (Ok m', e') ->
  e' = e /\ (forall pf, pf ∈ pfs -> exists vfs, (dh_GetVFList (pf_Address pf) e).1 = Ok vfs) /\
  adds e (fun pf vf => pf ∈ pfs /\ exists vfs, (dh_GetVFList (pf_Address pf) e).1 = Ok vfs /\ vf ∈ vfs) m m'.
Proof.
  revert m. induction pfs as [|pf pfs IH]; intros m; simpl.
  - intros [= <- <-]. split_and!; [done|by intros ? ?%elem_of_nil|].
    apply adds_none. by intros ? ? [?%elem_of_nil _].
  - unfold call_ok at 1, mbind, Call_bind. unfold addVFs at 1, call_ok, call_err, mbind, Call_bind.
    rewrite (reads_run (dh_GetVFList _) e) by apply ro_GetVFList.
    destruct (dh_GetVFList (pf_Address pf) e).1 as [vfs|] eqn:Hvfs; simpl; [|done].
    destruct (addVF_run pf vfs m e) as (m1 & -> & Hm1).
    unfold mret, Call_ret. intros (-> & Hok & Hm')%IH. split_and!; [done| |].
    + intros pf' [->|?]%elem_of_cons; [by exists vfs|by apply Hok].
    + eapply adds_trans; [|exact Hm1|exact Hm']. intros pf' vf. rewrite elem_of_cons. split.
      * intros [[->|?] (vfs' & Hvfs' & ?)]; [left|right; split; [done|by exists vfs']].
        split; [done|]. congruence.
      * intros [[-> ?]|[? ?]]; (split; [by auto|]); [by exists vfs|done].
Qed.

(** [dev] has exactly the attributes that the host tells of the virtual function [vf] of
    the physical function [device]. *)
Record described e device (vf : VFInfo) (dev : Device) : Prop := {
  de_name : dev_Name dev = deviceNameOf (vf_PciAddress vf);
  de_vendor : dev_Attributes dev !! AttributeVendorID = Some (StringAttr (pci_Vendor_ID device));
  de_device : dev_Attributes dev !! AttributeDeviceID = Some (StringAttr (vf_DeviceID vf));
  de_pf_device : dev_Attributes dev !! AttributePFDeviceID = Some (StringAttr (pci_Product_ID device));
  de_address k : k ∈ [AttributePciAddress; AttributeMultusDeviceID; AttributeStandardPciAddress] ->
    dev_Attributes dev !! k = Some (StringAttr (vf_PciAddress vf));
  de_pf_address : dev_Attributes dev !! AttributePfPciAddress = Some (StringAttr (pci_Address device));
  de_pf_name : dev_Attributes dev !! AttributePFName =
    Some (StringAttr (dh_TryGetPFInterfaceName (pci_Address device) e).1);
  de_eswitch : dev_Attributes dev !! AttributeEswitchMode =
    Some (StringAttr (dh_GetNicSriovMode (pci_Address device) e).1);
  de_id : dev_Attributes dev !! AttributeVFID = Some (IntAttr (vf_VFID vf));
  de_root : dev_Attributes dev !! AttributePCIeRoot = Some (StringAttr
    match (dh_GetPCIeRoot (pci_Address device) e).1 with Ok root => root | Err _ => "" end);
  de_link : dev_Attributes dev !! AttributeLinkType = Some (StringAttr
    match (dh_GetLinkType (pci_Address device) e).1 with Ok link => link | Err _ => LinkTypeUnknown end);
  de_rdma : dev_Attributes dev !! AttributeRDMACapable =
    Some (BoolAttr (dh_VerifyRDMACapability (vf_PciAddress vf) e).1);
  de_numa : dev_Attributes dev !! AttributeNUMANode = Some (IntAttr
    match (dh_GetNumaNode (pci_Address device) e).1 with
    | Ok node => match ParseInt node 10 with Ok n => n | Err _ => -1 end
    | Err _ => -1
    end%Z);
  de_no_other k : is_Some (dev_Attributes dev !! k) ->
    k ∈ [AttributeVendorID; AttributeDeviceID; AttributePFDeviceID; AttributePciAddress;
         AttributeMultusDeviceID; AttributeStandardPciAddress; AttributePfPciAddress; AttributePFName;
         AttributeEswitchMode; AttributeVFID; AttributePCIeRoot; AttributeLinkType;
         AttributeRDMACapable; AttributeNUMANode]
}.

Lemma vfDevice_described e device vf : described e device vf (vfDevice e (pfOf e device) vf).
Proof.
  split; try reflexivity.
  - intros k. rewrite !elem_of_cons. by intros [->|[->|[->|?%elem_of_nil]]].
  - simpl. by destruct (dh_GetNumaNode _ e).1.
  - intros k [a Ha%elem_of_list_to_map_2]. unfold vfAttributes in Ha.
    repeat (apply elem_of_cons in Ha as [[= -> _]|Ha]; [by apply (bool_decide_unpack _); vm_compute|]).
    by apply elem_of_nil in Ha.
Qed.
End read_only_facts.

(** ** Properties *)

Section discovery_properties.
Context {E : Type} `{DiscoveryHost E}.

(** C16: Discovery is complete and invents nothing: when it succeeds on a host that
    only gets read, the devices are exactly the virtual functions the host lists for
    the network controllers that are not virtual functions themselves and have an
    interface, none of these controllers was left out for an error, and each device has
    exactly the attributes that the host tells of its virtual function and physical
    function, with the defaults for what cannot be read. *)
Theorem discover_complete `{!ReadOnlyHost E} e m e' :
  DiscoverSriovDevices e = (Ok m, e') ->
  e' = e /\ exists devices, (dh_PCI e).1 = Ok devices /\
    (forall device, device ∈ devices -> is_PF e device = true ->
       exists vfs, (dh_GetVFList (pci_Address device) e).1 = Ok vfs /\
         forall vf, vf ∈ vfs -> is_Some (m !! deviceNameOf (vf_PciAddress vf))) /\
    forall d dev, m !! d = Some dev -> exists device vfs vf,
      device ∈ devices /\ is_PF e device = true /\
      (dh_GetVFList (pci_Address device) e).1 = Ok vfs /\ vf ∈ vfs /\
      d = deviceNameOf (vf_PciAddress vf) /\ described e device vf dev.
Proof.
  unfold DiscoverSriovDevices. unfold call_ok, call_err, mbind, Call_bind, mret, Call_ret.
  rewrite (reads_run dh_PCI e) by apply ro_PCI. destruct (dh_PCI e).1 as [devices|]; simpl; [|done].
  destruct (decide _); [done|]. rewrite pfs_run. simpl.
  intros (-> & Hok & _ & Hnew & Hfrom)%addVFs_run. split; [done|]. exists devices.
  assert (Hpf : forall pf, pf ∈ pfOf e <$> List.filter (is_PF e) devices ↔
    exists device, pf = pfOf e device /\ device ∈ devices /\ is_PF e device = true).
  { intros pf. rewrite list_elem_of_fmap.
    by setoid_rewrite list_elem_of_In; setoid_rewrite filter_In. }
  split_and!; [done| |].
  - intros device Hd His. assert (Hin : pfOf e device ∈ pfOf e <$> List.filter (is_PF e) devices)
      by (apply Hpf; by exists device).
    destruct (Hok _ Hin) as [vfs Hvfs]. exists vfs. split; [done|]. intros vf Hvf.
    apply (Hnew (pfOf e device)). split; [done|]. by exists vfs.
  - intros d dev [?%lookup_empty_Some|(pf & vf & [Hin (vfs & Hvfs & Hvf)] & -> & ->)]%Hfrom; [done|].
    apply Hpf in Hin as (device & -> & Hd & His). exists device, vfs, vf.
    split_and!; [done..|apply vfDevice_described].
Qed.

(** No device hides another: a discovered device has the name of its own PCI
    address, so virtual functions with different addresses have different entries,
    and the entry of an address is about that address. *)
Lemma discovered_by_address e m e' a device :
  DiscoverSriovDevices e = (Ok m, e') -> pci_address a ->
  (forall d dev s, m !! d = Some dev -> dev_Attributes dev !! AttributePciAddress = Some (StringAttr s) ->
     pci_address s) ->
  m !! deviceNameOf a = Some device ->
  dev_Name device = deviceNameOf a /\
  dev_Attributes device !! AttributePciAddress = Some (StringAttr a) /\
  forall k, is_Some (dev_Attributes device !! k) -> reserved k = true.
Proof.
  intros Hrun Ha Hform Hd. pose proof (discover_sound _ _ _ Hrun _ _ Hd) as (pf & n & r & vf & Hname & ->).
  assert (Hvf : pci_address (vf_PciAddress vf)).
  { eapply Hform; [exact Hd|]. apply vfAttributes_pci. }
  apply deviceNameOf_inj in Hname as ->; [|done..]. split_and!; [done|apply vfAttributes_pci|].
  intros k. apply vfAttributes_reserved.
Qed.

Lemma new_manager_ok `{RangeOrder} config cdi e s e' :
  NewManager config cdi e = (Ok s, e') -> manager_ok s /\ addressed s.
Proof.
  intros (flags & mode & m & e1 & iommu & _ & Hmode & Hrun & ->)%NewManager_ok.
  pose proof (discover_sound _ _ _ Hrun) as Hsound. split.
  - split; simpl; [by intros d [? ?]|]. intros d dev (pf & n & r & vf & _ & ->)%Hsound.
    rewrite lookup_empty. split; simpl; [by intros k b|].
    intros k Hk Ha%vfAttributes_reserved. congruence.
  - intros d dev (pf & n & r & vf & _ & ->)%Hsound. by eexists.
Qed.

(** C26: A new manager is fit for use: it is well-formed, so policy updates keep
    discovery's attributes apart from their own, every device has the PCI address
    that preparing it needs and bears the name it is listed under, it runs in exactly
    one mode, and nothing is advertised before the first policy. *)
Theorem new_manager_ready `{RangeOrder} config cdi e s e' :
  NewManager config cdi e = (Ok s, e') ->
  manager_ok s /\ addressed s /\ GetAdvertisedDevices s = ∅ /\
  isStandaloneMode s = negb (isMultusMode s) /\
  forall d device, allocatable s !! d = Some device -> dev_Name device = d.
Proof.
  intros Hnew. destruct (new_manager_ok _ _ _ _ _ Hnew) as [Hok Haddr].
  apply NewManager_ok in Hnew as (flags & mode & m & e1 & iommu & _ & Hmode & Hrun & ->).
  pose proof (discover_sound _ _ _ Hrun) as Hsound. split_and!; [done..| | |].
  - apply range_fold_empty.
  - unfold isStandaloneMode, isMultusMode. simpl. unfold normalizeConfigurationMode in Hmode.
    by repeat case_decide; simplify_eq.
  - by intros d dev (pf & n & r & vf & _ & ->)%Hsound.
Qed.
End discovery_properties.

(** ** A concrete node: a network card with two virtual functions, a virtual function
    listed by the PCI library itself, a display controller and a card without an
    interface. *)
Module DiscoveryRuns.
#[local] Existing Instance listing_order.

Definition no_file {A} (p : string) : result A := Err (ErrExternal "NotExist" p).

Definition sysfs : gmap string string := list_to_map [
  ("/sys/bus/pci/devices/0000:3b:02.0/device", "0x154c" +:+ String newline "");
  ("/sys/bus/pci/devices/0000:3b:02.1/device", "0x154c" +:+ String newline "");
  ("/sys/bus/pci/devices/0000:3b:00.0/numa_node", "1" +:+ String newline "");
  ("/sys/class/net/ens1f0/type", "1" +:+ String newline "")].
Definition links : gmap string string := list_to_map [
  ("/sys/bus/pci/devices/0000:3b:00.0/virtfn0", "../0000:3b:02.0");
  ("/sys/bus/pci/devices/0000:3b:00.0/virtfn1", "../0000:3b:02.1");
  ("/sys/bus/pci/devices/0000:3b:02.0/physfn", "../0000:3b:00.0")].

Definition node_os : OS unit := {|
  os_Lstat p e := (if links !! p is Some _ then Ok true else if sysfs !! p is Some _ then Ok false else no_file p, e);
  os_Stat p e := (if sysfs !! p is Some _ then Ok tt else no_file p, e);
  os_Readlink p e := (if links !! p is Some s then Ok s else no_file p, e);
  os_ReadDir p e :=
    (if decide (p = "/sys/bus/pci/devices/0000:3b:00.0") then Ok ["class"; "virtfn0"; "virtfn1"]
     else no_file p, e);
  os_ReadFile p e := (if sysfs !! p is Some s then Ok s else no_file p, e);
  os_WriteFile p _ e := (no_file p, e);
  EvalSymlinks p e := (no_file p, e);
  run_modprobe _ e := ("", None, e)
|}.
Definition node_providers : Providers unit := {|
  GetRdmaDevicesForPcidev p e := (if decide (p = "0000:3b:02.1") then ["mlx5_3"] else [], e);
  GetRdmaCharDevices _ e := ([], e);
  GetUplinkRepresentor p e :=
    (if decide (p = "0000:3b:00.0") then Ok "ens1f0" else Err (ErrExternal "EIO" p), e);
  GetDevLinkDeviceEswitchMode _ e := (Ok "switchdev", e);
  GetPCIeRootAttributeByPCIBusID _ e := (Ok (StringAttr "pci0000:3a"), e)
|}.
Definition node_pci : PciLib unit := fun e =>
  (Ok [mkPciDevice "0000:3b:00.0" "02" "8086" "1572"; mkPciDevice "0000:3b:02.0" "02" "8086" "154c";
       mkPciDevice "0000:00:02.0" "03" "8086" "3ea0"; mkPciDevice "0000:5e:00.0" "02" "15b3" "1017"], e).
#[local] Existing Instance node_os.
#[local] Existing Instance node_providers.
#[local] Existing Instance node_pci.

#[local] Instance node_read_only : ReadOnlyOS unit.
Proof. split; intros; intros e; reflexivity. Qed.
#[local] Instance node : DiscoveryHost unit := discovery_helpers "".

Definition config : option (option Flags) := Some (Some (defaultFlags "" "" "node")).
Definition found : AllocatableDevices :=
  match (DiscoverSriovDevices tt).1 with Ok m => m | Err _ => ∅ end.
Definition initial : Manager :=
  match (NewManager config true tt).1 with Ok s => s | Err _ => mkManager ∅ ∅ "" "" false end.

Example two_devices : fst <$> map_to_list found = ["0000-3b-02-1"; "0000-3b-02-0"] \/
  fst <$> map_to_list found = ["0000-3b-02-0"; "0000-3b-02-1"].
Proof. vm_compute. auto. Qed.

Lemma discovery_run : DiscoverSriovDevices tt = (Ok found, tt).
Proof. vm_cast_no_check (eq_refl (Ok found, tt)). Qed.
Lemma found_second : is_Some (found !! "0000-3b-02-1").
Proof. apply (bool_decide_unpack (is_Some _)). vm_cast_no_check I. Qed.
Lemma initial_run : NewManager config true tt = (Ok initial, tt).
Proof. vm_cast_no_check (eq_refl (Ok initial, tt)). Qed.
Lemma initial_size : size (allocatable initial) = 2.
Proof. vm_compute. reflexivity. Qed.
Strategy opaque [found initial].

Definition addresses_in (l : list string) (m : AllocatableDevices) : bool :=
  forallb (fun '(_, dev) =>
    existsb (fun a => bool_decide (dev_Attributes dev !! AttributePciAddress = Some (StringAttr a))) l)
    (map_to_list m).

Lemma addresses_in_spec l m d dev s :
  addresses_in l m = true -> m !! d = Some dev ->
  dev_Attributes dev !! AttributePciAddress = Some (StringAttr s) -> s ∈ l.
Proof.
  unfold addresses_in. rewrite forallb_forall. intros Hall Hd Hs.
  assert (Hin : In (d, dev) (map_to_list m)) by by apply list_elem_of_In, elem_of_map_to_list.
  specialize (Hall _ Hin). simpl in Hall. apply existsb_exists in Hall as (a & Ha & Heq%bool_decide_eq_true).
  rewrite Hs in Heq. injection Heq as ->. by apply list_elem_of_In.
Qed.

Lemma found_addresses d dev s :
  found !! d = Some dev -> dev_Attributes dev !! AttributePciAddress = Some (StringAttr s) -> pci_address s.
Proof.
  intros Hd Hs.
  assert (Hall : addresses_in ["0000:3b:02.0"; "0000:3b:02.1"] found = true)
    by (vm_cast_no_check (eq_refl true)).
  pose proof (addresses_in_spec _ _ _ _ _ Hall Hd Hs) as Hin. clear Hall Hd Hs.
  apply elem_of_cons in Hin as [->|[= ->]%list_elem_of_singleton];
    [exists "0000", "3b", "02", "0"|exists "0000", "3b", "02", "1"];
    (split; [reflexivity|]; repeat constructor; discriminate).
Qed.

Lemma discover_complete_witness :
  DiscoverSriovDevices tt = (Ok found, tt) /\
  exists dev, found !! "0000-3b-02-1" = Some dev /\
    exists device vf, is_PF tt device = true /\ described tt device vf dev /\
      dev_Attributes dev !! AttributePfPciAddress = Some (StringAttr (pci_Address device)).
Proof.
  split; [exact discovery_run|]. destruct found_second as [dev Hdev]. exists dev. split; [exact Hdev|].
  destruct (discover_complete tt found tt discovery_run) as (_ & devices & _ & _ & Hm).
  destruct (Hm _ _ Hdev) as (device & vfs & vf & _ & His & _ & _ & _ & Hdesc).
  exists device, vf. split; [exact His|]. split; [exact Hdesc|]. exact (de_pf_address _ _ _ _ Hdesc).
Defined.

Lemma discovered_by_address_witness : exists device,
  pci_address "0000:3b:02.1" /\ found !! deviceNameOf "0000:3b:02.1" = Some device /\
  dev_Attributes device !! AttributePciAddress = Some (StringAttr "0000:3b:02.1").
Proof.
  destruct found_second as [device Hd]. exists device.
  assert (Ha : pci_address "0000:3b:02.1").
  { exists "0000", "3b", "02", "1". split; [reflexivity|]. repeat constructor; discriminate. }
  split; [exact Ha|]. split; [exact Hd|].
  destruct (discovered_by_address tt found tt "0000:3b:02.1" device discovery_run Ha found_addresses Hd)
    as (_ & Haddr & _). exact Haddr.
Defined.

Lemma new_manager_ready_witness :
  NewManager config true tt = (Ok initial, tt) /\ manager_ok initial /\
  size (allocatable initial) = 2 /\ GetAdvertisedDevices initial = ∅.
Proof.
  split; [exact initial_run|].
  destruct (new_manager_ready config true tt initial tt initial_run) as (Hok & _ & Hadv & _).
  split; [exact Hok|]. split; [exact initial_size|exact Hadv].
Defined.
End DiscoveryRuns.
