(* ===== verification/Cni.v ===== *)
(** * The CNI runtime (pkg/cni)

    Attaching the network of a prepared device to a pod and detaching it, the
    conversion of CNI results into network data (cni.go, status.go), and the
    execution of plugin binaries with retries (exec.go).  libcni, the network
    attachment client and the operating system's processes are parameters. *)

From S2P Require Import Prelude GoLib Consts K8sTypes VfConfigApi Manager Prepared Prepare Hoare.

(** The fields of NRI's [api.PodSandbox] that are used; a nil [Linux] has no
    namespaces. *)
Record LinuxNamespace : Type := mkNamespace {
  ns_Type : string;
  ns_Path : string
}.

Record PodSandbox : Type := mkPodSandbox {
  pod_Id : string;
  pod_Name : string;
  pod_Namespace : string;
  pod_Uid : string;
  pod_LinuxNamespaces : list LinuxNamespace
}.

(** [libcni.RuntimeConf]. *)
Record RuntimeConf : Type := mkRuntimeConf {
  rt_ContainerID : string;
  rt_NetNS : string;
  rt_IfName : string;
  rt_Args : list (string * string)
}.

(** The 1.0.0 result of a plugin; its slices hold pointers.  An address is given by
    its text, [ip.Address.String()]. *)
Record CniInterface : Type := mkCniInterface {
  if_Name : string;
  if_Mac : string;
  if_Sandbox : string
}.

Record Cni100Result : Type := mkCni100Result {
  cni_IPs : list (option string);
  cni_Interfaces : list (option CniInterface)
}.

(** libcni and its result types. *)
Class CniLib (E : Type) : Type := {
  PluginConf : Type;
  CniResult : Type;
  GetCNIConfigFromSpec : string -> string -> result string;
  NetworkPluginConfFromBytes : string -> result PluginConf;
  AddNetwork : PluginConf -> RuntimeConf -> Call E (result (option CniResult));
  DelNetwork : PluginConf -> RuntimeConf -> Call E (result unit);
  NewResultFromResult : CniResult -> result Cni100Result;
  json_Marshal_Cni100 : Cni100Result -> result string
}.

(** A [map[string]interface{}] that may be nil. *)
Abbreviation JsonMap := (option (gmap string json_value)).

Section cni.
Context {E : Type} `{JsonLib} `{CniLib E} (DriverName : string).

(** The two loops of [cniResultToNetworkData]. *)
Definition addIP (ip : option string) (networkData : NetworkDeviceData) : M (World E) NetworkDeviceData :=
  address ← deref "ip.Address" ip;
  mret (mkNetworkData (nd_InterfaceName networkData) (nd_IPs networkData ++ [address])
          (nd_HardwareAddress networkData)).

Definition addInterface (ifs : option CniInterface) (networkData : NetworkDeviceData)
  : M (World E) NetworkDeviceData :=
  ifs ← deref "ifs.Sandbox" ifs;
  mret (if decide (if_Sandbox ifs ≠ "") then
          mkNetworkData (if_Name ifs) (nd_IPs networkData) (if_Mac ifs)
        else networkData).

Definition cniResultToNetworkData (res : CniResult) : M (World E) (result NetworkDeviceData) :=
  let networkData := mkNetworkData "" [] "" in
  cniResult ←? mret (result_map_err (errorv "failed to NewResultFromResult result (%v): %v" [])
                       (NewResultFromResult res));
  networkData ← for_each (cni_IPs cniResult) addIP networkData;
  networkData ← for_each (cni_Interfaces cniResult) addInterface networkData;
  mret (Ok networkData).

(** The runtime configuration that [AttachNetwork] and [DetachNetwork] both build. *)
Definition runtimeConf (pod : PodSandbox) (podNetworkNamespace : string) (deviceConfig : PreparedDevice)
  : RuntimeConf := {|
  rt_ContainerID := pod_Id pod;
  rt_NetNS := podNetworkNamespace;
  rt_IfName := pd_IfName deviceConfig;
  rt_Args := [("IgnoreUnknown", "true"); ("K8S_POD_NAMESPACE", pod_Namespace pod);
              ("K8S_POD_NAME", pod_Name pod); ("K8S_POD_INFRA_CONTAINER_ID", pod_Id pod);
              ("K8S_POD_UID", pod_Uid pod)]
|}.

(** The plugin configuration that both parse. *)
Definition pluginConfOf (deviceConfig : PreparedDevice) : result PluginConf :=
  match GetCNIConfigFromSpec (pd_NetAttachDefConfig deviceConfig) DriverName with
  | Err err => Err (errorv "failed to GetCNIConfigFromSpec: %v" [] err)
  | Ok rawNetConf =>
      result_map_err (errorv "failed to NetworkPluginConfFromBytes: %v" [])
        (NetworkPluginConfFromBytes rawNetConf)
  end.

(** The full result as a generic map. *)
Definition resultMapOf (cniResult : CniResult) : result JsonMap :=
  match NewResultFromResult cniResult with
  | Err err => Err (errorv "failed to convert CNI result to 1.0.0: %v" [] err)
  | Ok cni100Result =>
      match json_Marshal_Cni100 cni100Result with
      | Err err => Err (errorv "failed to marshal CNI result: %v" [] err)
      | Ok raw =>
          result_map_err (errorv "failed to unmarshal CNI result into map: %v" [])
            (json_Unmarshal_object raw)
      end
  end.

(** The network data is returned next to an error of the last steps. *)
Definition AttachNetwork (pod : PodSandbox) (podNetworkNamespace : string) (deviceConfig : option loc)
  : M (World E) (option NetworkDeviceData * result JsonMap) :=
  device ← load deviceConfig;
  let rt := runtimeConf pod podNetworkNamespace device in
  match pluginConfOf device with
  | Err err => mret (None, Err err)
  | Ok pluginConf =>
      added ← ext (AddNetwork pluginConf rt);
      match added with
      | Err err => mret (None, Err (errorv "failed to AddNetwork: %v" [] err))
      | Ok None => mret (None, Err (errorf "cni result is nil" []))
      | Ok (Some cniResult) =>
          netData ← cniResultToNetworkData cniResult;
          match netData with
          | Err err => mret (None, Err err)
          | Ok netData => mret (Some netData, resultMapOf cniResult)
          end
      end
  end.

Definition DetachNetwork (pod : PodSandbox) (podNetworkNamespace : string) (deviceConfig : option loc)
  : M (World E) (result unit) :=
  device ← load deviceConfig;
  let rt := runtimeConf pod podNetworkNamespace device in
  pluginConf ←? mret (pluginConfOf device);
  wrap_err (errorv "failed to DelNetwork: %v" []) (ext (DelNetwork pluginConf rt)).
End cni.

(** ** Running plugin binaries (exec.go) *)

(** One [Cmd.Run]: what the process wrote to its standard output and error, and how
    it ended; waiting a second; the copy of the standard error; the text of an error;
    the decoding of a plugin's diagnostic message. *)
Class ExecLib (E : Type) : Type := {
  cmd_Run : string -> string -> list string -> Call E (string * string * option error);
  time_Sleep_second : Call E unit;
  write_Stderr : string -> Call E unit;
  error_Error : error -> string;
  json_Unmarshal_CniError : string -> result error
}.

Section exec.
Context {E : Type} `{ExecLib E}.

(** [strings.Contains(err.Error(), "text file busy")]. *)
Definition text_file_busy (err : error) : bool := Contains (error_Error err) "text file busy".

Definition pluginErr (err : error) (stdout stderr : string) : error :=
  if decide (stdout = "") then
    if decide (stderr = "") then errorv "netplugin failed with no error message: %v" [] err
    else errorv "netplugin failed: %q: %v" [stderr] err
  else
    match json_Unmarshal_CniError stdout with
    | Err perr => errorv "netplugin failed but error parsing its diagnostic message %q: %v" [stdout] perr
    | Ok emsg => emsg
    end.

(** The retry loop, with the attempts left; both buffers collect what every attempt
    writes.  It leaves the buffers, or the error to return. *)
Fixpoint execLoop (n : nat) (pluginPath stdinData : string) (environ : list string)
    (stdout stderr : string) : Call E (result (string * string)) :=
  match n with
  | 0 => mret (Ok (stdout, stderr))
  | S n =>
      '(out, errout, err) ← cmd_Run pluginPath stdinData environ;
      let stdout := stdout +:+ out in
      let stderr := stderr +:+ errout in
      match err with
      | None => mret (Ok (stdout, stderr))
      | Some err =>
          if text_file_busy err then
            _ ← time_Sleep_second; execLoop n pluginPath stdinData environ stdout stderr
          else mret (Err (pluginErr err stdout stderr))
      end
  end.

(** [hasStderr] tells whether the executor was given a writer for it. *)
Definition ExecPlugin (hasStderr : bool) (pluginPath stdinData : string) (environ : list string)
  : Call E (result string) :=
  buffers ←! execLoop 11 pluginPath stdinData environ "" "";
  _ ← (if hasStderr && bool_decide (buffers.2 ≠ "") then write_Stderr buffers.2 else mret tt);
  mret (Ok buffers.1).
End exec.

(** ** Facts *)

Section cni_facts.
Context {E : Type} `{JsonLib} `{CniLib E} (DriverName : string).
Implicit Types (w : World E).

Lemma addIPs_run (ips : list string) nd w :
  for_each (Some <$> ips) addIP nd w =
    (Ret (mkNetworkData (nd_InterfaceName nd) (nd_IPs nd ++ ips) (nd_HardwareAddress nd)), w).
Proof.
  revert nd. induction ips as [|ip ips IH]; intros nd; simpl.
  - rewrite app_nil_r. by destruct nd.
  - unfold mbind, M_bind at 1. simpl. rewrite IH. simpl. by rewrite <- app_assoc.
Qed.

Definition in_sandbox (i : CniInterface) : bool := negb (bool_decide (if_Sandbox i = "")).

Lemma addInterfaces_run (ifaces : list CniInterface) nd w :
  for_each (Some <$> ifaces) addInterface nd w =
    (Ret (match last (List.filter in_sandbox ifaces) with
          | Some i => mkNetworkData (if_Name i) (nd_IPs nd) (if_Mac i)
          | None => nd
          end), w).
Proof.
  revert nd. induction ifaces as [|i ifaces IH]; intros nd; [done|].
  simpl. unfold mbind, M_bind at 1. simpl. rewrite IH. unfold in_sandbox at 2.
  destruct (decide (if_Sandbox i ≠ "")) as [Hs|Hs].
  - rewrite bool_decide_false by done. simpl. rewrite last_cons. by destruct (last _).
  - by rewrite bool_decide_true by by destruct (decide (if_Sandbox i = "")).
Qed.

(** Converting a result only computes: the outcome does not depend on the world. *)
Definition computes {A} (m : M (World E) A) : Prop := exists o, forall w, m w = (o, w).

Lemma computes_ret {A} (a : A) : computes (mret a).
Proof. by exists (Ret a). Qed.

Lemma computes_bind {A B} (m : M (World E) A) (k : A -> M (World E) B) :
  computes m -> (forall a, computes (k a)) -> computes (m ≫= k).
Proof.
  intros [[a|why] Hm] Hk; unfold mbind, M_bind.
  - destruct (Hk a) as [o Ho]. exists o. intros w. by rewrite Hm.
  - exists (Panic why). intros w. by rewrite Hm.
Qed.

Lemma computes_each {A S} (l : list A) (body : A -> S -> M (World E) S) s :
  (forall x s, computes (body x s)) -> computes (for_each l body s).
Proof.
  intros Hb. revert s. induction l as [|x l IH]; intros s; [apply computes_ret|].
  by apply computes_bind.
Qed.

Lemma computes_deref {A} what (o : option A) : computes (deref what o).
Proof. destruct o as [a|]; [apply computes_ret|by exists (Panic what)]. Qed.

Lemma network_data_computes res : computes (cniResultToNetworkData res).
Proof.
  apply computes_bind; [apply computes_ret|]. intros [r|err]; [|apply computes_ret].
  apply computes_bind; [apply computes_each|intros nd; apply computes_bind;
    [apply computes_each|intros nd'; apply computes_ret]].
  - intros ip nd. apply computes_bind; [apply computes_deref|intros; apply computes_ret].
  - intros i nd'. apply computes_bind; [apply computes_deref|intros; apply computes_ret].
Qed.

Lemma network_data_no_null res r w :
  NewResultFromResult res = Ok r -> Forall is_Some (cni_IPs r) -> Forall is_Some (cni_Interfaces r) ->
  exists nd, cniResultToNetworkData res w = (Ret (Ok nd), w).
Proof.
  intros Hres Hips Hifs.
  assert (Hget : forall {A} (l : list (option A)), Forall is_Some l -> exists l', l = Some <$> l').
  { intros A l. induction 1 as [|x l [a ->] _ [l' ->]]; [by exists []|by exists (a :: l')]. }
  destruct (Hget _ _ Hips) as [ips Hips'], (Hget _ _ Hifs) as [ifs Hifs'].
  unfold cniResultToNetworkData, bind_ok. rewrite Hres. simpl. unfold mbind, M_bind, mret, M_ret.
  rewrite Hips', Hifs', addIPs_run, addInterfaces_run. by eexists.
Qed.
End cni_facts.

Section exec_facts.
Context {E : Type} `{ExecLib E} (path stdin : string) (environ : list string).

(** A chain of attempts that all found the binary busy, each followed by a pause. *)
Inductive busy_runs : E -> list (string * string) -> E -> Prop :=
  | no_runs e : busy_runs e [] e
  | busy_run e out errout err e1 e2 l e3 :
      cmd_Run path stdin environ e = (out, errout, Some err, e1) -> text_file_busy err = true ->
      time_Sleep_second e1 = (tt, e2) -> busy_runs e2 l e3 -> busy_runs e ((out, errout) :: l) e3.

Definition outputs (f : string * string -> string) (l : list (string * string)) : string :=
  foldr (fun x s => f x +:+ s) "" l.

Lemma str_app_nil_r (s : string) : s +:+ "" = s.
Proof. induction s as [|c s IH]; [done|]. exact (f_equal (String c) IH). Qed.

Lemma execLoop_run n stdout stderr e r e' :
  execLoop n path stdin environ stdout stderr e = (r, e') ->
  exists l e1, busy_runs e l e1 /\
    let out := stdout +:+ outputs fst l in let errout := stderr +:+ outputs snd l in
    (length l = n /\ e' = e1 /\ r = Ok (out, errout)) \/
    (length l < n /\ exists o eo res, cmd_Run path stdin environ e1 = (o, eo, res, e') /\
       match res with
       | None => r = Ok (out +:+ o, errout +:+ eo)
       | Some err => text_file_busy err = false /\ r = Err (pluginErr err (out +:+ o) (errout +:+ eo))
       end).
Proof.
  revert stdout stderr e. induction n as [|n IH]; intros stdout stderr e; simpl.
  - intros [= <- <-]. exists [], e. split; [constructor|]. left. simpl. by rewrite !str_app_nil_r.
  - unfold mbind, Call_bind. destruct (cmd_Run path stdin environ e) as [[[o eo] [err|]] e1] eqn:Hrun.
    + destruct (text_file_busy err) eqn:Hbusy.
      * destruct (time_Sleep_second e1) as [[] e2] eqn:Hsleep.
        intros (l & e3 & Hl & Hres)%IH. exists ((o, eo) :: l), e3. split; [by econstructor|].
        simpl. unfold outputs in *. simpl. rewrite <- !str_app_assoc.
        destruct Hres as [(<- & -> & ->)|(Hlt & o' & eo' & res & Hlast & Hres)]; [by left|right].
        split; [lia|]. by exists o', eo', res.
      * intros [= <- <-]. exists [], e. split; [constructor|]. right. split; [simpl; lia|].
        exists o, eo, (Some err). simpl. by rewrite !str_app_nil_r.
    + intros [= <- <-]. exists [], e. split; [constructor|]. right. split; [simpl; lia|].
      exists o, eo, None. simpl. by rewrite !str_app_nil_r.
Qed.

Lemma execLoop_busy n stdout stderr e :
  (forall e, exists err e', cmd_Run path stdin environ e = ("", "", Some err, e') /\ text_file_busy err = true) ->
  exists e', execLoop n path stdin environ stdout stderr e = (Ok (stdout, stderr), e').
Proof.
  intros Hbusy. revert e. induction n as [|n IH]; intros e; simpl; [by eexists|].
  unfold mbind, Call_bind. destruct (Hbusy e) as (err & e1 & -> & ->).
  destruct (time_Sleep_second e1) as [[] e2]. rewrite !str_app_nil_r. apply IH.
Qed.
End exec_facts.

(** ** Properties *)

Section cni_properties.
Context {E : Type} `{JsonLib} `{CniLib E} (DriverName : string).
Implicit Types (w : World E).

(** C27: The network data of a CNI result holds every address in order, and the name
    and hardware address of the last interface that is inside of a sandbox, or empty
    ones when there is none. *)
Theorem network_data_correct res ips ifaces w :
  NewResultFromResult res = Ok (mkCni100Result (Some <$> ips) (Some <$> ifaces)) ->
  exists nd, cniResultToNetworkData res w = (Ret (Ok nd), w) /\ nd_IPs nd = ips /\
    match last (List.filter in_sandbox ifaces) with
    | Some i => nd_InterfaceName nd = if_Name i /\ nd_HardwareAddress nd = if_Mac i
    | None => nd_InterfaceName nd = "" /\ nd_HardwareAddress nd = ""
    end.
Proof.
  intros Hres. unfold cniResultToNetworkData, bind_ok. rewrite Hres. simpl.
  unfold mbind, M_bind, mret, M_ret. cbn [cni_IPs cni_Interfaces].
  rewrite addIPs_run, addInterfaces_run.
  eexists. split; [done|]. by destruct (last _).
Qed.

(** C28: Detaching undoes what attaching did: as long as the device keeps its interface
    name and its network configuration, the deletion is asked of the same plugin
    configuration with the same runtime configuration as the successful addition. *)
Theorem detach_matches_attach pod ns l d d2 nd m w w1 w2 r w3 :
  w_heap w !! l = Some d -> AttachNetwork DriverName pod ns (Some l) w = (Ret (nd, Ok m), w1) ->
  w_heap w2 !! l = Some d2 -> pd_IfName d2 = pd_IfName d ->
  pd_NetAttachDefConfig d2 = pd_NetAttachDefConfig d ->
  DetachNetwork DriverName pod ns (Some l) w2 = (Ret r, w3) ->
  exists conf rt res r0, AddNetwork conf rt (w_env w) = (Ok (Some res), w_env w1) /\
    DelNetwork conf rt (w_env w2) = (r0, w_env w3) /\ (is_ok r = true ↔ is_ok r0 = true).
Proof.
  intros Hd Hatt Hd2 Hif Hnad Hdet.
  assert (Hconf : pluginConfOf DriverName d2 = pluginConfOf DriverName d)
    by (unfold pluginConfOf; by rewrite Hnad).
  assert (Hrt : runtimeConf pod ns d2 = runtimeConf pod ns d) by (unfold runtimeConf; by rewrite Hif).
  unfold AttachNetwork, mbind, M_bind, load in Hatt. simpl in Hatt. rewrite Hd in Hatt.
  unfold DetachNetwork, wrap_err, bind_ok, mbind, M_bind, load in Hdet. simpl in Hdet.
  rewrite Hd2, Hconf, Hrt in Hdet.
  destruct (pluginConfOf DriverName d) as [conf|]; [|done].
  unfold ext, mret, M_ret in Hatt, Hdet. simpl in Hdet.
  destruct (AddNetwork conf _ (w_env w)) as [[[res|]|] e1] eqn:Hadd; [|done..].
  destruct (DelNetwork conf _ (w_env w2)) as [r0 e3] eqn:Hdel. injection Hdet as <- <-.
  exists conf, (runtimeConf pod ns d), res, r0. rewrite Hadd, Hdel. split_and!.
  - destruct (cniResultToNetworkData res (set_env e1 w)) as [[[nd'|]|] w'] eqn:Hnd; [|done..].
    injection Hatt as <- _ <-. f_equal.
    destruct (network_data_computes res) as [o Ho]. rewrite Ho in Hnd. by injection Hnd as _ <-.
  - done.
  - by destruct r0.
Qed.
End cni_properties.

Section exec_properties.
Context {E : Type} `{ExecLib E}.

(** C33: ExecPlugin ends after at most eleven attempts.  It repeats an attempt only when the
    binary was busy; the first attempt that found it free decides: its success gives
    the collected output, its failure the error made from both outputs. *)
Theorem exec_attempts_bounded hasStderr path stdin environ e r e' :
  ExecPlugin hasStderr path stdin environ e = (r, e') ->
  exists l e1, busy_runs path stdin environ e l e1 /\
    ((length l = 11 /\ r = Ok (outputs fst l)) \/
     (length l < 11 /\ exists out errout res e2, cmd_Run path stdin environ e1 = (out, errout, res, e2) /\
        match res with
        | None => r = Ok (outputs fst l +:+ out)
        | Some err => text_file_busy err = false /\
            r = Err (pluginErr err (outputs fst l +:+ out) (outputs snd l +:+ errout))
        end)).
Proof.
  unfold ExecPlugin, call_ok, mbind, Call_bind.
  destruct (execLoop 11 path stdin environ "" "" e) as [r1 e1] eqn:Hrun. intros Hr.
  assert (Hres : r = match r1 with Ok buffers => Ok buffers.1 | Err err => Err err end).
  { destruct r1 as [buffers|]; [|by injection Hr].
    destruct (_ && _); [destruct (write_Stderr _ _)|]; by injection Hr. }
  subst r. apply execLoop_run in Hrun as (l & e2 & Hl & Hres). exists l, e2. split; [done|].
  destruct Hres as [(Hlen & _ & ->)|(Hlen & o & eo & res & Hlast & Hres)]; [by left|right].
  split; [done|]. exists o, eo, res, e1. split; [done|]. destruct res as [err|].
  - by destruct Hres as [? ->].
  - by rewrite Hres.
Qed.

(** A plugin that never ran is reported as a success: when the binary stays busy for all
    the attempts, ExecPlugin returns an empty output and no error. *)
Lemma busy_plugin_reported_ok hasStderr path stdin environ e :
  (forall e, exists err e', cmd_Run path stdin environ e = ("", "", Some err, e') /\
     text_file_busy err = true) ->
  exists e', ExecPlugin hasStderr path stdin environ e = (Ok "", e').
Proof.
  intros Hbusy. destruct (execLoop_busy path stdin environ 11 "" "" e Hbusy) as [e' Hrun].
  unfold ExecPlugin, call_ok, mbind, Call_bind. rewrite Hrun. exists e'.
  rewrite bool_decide_false by (simpl; tauto). by rewrite andb_false_r.
Qed.
End exec_properties.

(** ** Concrete runs: a CNI library that keeps the list of interfaces it made, and
    binaries that are busy for a while. *)
Module CniRuns.
#[local] Existing Instance PrepareRuns.json.

Definition networks : Type := list (string * string).

Definition result_of (ifName : string) : Cni100Result :=
  mkCni100Result [Some "10.0.0.2/24"; Some "fd00::2/64"]
    [Some (mkCniInterface "host0" "02:00" ""); Some (mkCniInterface ifName "0a:58" "/run/netns/x")].

#[local] Instance cni : CniLib networks := {|
  PluginConf := string;
  CniResult := string;
  GetCNIConfigFromSpec spec _ := if decide (spec = "") then Err (ErrExternal "EINVAL" "empty") else Ok spec;
  NetworkPluginConfFromBytes raw := Ok raw;
  AddNetwork conf rt e := (Ok (Some (rt_IfName rt)), (rt_ContainerID rt, rt_IfName rt) :: e);
  DelNetwork conf rt e := (Ok tt, filter (fun x => x ≠ (rt_ContainerID rt, rt_IfName rt)) e);
  NewResultFromResult ifName := Ok (result_of ifName);
  json_Marshal_Cni100 _ := Ok "{}"
|}.

Definition device (ifName : string) : PreparedDevice :=
  mkPrepared (mkDrapb ["r"] "pool" ifName []) (mkNsObject "ns" "c" "claim-1") None
    (Some DefaultVfConfig) ifName "0000:01:00.1" "" "" ∅ None "pod-1" "{sriov}" "iavf".
Definition pod : PodSandbox :=
  mkPodSandbox "sandbox-1" "web" "ns" "pod-1" [mkNamespace "network" "/run/netns/x"].
Definition world : World networks :=
  mkWorld {[1%positive := device "net1"]} ∅
    (mkManager ∅ ∅ "vfnet" ConfigurationModeStandalone false) [].
Definition attached : World networks := (AttachNetwork DriverName pod "/run/netns/x" (Some 1%positive) world).2.
Definition data : NetworkDeviceData := mkNetworkData "net1" ["10.0.0.2/24"; "fd00::2/64"] "0a:58".

Lemma attach_run : AttachNetwork DriverName pod "/run/netns/x" (Some 1%positive) world =
  (Ret (Some data, Ok (Some ∅)), attached).
Proof. vm_compute. reflexivity. Qed.

Definition cni_result (ifName : string) : CniResult (CniLib:=cni) := ifName.

Lemma network_data_correct_witness : exists nd,
  cniResultToNetworkData (cni_result "net1") world = (Ret (Ok nd), world) /\
  nd_InterfaceName nd = "net1" /\ length (nd_IPs nd) = 2.
Proof.
  destruct (network_data_correct (cni_result "net1") ["10.0.0.2/24"; "fd00::2/64"]
    [mkCniInterface "host0" "02:00" ""; mkCniInterface "net1" "0a:58" "/run/netns/x"] world eq_refl)
    as (nd & Hrun & Hips & Hname & _).
  exists nd. split; [exact Hrun|]. split; [exact Hname|]. by rewrite Hips.
Defined.

Lemma detach_matches_attach_witness : exists conf rt res r0 w3,
  DetachNetwork DriverName pod "/run/netns/x" (Some 1%positive) attached = (Ret (Ok tt), w3) /\
  AddNetwork conf rt (w_env world) = (Ok (Some res), w_env attached) /\
  DelNetwork conf rt (w_env attached) = (r0, w_env w3) /\ w_env w3 = [].
Proof.
  set (w3 := (DetachNetwork DriverName pod "/run/netns/x" (Some 1%positive) attached).2).
  assert (Hdet : DetachNetwork DriverName pod "/run/netns/x" (Some 1%positive) attached = (Ret (Ok tt), w3))
    by (vm_compute; reflexivity).
  destruct (detach_matches_attach DriverName pod "/run/netns/x" 1%positive (device "net1") (device "net1")
    (Some data) (Some ∅) world attached attached (Ok tt) w3 eq_refl attach_run eq_refl eq_refl eq_refl Hdet)
    as (conf & rt & res & r0 & Hadd & Hdel & _).
  exists conf, rt, res, r0, w3. split; [exact Hdet|]. split; [exact Hadd|]. split; [exact Hdel|].
  vm_compute. reflexivity.
Defined.

(** The number of attempts for which the binary is still busy. *)
#[local] Instance exec : ExecLib nat := {|
  cmd_Run _ _ _ n :=
    match n with
    | 0 => ("done", "", None, 0)
    | S n => ("", "", Some (ErrExternal "ETXTBSY" "fork/exec: text file busy"), S n)
    end;
  time_Sleep_second n := (tt, pred n);
  write_Stderr _ n := (tt, n);
  error_Error e := match e with ErrExternal _ msg => msg | _ => "" end;
  json_Unmarshal_CniError _ := Err (ErrExternal "EJSON" "")
|}.

Lemma exec_attempts_bounded_witness :
  ExecPlugin true "/opt/cni/bin/sriov" "{}" [] 3 = (Ok "done", 0) /\
  exists l e1, busy_runs "/opt/cni/bin/sriov" "{}" [] 3 l e1 /\ length l ≤ 11.
Proof.
  assert (Hrun : ExecPlugin true "/opt/cni/bin/sriov" "{}" [] 3 = (Ok "done", 0))
    by (vm_compute; reflexivity).
  split; [exact Hrun|].
  destruct (exec_attempts_bounded true _ _ _ _ _ _ Hrun) as (l & e1 & Hl & Hres).
  exists l, e1. split; [exact Hl|]. destruct Hres as [[-> _]|[Hlt _]]; lia.
Defined.

(** A binary that is never free. *)
Definition stuck : ExecLib unit := {|
  cmd_Run _ _ _ e := ("", "", Some (ErrExternal "ETXTBSY" "fork/exec: text file busy"), e);
  time_Sleep_second e := (tt, e);
  write_Stderr _ e := (tt, e);
  error_Error e := match e with ErrExternal _ msg => msg | _ => "" end;
  json_Unmarshal_CniError _ := Err (ErrExternal "EJSON" "")
|}.

Lemma busy_plugin_reported_ok_witness :
  exists e', @ExecPlugin unit stuck true "/opt/cni/bin/sriov" "{}" [] tt = (Ok "", e').
Proof.
  apply (@busy_plugin_reported_ok unit stuck). intros [].
  exists (ErrExternal "ETXTBSY" "fork/exec: text file busy"), tt. split; reflexivity.
Defined.
End CniRuns.
