(* ===== verification/Publish.v ===== *)
(** * Publishing, request metadata and health (pkg/driver/driver.go, health.go)

    The driver's side of two interfaces: the republish callback of the device-state
    manager and the metadata updater of the NRI plugin; and the health service.  The
    kubelet plugin helper and the sockets are parameters. *)

From S2P Require Import Prelude GoLib Consts K8sTypes Manager Prepared Discovery.

(** [resourceslice.DriverResources]: the slices of each pool, by their devices. *)
Abbreviation DriverResources := (gmap string (list (list Device))).

Class KubeletHelper (E : Type) : Type := {
  helper_PublishResources : DriverResources -> Call E (result unit);
  helper_UpdateRequestMetadata : string -> string -> string -> string -> list KubeletDevice ->
    Call E (result unit)
}.

(** [types.MetadataUpdater]: claim namespace and name, claim UID, request, devices. *)
Class MetadataUpdater (E : Type) : Type :=
  UpdateRequestMetadata : string -> string -> string -> string -> list KubeletDevice ->
    Call E (result unit).

Section driver.
Context `{RangeOrder} {E : Type} `{KubeletHelper E} (NodeName : string).

Definition driverResources (s : Manager) : DriverResources :=
  let advertised := GetAdvertisedDevices s in
  let devices := (range advertised).*2 in
  {[NodeName := [devices]]}.

Definition PublishResources (s : Manager) : Call E (result unit) :=
  helper_PublishResources (driverResources s).

(** The driver's [UpdateRequestMetadata]; [helper] tells whether the kubelet plugin was
    started. *)
Definition driver_UpdateRequestMetadata (helper : bool) (claimNamespace claimName claimUID requestName : string)
    (devices : list KubeletDevice) : Call E (result unit) :=
  if negb helper then mret (Err (errorf "kubelet plugin helper is not initialized" []))
  else helper_UpdateRequestMetadata claimNamespace claimName claimUID requestName devices.

(** The callback set on the manager: [SetRepublishCallback(dvr.PublishResources)]. *)
Definition republishCallback : Manager -> M E (result unit) := fun s e =>
  let '(r, e) := PublishResources s e in (Ret r, e).
End driver.

(** ** The health service (pkg/driver/health.go)

    A probe asks the plugin itself, over its two sockets: the registration service for
    its information, and the DRA service to prepare no claims. *)

Class PluginSockets (E : Type) : Type := {
  reg_GetInfo : Call E (result unit);
  dra_NodePrepareResources : Call E (result unit)
}.

Inductive ServingStatus : Type := SERVING | NOT_SERVING.

(** [status.Error(codes.NotFound, ...)]. *)
Definition unknown_service : error := ErrExternal "NotFound" "unknown service".

Definition Check_ {E} `{PluginSockets E} (service : string) : Call E (result ServingStatus) :=
  if bool_decide (service ∈ [""; "liveness"]) then
    info ← reg_GetInfo;
    match info with
    | Err _ => mret (Ok NOT_SERVING)
    | Ok _ =>
        prepared ← dra_NodePrepareResources;
        match prepared with
        | Err _ => mret (Ok NOT_SERVING)
        | Ok _ => mret (Ok SERVING)
        end
    end
  else mret (Err unknown_service).

(** ** Properties *)

Section publish_properties.
Context `{RangeOrder} {E : Type} `{KubeletHelper E} (NodeName : string).

(** C25: What is published is what the policies select: an update that succeeds makes
    one publication exactly when it reports a change, of a single slice in the node's
    pool that lists each advertised device of the new state once; otherwise it leaves
    the outside alone. *)
Theorem update_publishes_advertised pd s e s' e' :
  manager_ok s ->
  UpdatePolicyDevices (Some (republishCallback NodeName)) pd (s, e) = (Ret (Ok tt), (s', e')) ->
  s' = spec_update pd s /\
  ((¬ update_changes pd s /\ e' = e) \/
   (update_changes pd s /\ exists devices,
      helper_PublishResources {[NodeName := [devices]]} e = (Ok tt, e') /\
      devices ≡ₚ (map_to_list (GetAdvertisedDevices s')).*2)).
Proof.
  intros Hok. destruct (updatePolicyState_spec pd s Hok) as (ch & Hupd & Hch).
  unfold UpdatePolicyDevices. rewrite Hupd. destruct ch; simpl.
  - unfold republishCallback, PublishResources, driverResources.
    destruct (helper_PublishResources _ e) as [[[]|] e1] eqn:Hpub; [|done]. intros [= <- <-].
    split; [done|]. right. split; [by apply Hch|]. eexists. split; [exact Hpub|].
    by rewrite (range_perm (GetAdvertisedDevices (spec_update pd s))).
  - intros [= <- <-]. split; [done|]. left. split; [|done]. by intros ?%Hch.
Qed.

(** The health service answers SERVING exactly when it is asked about a known
    service and both sockets of the plugin answer without an error. *)
Lemma health_check_correct {F} `{PluginSockets F} service (e e' : F) r :
  Check_ service e = (r, e') ->
  (r = Ok SERVING ↔ service ∈ [""; "liveness"] /\ is_ok (reg_GetInfo e).1 = true /\
     is_ok (dra_NodePrepareResources (reg_GetInfo e).2).1 = true) /\
  (r = Err unknown_service ↔ service ∉ [""; "liveness"]).
Proof.
  unfold Check_. case_bool_decide as Hs.
  - unfold mbind, Call_bind. destruct (reg_GetInfo e) as [[?|?] e1]; simpl.
    + destruct (dra_NodePrepareResources e1) as [[?|?] e2]; intros [= <- <-]; naive_solver.
    + intros [= <- <-]. naive_solver.
  - intros [= <- <-]. naive_solver.
Qed.
End publish_properties.

(** ** Concrete runs *)
Module PublishRuns.
#[local] Existing Instance listing_order.

(** The resources published last. *)
#[local] Instance helper : KubeletHelper DriverResources := {|
  helper_PublishResources r _ := (Ok tt, r);
  helper_UpdateRequestMetadata _ _ _ _ _ e := (Ok tt, e)
|}.

Definition policy : PolicyDevices := {["vf0" := {["example.com/speed" := StringAttr "25G"]}]}.
Definition fresh_manager : Manager :=
  mkManager {["vf0" := mkDevice "vf0" ∅; "vf1" := mkDevice "vf1" ∅]} ∅ "vfnet" ConfigurationModeStandalone false.
Definition updated : Manager * DriverResources :=
  (UpdatePolicyDevices (Some (republishCallback "node-1")) policy (fresh_manager, ∅)).2.

Lemma fresh_manager_ok : manager_ok fresh_manager.
Proof.
  split; simpl; [by intros d [? ?]|]. intros d dev Hd. rewrite lookup_empty.
  assert (dev_Attributes dev = ∅) as ->.
  { apply lookup_insert_Some in Hd as [[_ <-]|[_ Hd]]; [done|].
    by apply lookup_singleton_Some in Hd as [_ <-]. }
  split; [by intros ? ? ?|by intros ? ? [? ?]].
Qed.

Lemma updated_run :
  UpdatePolicyDevices (Some (republishCallback "node-1")) policy (fresh_manager, ∅)
    = (Ret (Ok tt), (updated.1, updated.2)).
Proof. vm_cast_no_check (eq_refl (Ret (Ok tt) : outcome (result unit), (updated.1, updated.2))). Qed.
Lemma updated_size : size updated.2 = 1.
Proof. vm_cast_no_check (eq_refl 1). Qed.
Strategy opaque [updated].

Lemma update_publishes_advertised_witness : size updated.2 = 1 /\
  (updated.2 = ∅ \/ exists devices, updated.2 = {["node-1" := [devices]]} /\
     devices ≡ₚ (map_to_list (GetAdvertisedDevices updated.1)).*2).
Proof.
  split; [exact updated_size|].
  destruct (update_publishes_advertised "node-1" policy fresh_manager ∅ updated.1 updated.2
    fresh_manager_ok updated_run) as (_ & [[_ Hsame]|(_ & devices & Hpub & Hperm)]).
  - left. exact Hsame.
  - right. exists devices. split; [|exact Hperm]. exact (eq_sym (f_equal snd Hpub)).
Defined.

#[local] Instance sockets : PluginSockets unit := {|
  reg_GetInfo e := (Ok tt, e);
  dra_NodePrepareResources e := (Err (ErrExternal "Unavailable" ""), e)
|}.

Lemma health_check_correct_witness : Check_ "liveness" tt ≠ (Ok SERVING, tt).
Proof.
  assert (Hrun : Check_ "liveness" tt = (Ok NOT_SERVING, tt)) by reflexivity.
  intros Hs. destruct (health_check_correct "liveness" tt tt (Ok SERVING) Hs) as ((Hserving & _) & _).
  destruct (Hserving eq_refl) as (_ & _ & Hprep). discriminate.
Defined.
End PublishRuns.
