(* ===== verification/Nri.v ===== *)
(** * The NRI plugin (pkg/nri)

    Attaches the networks of a pod's prepared devices when its sandbox starts,
    detaches them when it stops, and records the network data afterwards, in the
    background: in the claim's status, in the pod manager and its checkpoint, and
    before the sandbox starts in the metadata files of the kubelet plugin. *)

From S2P Require Import Prelude GoLib Consts K8sTypes VfConfigApi ClaimStatus Manager Prepared PodManager Prepare DriverHook Cni Publish Hoare.

(** [types.NetworkDataChanStruct] and its list, what the update channel carries. *)
Record NetworkDataChanStruct `{JsonLib} : Type := mkNetworkDataChan {
  nc_PreparedDevice : option loc;
  nc_NetworkDeviceData : option NetworkDeviceData;
  nc_CNIConfig : JsonMap;
  nc_CNIResult : JsonMap
}.

Arguments mkNetworkDataChan {_}.

Abbreviation NetworkDataChanStructList := (list (option NetworkDataChanStruct)).

(** The settings of the plugin that its handlers read. *)
Record Plugin : Type := mkPlugin {
  enableDeviceMetadata : bool;
  hasMetadataUpdater : bool
}.

(** [client.Get] of a claim by namespace and name. *)
Class ClaimReader (E : Type) : Type :=
  ClientGetClaim : string -> string -> Call E (result ResourceClaim).

(** [json.Marshal] of the map from vfConfig, cniConfig and cniResult to these values. *)
Class StatusJson `{JsonLib} : Type :=
  json_Marshal_status : option VfConfig -> JsonMap -> JsonMap -> result string.

(** ** nrihelpers.go *)

Fixpoint findNetwork (namespaces : list LinuxNamespace) : string :=
  match namespaces with
  | [] => ""
  | namespace :: namespaces =>
      if decide (ns_Type namespace = "network") then ns_Path namespace else findNetwork namespaces
  end.

Definition getNetworkNamespace (pod : PodSandbox) : string := findNetwork (pod_LinuxNamespaces pod).

(** ** Keys: claim namespace, name, UID; driver, pool, device; claim namespace, name,
    request. *)

Abbreviation networkClaimKey := (string * string * string)%type.
Abbreviation claimStatusDeviceKey := (string * string * string)%type.
Abbreviation requestMetadataKey := (string * string * string)%type.

Record requestMetadataUpdate : Type := mkMetadataUpdate {
  mu_claimUID : string;
  mu_devices : list KubeletDevice
}.

(** ** The index of a claim's status entries *)

Definition statusKey (device : AllocatedDeviceStatus) : claimStatusDeviceKey :=
  (ads_Driver device, ads_Pool device, ads_Device device).

Fixpoint indexFrom (idx : nat) (devices : list AllocatedDeviceStatus)
    (index : gmap claimStatusDeviceKey (list nat)) : gmap claimStatusDeviceKey (list nat) :=
  match devices with
  | [] => index
  | device :: devices =>
      indexFrom (S idx) devices
        (<[statusKey device := default [] (index !! statusKey device) ++ [idx]]> index)
  end.

Definition buildClaimStatusDeviceIndex (claim : ResourceClaim) : gmap claimStatusDeviceKey (list nat) :=
  indexFrom 0 (claim_Devices claim) ∅.

(** The two assignments to one status entry. *)
Definition withNetworkData (networkData : option NetworkDeviceData) (raw : result string)
    (s : AllocatedDeviceStatus) : AllocatedDeviceStatus :=
  mkDeviceStatus (ads_Driver s) (ads_Pool s) (ads_Device s) (ads_ShareID s) (ads_Conditions s)
    (match raw with Ok raw => Some raw | Err _ => ads_Data s end) networkData.

Section nri.
Context `{RangeOrder} {E : Type} `{JsonLib} `{!StatusJson} `{CniLib E} `{CheckpointManager E}
  `{ApiErrors} `{WaitLib E} `{ClaimClients E} `{ClaimReader E} `{MetadataUpdater E} (p : Plugin).

(** ** Grouping and claim status *)

(** Body of [groupNetworkDataByClaim]. *)
Definition addToGroup (item : option NetworkDataChanStruct)
    (grouped : gmap networkClaimKey NetworkDataChanStructList)
  : M (World E) (gmap networkClaimKey NetworkDataChanStructList) :=
  match item with
  | None => mret grouped
  | Some it =>
      match nc_PreparedDevice it with
      | None => mret grouped
      | Some l =>
          device ← load (Some l);
          let claim := pd_ClaimNamespacedName device in
          let key := (no_Namespace claim, no_Name claim, no_UID claim) in
          mret (<[key := default [] (grouped !! key) ++ [item]]> grouped)
      end
  end.

Definition groupNetworkDataByClaim (networkDataChanStructList : NetworkDataChanStructList)
  : M (World E) (gmap networkClaimKey NetworkDataChanStructList) :=
  for_each networkDataChanStructList addToGroup ∅.

(** The claim after the update, and whether an entry was found; the indexes come from
    [buildClaimStatusDeviceIndex] of a claim with the same list of devices. *)
Definition updateClaimDeviceStatus (claim : ResourceClaim)
    (statusDeviceIndex : gmap claimStatusDeviceKey (list nat)) (item : NetworkDataChanStruct)
    (device : PreparedDevice) : ResourceClaim * bool :=
  let key := (DriverName, drapb_PoolName (pd_Device device), drapb_DeviceName (pd_Device device)) in
  match statusDeviceIndex !! key with
  | None => (claim, false)
  | Some deviceIndexes =>
      let raw := json_Marshal_status (pd_Config device) (nc_CNIConfig item) (nc_CNIResult item) in
      (set_claim_Devices
         (foldl (fun devices idx => alter (withNetworkData (nc_NetworkDeviceData item) raw) idx devices)
            (claim_Devices claim) deviceIndexes) claim, true)
  end.

(** Body of the loop over the updates of one claim. *)
Definition applyUpdate (statusDeviceIndex : gmap claimStatusDeviceKey (list nat))
    (item : option NetworkDataChanStruct) (st : ResourceClaim * bool) : M (World E) (ResourceClaim * bool) :=
  match item with
  | None => mret st
  | Some it =>
      match nc_PreparedDevice it with
      | None => mret st
      | Some l =>
          saved ← UpdatePreparedDeviceNetworkData (Some l) (nc_NetworkDeviceData it);
          match saved with
          | Err _ => mret st
          | Ok _ =>
              device ← load (Some l);
              let '(claim, updated) := updateClaimDeviceStatus st.1 statusDeviceIndex it device in
              mret (claim, if updated : bool then true else st.2)
          end
      end
  end.

Definition updateClaimNetworkDataWithRetry (claim : ResourceClaim) : M (World E) (result unit) :=
  outside (UpdateClaimStatusWithRetry (ResourceClaims (claim_Namespace claim)) claim
             DriverName DefaultBackoff).

(** Body of the loop over the claims. *)
Definition updateClaim (claimKey : networkClaimKey) (claimUpdates : NetworkDataChanStructList)
  : M (World E) unit :=
  let '(namespace, name, uid) := claimKey in
  fetched ← ext (ClientGetClaim namespace name);
  match fetched with
  | Err _ => mret tt
  | Ok claim =>
      if decide (uid ≠ "" /\ claim_UID claim ≠ uid) then mret tt
      else
        let statusDeviceIndex := buildClaimStatusDeviceIndex claim in
        '(claim, hasClaimStatusUpdates) ← for_each claimUpdates (applyUpdate statusDeviceIndex) (claim, false);
        if negb hasClaimStatusUpdates then mret tt
        else _ ← updateClaimNetworkDataWithRetry claim; mret tt
  end.

Definition updateNetworkDeviceData (networkDataChanStructList : NetworkDataChanStructList)
  : M (World E) unit :=
  groupedByClaim ← groupNetworkDataByClaim networkDataChanStructList;
  for_each (range groupedByClaim) (fun '(claimKey, claimUpdates) _ => updateClaim claimKey claimUpdates) tt.

(** ** Request metadata *)

Definition addRequest (claim : NamespacedObject) (device : KubeletDevice)
    (updates : gmap requestMetadataKey requestMetadataUpdate) (requestName : string)
  : gmap requestMetadataKey requestMetadataUpdate :=
  let key := (no_Namespace claim, no_Name claim, requestName) in
  let update := default (mkMetadataUpdate "" []) (updates !! key) in
  let claimUID := if decide (no_UID claim ≠ "" \/ mu_claimUID update = "") then no_UID claim
                  else mu_claimUID update in
  <[key := mkMetadataUpdate claimUID (mu_devices update ++ [device])]> updates.

Definition addMetadata (item : option NetworkDataChanStruct)
    (updates : gmap requestMetadataKey requestMetadataUpdate)
  : M (World E) (gmap requestMetadataKey requestMetadataUpdate) :=
  match item with
  | None => mret updates
  | Some it =>
      match nc_PreparedDevice it with
      | None => mret updates
      | Some l =>
          preparedDevice ← load (Some l);
          let requests := drapb_RequestNames (pd_Device preparedDevice) in
          if decide (length requests = 0) then mret updates
          else
            let device := ToKubeletPluginDevice preparedDevice (nc_NetworkDeviceData it) in
            mret (foldl (addRequest (pd_ClaimNamespacedName preparedDevice) device) updates requests)
      end
  end.

Definition buildRequestMetadataUpdates (networkDataList : NetworkDataChanStructList)
  : M (World E) (gmap requestMetadataKey requestMetadataUpdate) :=
  for_each networkDataList addMetadata ∅.

Definition updateDeviceMetadata (key : requestMetadataKey) (update : requestMetadataUpdate)
  : M (World E) (result unit) :=
  if negb (enableDeviceMetadata p) || negb (hasMetadataUpdater p) then mret (Ok tt)
  else if decide (length (mu_devices update) = 0) then mret (Ok tt)
  else
    let '(claimNamespace, claimName, requestName) := key in
    wrap_err (errorw "update request metadata for %s failed: %w" [requestName])
      (ext (UpdateRequestMetadata claimNamespace claimName (mu_claimUID update) requestName
              (mu_devices update))).

Definition updateRequestMetadataBeforeSandboxStart (networkDataList : NetworkDataChanStructList)
  : M (World E) (result unit) :=
  if negb (enableDeviceMetadata p) || negb (hasMetadataUpdater p) then mret (Ok tt)
  else
    updates ← buildRequestMetadataUpdates networkDataList;
    for_each_ok (range updates) (fun '(key, update) _ => updateDeviceMetadata key update) tt.

(** ** The sandbox events *)

(** [cniConfigMap], from the device's network configuration. *)
Definition cniConfigMap (device : PreparedDevice) : JsonMap :=
  if decide (pd_NetAttachDefConfig device ≠ "") then
    match json_Unmarshal_object (pd_NetAttachDefConfig device) with
    | Ok m => m
    | Err _ => Some ∅
    end
  else Some ∅.

(** Body of the loop over the pod's devices. *)
Definition attachDevice (pod : PodSandbox) (networkNamespace : string) (device : option loc)
    (networkDevicesData : NetworkDataChanStructList) : M (World E) (result NetworkDataChanStructList) :=
  '(networkDeviceData, cniResultMap) ← AttachNetwork DriverName pod networkNamespace device;
  match cniResultMap with
  | Err err => mret (Err (errorw "failed to attach network: %w" [] err))
  | Ok cniResultMap =>
      d ← load device;
      mret (Ok (networkDevicesData ++
        [Some (mkNetworkDataChan device networkDeviceData (cniConfigMap d) cniResultMap)]))
  end.

(** What the handler sends on the update channel at its end, if it gets there; sending
    is the step of System.v that follows. *)
Definition RunPodSandbox (pod : PodSandbox) : M (World E) (result (option NetworkDataChanStructList)) :=
  found ← gets (GetDevicesByPodUID (pod_Uid pod));
  match found with
  | None => mret (Ok None)
  | Some devices =>
      let networkNamespace := getNetworkNamespace pod in
      if decide (networkNamespace = "") then mret (Ok None)
      else
        networkDevicesData ←? for_each_ok devices (attachDevice pod networkNamespace) [];
        _ ←? wrap_err (errorw "failed to update request metadata before pod start: %w" [])
               (updateRequestMetadataBeforeSandboxStart networkDevicesData);
        mret (Ok (Some networkDevicesData))
  end.

Definition detachDevice (pod : PodSandbox) (networkNamespace : string) (device : option loc) (_ : unit)
  : M (World E) (result unit) :=
  wrap_err (errorv "error CNI.DetachNetwork for pod '%s' (uid: %s) in namespace '%s': %v"
              [pod_Name pod; pod_Uid pod; pod_Namespace pod])
    (DetachNetwork DriverName pod networkNamespace device).

Definition StopPodSandbox (pod : PodSandbox) : M (World E) (result unit) :=
  found ← gets (GetDevicesByPodUID (pod_Uid pod));
  match found with
  | None => mret (Ok tt)
  | Some devices =>
      let networkNamespace := getNetworkNamespace pod in
      if decide (networkNamespace = "") then
        mret (Err (errorf "error getting network namespace for pod '%s' in namespace '%s'"
                     [pod_Name pod; pod_Namespace pod]))
      else
        for_each_ok devices (detachDevice pod networkNamespace) tt
  end.
End nri.

(** ** Facts *)

Lemma set_network_data_same d : SetNetworkDeviceData (pd_NetworkDeviceData d) d = d.
Proof. by destruct d. Qed.

Section items.
Context `{JsonLib}.
Implicit Types (item : option NetworkDataChanStruct) (items : NetworkDataChanStructList) (h : Heap).

(** The device an item points to, and the claim it was prepared for. *)
Definition item_device h item : option PreparedDevice := it ← item; l ← nc_PreparedDevice it; h !! l.

Definition item_claim h item : option networkClaimKey :=
  d ← item_device h item;
  let claim := pd_ClaimNamespacedName d in Some (no_Namespace claim, no_Name claim, no_UID claim).

(** No pointer of the items dangles; it may be nil. *)
Definition valid_items h items : Prop := forall it l, Some it ∈ items -> nc_PreparedDevice it = Some l -> is_Some (h !! l).

Lemma valid_items_mono h h' items : h ⊆ h' -> valid_items h items -> valid_items h' items.
Proof. intros Hh Hv it l Hit Hl. eapply lookup_weaken_is_Some; [by eapply Hv|done]. Qed.

Lemma valid_items_sub h items items' : (forall it, it ∈ items' -> it ∈ items) -> valid_items h items -> valid_items h items'.
Proof. intros Hs Hv it l Hit. by apply Hv, Hs. Qed.

(** A group of the reference definition: the items of one claim, if there are any. *)
Definition group_of h key items : option NetworkDataChanStructList :=
  match filter (fun item => item_claim h item = Some key) items with [] => None | l => Some l end.

Lemma group_of_snoc h key items item :
  group_of h key (items ++ [item]) =
    if decide (item_claim h item = Some key) then Some (default [] (group_of h key items) ++ [item])
    else group_of h key items.
Proof.
  unfold group_of. rewrite filter_app, filter_cons, filter_nil. case_decide.
  - by destruct (filter _ items).
  - by rewrite app_nil_r.
Qed.
End items.

Section status_index.
Context `{JsonLib} `{!StatusJson}.

Lemma indexFrom_lookup idx devices index key :
  indexFrom idx devices index !! key =
    match filter (fun '(_, s) => statusKey s = key) (imap (fun i s => (idx + i, s)) devices) with
    | [] => index !! key
    | l => Some (default [] (index !! key) ++ l.*1)
    end.
Proof.
  revert idx index. induction devices as [|s devices IH]; intros idx index; [done|].
  assert (Himap : imap ((fun i s => (idx + i, s)) ∘ S) devices = imap (fun i s => (S idx + i, s)) devices).
  { apply imap_ext. intros i x _. simpl. f_equal. lia. }
  rewrite imap_cons, Himap, filter_cons, Nat.add_0_r. simpl. rewrite IH.
  destruct (decide (statusKey s = key)) as [<-|Hne].
  - rewrite lookup_insert_eq. destruct (filter _ _) as [|x l]; simpl; [done|]. by rewrite <- app_assoc.
  - rewrite lookup_insert_ne by done. by destruct (filter _ _).
Qed.

(** Every index the built map has is in range, at an entry with the key. *)
Lemma index_in_range claim key l idx :
  buildClaimStatusDeviceIndex claim !! key = Some l -> idx ∈ l ->
  exists s, claim_Devices claim !! idx = Some s /\ statusKey s = key.
Proof.
  unfold buildClaimStatusDeviceIndex. rewrite indexFrom_lookup, lookup_empty.
  intros Hl Hidx.
  assert (Hin : idx ∈ (filter (fun '(_, s) => statusKey s = key)
                         (imap (fun i s => (0 + i, s)) (claim_Devices claim))).*1).
  { destruct (filter _ _); [done|]. by injection Hl as <-. }
  apply list_elem_of_fmap in Hin as ([i s] & -> & [Hk Hin]%list_elem_of_filter).
  apply elem_of_lookup_imap in Hin as (j & s' & [= -> ->] & Hs). by exists s'.
Qed.
End status_index.

Section update_facts.
Context `{JsonLib} `{!StatusJson}.

Lemma foldl_alter {A} (f : A -> A) idxs (l : list A) i :
  (forall x, f (f x) = f x) ->
  foldl (fun l idx => alter f idx l) l idxs !! i =
    (if decide (i ∈ idxs) then f <$> l !! i else l !! i).
Proof.
  intros Hf. revert l. induction idxs as [|idx idxs IH]; intros l; cbn [foldl].
  - case_decide as Hin; [by apply not_elem_of_nil in Hin|done].
  - rewrite IH. destruct (decide (i = idx)) as [->|Hne].
    + rewrite list_lookup_alter_eq.
      destruct (l !! idx); repeat case_decide; simpl; rewrite ?Hf; done || set_solver.
    + rewrite list_lookup_alter_ne by done. repeat case_decide; done || set_solver.
Qed.

Lemma withNetworkData_idem nd raw s :
  withNetworkData nd raw (withNetworkData nd raw s) = withNetworkData nd raw s.
Proof. by destruct raw. Qed.

Lemma statusKey_withNetworkData nd raw s : statusKey (withNetworkData nd raw s) = statusKey s.
Proof. done. Qed.

Lemma index_key claim key :
  is_Some (buildClaimStatusDeviceIndex claim !! key) ↔ key ∈ statusKey <$> claim_Devices claim.
Proof.
  unfold buildClaimStatusDeviceIndex. rewrite indexFrom_lookup, lookup_empty, list_elem_of_fmap. split.
  - destruct (filter _ _) as [|[i s] l] eqn:Hf; [by intros [? ?]|]. intros _.
    assert (Hin : (i, s) ∈ (i, s) :: l) by by left. rewrite <- Hf in Hin.
    apply list_elem_of_filter in Hin as [<- (j & s' & [= _ ->] & Hs)%elem_of_lookup_imap].
    exists s'. split; [done|by eapply list_elem_of_lookup_2].
  - intros (s & -> & [i Hi]%list_elem_of_lookup).
    destruct (filter _ _) as [|x l] eqn:Hf; [|by eexists].
    assert (Hin : (0 + i, s) ∈ filter (fun '(_, s') => statusKey s' = statusKey s)
                     (imap (fun i s => (0 + i, s)) (claim_Devices claim))).
    { apply list_elem_of_filter. split; [done|]. apply elem_of_lookup_imap. by exists i, s. }
    rewrite Hf in Hin. by apply not_elem_of_nil in Hin.
Qed.

Lemma in_index claim key l idx s :
  buildClaimStatusDeviceIndex claim !! key = Some l -> claim_Devices claim !! idx = Some s ->
  (idx ∈ l ↔ statusKey s = key).
Proof.
  intros Hl Hs. split.
  - intros Hin. destruct (index_in_range _ _ _ _ Hl Hin) as (s' & Hs' & <-). congruence.
  - intros <-. unfold buildClaimStatusDeviceIndex in Hl. rewrite indexFrom_lookup, lookup_empty in Hl.
    assert (Hin : (0 + idx, s) ∈ filter (fun '(_, s') => statusKey s' = statusKey s)
                     (imap (fun i s => (0 + i, s)) (claim_Devices claim))).
    { apply list_elem_of_filter. split; [done|]. apply elem_of_lookup_imap. by exists idx, s. }
    apply (list_elem_of_fmap_2 fst) in Hin. destruct (filter _ _); [by apply not_elem_of_nil in Hin|].
    by injection Hl as <-.
Qed.
End update_facts.

Section nri_facts.
Context `{RangeOrder} {E : Type} `{JsonLib} `{!StatusJson} `{CniLib E} `{CheckpointManager E}
  `{ApiErrors} `{WaitLib E} `{ClaimClients E} `{ClaimReader E} `{MetadataUpdater E} (p : Plugin).
Implicit Types (w : World E) (items : NetworkDataChanStructList).

Lemma addToGroup_run item grouped w :
  (forall it l, item = Some it -> nc_PreparedDevice it = Some l -> is_Some (w_heap w !! l)) ->
  addToGroup item grouped w =
    (Ret match item_claim (w_heap w) item with
         | Some key => <[key := default [] (grouped !! key) ++ [item]]> grouped
         | None => grouped
         end, w).
Proof.
  intros Hv. unfold addToGroup, item_claim, item_device. destruct item as [it|]; [|done]. simpl.
  destruct (nc_PreparedDevice it) as [l|] eqn:Hl; [|done]. simpl.
  destruct (Hv it l eq_refl Hl) as [d Hd]. unfold mbind, M_bind, load. simpl. rewrite Hd. done.
Qed.

Lemma group_run items w :
  valid_items (w_heap w) items -> exists grouped, groupNetworkDataByClaim items w = (Ret grouped, w) /\
    forall key, grouped !! key = group_of (w_heap w) key items.
Proof.
  intros Hv. unfold groupNetworkDataByClaim.
  assert (Hgen : forall rest done grouped, items = done ++ rest ->
    (forall key, grouped !! key = group_of (w_heap w) key done) ->
    exists grouped', for_each rest addToGroup grouped w = (Ret grouped', w) /\
      forall key, grouped' !! key = group_of (w_heap w) key items).
  { induction rest as [|item rest IH]; intros done grouped Hitems Hg; simpl.
    - exists grouped. split; [reflexivity|]. by rewrite Hitems, app_nil_r.
    - unfold mbind, M_bind. rewrite addToGroup_run.
      2: { intros it l -> Hl. eapply Hv; [|done]. rewrite Hitems. set_solver. }
      apply (IH (done ++ [item])); [by rewrite Hitems, <- app_assoc|].
      intros key. rewrite group_of_snoc.
      destruct (item_claim (w_heap w) item) as [key'|]; [|by rewrite decide_False].
      destruct (decide (Some key' = Some key)) as [[= ->]|Hne].
      + by rewrite lookup_insert_eq, Hg.
      + by rewrite lookup_insert_ne by congruence. }
  by apply (Hgen items [] ∅).
Qed.

Lemma group_of_sub h key items l : group_of h key items = Some l -> forall it, it ∈ l -> it ∈ items /\ item_claim h it = Some key.
Proof.
  unfold group_of. intros Hl it Hit.
  assert (Hin : it ∈ filter (fun item => item_claim h item = Some key) items).
  { destruct (filter _ _); [done|]. by injection Hl as ->. }
  by apply list_elem_of_filter in Hin as [? ?].
Qed.

Lemma group_of_in h key items l item :
  group_of h key items = Some l -> item ∈ items -> item_claim h item = Some key -> item ∈ l.
Proof.
  unfold group_of. intros Hl Hin Hkey.
  assert (Hf : item ∈ filter (fun item => item_claim h item = Some key) items) by by apply list_elem_of_filter.
  destruct (filter _ _); [by apply not_elem_of_nil in Hf|]. by injection Hl as <-.
Qed.

Lemma group_of_some h key items item :
  item ∈ items -> item_claim h item = Some key -> group_of h key items ≠ None.
Proof.
  unfold group_of. intros Hin Hkey.
  assert (Hf : item ∈ filter (fun item => item_claim h item = Some key) items) by by apply list_elem_of_filter.
  destruct (filter _ _); [by apply not_elem_of_nil in Hf|done].
Qed.
End nri_facts.

(** ** Recording network data *)

Section recorded.
Context `{JsonLib}.
Implicit Types (item : option NetworkDataChanStruct) (items : NetworkDataChanStructList) (h : Heap).

(** The heap after the network data of the items, in order. *)
Definition record_item h item : Heap :=
  match item with
  | Some it =>
      match nc_PreparedDevice it with
      | Some l => alter (SetNetworkDeviceData (nc_NetworkDeviceData it)) l h
      | None => h
      end
  | None => h
  end.
Definition recorded items h : Heap := foldl record_item h items.

(** [item] is about the device at [l]. *)
Definition about (l : loc) item : Prop := exists it, item = Some it /\ nc_PreparedDevice it = Some l.

Lemma record_item_other h item l : ¬ about l item -> record_item h item !! l = h !! l.
Proof.
  intros Hno. destruct item as [it|]; simpl; [|done].
  destruct (nc_PreparedDevice it) as [l'|] eqn:Hl; [|done].
  apply lookup_alter_ne. intros Heq. apply Hno. exists it. by subst.
Qed.

Lemma record_item_dom h item l : is_Some (record_item h item !! l) ↔ is_Some (h !! l).
Proof.
  destruct item as [it|]; simpl; [|done]. destruct (nc_PreparedDevice it) as [l'|]; [|done].
  rewrite lookup_alter. case_decide as Heq; [|done]. subst. apply fmap_is_Some.
Qed.

Lemma recorded_dom items h l : is_Some (recorded items h !! l) ↔ is_Some (h !! l).
Proof.
  unfold recorded. revert h. induction items as [|item items IH]; intros h; simpl; [done|].
  by rewrite IH, record_item_dom.
Qed.

Lemma recorded_valid items' items h : valid_items h items -> valid_items (recorded items' h) items.
Proof. intros Hv it l Hit Hl. apply recorded_dom. by eapply Hv. Qed.

(** The last item about a device decides its network data; nothing else changes. *)
Lemma recorded_other items h l : (forall item, item ∈ items -> ¬ about l item) -> recorded items h !! l = h !! l.
Proof.
  unfold recorded. revert h. induction items as [|item items IH]; intros h Hno; simpl; [done|].
  rewrite IH by set_solver. apply record_item_other. set_solver.
Qed.

Lemma recorded_only items h l d :
  h !! l = Some d -> exists nd, recorded items h !! l = Some (SetNetworkDeviceData nd d) /\
    (nd = pd_NetworkDeviceData d \/ exists it, Some it ∈ items /\ nc_PreparedDevice it = Some l /\ nd = nc_NetworkDeviceData it).
Proof.
  unfold recorded. revert h d. induction items as [|item items IH]; intros h d Hd; simpl.
  - exists (pd_NetworkDeviceData d). rewrite set_network_data_same. auto.
  - assert (Hstep : exists nd, record_item h item !! l = Some (SetNetworkDeviceData nd d) /\
      (nd = pd_NetworkDeviceData d \/ exists it, item = Some it /\ nc_PreparedDevice it = Some l /\ nd = nc_NetworkDeviceData it)).
    { destruct item as [it|]; simpl.
      2: { exists (pd_NetworkDeviceData d). rewrite set_network_data_same. auto. }
      destruct (nc_PreparedDevice it) as [l'|] eqn:Hl.
      2: { exists (pd_NetworkDeviceData d). rewrite set_network_data_same. auto. }
      destruct (decide (l' = l)) as [->|Hne].
      - exists (nc_NetworkDeviceData it). rewrite lookup_alter_eq, Hd. split; [done|]. right. by exists it.
      - exists (pd_NetworkDeviceData d). rewrite lookup_alter_ne, set_network_data_same by done. auto. }
    destruct Hstep as (nd & Hnd & Hor). destruct (IH _ _ Hnd) as (nd2 & Hnd2 & Hor2).
    exists nd2. split; [exact Hnd2|]. simpl in Hor2. destruct Hor2 as [->|(it & ? & ? & ->)].
    + destruct Hor as [->|(it & -> & ? & ->)]; [by left|right]. exists it. split_and!; [by left|done..].
    + right. exists it. split_and!; [by right|done..].
Qed.

Lemma recorded_last pre it post h l d :
  h !! l = Some d -> nc_PreparedDevice it = Some l -> (forall item, item ∈ post -> ¬ about l item) ->
  pd_NetworkDeviceData <$> recorded (pre ++ Some it :: post) h !! l = Some (nc_NetworkDeviceData it).
Proof.
  intros Hd Hl Hpost.
  assert (Happ : recorded (pre ++ Some it :: post) h = recorded post (record_item (recorded pre h) (Some it)))
    by (unfold recorded; by rewrite foldl_app).
  rewrite Happ, recorded_other by done. unfold record_item. rewrite Hl, lookup_alter_eq.
  by destruct (recorded_only pre h l d Hd) as (nd & -> & _).
Qed.

(** A device that some item is about ends with the data of such an item. *)
Lemma recorded_from items h l d :
  h !! l = Some d -> (exists it, Some it ∈ items /\ nc_PreparedDevice it = Some l) ->
  exists it, Some it ∈ items /\ nc_PreparedDevice it = Some l /\
    recorded items h !! l = Some (SetNetworkDeviceData (nc_NetworkDeviceData it) d).
Proof.
  intros Hd. induction items as [|item items IH] using rev_ind; intros (it & Hit & Hl).
  { by apply not_elem_of_nil in Hit. }
  assert (Hsnoc : recorded (items ++ [item]) h = record_item (recorded items h) item)
    by (unfold recorded; by rewrite foldl_app).
  rewrite Hsnoc. assert (Hdec : Decision (exists it', item = Some it' /\ nc_PreparedDevice it' = Some l)).
  { destruct item as [it'|]; [|right; by intros (? & ? & ?)].
    destruct (decide (nc_PreparedDevice it' = Some l)); [left; by exists it'|right; by intros (? & [= <-] & ?)]. }
  destruct Hdec as [(it' & -> & Hl')|Hno].
  - exists it'. split_and!; [set_solver|done|]. simpl. rewrite Hl', lookup_alter_eq.
    by destruct (recorded_only items h l d Hd) as (nd & -> & _).
  - rewrite record_item_other by done. apply elem_of_app in Hit as [Hit|<-%list_elem_of_singleton].
    + destruct IH as (it' & ? & ? & ?); [by exists it|]. exists it'. split_and!; [set_solver|done..].
    + destruct Hno. by exists it.
Qed.
End recorded.

Section nri_triples.
Context `{RangeOrder} {E : Type} `{JsonLib} `{!StatusJson} `{CniLib E} `{CheckpointManager E}
  `{ApiErrors} `{WaitLib E} `{ClaimClients E} `{ClaimReader E} `{MetadataUpdater E}.
Context (q : Prop) (t : PreparedClaimsByPodUID) (m : Manager).
Implicit Types (w : World E) (items : NetworkDataChanStructList) (h : Heap).

(** Writing a claim's status returns, possibly with an error. *)
Definition status_updates_return : Prop := forall namespace claim e, exists r e',
  UpdateClaimStatusWithRetry (E:=E) (ResourceClaims namespace) claim DriverName
    DefaultBackoff e = (Ret r, e').

Lemma triple_sync h : triple q (at_core (E:=E) h t m) syncToCheckpoint (fun _ => at_core h t m).
Proof. intros w Hw. destruct (sync_result w) as (r & e & -> & _). exact Hw. Qed.

Lemma triple_update_network l nd h :
  q \/ is_Some (h !! l) ->
  triple q (at_core (E:=E) h t m) (UpdatePreparedDeviceNetworkData (Some l) nd)
    (fun _ => at_core (alter (SetNetworkDeviceData nd) l h) t m).
Proof.
  intros Hl. unfold UpdatePreparedDeviceNetworkData. eapply triple_bind.
  - apply (triple_load q (Some l) h t m (fun d w => h !! l = Some d /\ at_core h t m w)).
    + destruct Hl as [?|?]; [by left|right]. by exists l.
    + by intros l' d w [= ->].
  - intros d. apply triple_pure. intros Hd.
    apply (triple_bind q _ _ _ (fun _ => at_core (alter (SetNetworkDeviceData nd) l h) t m)).
    + apply triple_modify. intros w (Hh & ? & ?). split_and!; [|done..]. simpl. rewrite Hh.
      apply map_eq. intros l'. destruct (decide (l = l')) as [<-|].
      * by rewrite lookup_insert_eq, lookup_alter_eq, Hd.
      * by rewrite lookup_insert_ne, lookup_alter_ne.
    + intros _. apply triple_sync.
Qed.

Lemma triple_applyUpdate index item st h :
  q \/ valid_items h [item] ->
  triple q (at_core (E:=E) h t m) (applyUpdate index item st) (fun _ => at_core (record_item h item) t m).
Proof.
  intros Hv. unfold applyUpdate. destruct item as [it|]; [|by apply triple_ret]. simpl.
  destruct (nc_PreparedDevice it) as [l|] eqn:Hl; [|by apply triple_ret].
  assert (Hsome : q \/ is_Some (h !! l)).
  { destruct Hv as [?|Hv]; [by left|right]. eapply Hv; [by left|done]. }
  eapply triple_bind; [by apply triple_update_network|]. intros [[]|err]; [|by apply triple_ret].
  eapply triple_bind.
  - apply (triple_load q (Some l) _ t m (fun _ => at_core (alter (SetNetworkDeviceData (nc_NetworkDeviceData it)) l h) t m));
      [|done].
    destruct Hsome as [?|[d Hd]]; [by left|right]. exists l. split; [done|].
    rewrite lookup_alter_eq, Hd. by eexists.
  - intros d. destruct (updateClaimDeviceStatus _ _ _ _). by apply triple_ret.
Qed.

(** What becomes of one claim's updates: skipped as a whole, or recorded. *)
Definition claim_update_post (key : networkClaimKey) items h (w0 w : World E) : Prop :=
  w_claims w = w_claims w0 /\ w_manager w = w_manager w0 /\
  match (ClientGetClaim key.1.1 key.1.2 (w_env w0)).1 with
  | Ok claim => if decide (key.2 ≠ "" /\ claim_UID claim ≠ key.2)
                then w = set_env (ClientGetClaim key.1.1 key.1.2 (w_env w0)).2 w0
                else w_heap w = recorded items h
  | Err _ => w = set_env (ClientGetClaim key.1.1 key.1.2 (w_env w0)).2 w0
  end.

Lemma triple_apply_updates index items st h :
  q \/ valid_items h items ->
  triple q (at_core (E:=E) h t m) (for_each items (applyUpdate index) st)
    (fun _ => at_core (recorded items h) t m).
Proof.
  intros Hv.
  apply (triple_for_each q items (applyUpdate index) (fun done _ => at_core (recorded done h) t m)).
  intros done item rest st' Hitems. unfold recorded. rewrite foldl_app. simpl.
  apply triple_applyUpdate. destruct Hv as [?|Hv]; [by left|right].
  apply recorded_valid. eapply valid_items_sub; [|exact Hv].
  intros it Hit%list_elem_of_singleton. subst. set_solver.
Qed.

Lemma triple_write_status namespace claim h :
  q \/ status_updates_return ->
  triple q (at_core (E:=E) h t m)
    (outside (UpdateClaimStatusWithRetry (ResourceClaims namespace) claim DriverName DefaultBackoff))
    (fun _ => at_core h t m).
Proof.
  intros Hret w Hw. unfold outside.
  destruct (UpdateClaimStatusWithRetry _ _ _ _ (w_env w)) as [[r|why] e'] eqn:Hu; [exact Hw|].
  destruct Hret as [?|Hret]; [done|]. destruct (Hret namespace claim (w_env w)) as (r & e1 & Hr). congruence.
Qed.

Lemma triple_update_status claim h :
  q \/ status_updates_return ->
  triple q (at_core (E:=E) h t m) (updateClaimNetworkDataWithRetry claim) (fun _ => at_core h t m).
Proof. apply triple_write_status. Qed.

(** The part of [updateClaim] that follows the check of the UID. *)
Lemma triple_record_claim claim items h :
  q \/ valid_items h items -> q \/ status_updates_return ->
  triple q (at_core (E:=E) h t m)
    ('(claim, hasClaimStatusUpdates) ←
       for_each items (applyUpdate (buildClaimStatusDeviceIndex claim)) (claim, false);
     if negb hasClaimStatusUpdates then mret tt
     else _ ← updateClaimNetworkDataWithRetry claim; mret tt)
    (fun _ => at_core (recorded items h) t m).
Proof.
  intros Hv Hret. eapply triple_bind; [by apply triple_apply_updates|]. intros [claim' []]; simpl.
  - apply triple_keep; [by apply triple_update_status|]. intros r. by apply triple_ret.
  - by apply triple_ret.
Qed.

(** The API server still has the claim of a group. *)
Definition claim_answered (key : networkClaimKey) : Prop := forall e, exists claim,
  (ClientGetClaim key.1.1 key.1.2 e).1 = Ok claim /\ claim_UID claim = key.2.

Lemma triple_updateClaim key items h :
  q \/ valid_items h items -> q \/ status_updates_return ->
  triple q (at_core (E:=E) h t m) (updateClaim key items)
    (fun _ w => exists items', (items' = [] /\ ¬ claim_answered key \/ items' = items) /\
       at_core (recorded items' h) t m w).
Proof.
  intros Hv Hret. unfold updateClaim. destruct key as [[namespace name] uid]. eapply triple_bind.
  { apply (triple_ext q _ (at_core h t m) (fun r w =>
      (exists e e', ClientGetClaim namespace name e = (r, e')) /\ at_core h t m w)).
    intros w e r e' Hw _ Hget. split; [by exists e, e'|exact Hw]. }
  intros r. apply triple_pure. intros (e & e' & Hget).
  assert (Hlost : ¬ (exists claim, r = Ok claim /\ claim_UID claim = uid) ->
    ¬ claim_answered (namespace, name, uid)).
  { intros Hno Hans. apply Hno. destruct (Hans e) as (claim & Hr & Huid). exists claim.
    simpl in Hr. by rewrite Hget in Hr. }
  destruct r as [claim|err]; [destruct (decide _) as [[_ Hne]|]|].
  - apply triple_ret. intros w Hw. exists []. split; [left; split; [done|]|done].
    apply Hlost. by intros (? & [= <-] & ?).
  - eapply triple_weaken; [by apply triple_record_claim|done|]. intros ? w Hw. exists items. auto.
  - apply triple_ret. intros w Hw. exists []. split; [left; split; [done|]|done].
    apply Hlost. by intros (? & ? & ?).
Qed.

(** [items'] come from the groups, with the whole group of every claim still there. *)
Definition from_groups (groups : list (networkClaimKey * NetworkDataChanStructList)) items' : Prop :=
  (forall item, item ∈ items' -> exists key updates, (key, updates) ∈ groups /\ item ∈ updates) /\
  (forall key updates item, (key, updates) ∈ groups -> claim_answered key -> item ∈ updates -> item ∈ items').

Lemma from_groups_snoc groups key updates items1 items2 :
  from_groups groups items1 -> (items2 = [] /\ ¬ claim_answered key \/ items2 = updates) ->
  from_groups (groups ++ [(key, updates)]) (items1 ++ items2).
Proof.
  intros [Hin Hall] Hor. split.
  - intros item [Hi|Hi]%elem_of_app.
    + destruct (Hin item Hi) as (k & u & ? & ?). exists k, u. by rewrite elem_of_app; auto.
    + destruct Hor as [[-> _]| ->]; [by apply not_elem_of_nil in Hi|].
      exists key, updates. by rewrite elem_of_app, list_elem_of_singleton; auto.
  - intros k u item [Hg|[= -> ->]%list_elem_of_singleton]%elem_of_app Hans Hi; apply elem_of_app.
    + left. by eapply Hall.
    + right. by destruct Hor as [[_ ?]| ->].
Qed.

Lemma triple_record_groups groups h :
  (forall key updates, (key, updates) ∈ groups -> valid_items h updates) -> q \/ status_updates_return ->
  triple q (at_core (E:=E) h t m) (for_each groups (fun '(key, updates) _ => updateClaim key updates) tt)
    (fun _ w => exists items', from_groups groups items' /\ at_core (recorded items' h) t m w).
Proof.
  intros Hv Hret.
  eapply triple_weaken; [apply (triple_for_each q groups (fun '(key, updates) _ => updateClaim key updates)
    (fun done _ w => exists items', from_groups done items' /\ at_core (recorded items' h) t m w))| |done].
  - intros done [key updates] rest [] Hgroups. apply triple_ex. intros items1.
    apply triple_pure. intros Hfrom.
    eapply triple_weaken; [apply (triple_updateClaim key updates (recorded items1 h))|done|].
    + right. apply recorded_valid, (Hv key). rewrite Hgroups, elem_of_app. right. by left.
    + done.
    + intros [] w (items2 & Hor & Hw). exists (items1 ++ items2). split; [by apply from_groups_snoc|].
      unfold recorded in *. by rewrite foldl_app.
  - intros w Hw. exists []. split; [|done].
    split; [by intros ? ?%not_elem_of_nil|by intros ? ? ? ?%not_elem_of_nil].
Qed.

(** [items'] are the items that were recorded: at least those whose claim is still there. *)
Definition recorded_items h items items' : Prop :=
  (forall item, item ∈ items' -> item ∈ items) /\
  (forall item key, item ∈ items -> item_claim h item = Some key -> claim_answered key -> item ∈ items').

Lemma triple_updateNetworkDeviceData items h :
  valid_items h items -> q \/ status_updates_return ->
  triple q (at_core (E:=E) h t m) (updateNetworkDeviceData items)
    (fun _ w => exists items', recorded_items h items items' /\ at_core (recorded items' h) t m w).
Proof.
  intros Hv Hret w0 Hw0. destruct (group_run items w0) as (grouped & Hgroup & Hgrouped).
  { by destruct Hw0 as (-> & _). }
  assert (Hheap : w_heap w0 = h) by apply Hw0. rewrite Hheap in Hgrouped.
  unfold updateNetworkDeviceData, mbind, M_bind. rewrite Hgroup. revert w0 Hw0 Hgroup Hheap.
  intros w0 Hw0 _ _.
  assert (Hsub : forall key updates, (key, updates) ∈ range grouped ->
    group_of h key items = Some updates) by (intros key updates Hin%elem_of_range; congruence).
  eapply (triple_weaken q); [apply (triple_record_groups (range grouped) h)|done| |exact Hw0].
  - intros key updates Hin%Hsub. eapply valid_items_sub; [|done]. intros it Hit. by eapply group_of_sub.
  - done.
  - intros [] w (items' & [Hin Hall] & Hw). exists items'. split; [split|done].
    + intros item (key & updates & Hg%Hsub & Hit)%Hin. by eapply group_of_sub.
    + intros item key Hitem Hkey Hans. destruct (grouped !! key) as [updates|] eqn:Hg.
      * eapply Hall; [by apply elem_of_range|done|]. rewrite Hgrouped in Hg. by eapply group_of_in.
      * rewrite Hgrouped in Hg. by destruct (group_of_some h key items item).
Qed.

(** ** Sandbox events *)

(** The conversion of a CNI result has no nil address or interface. *)
Definition no_null_entries (res : CniResult) : Prop := forall r, NewResultFromResult res = Ok r ->
  Forall is_Some (cni_IPs r) /\ Forall is_Some (cni_Interfaces r).

(** No CNI plugin answers an addition with a null address or interface. *)
Definition no_null_cni : Prop := forall conf rt e res e',
  AddNetwork conf rt e = (Ok (Some res), e') -> no_null_entries res.

(** [nd] is the network data of the addition of the network of [d] to the pod. *)
Definition attached (pod : PodSandbox) (ns : string) (d : PreparedDevice) (nd : NetworkDeviceData) : Prop :=
  exists conf res e1 e2, pluginConfOf DriverName d = Ok conf /\
    AddNetwork conf (runtimeConf pod ns d) e1 = (Ok (Some res), e2) /\
    forall w : World E, cniResultToNetworkData res w = (Ret (Ok nd), w).

Lemma triple_cni_result res h :
  q \/ no_null_entries res ->
  triple q (at_core h t m) (cniResultToNetworkData res)
    (fun r w => at_core h t m w /\ forall nd, r = Ok nd -> forall w' : World E,
       cniResultToNetworkData res w' = (Ret (Ok nd), w')).
Proof.
  intros Hnull w Hw. destruct (network_data_computes (E:=E) res) as [o Ho]. rewrite Ho.
  destruct o as [r|why]; [split; [done|]; intros nd -> w'; apply Ho|].
  destruct Hnull as [?|Hnull]; [done|]. destruct (NewResultFromResult res) as [r|err] eqn:Hres.
  - destruct (Hnull r Hres) as [Hips Hifs].
    destruct (network_data_no_null res r w Hres Hips Hifs) as [nd Hrun]. rewrite Ho in Hrun. done.
  - specialize (Ho w). unfold cniResultToNetworkData, bind_ok in Ho. rewrite Hres in Ho. done.
Qed.

Definition live_ptr h (x : option loc) : Prop := exists l, x = Some l /\ is_Some (h !! l).

Lemma triple_AttachNetwork pod ns x h :
  q \/ live_ptr h x -> q \/ no_null_cni ->
  triple q (at_core h t m) (AttachNetwork DriverName pod ns x)
    (fun r w => at_core (E:=E) h t m w /\
       match r with
       | (nd, Ok _) => exists l d nd', x = Some l /\ h !! l = Some d /\ nd = Some nd' /\ attached pod ns d nd'
       | (_, Err _) => True
       end).
Proof.
  intros Hx Hnull. unfold AttachNetwork. eapply triple_bind.
  { apply (triple_load q x h t m (fun d w => (exists l, x = Some l /\ h !! l = Some d) /\ at_core h t m w));
      [done|]. intros l d w -> Hl Hw. split; [by exists l|done]. }
  intros d. apply triple_pure. intros (l & -> & Hl).
  destruct (pluginConfOf DriverName d) as [conf|] eqn:Hconf; [|by apply triple_ret].
  eapply triple_bind.
  { apply (triple_ext q _ (at_core h t m) (fun r w => (exists e1 e2, AddNetwork conf (runtimeConf pod ns d) e1 = (r, e2)) /\ at_core h t m w)).
    intros w e r e' Hw _ Hadd. split; [by exists e, e'|exact Hw]. }
  intros added. apply triple_pure. intros (e1 & e2 & Hadd).
  destruct added as [[res|]|err]; [|by apply triple_ret..].
  eapply triple_bind; [apply (triple_cni_result res h)|].
  { destruct Hnull as [?|Hnull]; [by left|right]. by eapply Hnull. }
  intros [nd|err].
  - apply triple_ret. intros w [Hw Hnd]. split; [done|]. destruct (resultMapOf res); [|done].
    exists l, d, nd. split_and!; [done..|]. exists conf, res, e1, e2. split_and!; [done..|]. by apply Hnd.
  - apply triple_ret. by intros w [Hw _].
Qed.
End nri_triples.

(** Every pointer of the pod manager's table points to a device. *)
Definition live_table (h : Heap) (t : PreparedClaimsByPodUID) : Prop :=
  forall pod cs claim ds x, t !! pod = Some cs -> cs !! claim = Some ds -> x ∈ ds -> live_ptr h x.

Section sandbox_triples.
Context `{RangeOrder} {E : Type} `{JsonLib} `{!StatusJson} `{CniLib E} `{CheckpointManager E}
  `{ApiErrors} `{WaitLib E} `{ClaimClients E} `{ClaimReader E} `{MetadataUpdater E} (p : Plugin).
Context (q : Prop) (h : Heap) (t : PreparedClaimsByPodUID) (m : Manager).
Implicit Types (w : World E) (items : NetworkDataChanStructList).

Lemma live_devices_of_pod pod w devices :
  live_table h t -> w_claims w = t -> GetDevicesByPodUID pod w = Some devices ->
  forall x, x ∈ devices -> live_ptr h x.
Proof.
  intros Hlive <-. unfold GetDevicesByPodUID. destruct (w_claims w !! pod) as [cs|] eqn:Hp; [|done].
  intros [= <-] x (claim & ds & Hc & Hx)%elem_of_all_devices. by eapply Hlive.
Qed.

(** The item of the list that the device [x] of the pod gives. *)
Definition attached_item (pod : PodSandbox) (ns : string) (x : option loc)
    (item : option NetworkDataChanStruct) : Prop :=
  exists l d nd cniConfig cniResult, x = Some l /\ h !! l = Some d /\
    item = Some (mkNetworkDataChan (Some l) (Some nd) cniConfig cniResult) /\
    attached (E:=E) pod ns d nd.

Lemma attached_items_valid pod ns devices items :
  Forall2 (attached_item pod ns) devices items -> valid_items h items.
Proof.
  intros Hall it l Hit Hl. apply list_elem_of_lookup in Hit as [i Hi].
  destruct (Forall2_lookup_r _ _ _ _ _ Hall Hi) as (x & _ & l' & d & nd & cfg & res & _ & Hd & [= ->] & _).
  injection Hl as <-. by eexists.
Qed.

(** The claim a device was prepared for, as the key of its group. *)
Definition claimKeyOf (d : PreparedDevice) : networkClaimKey :=
  (no_Namespace (pd_ClaimNamespacedName d), no_Name (pd_ClaimNamespacedName d), no_UID (pd_ClaimNamespacedName d)).

(** Recording the items of a pod whose claims are still there fills all of its devices. *)
Lemma attached_items_recorded pod ns devices items items' :
  Forall2 (attached_item pod ns) devices items -> recorded_items (E:=E) h items items' ->
  (forall l d, Some l ∈ devices -> h !! l = Some d -> claim_answered (E:=E) (claimKeyOf d)) ->
  (forall x, x ∈ devices -> exists l d nd, x = Some l /\ h !! l = Some d /\
     attached (E:=E) pod ns d nd /\ recorded items' h !! l = Some (SetNetworkDeviceData (Some nd) d)) /\
  (forall l, Some l ∉ devices -> recorded items' h !! l = h !! l).
Proof.
  intros Hall [Hsub Hin] Hans.
  assert (Hback : forall it l, Some it ∈ items' -> nc_PreparedDevice it = Some l ->
    Some l ∈ devices /\ exists d nd, h !! l = Some d /\ nc_NetworkDeviceData it = Some nd /\ attached (E:=E) pod ns d nd).
  { intros it l Hit%Hsub Hl. apply list_elem_of_lookup in Hit as [i Hi].
    destruct (Forall2_lookup_r _ _ _ _ _ Hall Hi) as (x & Hx & l' & d & nd & ? & ? & -> & Hd & [= ->] & Hatt).
    injection Hl as ->. split; [by eapply list_elem_of_lookup_2|by exists d, nd]. }
  split.
  - intros x [i Hi]%list_elem_of_lookup.
    destruct (Forall2_lookup_l _ _ _ _ _ Hall Hi) as (item & Hitem & l & d & nd & ? & ? & -> & Hd & -> & _).
    apply list_elem_of_lookup_2 in Hi, Hitem.
    destruct (recorded_from items' h l d Hd) as (it & Hit & Hl & Hrec).
    { eexists (mkNetworkDataChan (Some l) _ _ _). split; [|reflexivity]. eapply (Hin _ (claimKeyOf d)); [exact Hitem| |by eapply Hans].
      unfold item_claim, item_device. simpl. by rewrite Hd. }
    destruct (Hback it l Hit Hl) as (_ & d' & nd' & Hd' & Hnd & Hatt).
    assert (d' = d) as -> by congruence.
    exists l, d, nd'. rewrite Hrec, Hnd. by split_and!.
  - intros l Hno. apply recorded_other. intros item Hitem (it & -> & Hl). destruct (Hback it l Hitem Hl). done.
Qed.

Lemma triple_attachDevice pod ns x items :
  q \/ live_ptr h x -> q \/ no_null_cni ->
  triple q (at_core h t m) (attachDevice pod ns x items) (fun r w => at_core h t m w /\
    match r with Ok items' => exists item, items' = items ++ [item] /\ attached_item pod ns x item | Err _ => True end).
Proof.
  intros Hx Hnull. unfold attachDevice. eapply triple_bind; [by apply (triple_AttachNetwork q t m pod ns x h)|].
  intros [nd [res|err]]; [|by apply triple_ret; intros w [Hw _]].
  intros w [Hw (l & d & nd' & -> & Hl & -> & Hatt)]. revert w Hw.
  apply (triple_bind q _ _ _ (fun _ => at_core h t m)).
  - apply (triple_load q (Some l) h t m (fun _ => at_core h t m)); [|done].
    right. exists l. split; [done|by eexists].
  - intros d'. apply triple_ret. intros w Hw. split; [done|]. eexists. split; [done|].
    exists l, d, nd', (cniConfigMap d'), res. by split_and!.
Qed.

Lemma triple_attach_all pod ns devices :
  q \/ (forall x, x ∈ devices -> live_ptr h x) -> q \/ no_null_cni ->
  triple q (at_core h t m) (for_each_ok devices (attachDevice pod ns) [])
    (fun r w => at_core h t m w /\
       match r with Ok items => Forall2 (attached_item pod ns) devices items | Err _ => True end).
Proof.
  intros Hlive Hnull.
  eapply (triple_weaken q _ _ (fun w => Forall2 (attached_item pod ns) [] [] /\ at_core h t m w)); [|done|].
  - apply (triple_for_each_ok q devices (attachDevice pod ns)
      (fun done items w => Forall2 (attached_item pod ns) done items /\ at_core h t m w)
      (fun r w => match r with Ok items => Forall2 (attached_item pod ns) devices items | Err _ => True end /\ at_core h t m w)); [|done].
    intros done x rest items Hdev. apply triple_pure. intros Hdone. eapply triple_weaken; [|done|].
    + apply (triple_attachDevice pod ns x items); [|done].
      destruct Hlive as [?|Hlive]; [by left|right]. apply Hlive. subst. set_solver.
    + intros [items'|err] w [Hw Hr]; [|done]. destruct Hr as (item & -> & Hitem). split; [|done].
      by apply Forall2_app; [|constructor].
  - by intros r w [? ?].
Qed.

Lemma triple_addMetadata item updates :
  valid_items h [item] -> triple q (at_core (E:=E) h t m) (addMetadata item updates) (fun _ => at_core h t m).
Proof.
  intros Hv. unfold addMetadata. destruct item as [it|]; [|by apply triple_ret].
  destruct (nc_PreparedDevice it) as [l|] eqn:Hl; [|by apply triple_ret]. apply triple_keep.
  - apply (triple_load q (Some l) h t m (fun _ => at_core h t m)); [|done]. right. exists l.
    split; [done|]. eapply Hv; [by left|done].
  - intros d. case_decide; by apply triple_ret.
Qed.

Lemma triple_updateDeviceMetadata key update :
  triple q (at_core h t m) (updateDeviceMetadata p key update) (fun _ => at_core h t m).
Proof.
  unfold updateDeviceMetadata. destruct (_ || _); [by apply triple_ret|]. case_decide; [by apply triple_ret|].
  destruct key as [[ns name] request]. apply triple_wrap_err.
  eapply triple_weaken; [apply triple_ext_core|done|]. by intros [[]|] w.
Qed.

Lemma triple_metadata items :
  valid_items h items ->
  triple q (at_core h t m) (updateRequestMetadataBeforeSandboxStart p items) (fun _ => at_core h t m).
Proof.
  intros Hv. unfold updateRequestMetadataBeforeSandboxStart. destruct (_ || _); [by apply triple_ret|].
  apply triple_keep.
  - apply (triple_for_each q items _ (fun _ _ => at_core h t m)). intros done item rest updates Hitems.
    apply triple_addMetadata. eapply valid_items_sub; [|exact Hv]. intros it ->%list_elem_of_singleton. subst. set_solver.
  - intros updates. apply (triple_for_each_ok q _ _ (fun _ _ => at_core h t m)); [|done].
    intros done [key update] rest [] _. eapply triple_weaken; [apply triple_updateDeviceMetadata|done|by intros [[]|] w].
Qed.

(** Looking the pod's devices up. *)
Lemma triple_devices pod :
  q \/ live_table h t ->
  triple q (at_core h t m) (gets (GetDevicesByPodUID pod)) (fun found w =>
    ((forall w' : World E, w_claims w' = t -> GetDevicesByPodUID pod w' = found) /\
     (forall devices, found = Some devices -> q \/ forall x, x ∈ devices -> live_ptr h x)) /\
    at_core (E:=E) h t m w).
Proof.
  intros Hlive. apply triple_gets. intros w Hw. split; [|done]. destruct Hw as (_ & Ht & _). split.
  - intros w' Hw'. unfold GetDevicesByPodUID. by rewrite Hw', Ht.
  - intros devices Hdev. destruct Hlive as [?|Hlive]; [by left|right].
    by eapply live_devices_of_pod.
Qed.

Lemma triple_RunPodSandbox pod :
  q \/ live_table h t -> q \/ no_null_cni ->
  triple q (at_core h t m) (RunPodSandbox p pod)
    (fun r w => at_core h t m w /\
       match r with
       | Ok (Some items) => exists devices, GetDevicesByPodUID (pod_Uid pod) w = Some devices /\
           getNetworkNamespace pod ≠ "" /\ Forall2 (attached_item pod (getNetworkNamespace pod)) devices items
       | _ => True
       end).
Proof.
  intros Hlive Hnull. unfold RunPodSandbox.
  eapply triple_bind; [by apply (triple_devices (pod_Uid pod))|].
  intros found. apply triple_pure. intros [Hfound Hdev]. destruct found as [devices|]; [|by apply triple_ret].
  destruct (decide _) as [Hns|Hns]; [by apply triple_ret|].
  apply (triple_bind_ok q _ _ _ (fun items w =>
    Forall2 (attached_item pod (getNetworkNamespace pod)) devices items /\ at_core h t m w)).
  { eapply triple_weaken; [by apply (triple_attach_all pod (getNetworkNamespace pod) devices); [apply Hdev|]|done|].
    intros [items|err] w [? ?]; done. }
  intros items. apply triple_pure. intros Hitems.
  apply (triple_bind_ok q _ _ _ (fun _ => at_core h t m)).
  { apply triple_wrap_err. eapply triple_weaken; [by apply triple_metadata; eapply attached_items_valid|done|].
    by intros [[]|] w. }
  intros []. apply triple_ret. intros w Hw. split; [done|]. exists devices. split_and!; [|done..].
  apply Hfound. apply Hw.
Qed.

Lemma triple_detachDevice pod ns x u :
  q \/ live_ptr h x ->
  triple q (at_core h t m) (detachDevice pod ns x u) (fun _ => at_core (E:=E) h t m).
Proof.
  intros Hx. apply triple_wrap_err. unfold DetachNetwork. apply triple_keep.
  - by apply (triple_load q x h t m (fun _ => at_core h t m)).
  - intros d. apply (triple_bind_ok q _ _ _ (fun _ => at_core h t m)).
    + apply triple_ret. intros w Hw. by destruct (pluginConfOf DriverName d).
    + intros conf. apply triple_wrap_err. eapply triple_weaken; [apply triple_ext_core|done|].
      by intros [[]|] w.
Qed.

Lemma triple_StopPodSandbox pod :
  q \/ live_table h t ->
  triple q (at_core h t m) (StopPodSandbox pod) (fun _ => at_core (E:=E) h t m).
Proof.
  intros Hlive. unfold StopPodSandbox.
  eapply triple_bind; [by apply (triple_devices (pod_Uid pod))|].
  intros found. apply triple_pure. intros [_ Hdev]. destruct found as [devices|]; [|by apply triple_ret].
  destruct (decide _); [by apply triple_ret|].
  apply (triple_for_each_ok q devices _ (fun _ _ => at_core h t m)); [|done].
  intros done x rest [] Hdevices. eapply triple_weaken; [apply triple_detachDevice|done|by intros [[]|] w].
  destruct (Hdev devices eq_refl) as [?|Hx]; [by left|right]. apply Hx. subst. set_solver.
Qed.
End sandbox_triples.

(** ** Properties *)

Section nri_properties.
Context `{RangeOrder} {E : Type} `{JsonLib} `{!StatusJson} `{CniLib E} `{CheckpointManager E}
  `{ApiErrors} `{WaitLib E} `{ClaimClients E} `{ClaimReader E} `{MetadataUpdater E} (p : Plugin).
Implicit Types (w : World E) (items : NetworkDataChanStructList).

(** C15: When the sandbox hook sends network data, it covers the pod exactly: one item
    per prepared device, in order, each holding the data of a successful CNI addition
    for that device in the pod's network namespace; the hook itself changes nothing in
    the plugin. *)
Theorem run_pod_sandbox_attaches pod w items w' :
  RunPodSandbox p pod w = (Ret (Ok (Some items)), w') ->
  w_heap w' = w_heap w /\ w_claims w' = w_claims w /\ w_manager w' = w_manager w /\
  exists devices, GetDevicesByPodUID (pod_Uid pod) w = Some devices /\
    getNetworkNamespace pod ≠ "" /\
    Forall2 (attached_item (E:=E) (w_heap w) pod (getNetworkNamespace pod)) devices items.
Proof.
  intros Hrun.
  destruct (triple_run True _ _ _ w _ _ (triple_RunPodSandbox p True (w_heap w) (w_claims w)
    (w_manager w) pod (or_introl I) (or_introl I)) ltac:(by split_and!) Hrun)
    as ((Hh & Ht & Hm) & devices & Hdev & Hns & Hall).
  split_and!; [done..|]. exists devices. split_and!; [|done..].
  rewrite <- Hdev. unfold GetDevicesByPodUID. by rewrite Ht.
Qed.

(** A pod without a network namespace, as one on the host's network, starts but
    never stops cleanly: the start hook skips it with success and the stop hook reports
    an error every time, both without doing anything. *)
Lemma host_network_pod_cannot_stop pod devices w :
  GetDevicesByPodUID (pod_Uid pod) w = Some devices ->
  (forall ns, ns ∈ pod_LinuxNamespaces pod -> ns_Type ns ≠ "network") ->
  RunPodSandbox p pod w = (Ret (Ok None), w) /\
  exists err, StopPodSandbox pod w = (Ret (Err err), w).
Proof.
  intros Hdev Hns.
  assert (Hnone : getNetworkNamespace pod = "").
  { unfold getNetworkNamespace. induction (pod_LinuxNamespaces pod) as [|ns l IH]; [done|]. simpl.
    rewrite decide_False by (apply Hns; by left). apply IH. intros ns' ?. apply Hns. by right. }
  unfold RunPodSandbox, StopPodSandbox, mbind, M_bind, gets. rewrite Hdev, Hnone.
  split; [done|]. by eexists.
Qed.

(** Grouping agrees with its reference definition: the group of a claim is the list
    of the items whose device was prepared for it, in order, and there is no group for
    any other claim; items without a device are in none. *)
Lemma groups_by_claim items w :
  valid_items (w_heap w) items ->
  exists grouped, groupNetworkDataByClaim items w = (Ret grouped, w) /\
    forall key, grouped !! key =
      match filter (fun item => item_claim (w_heap w) item = Some key) items with
      | [] => None
      | l => Some l
      end.
Proof. apply group_run. Qed.

(** C29: The status update touches exactly the entries of its device: in a claim whose
    entries have the keys they had when the index was built, every entry of this driver
    with the pool and the name of the device gets the network data, all other entries
    stay, and the update is reported exactly when there is such an entry. *)
Theorem status_entries_updated indexed claim item device claim' updated :
  statusKey <$> claim_Devices claim = statusKey <$> claim_Devices indexed ->
  updateClaimDeviceStatus claim (buildClaimStatusDeviceIndex indexed) item device = (claim', updated) ->
  let key := (DriverName, drapb_PoolName (pd_Device device), drapb_DeviceName (pd_Device device)) in
  let raw := json_Marshal_status (pd_Config device) (nc_CNIConfig item) (nc_CNIResult item) in
  claim_Devices claim' = (fun s =>
    if decide (statusKey s = key) then withNetworkData (nc_NetworkDeviceData item) raw s else s)
      <$> claim_Devices claim /\
  (updated = true ↔ key ∈ statusKey <$> claim_Devices claim).
Proof.
  intros Hkeys Hupd key raw. unfold updateClaimDeviceStatus in Hupd. fold key in Hupd.
  rewrite Hkeys, <- index_key.
  assert (Hentry : forall i s, claim_Devices claim !! i = Some s ->
    exists s0, claim_Devices indexed !! i = Some s0 /\ statusKey s0 = statusKey s).
  { intros i s Hs. apply (f_equal (fun l => l !! i)) in Hkeys. rewrite !list_lookup_fmap, Hs in Hkeys.
    destruct (claim_Devices indexed !! i) as [s0|]; [|done]. exists s0. split; [done|]. symmetry. exact (inj Some _ _ Hkeys). }
  destruct (buildClaimStatusDeviceIndex indexed !! key) as [l|] eqn:Hl.
  - injection Hupd as <- <-. split; [|by split; [by eexists|]]. simpl.
    apply list_eq. intros i. rewrite foldl_alter by apply withNetworkData_idem.
    rewrite list_lookup_fmap. destruct (claim_Devices claim !! i) as [s|] eqn:Hs; simpl.
    2: { by case_decide. }
    destruct (Hentry i s Hs) as (s0 & Hs0 & Hk0).
    pose proof (in_index indexed key l i s0 Hl Hs0) as Hiff. rewrite Hk0 in Hiff.
    repeat case_decide; tauto.
  - injection Hupd as <- <-. split; [|by split; [|intros [? ?]]].
    apply list_eq. intros i. rewrite list_lookup_fmap.
    destruct (claim_Devices claim !! i) as [s|] eqn:Hs; [|done]. simpl.
    rewrite decide_False; [done|]. intros Hk. destruct (Hentry i s Hs) as (s0 & Hs0 & Hk0).
    assert (Hsome : is_Some (buildClaimStatusDeviceIndex indexed !! key)).
    { apply index_key, list_elem_of_fmap. exists s0. split; [congruence|by eapply list_elem_of_lookup_2]. }
    rewrite Hl in Hsome. by destruct Hsome.
Qed.

(** C14: Network data reaches the right devices and only them: when the claim is still
    the one the devices were prepared for, every device of the group ends with the data
    of its last item and no other field or device changes; when the claim is gone or was
    replaced under the same name, nothing happens beyond reading it. *)
Theorem network_data_recorded namespace name uid items w :
  valid_items (w_heap w) items -> status_updates_return (E:=E) ->
  exists w', updateClaim (namespace, name, uid) items w = (Ret tt, w') /\
    w_claims w' = w_claims w /\ w_manager w' = w_manager w /\
    match (ClientGetClaim namespace name (w_env w)).1 with
    | Ok claim =>
        if decide (uid ≠ "" /\ claim_UID claim ≠ uid)
        then w' = set_env (ClientGetClaim namespace name (w_env w)).2 w
        else
          (forall l d, w_heap w !! l = Some d ->
             exists nd, w_heap w' !! l = Some (SetNetworkDeviceData nd d)) /\
          (forall l, (forall item, item ∈ items -> ¬ about l item) -> w_heap w' !! l = w_heap w !! l) /\
          (forall pre it post l, items = pre ++ Some it :: post -> nc_PreparedDevice it = Some l ->
             (forall item, item ∈ post -> ¬ about l item) ->
             pd_NetworkDeviceData <$> w_heap w' !! l = Some (nc_NetworkDeviceData it))
    | Err _ => w' = set_env (ClientGetClaim namespace name (w_env w)).2 w
    end.
Proof.
  intros Hv Hret. unfold updateClaim, mbind at 1, M_bind at 1, ext.
  destruct (ClientGetClaim namespace name (w_env w)) as [[claim|err] e1] eqn:Hget; simpl.
  2: { by exists (set_env e1 w). }
  destruct (decide (uid ≠ "" /\ claim_UID claim ≠ uid)); [by exists (set_env e1 w)|].
  destruct (triple_returns _ _ _ (set_env e1 w) (triple_record_claim False (w_claims w) (w_manager w)
    claim items (w_heap w) (or_intror Hv) (or_intror Hret)) ltac:(by split_and!))
    as ([] & w' & Hrun & Hh & Ht & Hm).
  exists w'. split; [exact Hrun|]. split_and!; [done..| | |].
  - intros l d Hd. rewrite Hh. destruct (recorded_only items _ l d Hd) as (nd & Hnd & _). by exists nd.
  - intros l Hno. rewrite Hh. by apply recorded_other.
  - intros pre it post l Hitems Hl Hpost. rewrite Hh, Hitems.
    destruct (Hv it l) as [d Hd]; [subst; set_solver|done|]. by eapply recorded_last.
Qed.
End nri_properties.

(** ** Concrete runs: one pod with two prepared devices of one claim, the CNI library of
    Cni.v, and an API server that holds the claim. *)
Module NriRuns.
#[local] Existing Instance listing_order.
#[local] Existing Instance PrepareRuns.json.

Record env : Type := mkEnv {
  nets : CniRuns.networks;
  api_claim : ResourceClaim
}.

#[local] Instance cni : CniLib env := {|
  PluginConf := string;
  CniResult := string;
  GetCNIConfigFromSpec spec _ := if decide (spec = "") then Err (ErrExternal "EINVAL" "empty") else Ok spec;
  NetworkPluginConfFromBytes raw := Ok raw;
  AddNetwork conf rt e :=
    (Ok (Some (rt_IfName rt)), mkEnv ((rt_ContainerID rt, rt_IfName rt) :: nets e) (api_claim e));
  DelNetwork conf rt e :=
    (Ok tt, mkEnv (filter (fun x => x ≠ (rt_ContainerID rt, rt_IfName rt)) (nets e)) (api_claim e));
  NewResultFromResult ifName := Ok (CniRuns.result_of ifName);
  json_Marshal_Cni100 _ := Ok "{}"
|}.
#[local] Instance status_json : StatusJson := fun config _ _ => Ok (from_option vf_Driver "" config).
#[local] Instance checkpoints : CheckpointManager env := {|
  ListCheckpoints e := (Ok [], e);
  GetCheckpoint _ e := (Ok None, e);
  CreateCheckpoint _ _ e := (Ok tt, e)
|}.
#[local] Instance api_errors : ApiErrors := ClaimStatusRuns.api_errors.

(** The conditions of the retries succeed at once here. *)
#[local] Instance wait : WaitLib env := {|
  ctx_Err _ := None;
  ExponentialBackoffWithContext V _ cond v := fun e =>
    match cond v e with
    | (Ret (v', Ok true), e') => (Ret (v', Ok tt), e')
    | (Ret (v', Ok false), e') => (Ret (v', Err (ErrExternal "Timeout" "")), e')
    | (Ret (v', Err err), e') => (Ret (v', Err err), e')
    | (Panic why, e') => (Panic why, e')
    end
|}.
#[local] Instance clients : ClaimClients env := fun _ => {|
  UpdateStatus c := fun e => (Ret (Ok c), mkEnv (nets e) c);
  GetClaim _ := fun e => (Ret (Ok (api_claim e)), e)
|}.
#[local] Instance reader : ClaimReader env := fun _ _ e => (Ok (api_claim e), e).
#[local] Instance metadata : MetadataUpdater env := fun _ _ _ _ _ e => (Ok tt, e).

Definition plugin : Plugin := mkPlugin true true.
Definition entry (device : string) : AllocatedDeviceStatus :=
  mkDeviceStatus DriverName "pool" device None [] None None.
Definition claim : ResourceClaim :=
  mkClaim "c" "ns" "claim-1" "1" None ["pod-1"] [entry "net1"; entry "net2"].
Definition world : World env :=
  mkWorld {[1%positive := CniRuns.device "net1"; 2%positive := CniRuns.device "net2"]}
    {["pod-1" := {["claim-1" := [Some 1%positive; Some 2%positive]]}]}
    (mkManager ∅ ∅ "vfnet" ConfigurationModeStandalone false) (mkEnv [] claim).
Definition started : World env := (RunPodSandbox plugin CniRuns.pod world).2.
Definition data (ifName : string) : NetworkDeviceData :=
  mkNetworkData ifName ["10.0.0.2/24"; "fd00::2/64"] "0a:58".
Definition items : NetworkDataChanStructList :=
  [Some (mkNetworkDataChan (Some 1%positive) (Some (data "net1")) (Some ∅) (Some ∅));
   Some (mkNetworkDataChan (Some 2%positive) (Some (data "net2")) (Some ∅) (Some ∅))].

Lemma started_run : RunPodSandbox plugin CniRuns.pod world = (Ret (Ok (Some items)), started).
Proof. vm_cast_no_check (eq_refl (Ret (Ok (Some items)) : outcome (result (option NetworkDataChanStructList)), started)). Qed.
Lemma pod_devices : GetDevicesByPodUID "pod-1" world = Some [Some 1%positive; Some 2%positive].
Proof. vm_compute. reflexivity. Qed.
Example two_networks : nets (w_env started) = [("sandbox-1", "net2"); ("sandbox-1", "net1")].
Proof. vm_compute. reflexivity. Qed.

Lemma run_pod_sandbox_attaches_witness :
  RunPodSandbox plugin CniRuns.pod world = (Ret (Ok (Some items)), started) /\
  w_heap started = w_heap world /\
  Forall2 (attached_item (E:=env) (w_heap world) CniRuns.pod "/run/netns/x")
    [Some 1%positive; Some 2%positive] items.
Proof.
  split; [exact started_run|].
  destruct (run_pod_sandbox_attaches plugin CniRuns.pod world items started started_run)
    as (Hh & _ & _ & devices & Hdev & _ & Hall).
  split; [exact Hh|]. assert (devices = [Some 1%positive; Some 2%positive]) as ->.
  { change (pod_Uid CniRuns.pod) with "pod-1" in Hdev. rewrite pod_devices in Hdev. congruence. }
  exact Hall.
Defined.

(** The same pod on the host's network. *)
Definition host_pod : PodSandbox :=
  mkPodSandbox "sandbox-1" "web" "ns" "pod-1" [mkNamespace "pid" "/proc/1/ns/pid"].

Lemma host_network_pod_cannot_stop_witness :
  RunPodSandbox plugin host_pod world = (Ret (Ok None), world) /\
  exists err, StopPodSandbox host_pod world = (Ret (Err err), world).
Proof.
  apply (host_network_pod_cannot_stop plugin host_pod [Some 1%positive; Some 2%positive] world pod_devices).
  intros ns Hns. apply list_elem_of_singleton in Hns as ->. discriminate.
Defined.

Lemma items_valid : valid_items (w_heap world) items.
Proof.
  intros it l Hit. apply elem_of_cons in Hit as [[= ->]|[= ->]%list_elem_of_singleton]; intros [= <-]; by eexists.
Qed.

Lemma groups_by_claim_witness : exists grouped,
  groupNetworkDataByClaim items world = (Ret grouped, world) /\
  grouped !! ("ns", "c", "claim-1") = Some items.
Proof.
  destruct (groups_by_claim items world items_valid) as (grouped & Hrun & Hg).
  exists grouped. split; [exact Hrun|]. rewrite Hg. reflexivity.
Defined.

Lemma status_entries_updated_witness :
  exists claim', updateClaimDeviceStatus claim (buildClaimStatusDeviceIndex claim)
    (mkNetworkDataChan (Some 2%positive) (Some (data "net2")) None None) (CniRuns.device "net2") = (claim', true) /\
  claim_Devices claim' = [entry "net1";
    mkDeviceStatus DriverName "pool" "net2" None [] (Some "") (Some (data "net2"))].
Proof.
  destruct (updateClaimDeviceStatus claim (buildClaimStatusDeviceIndex claim)
    (mkNetworkDataChan (Some 2%positive) (Some (data "net2")) None None) (CniRuns.device "net2"))
    as [claim' updated] eqn:Hrun.
  destruct (status_entries_updated claim claim _ _ claim' updated eq_refl Hrun) as [Hdev Hupd].
  exists claim'. split.
  - f_equal. apply Hupd. right. left.
  - rewrite Hdev. vm_compute. reflexivity.
Defined.

Lemma network_data_recorded_witness : exists w',
  updateClaim ("ns", "c", "claim-1") items world = (Ret tt, w') /\
  pd_NetworkDeviceData <$> w_heap w' !! 2%positive = Some (Some (data "net2")).
Proof.
  assert (Hret : status_updates_return (E:=env)).
  { intros namespace c e. eexists _, _. reflexivity. }
  destruct (network_data_recorded "ns" "c" "claim-1" items world items_valid Hret)
    as (w' & Hrun & _ & _ & Hpost).
  exists w'. split; [exact Hrun|].
  assert (Hget : (ClientGetClaim "ns" "c" (w_env world)).1 = Ok claim) by reflexivity.
  rewrite Hget in Hpost.
  rewrite decide_False in Hpost by (intros [_ Hne]; by apply Hne).
  destruct Hpost as (_ & _ & Hlast).
  apply (Hlast [Some (mkNetworkDataChan (Some 1%positive) (Some (data "net1")) (Some ∅) (Some ∅))]
    (mkNetworkDataChan (Some 2%positive) (Some (data "net2")) (Some ∅) (Some ∅)) [] 2%positive
    eq_refl eq_refl). intros item Hin. by apply not_elem_of_nil in Hin.
Defined.
End NriRuns.
