(* ===== verification/HookState.v ===== *)
(** * What the kubelet hooks do to the process

    The hooks of DriverHook.v as state transformers: which claims the pod manager
    knows after them and what the kubelet was told about each, on every path. *)

From S2P Require Import Prelude Hoare GoLib Consts K8sTypes VfConfigApi OpaqueConfig ClaimStatus Manager Prepared PodManager Cdi Host Prepare DriverHook Cni Publish Nri.

(** ** The table *)

Definition known (t : PreparedClaimsByPodUID) (pod claim : string) : option PreparedDevices :=
  cs ← t !! pod; cs !! claim.

(** The pointer is to a device that was prepared for this claim of this pod. *)
Definition filed (h : Heap) (pod claim : string) (x : option loc) : Prop :=
  exists l d, x = Some l /\ h !! l = Some d /\ pd_PodUID d = pod /\
    no_UID (pd_ClaimNamespacedName d) = claim.

Definition table_ok (h : Heap) (t : PreparedClaimsByPodUID) : Prop :=
  forall pod claim ds x, known t pod claim = Some ds -> x ∈ ds -> filed h pod claim x.

(** A later heap: new devices, and new network data in the old ones. *)
Definition evolves (h h' : Heap) : Prop :=
  forall l d, h !! l = Some d -> exists nd, h' !! l = Some (SetNetworkDeviceData nd d).

(** Every claim that is known stays known, with the same devices. *)
Definition keeps (t t' : PreparedClaimsByPodUID) : Prop :=
  forall pod claim ds, known t pod claim = Some ds -> known t' pod claim = Some ds.

Definition add_claim (pod claim : string) (ds : PreparedDevices) (t : PreparedClaimsByPodUID)
  : PreparedClaimsByPodUID := <[pod := <[claim := ds]> (default ∅ (t !! pod))]> t.

#[export] Instance evolves_preorder : PreOrder evolves.
Proof.
  split.
  - intros h l d Hd. exists (pd_NetworkDeviceData d). by rewrite set_network_data_same.
  - intros h1 h2 h3 H12 H23 l d Hd. destruct (H12 l d Hd) as [nd1 H1].
    destruct (H23 l _ H1) as [nd2 H2]. by exists nd2.
Qed.

#[export] Instance keeps_preorder : PreOrder keeps.
Proof. split; [by intros t pod claim ds|]. intros t1 t2 t3 H12 H23 pod claim ds Hd. by apply H23, H12. Qed.

Lemma evolves_subseteq h h' : h ⊆ h' -> evolves h h'.
Proof.
  intros Hh l d Hd. exists (pd_NetworkDeviceData d). rewrite set_network_data_same. by eapply lookup_weaken.
Qed.

Lemma evolves_recorded `{JsonLib} items h : evolves h (recorded items h).
Proof. intros l d Hd. destruct (recorded_only items h l d Hd) as (nd & Hnd & _). by exists nd. Qed.

Lemma evolves_live h h' l : evolves h h' -> is_Some (h !! l) -> is_Some (h' !! l).
Proof. intros He [d Hd]. destruct (He l d Hd) as [nd Hnd]. by eexists. Qed.

Lemma filed_evolves h h' pod claim x : evolves h h' -> filed h pod claim x -> filed h' pod claim x.
Proof. intros He (l & d & -> & Hd & <- & <-). destruct (He l d Hd) as [nd Hnd]. by exists l, (SetNetworkDeviceData nd d). Qed.

Lemma filed_live h pod claim x : filed h pod claim x -> live_ptr h x.
Proof. intros (l & d & -> & Hd & _). by exists l. Qed.

Lemma table_ok_evolves h h' t : evolves h h' -> table_ok h t -> table_ok h' t.
Proof. intros He Ht pod claim ds x Hk Hx. eapply filed_evolves; [done|by eapply Ht]. Qed.

Lemma known_subseteq t t' pod claim ds : t' ⊆ t -> known t' pod claim = Some ds -> known t pod claim = Some ds.
Proof.
  unfold known. intros Ht. destruct (t' !! pod) as [cs|] eqn:Hp; [|done]. simpl.
  by rewrite (lookup_weaken _ _ _ _ Hp Ht).
Qed.

Lemma table_ok_subseteq h t t' : t' ⊆ t -> table_ok h t -> table_ok h t'.
Proof. intros Hs Ht pod claim ds x Hk. apply Ht. by eapply known_subseteq. Qed.

Lemma table_ok_live h t : table_ok h t -> live_table h t.
Proof.
  intros Ht pod cs claim ds x Hp Hc Hx. eapply filed_live, Ht; [|exact Hx].
  unfold known. by rewrite Hp.
Qed.

Lemma known_add pod claim ds t pod' claim' :
  known (add_claim pod claim ds t) pod' claim' =
    if decide (pod' = pod /\ claim' = claim) then Some ds else known t pod' claim'.
Proof.
  unfold known, add_claim. destruct (decide (pod' = pod)) as [->|Hne].
  - rewrite lookup_insert_eq. simpl. destruct (decide (claim' = claim)) as [->|].
    + by rewrite lookup_insert_eq, decide_True.
    + rewrite lookup_insert_ne, decide_False by naive_solver. by destruct (t !! pod).
  - by rewrite lookup_insert_ne, decide_False by naive_solver.
Qed.

Lemma keeps_add pod claim ds t : known t pod claim = None -> keeps t (add_claim pod claim ds t).
Proof. intros Hn pod' claim' ds' Hk. rewrite known_add, decide_False; [done|]. intros [-> ->]. congruence. Qed.

Lemma table_ok_add h pod claim ds t :
  table_ok h t -> (forall x, x ∈ ds -> filed h pod claim x) -> table_ok h (add_claim pod claim ds t).
Proof.
  intros Ht Hds pod' claim' ds' x Hk Hx. rewrite known_add in Hk. case_decide as Heq.
  - destruct Heq as [-> ->]. injection Hk as <-. by apply Hds.
  - by eapply Ht.
Qed.

Lemma known_Get {E} (w : World E) pod claim : Get pod claim w = known (w_claims w) pod claim.
Proof. unfold Get, known. by destruct (w_claims w !! pod). Qed.

(** ** The pod manager's operations *)

Section table_triples.
Context `{RangeOrder} {E : Type} `{CheckpointManager E} (q : Prop) (h : Heap) (m : Manager).
Implicit Types (w : World E) (t : PreparedClaimsByPodUID).

Lemma triple_Set pod claim ds t :
  triple q (at_core (E:=E) h t m) (Set_ pod claim ds) (fun _ => at_core h (add_claim pod claim ds t) m).
Proof.
  intros w (Hh & <- & Hm). unfold Set_, mbind, M_bind, modify.
  match goal with |- context [syncToCheckpoint ?w1] => destruct (sync_result w1) as (r & e & -> & _) end.
  by split_and!.
Qed.

(** DeleteClaim drops the pod that holds the claim, if there is one. *)
Definition without_claim (claim : string) t : PreparedClaimsByPodUID :=
  match findClaim claim (range t) with Some (pod, _) => delete pod t | None => t end.

Lemma without_claim_subseteq claim t : without_claim claim t ⊆ t.
Proof. unfold without_claim. destruct (findClaim _ _) as [[pod ?]|]; [apply delete_subseteq|done]. Qed.

Lemma triple_DeleteClaim claim t :
  triple q (at_core (E:=E) h t m) (DeleteClaim claim) (fun _ => at_core h (without_claim (no_UID claim) t) m).
Proof.
  intros w (Hh & <- & Hm). unfold DeleteClaim, without_claim.
  destruct (findClaim _ _) as [[pod ds]|]; [|by split_and!]. unfold mbind, M_bind, modify.
  match goal with |- context [syncToCheckpoint ?w1] => destruct (sync_result w1) as (r & e & -> & _) end.
  by split_and!.
Qed.

Lemma without_claim_unknown claim t pod :
  one_pod_per_claim t -> known (without_claim claim t) pod claim = None.
Proof.
  intros Huniq. destruct (known (without_claim claim t) pod claim) as [ds|] eqn:Hk; [|done].
  apply (known_subseteq _ _ _ _ _ (without_claim_subseteq claim t)) in Hk as Hk'.
  unfold known in Hk'. destruct (t !! pod) as [cs|] eqn:Hp; [|done]. simpl in Hk'.
  unfold without_claim in Hk. rewrite (findClaim_unique _ _ _ _ _ Huniq Hp Hk') in Hk.
  unfold known in Hk. by rewrite lookup_delete_eq in Hk.
Qed.

Lemma one_pod_subseteq t t' : t' ⊆ t -> one_pod_per_claim t -> one_pod_per_claim t'.
Proof. intros Hs Hu pod1 pod2 cs1 cs2 claim H1 H2. eapply Hu; by eapply lookup_weaken. Qed.
End table_triples.

(** ** The hooks *)

(** What the kubelet is told of a device. *)
Definition kubelet_view (h : Heap) (x : option loc) (kd : KubeletDevice) : Prop :=
  exists l d, x = Some l /\ h !! l = Some d /\ kd = ToKubeletPluginDevice d None.

(** One answer per claim, of the kind [P]. *)
Definition answers_by (P : ResourceClaim -> PrepareResult -> Prop) (claims : list (option ResourceClaim))
    (result : gmap string PrepareResult) : Prop :=
  (forall uid, is_Some (result !! uid) ↔ exists claim, Some claim ∈ claims /\ claim_UID claim = uid) /\
  (forall uid r, result !! uid = Some r ->
     exists claim, Some claim ∈ claims /\ claim_UID claim = uid /\ P claim r).

Lemma answers_by_nil P : answers_by P [] ∅.
Proof.
  split; [|intros uid r Hr; by rewrite lookup_empty in Hr]. intros uid. rewrite lookup_empty.
  split; [by intros [? ?]|by intros (? & ?%not_elem_of_nil & _)].
Qed.

Lemma answers_by_snoc (P P' : ResourceClaim -> PrepareResult -> Prop) claims claim result r :
  answers_by P claims result -> (forall c r', P c r' -> P' c r') -> P' claim r ->
  answers_by P' (claims ++ [Some claim]) (<[claim_UID claim := r]> result).
Proof.
  intros [Hdom Hok] HP Hr. split.
  - intros uid. rewrite lookup_insert_is_Some, Hdom. setoid_rewrite elem_of_app.
    setoid_rewrite list_elem_of_singleton. split.
    + intros [<-|[_ (c & ? & ?)]]; [by exists claim; auto|by exists c; auto].
    + intros (c & [?|[= ->]] & <-); [|by left]. destruct (decide (claim_UID claim = claim_UID c)); [by left|right].
      split; [done|]. by exists c.
  - intros uid r'. setoid_rewrite elem_of_app. setoid_rewrite list_elem_of_singleton.
    intros [[<- <-]|[_ Hl]]%lookup_insert_Some; [exists claim; by split_and!; [right| |]|].
    destruct (Hok uid r' Hl) as (c & Hin & Hc & Ha). exists c. split_and!; [by left|done|by apply HP].
Qed.

(** The wait package returns when the condition it polls does. *)
Class WaitReturns (E : Type) `{WaitLib E} : Prop :=
  backoff_returns : forall V (backoff : Backoff) (cond : V -> M E (V * result bool)) v e,
    (forall v e, exists r e', cond v e = (Ret r, e')) ->
    exists r e', ExponentialBackoffWithContext backoff cond v e = (Ret r, e').

(** The calls of the claim clients return. *)
Class ClientsReturn (E : Type) `{ClaimClients E} : Prop := {
  update_returns namespace claim (e : E) : exists r e', UpdateStatus (ResourceClaims namespace) claim e = (Ret r, e');
  get_returns namespace name (e : E) : exists r e', GetClaim (ResourceClaims namespace) name e = (Ret r, e')
}.

Lemma status_updates_do_return {E} `{ApiErrors} `{WaitLib E} `{ClaimClients E} `{!WaitReturns E}
  `{!ClientsReturn E} : status_updates_return (E:=E).
Proof.
  intros namespace claim e. unfold UpdateClaimStatusWithRetry, mbind, M_bind.
  destruct (backoff_returns (retry_vars) DefaultBackoff
    (retryCondition (ResourceClaims namespace) (claim_Devices claim) DriverName)
    (mkRetryVars claim None) e) as ([v r] & e' & ->).
  - intros v e1. unfold retryCondition, mbind, M_bind, mret, M_ret.
    destruct (update_returns namespace (rv_claim v) e1) as ([c|err] & e2 & ->); [by eexists _, _|].
    destruct (IsConflict err); [|by destruct (IsPermanentStatusUpdateError err); eexists _, _].
    destruct (get_returns namespace (claim_Name (rv_claim v)) e2) as ([c|err'] & e3 & ->).
    + case_decide; by eexists _, _.
    + destruct (IsPermanentStatusUpdateError err'); by eexists _, _.
  - unfold gets, mret, M_ret. destruct r as [|err]; [by eexists _, _|].
    destruct (rv_lastErr v), (ctx_Err e'); by eexists _, _.
Qed.

Section hook_triples.
Context `{RangeOrder} {E : Type} `{HostInterface E} `{DeviceInfoStore E} `{NadClient E}
  `{JsonLib} `{CdiLib E} `{Decoder} `{CheckpointManager E} `{ApiErrors} `{WaitLib E}
  `{ClaimClients E}.
Context (q : Prop) (m : Manager).
Context (Hjson : q \/ no_null_nads) (Haddr : q \/ addressed m) (Hstatus : q \/ status_updates_return (E:=E)).
Implicit Types (w : World E) (t : PreparedClaimsByPodUID).

(** The pod manager knows the claim, and the answer lists exactly its devices. *)
Definition registered h t (claim : ResourceClaim) (devices : list KubeletDevice) : Prop :=
  exists pod ds, claim_ReservedFor claim = [pod] /\ is_Some (claim_Allocation claim) /\
    known t pod (claim_UID claim) = Some ds /\ Forall2 (kubelet_view h) ds devices.

Lemma registered_mono h h' t t' claim devices :
  h ⊆ h' -> keeps t t' -> registered h t claim devices -> registered h' t' claim devices.
Proof.
  intros Hh Ht (pod & ds & Hp & Ha & Hk & Hv). exists pod, ds. split_and!; [done..|by apply Ht|].
  eapply Forall2_impl; [exact Hv|]. intros x kd (l & d & -> & Hd & ->). exists l, d.
  split_and!; [done|by eapply lookup_weaken|done].
Qed.

Lemma triple_toKubelet h t ds :
  (forall x, x ∈ ds -> live_ptr h x) ->
  triple q (at_core (E:=E) h t m) (toKubelet ds) (fun kds w => Forall2 (kubelet_view h) ds kds /\ at_core h t m w).
Proof.
  intros Hds w Hw. destruct (toKubelet_run ds w) as (kds & -> & Hkds).
  { intros x Hx. destruct (Hds x Hx) as (l & -> & d & Hd). exists l, d. split; [done|]. by destruct Hw as (-> & _). }
  split; [|done]. eapply Forall2_impl; [exact Hkds|]. intros x kd (l & d & -> & Hd & ->).
  exists l, d. split_and!; [done| |done]. by destruct Hw as (<- & _).
Qed.

Lemma prepared_list_filed claim rc h ds pl pod :
  claim_ReservedFor claim = [pod] -> prepared_list m claim rc h ds pl ->
  forall x, x ∈ ds -> filed h pod (claim_UID claim) x.
Proof.
  intros Hpod Hds x Hx. apply list_elem_of_lookup in Hx as [i Hi].
  destruct (Forall2_lookup_l _ _ _ _ _ Hds Hi) as (ri & _ & l & d & -> & Hd & Hpf).
  exists l, d. split_and!; [done..| |].
  - pose proof (pf_pod _ _ _ _ _ _ Hpf) as Hp. rewrite Hpod in Hp. by injection Hp.
  - by rewrite (pf_claim _ _ _ _ _ _ Hpf).
Qed.

(** Preparing one claim: old claims and devices stay; a success registers the claim. *)
Definition claim_post h t (claim : ResourceClaim) (r : PrepareResult * Z) w : Prop :=
  exists h' t', h ⊆ h' /\ keeps t t' /\ table_ok h' t' /\ at_core h' t' m w /\
    (pr_Err r.1 = None -> registered h' t' claim (pr_Devices r.1)).

Lemma claim_post_failed h t claim err i w :
  table_ok h t -> at_core h t m w -> claim_post h t claim (prepareFailed err, i) w.
Proof. intros Ht Hw. exists h, t. by split_and!. Qed.

Lemma triple_prepareResourceClaim i claim h t :
  table_ok h t -> triple q (at_core (E:=E) h t m) (prepareResourceClaim i claim) (claim_post h t claim).
Proof using Hjson Haddr Hstatus.
  intros Ht. unfold prepareResourceClaim.
  destruct (claim_ReservedFor claim) as [|pod [|]] eqn:Hpod;
    [by apply triple_ret; intros w Hw; apply claim_post_failed| |by apply triple_ret; intros w Hw; apply claim_post_failed].
  destruct (claim_Allocation claim) as [allocation|] eqn:Halloc;
    [|by apply triple_ret; intros w Hw; apply claim_post_failed].
  eapply triple_bind.
  { apply (triple_gets q _ _ (fun k w => k = known t pod (claim_UID claim) /\ at_core h t m w)).
    intros w Hw. split; [|done]. rewrite known_Get. by destruct Hw as (_ & -> & _). }
  intros k. apply triple_pure. intros ->. destruct (known t pod (claim_UID claim)) as [ds|] eqn:Hk.
  { eapply triple_bind.
    { apply (triple_toKubelet h t ds). intros x Hx. by eapply filed_live, Ht. }
    intros kds. apply triple_pure. intros Hkds. apply triple_ret. intros w Hw. exists h, t.
    split_and!; [done..|]. intros _. exists pod, ds. by split_and!. }
  eapply triple_bind.
  { apply (triple_PrepareDevicesForClaim q t m Hjson Haddr i claim allocation h Halloc).
    right. rewrite Hpod. by eexists. }
  intros [[ds|err] [i' updated]]; simpl; apply triple_ex; intros h'; apply triple_pure; intros Hh;
    pose proof (table_ok_evolves _ _ _ (evolves_subseteq _ _ Hh) Ht) as Ht'.
  2: { apply triple_ret. intros w [Hw _]. exists h', t. by split_and!. }
  apply triple_pure_r. intros (_ & rc & _ & Hds).
  pose proof (prepared_list_filed _ _ _ _ _ _ Hpod Hds) as Hfiled.
  eapply triple_bind.
  { apply (triple_toKubelet h' t ds). intros x Hx. by eapply filed_live, Hfiled. }
  intros kds. apply triple_pure. intros Hkds.
  set (t' := add_claim pod (claim_UID claim) ds t).
  assert (Hpost : forall r w, (pr_Err r.1 = None -> pr_Devices r.1 = kds) ->
    at_core h' t' m w -> claim_post h t claim r w).
  { intros r w Hr Hw. exists h', t'. split_and!; [done|by apply keeps_add|by apply table_ok_add|done|].
    intros Hnone. exists pod, ds. rewrite (Hr Hnone). split_and!; [done|done| |done].
    unfold t'. by rewrite known_add, decide_True. }
  eapply triple_bind; [apply triple_Set|]. intros [[]|err].
  - apply triple_keep; [by apply triple_write_status|]. intros _. apply triple_ret. intros w. by apply Hpost.
  - apply triple_keep.
    { apply triple_Unprepare. right. intros l Hl. destruct (Hfiled _ Hl) as (l' & d & [= ->] & Hd & _). by eexists. }
    intros cleanup. apply triple_ret. intros w. apply Hpost. by destruct cleanup.
Qed.

(** Undoing claims only removes from the table. *)
Definition shrunk h t w : Prop := exists t', t' ⊆ t /\ at_core h t' m w.

Lemma triple_unprepareResourceClaim claim h t :
  q \/ table_ok h t ->
  triple q (at_core (E:=E) h t m) (unprepareResourceClaim claim) (fun r w =>
    exists t', (t' = t \/ t' = without_claim (no_UID claim) t) /\ at_core h t' m w /\
      (r = Ok tt -> t' = without_claim (no_UID claim) t)).
Proof.
  intros Ht. unfold unprepareResourceClaim. eapply triple_bind.
  { apply (triple_gets q _ _ (fun k w => k = snd <$> findClaim (no_UID claim) (range t) /\ at_core h t m w)).
    intros w Hw. split; [|done]. unfold GetByClaim. by destruct Hw as (_ & -> & _). }
  intros k. apply triple_pure. intros ->.
  destruct (findClaim (no_UID claim) (range t)) as [[pod ds]|] eqn:Hf; simpl.
  2: { apply triple_ret. intros w Hw. exists t. split_and!; [by left|done|]. unfold without_claim. by rewrite Hf. }
  apply (triple_bind_ok q _ _ _ (fun _ => at_core h t m)).
  - apply triple_wrap_err. eapply triple_weaken; [|done|].
    + apply (triple_Unprepare q (no_UID claim) ds h t m). destruct Ht as [?|Ht]; [by left|right].
      intros l Hl. apply findClaim_range in Hf as (cs & Hp & Hc).
      destruct (Ht pod (no_UID claim) ds (Some l)) as (l' & d & [= ->] & Hd & _); [|done|by eexists].
      unfold known. by rewrite Hp.
    + intros [[]|err] w Hw; [exact Hw|]. simpl. exists t. split_and!; [by left|done..].
  - intros []. apply triple_wrap_err. eapply triple_weaken; [apply triple_DeleteClaim|done|].
    intros r w Hw. exists (without_claim (no_UID claim) t).
    split_and!; [by right|done..].
Qed.

Lemma shrunk_start h t w : at_core h t m w -> shrunk h t w.
Proof. intros Hw. exists t. by split. Qed.

Lemma triple_unprepare_shrinks claim h t :
  table_ok h t -> triple q (shrunk h t) (unprepareResourceClaim claim) (fun _ => shrunk h t).
Proof.
  intros Ht. apply triple_ex. intros t1. apply triple_pure. intros Hs1. eapply triple_weaken.
  - apply (triple_unprepareResourceClaim claim h t1). right. by eapply table_ok_subseteq.
  - done.
  - intros r w (t2 & Ht2 & Hw & _). exists t2. split; [|done]. etrans; [|exact Hs1].
    destruct Ht2 as [->| ->]; [done|apply without_claim_subseteq].
Qed.

Lemma triple_UnprepareResourceClaims claims h t :
  table_ok h t -> triple q (shrunk h t) (UnprepareResourceClaims claims) (fun _ => shrunk h t).
Proof.
  intros Ht. apply (triple_for_each q claims _ (fun _ _ => shrunk h t)). intros done claim rest result _.
  apply triple_keep; [by apply triple_unprepare_shrinks|]. intros r. by apply triple_ret.
Qed.

Lemma triple_failPrepare claims err fmt h t :
  table_ok h t -> triple q (shrunk h t) (failPrepare claims err fmt) (fun _ => shrunk h t).
Proof.
  intros Ht. unfold failPrepare, rollbackPreparedClaims. apply triple_keep; [|intros c; by apply triple_ret].
  apply triple_keep; [|intros errs; by apply triple_ret].
  apply (triple_for_each q claims _ (fun _ _ => shrunk h t)). intros done [claim|] rest errs _; [|by apply triple_ret].
  apply triple_keep; [by apply triple_unprepare_shrinks|]. intros r. by apply triple_ret.
Qed.

Lemma triple_podPciAddress x acc h t :
  q \/ live_ptr h x ->
  triple q (at_core (E:=E) h t m) (podPciAddress x acc) (fun _ => at_core h t m).
Proof using Haddr.
  intros Hx. apply triple_keep; [by apply (triple_load q x h t m (fun _ => at_core h t m))|].
  intros d. eapply triple_bind.
  { apply (triple_gets q w_manager _ (fun s w => s = m /\ at_core h t m w)). intros w Hw.
    by destruct Hw as (? & ? & ?). }
  intros s. apply triple_pure. intros ->. unfold GetAllocatableDeviceByName.
  destruct (allocatable m !! drapb_DeviceName (pd_Device d)) as [device|] eqn:Hdev; [|by apply triple_ret].
  apply triple_keep; [|intros a; by apply triple_ret].
  apply (triple_pciAddress q); [|done].
  destruct Haddr as [?|Ha]; [by left|right]. by eapply Ha.
Qed.

Lemma triple_podPciAddresses ds h t :
  q \/ (forall x, x ∈ ds -> live_ptr h x) ->
  triple q (at_core (E:=E) h t m) (podPciAddresses ds) (fun _ => at_core h t m).
Proof using Haddr.
  intros Hds. apply (triple_for_each_ok q ds _ (fun _ _ => at_core h t m)); [|done].
  intros done x rest acc Hl. eapply triple_weaken; [apply triple_podPciAddress|done|by intros [|] w].
  destruct Hds as [?|Hds]; [by left|right]. apply Hds. subst. apply elem_of_app. right. by left.
Qed.

(** A successful answer only for a claim that is registered. *)
Definition answers h t (claims : list (option ResourceClaim)) (result : gmap string PrepareResult) : Prop :=
  answers_by (fun claim r => pr_Err r = None -> registered h t claim (pr_Devices r)) claims result.

Lemma answers_snoc h h' t t' claims claim result r :
  h ⊆ h' -> keeps t t' -> answers h t claims result ->
  (pr_Err r = None -> registered h' t' claim (pr_Devices r)) ->
  answers h' t' (claims ++ [Some claim]) (<[claim_UID claim := r]> result).
Proof.
  intros Hh Ht Hans Hr. eapply answers_by_snoc; [exact Hans| |exact Hr].
  intros c r' Hc Hnone. by eapply registered_mono; [..|apply Hc].
Qed.

(** The state after the loop over the claims. *)
Definition loop_post h t (claims : list (option ResourceClaim)) (st : gmap string PrepareResult * Z) w : Prop :=
  exists h' t', h ⊆ h' /\ keeps t t' /\ table_ok h' t' /\ at_core h' t' m w /\ answers h' t' claims st.1.

Lemma triple_prepare_loop claims h t :
  q \/ (forall claim, claim ∈ claims -> is_Some claim) -> table_ok h t ->
  triple q (at_core (E:=E) h t m)
    (for_each claims (fun claim '(result, ifNameIndex) =>
      claim ← deref "claim.UID" claim;
      '(r, ifNameIndex) ← prepareResourceClaim ifNameIndex claim;
      mret (<[claim_UID claim := r]> result, ifNameIndex)) (∅, 0%Z))
    (loop_post h t claims).
Proof using Hjson Haddr Hstatus.
  intros Hclaims Ht.
  eapply (triple_weaken q _ _ (loop_post h t [] (∅, 0%Z))); [|intros w Hw|done].
  2: { exists h, t. split_and!; [done..|apply answers_by_nil]. }
  apply (triple_for_each q claims _ (loop_post h t)). intros done claim rest [result i] Heq.
  apply triple_ex. intros h1. apply triple_ex. intros t1.
  apply triple_pure. intros Hh1. apply triple_pure. intros Ht1. apply triple_pure. intros Hok1.
  eapply triple_bind.
  { apply (triple_deref q _ _ _ (fun c w => claim = Some c /\ at_core h1 t1 m w /\ answers h1 t1 done result)).
    - destruct Hclaims as [?|Hc]; [by left|right]. apply Hc. subst. apply elem_of_app. right. by left.
    - by intros c w. }
  intros c. apply triple_pure. intros ->. apply triple_pure_r. intros Hans.
  eapply triple_bind; [by apply triple_prepareResourceClaim|]. intros [r i'].
  apply triple_ret. intros w (h2 & t2 & Hh2 & Ht2 & Hok2 & Hw & Hr).
  exists h2, t2. split_and!; [by etrans|by etrans|done..|]. by eapply answers_snoc.
Qed.

(** The hook as a whole; on an error it has rolled its claims back. *)
Definition hook_post h t (claims : list (option ResourceClaim))
    (res : gmap string PrepareResult * option error) w : Prop :=
  exists h' t', h ⊆ h' /\ table_ok h' t' /\ at_core h' t' m w /\
    (forall uid, is_Some (res.1 !! uid) ↔ exists claim, Some claim ∈ claims /\ claim_UID claim = uid) /\
    (res.2 = None -> keeps t t' /\ answers h' t' claims res.1).

Lemma triple_PrepareResourceClaims claims h t :
  q \/ (forall claim, claim ∈ claims -> is_Some claim) -> table_ok h t ->
  triple q (at_core (E:=E) h t m) (PrepareResourceClaims claims) (hook_post h t claims).
Proof using Hjson Haddr Hstatus.
  intros Hclaims Ht. unfold PrepareResourceClaims. destruct (decide (length claims = 0)) as [Hnil|_].
  { apply nil_length_inv in Hnil as ->. apply triple_ret. intros w Hw. exists h, t.
    pose proof (answers_by_nil (fun claim r => pr_Err r = None -> registered h t claim (pr_Devices r))) as Hempty. split_and!; [done..|apply Hempty|done]. }
  eapply triple_bind; [by apply triple_prepare_loop|]. intros [result i].
  apply triple_ex. intros h'. apply triple_ex. intros t'. apply triple_pure. intros Hh.
  apply triple_pure. intros Hkeep. apply triple_pure. intros Hok. apply triple_pure_r. intros Hans.
  simpl in Hans.
  assert (Herr : forall err w, shrunk h' t' w -> hook_post h t claims (result, Some err) w).
  { intros err w (t2 & Hs2 & Hw). exists h', t2. split_and!; [done|by eapply table_ok_subseteq|done|apply Hans|done]. }
  assert (Hnow : forall err w, at_core h' t' m w -> hook_post h t claims (result, Some err) w).
  { intros err w Hw. by apply Herr, shrunk_start. }
  destruct (decide _); [apply triple_ret, Hnow|].
  eapply triple_bind; [apply (triple_devices q h' t' m); right; by apply table_ok_live|].
  intros [ds|]; apply triple_pure; intros [_ Hds]; [|apply triple_ret, Hnow].
  assert (Hfail : forall err fmt, triple q (at_core h' t' m)
    (err ← failPrepare claims err fmt; mret (result, Some err)) (hook_post h t claims)).
  { intros err fmt. eapply triple_bind.
    - eapply triple_weaken; [by apply (triple_failPrepare claims err fmt h' t')|apply shrunk_start|done].
    - intros err'. apply triple_ret, Herr. }
  apply triple_keep; [by apply triple_podPciAddresses, Hds|].
  intros [pcis|err]; [|apply Hfail].
  apply triple_keep; [apply triple_ext_core|]. intros [[]|err]; [|apply Hfail].
  apply triple_ret. intros w Hw. exists h', t'. split_and!; [done..|apply Hans|done].
Qed.
End hook_triples.

(** ** Properties *)

Section hook_state_properties.
Context `{RangeOrder} {E : Type} `{HostInterface E} `{DeviceInfoStore E} `{NadClient E}
  `{JsonLib} `{CdiLib E} `{Decoder} `{CheckpointManager E} `{ApiErrors} `{WaitLib E}
  `{ClaimClients E}.
Implicit Types (w : World E).

(** C7: A successful prepare hook answers every claim exactly once, and every claim it
    reports as prepared is registered: the pod manager holds it under its only pod, and
    the devices told to the kubelet are exactly those it holds, in order; every device
    is filed under the claim it was prepared for, and claims known before stay known. *)
Theorem hook_answers_registered claims w results w' :
  table_ok (w_heap w) (w_claims w) ->
  PrepareResourceClaims claims w = (Ret (results, None), w') ->
  w_manager w' = w_manager w /\ w_heap w ⊆ w_heap w' /\ keeps (w_claims w) (w_claims w') /\
  table_ok (w_heap w') (w_claims w') /\ answers (w_heap w') (w_claims w') claims results.
Proof.
  intros Ht Hrun.
  destruct (triple_run True _ _ _ w _ _ (triple_PrepareResourceClaims True (w_manager w) (or_introl I)
    (or_introl I) (or_introl I) claims (w_heap w) (w_claims w) (or_introl I) Ht)
    ltac:(by split_and!) Hrun) as (h' & t' & Hh & Hok & (<- & <- & Hm) & _ & Hans).
  destruct (Hans eq_refl) as [Hkeep Ha]. by split_and!.
Qed.

(** The unprepare loop after the claims [done], from a state with table [t0]. *)
Definition unprepared_so_far h t0 m (done : list NamespacedObject)
    (results : gmap string (result unit)) w : Prop :=
  exists t', t' ⊆ t0 /\
    (forall claim, claim ∈ done -> is_Some (results !! no_UID claim)) /\
    (forall uid, results !! uid = Some (Ok tt) -> forall pod, known t' pod uid = None) /\
    (forall pod cs, t0 !! pod = Some cs ->
       (forall claim, claim ∈ done -> cs !! no_UID claim = None) -> t' !! pod = Some cs) /\
    at_core h t' m w.

Lemma triple_unprepare_loop claims h t0 m :
  one_pod_per_claim t0 ->
  triple True (unprepared_so_far h t0 m [] ∅) (UnprepareResourceClaims claims)
    (unprepared_so_far h t0 m claims).
Proof.
  intros Huniq. apply triple_for_each. intros done claim rest res _.
  apply triple_ex. intros t. apply triple_pure. intros Hsub. apply triple_pure. intros Hdom.
  apply triple_pure. intros Hgone. apply triple_pure. intros Hkept.
  eapply triple_bind; [apply triple_unprepareResourceClaim; by left|]. intros r. apply triple_ret.
  intros w1 (t' & Ht' & Hw & Hr).
  assert (Hsub' : t' ⊆ t) by (destruct Ht' as [->| ->]; [done|apply without_claim_subseteq]).
  exists t'. split_and!; [by etrans| | | |exact Hw].
  - intros c [Hc| ->%list_elem_of_singleton]%elem_of_app; apply lookup_insert_is_Some'; [right; by apply Hdom|by left].
  - intros uid [[<- ->]|[_ Hu]]%lookup_insert_Some pod.
    + rewrite (Hr eq_refl). apply without_claim_unknown. by eapply one_pod_subseteq.
    + destruct (known t' pod uid) as [ds|] eqn:Hk; [|done].
      apply (known_subseteq _ _ _ _ _ Hsub') in Hk. by rewrite Hgone in Hk.
  - intros pod cs Hp Hnone.
    assert (Hp' : t !! pod = Some cs).
    { apply Hkept; [done|]. intros c Hc. apply Hnone, elem_of_app. by left. }
    destruct Ht' as [->| ->]; [done|]. unfold without_claim.
    destruct (findClaim _ _) as [[pod' ds]|] eqn:Hf; [|done]. rewrite lookup_delete_ne; [done|].
    intros ->. apply findClaim_range in Hf as (cs' & Hcs' & Hds).
    rewrite Hp' in Hcs'. injection Hcs' as <-. rewrite Hnone in Hds; [done|].
    apply elem_of_app. right. by left.
Qed.

(** C20: The unprepare hook forgets exactly what it should, when every claim is held by
    one pod: each claim is answered, one that is reported as unprepared is held by no
    pod any more, and a pod that holds none of the claims keeps all of its own. *)
Theorem unprepare_hook_forgets claims w results w' :
  one_pod_per_claim (w_claims w) ->
  UnprepareResourceClaims claims w = (Ret results, w') ->
  w_heap w' = w_heap w /\ w_claims w' ⊆ w_claims w /\
  (forall claim, claim ∈ claims -> exists r, results !! no_UID claim = Some r /\
     (r = Ok tt -> forall pod, Get pod (no_UID claim) w' = None)) /\
  (forall pod cs, w_claims w !! pod = Some cs ->
     (forall claim, claim ∈ claims -> cs !! no_UID claim = None) -> w_claims w' !! pod = Some cs).
Proof.
  intros Huniq Hrun.
  assert (Hstart : unprepared_so_far (w_heap w) (w_claims w) (w_manager w) [] ∅ w).
  { exists (w_claims w). split_and!; [done|by intros ? ?%not_elem_of_nil| |done..].
    intros uid Hu. by rewrite lookup_empty in Hu. }
  destruct (triple_run True _ _ _ w results w' (triple_unprepare_loop claims (w_heap w) (w_claims w)
    (w_manager w) Huniq) Hstart Hrun) as (t' & Hsub & Hdom & Hgone & Hkept & Hh & <- & _).
  split_and!; [done..| |done].
  intros claim Hc. destruct (Hdom claim Hc) as [r Hr]. exists r. split; [done|]. intros -> pod.
  rewrite known_Get. by apply Hgone.
Qed.
End hook_state_properties.

(** ** Concrete runs: the claim of Prepare.v through the whole hook, on a checkpoint
    directory that accepts every write, and out again. *)
Module HookStateRuns.
#[local] Existing Instance listing_order.
#[local] Existing Instance PrepareRuns.helpers.
#[local] Existing Instance PrepareRuns.no_store.
#[local] Existing Instance PrepareRuns.nads.
#[local] Existing Instance PrepareRuns.json.
#[local] Existing Instance PrepareRuns.cdi.
#[local] Existing Instance PrepareRuns.decoder.
#[local] Existing Instance DriverHookRuns.discarding.
#[local] Existing Instance DriverHookRuns.errors_lib.
#[local] Existing Instance DriverHookRuns.wait.
#[local] Existing Instance DriverHookRuns.clients.

Definition claims : list (option ResourceClaim) := [Some PrepareRuns.claim].
Definition prepared : World DriverHookRuns.env := (PrepareResourceClaims claims PrepareRuns.world).2.
Definition results : gmap string PrepareResult :=
  match (PrepareResourceClaims claims PrepareRuns.world).1 with Ret r => r.1 | Panic _ => ∅ end.

Lemma prepared_run : PrepareResourceClaims claims PrepareRuns.world = (Ret (results, None), prepared).
Proof.
  assert (Hrun : match (PrepareResourceClaims claims PrepareRuns.world).1 with
                 | Ret (_, None) => true | _ => false end = true)
    by (vm_cast_no_check (eq_refl true)).
  unfold results, prepared. by destruct (PrepareResourceClaims _ _) as [[[? [?|]]|?] ?].
Qed.
Lemma claim_prepared :
  (fun r => (pr_Err r, length (pr_Devices r))) <$> results !! "claim-1" = Some (None, 3).
Proof. vm_compute. reflexivity. Qed.
#[local] Strategy opaque [prepared results].

Lemma empty_table_ok h : table_ok h ∅.
Proof. intros pod claim ds x Hk. by apply lookup_empty_Some in Hk || discriminate. Qed.

Lemma hook_answers_registered_witness : exists ds,
  known (w_claims prepared) "pod-1" "claim-1" = Some ds /\ length ds = 3.
Proof.
  destruct (hook_answers_registered claims PrepareRuns.world results prepared
    (empty_table_ok _) prepared_run) as (_ & _ & _ & _ & _ & Hok).
  pose proof claim_prepared as Hprep. destruct (results !! "claim-1") as [r|] eqn:Hr; [|discriminate].
  injection Hprep as Hnone Hlen.
  destruct (Hok "claim-1" r Hr) as (claim & Hin & _ & Hreg).
  destruct (Hreg Hnone) as (pod & ds & Hpod & _ & Hk & Hview).
  apply list_elem_of_singleton in Hin. injection Hin as ->. injection Hpod as <-.
  exists ds. split; [exact Hk|]. rewrite <- Hlen. exact (Forall2_length _ _ _ Hview).
Defined.

Definition unprepared : World DriverHookRuns.env :=
  (UnprepareResourceClaims [PodManagerRuns.claim1] prepared).2.
Lemma unprepared_run : UnprepareResourceClaims [PodManagerRuns.claim1] prepared =
  (Ret {["claim-1" := Ok tt]}, unprepared).
Proof.
  assert (Hrun : (UnprepareResourceClaims [PodManagerRuns.claim1] prepared).1 =
                 Ret {["claim-1" := Ok tt]})
    by (vm_cast_no_check (eq_refl (Ret {["claim-1" := Ok tt]} : outcome (gmap string (result unit))))).
  unfold unprepared. by destruct (UnprepareResourceClaims _ _) as [? ?]; simpl in *; subst.
Qed.
Lemma prepared_one_pod : one_pod_per_claim (w_claims prepared).
Proof.
  assert (Hall : map_Forall (fun pod _ => pod = "pod-1") (w_claims prepared)).
  { apply (bool_decide_unpack _). vm_compute. reflexivity. }
  intros pod1 pod2 cs1 cs2 claim H1 H2 _ _. rewrite (Hall _ _ H1), (Hall _ _ H2). reflexivity.
Qed.
#[local] Strategy opaque [unprepared].

Lemma unprepare_hook_forgets_witness : Get "pod-1" "claim-1" unprepared = None.
Proof.
  destruct (unprepare_hook_forgets [PodManagerRuns.claim1] prepared _ unprepared prepared_one_pod
    unprepared_run) as (_ & _ & Hans & _).
  destruct (Hans PodManagerRuns.claim1) as (r & Hr & Hgone); [by left|].
  apply Hgone. change (no_UID PodManagerRuns.claim1) with "claim-1" in Hr.
  rewrite lookup_singleton_eq in Hr. by injection Hr.
Defined.
End HookStateRuns.
