(* ===== verification/Goroutines.v ===== *)
(** * The handlers as threads

    The hooks of the kubelet and of the container runtime, the runner and the
    reconciliation, cut into the sections between which other goroutines can run: the
    operations of the pod manager, which hold its mutex, the calls that leave the
    process, and the reads of shared devices.  The text of each handler is that of its
    definition in Prepare.v, DriverHook.v, Nri.v or Controller.v; run on its own it does
    the same ([run_PrepareResourceClaims] and the like).

    Between the sections of a thread lie its operations on the shared state and its calls
    that leave the process; reads of what nothing changes in a prepared device are in the
    section of the operation they belong to.  The device-state manager has no lock: a
    reconciliation updates its maps in one section, and the configuration of a device
    reads them again wherever it uses the attributes. *)

From S2P Require Import Prelude Hoare Threads GoLib Consts K8sTypes VfConfigApi OpaqueConfig ClaimStatus Manager Prepared PodManager Controller Cdi Host Prepare DriverHook Cni Publish Nri HookState.

(** ** Preparing and unpreparing *)

Section prepare_threads.
Context `{RangeOrder} {E : Type} `{HostInterface E} `{DeviceInfoStore E} `{NadClient E}
  `{JsonLib} `{CdiLib E} `{Decoder}.

Definition forEachMultusDevice_go (action : PreparedDevice -> Call E (result unit))
    (preparedDevices : PreparedDevices) : prog (World E) (result unit) :=
  errs ← thread_each preparedDevices (fun p errs => atomic (multusDevice action p errs)) [];
  mret (join_errors errs).

Definition syncDeviceInfoFiles_go (preparedDevices : PreparedDevices) : prog (World E) (result unit) :=
  s ← atomic (gets w_manager);
  if negb (isMultusMode s) then mret (Ok tt)
  else forEachMultusDevice_go saveDeviceInfoForPreparedDevice preparedDevices.

Definition cleanDeviceInfoFiles_go (preparedDevices : PreparedDevices) : prog (World E) (result unit) :=
  s ← atomic (gets w_manager);
  if negb (isMultusMode s) then mret (Ok tt)
  else forEachMultusDevice_go cleanDeviceInfoForPreparedDevice preparedDevices.

Definition unprepareDevices_go (preparedDevices : PreparedDevices) : prog (World E) (result unit) :=
  thread_each_ok preparedDevices (fun p u => atomic (unprepareDevice p u)) tt.

(** The device that the manager has now; [device] was read earlier and shares its map of
    attributes. *)
Definition currentDevice (name : string) (device : Device) (s : Manager) : Device :=
  default device (allocatable s !! name).

(** The manager is read again wherever the attributes are. *)
Definition applyConfigOnDevice_go (ifNameIndex : Z) (claim : ResourceClaim) (config : VfConfig)
    (result_ : AllocationResult) : prog (World E) (result (loc * Z)) :=
  s ← atomic (gets w_manager);
  match allocatable s !! res_Device result_ with
  | None => mret (Err (errorf "device %s not found in allocatable devices" [res_Device result_]))
  | Some deviceInfo =>
      let '(multusResourceName, multusDeviceID) :=
        if isMultusMode s then
          let '(name, id, _) := extractMultusDeviceInfoAttrs (dev_Attributes deviceInfo) in (name, id)
        else ("", "") in
      pciAddress ← atomic (pciAddressOf deviceInfo);
      netAttachDefRawConfig ⇐? atomic (standaloneNetConf s claim config pciAddress);
      originalDriver ⇐? thread_err (errorw "error binding device %s to driver: %w" [pciAddress])
                          (atomic (ext (hi_BindDeviceDriver pciAddress config)));
      edits ⇐? atomic (fun w =>
        ext (collectEdits s config (currentDevice (res_Device result_) deviceInfo (w_manager w)) pciAddress
               originalDriver (res_Device result_)) w);
      let '(ifName, ifNameIndex) := chooseIfName s config ifNameIndex in
      podUID ← atomic (deref "index out of range [0]" (head (claim_ReservedFor claim)));
      l ← atomic (fun w =>
        new (preparedDeviceOf claim config result_ (currentDevice (res_Device result_) deviceInfo (w_manager w))
               podUID edits ifName pciAddress (multusResourceName, multusDeviceID) netAttachDefRawConfig
               originalDriver) w);
      mret (Ok (l, ifNameIndex))
  end.

Fixpoint prepareLoop_go (resultsConfig : gmap string VfConfig) (results : list AllocationResult)
    (ifNameIndex : Z) (claim : ResourceClaim) (preparedDevices : PreparedDevices)
  : prog (World E) (result PreparedDevices * (Z * ResourceClaim)) :=
  match results with
  | [] => mret (Ok preparedDevices, (ifNameIndex, claim))
  | r :: results =>
      if decide (res_Driver r ≠ DriverName) then
        prepareLoop_go resultsConfig results ifNameIndex claim preparedDevices
      else
        let config := Normalize (configForRequest resultsConfig (res_Request r)) in
        preparedDevice ← applyConfigOnDevice_go ifNameIndex claim config r;
        match preparedDevice with
        | Err err =>
            rollback ← unprepareDevices_go preparedDevices;
            mret (match rollback with
                  | Err rollbackErr =>
                      Err (Errorf "error applying config on device: %v; rollback failed: %v" []
                             [err; rollbackErr] [])
                  | Ok _ => Err (errorv "error applying config on device: %v" [] err)
                  end, (ifNameIndex, claim))
        | Ok (l, ifNameIndex) =>
            let claim := set_claim_Devices
                           (UpsertDeviceStatus (claim_Devices claim) (deviceStatus config r)) claim in
            prepareLoop_go resultsConfig results ifNameIndex claim (preparedDevices ++ [Some l])
        end
  end.

Definition rollbackPrepared_go (cause : error) (cleanupFmt : string) (preparedDevices : PreparedDevices)
  : prog (World E) error :=
  cleanup ← cleanDeviceInfoFiles_go preparedDevices;
  rollback ← unprepareDevices_go preparedDevices;
  mret (ErrJoin ([cause] ++
    match cleanup with Err e => [errorw cleanupFmt [] e] | Ok _ => [] end ++
    match rollback with Err e => [errorw "rollback failed: %w" [] e] | Ok _ => [] end)).

Definition PrepareDevicesForClaim_go (ifNameIndex : Z) (claim : ResourceClaim)
  : prog (World E) (result PreparedDevices * (Z * ResourceClaim)) :=
  allocation ← atomic (deref "claim.Status.Allocation" (claim_Allocation claim));
  match getMapOfOpaqueDeviceConfigForDevice (alloc_Config allocation) with
  | Err err =>
      mret (Err (errorv "error creating map of opaque device config for device: %v" [] err),
            (ifNameIndex, claim))
  | Ok resultsConfig =>
      '(prepared, st) ← prepareLoop_go resultsConfig (alloc_Results allocation) ifNameIndex claim [];
      match prepared with
      | Err err => mret (Err (errorv "prepare failed: %v" [] err), st)
      | Ok [] => mret (Err (errorf "no prepared devices found for claim" []), st)
      | Ok preparedDevices =>
          synced ← syncDeviceInfoFiles_go preparedDevices;
          match synced with
          | Err err =>
              e ← rollbackPrepared_go (errorv "unable to create device-info files for claim: %v" [] err)
                    "cleanup after device-info sync failure failed: %w" preparedDevices;
              mret (Err e, st)
          | Ok _ =>
              created ← atomic (CreateClaimSpecFile preparedDevices);
              match created with
              | Err err =>
                  e ← rollbackPrepared_go (errorv "unable to create CDI spec file for claim: %v" [] err)
                        "cleanup after CDI spec failure failed: %w" preparedDevices;
                  mret (Err e, st)
              | Ok _ => mret (Ok preparedDevices, st)
              end
          end
      end
  end.

Definition Unprepare_go (claimUID : string) (preparedDevices : PreparedDevices)
  : prog (World E) (result unit) :=
  cleaned ← cleanDeviceInfoFiles_go preparedDevices;
  unprepared ← unprepareDevices_go preparedDevices;
  deleted ← atomic (ext (DeleteSpecFile claimUID));
  podDeleted ← atomic (deletePodSpec preparedDevices);
  mret (join_errors
    (collect "unable to clean device-info files for claim: %v" cleaned ++
     collect "unprepare failed: %v" unprepared ++
     collect "unable to delete CDI spec file for PodUID: %v" deleted ++
     collect "unable to delete CDI spec file for PodUID: %v" podDeleted)).

(** *** On their own they are the handlers *)

Lemma run_forEachMultusDevice action ds :
  same_run (run (forEachMultusDevice_go action ds)) (forEachMultusDevice action ds).
Proof. apply run_bind; [apply run_each; intros; apply run_atomic|intros; apply run_ret]. Qed.

Lemma run_syncDeviceInfoFiles ds :
  same_run (run (syncDeviceInfoFiles_go ds)) (syncDeviceInfoFilesForPreparedDevicesIfNeeded ds).
Proof.
  apply run_bind; [apply run_atomic|]. intros s. destruct (negb _); [apply run_ret|apply run_forEachMultusDevice].
Qed.

Lemma run_cleanDeviceInfoFiles ds :
  same_run (run (cleanDeviceInfoFiles_go ds)) (cleanDeviceInfoFilesForPreparedDevicesIfNeeded ds).
Proof.
  apply run_bind; [apply run_atomic|]. intros s. destruct (negb _); [apply run_ret|apply run_forEachMultusDevice].
Qed.

Lemma run_unprepareDevices ds : same_run (run (unprepareDevices_go ds)) (unprepareDevices ds).
Proof. apply run_each_ok. intros. apply run_atomic. Qed.

Lemma standaloneNetConf_manager s claim config pci w o w' :
  standaloneNetConf s claim config pci w = (o, w') -> w_manager w' = w_manager w.
Proof.
  unfold standaloneNetConf. destruct (isStandaloneMode s); [|by intros [= _ <-]].
  unfold bind_ok, wrap_err, ext, AddDeviceIDToNetConf, mbind, M_bind, mret, M_ret. cbv zeta.
  destruct (getNetAttachDefRawConfig _ _ (w_env w)) as [[raw|err] e]; simpl; [|by intros [= _ <-]].
  unfold bind_ok, mbind, M_bind, mret, M_ret. destruct (json_Unmarshal_object raw) as [[c|]|err]; by intros [= _ <-].
Qed.

(** On its own nothing else changes the manager. *)
Lemma run_applyConfigOnDevice i claim config r :
  same_run (run (applyConfigOnDevice_go i claim config r)) (applyConfigOnDevice i claim config r).
Proof.
  intros w0. apply run_bind_at; [apply run_atomic|]. intros s w1 [= <- <-].
  destruct (allocatable (w_manager w0) !! res_Device r) as [dev|] eqn:Hdev; [|done].
  assert (Hsame : forall w : World E, w_manager w = w_manager w0 -> currentDevice (res_Device r) dev (w_manager w) = dev).
  { intros w ->. unfold currentDevice. by rewrite Hdev. }
  destruct (if isMultusMode (w_manager w0) then _ else _) as [name id].
  apply run_bind_at; [apply run_atomic|]. intros pci w1 Hpci.
  assert (Hw1 : w_manager w1 = w_manager w0).
  { unfold pciAddressOf in Hpci. by destruct (dev_Attributes dev !! _) as [[? ? [?|] ?]|]; injection Hpci as _ <-. }
  apply run_thread_ok_at; [apply run_atomic|]. intros raw w2 Hw2%standaloneNetConf_manager. rewrite Hw1 in Hw2.
  apply run_thread_ok_at; [apply run_thread_err, run_atomic|]. intros orig w3 Hbind.
  assert (Hw3 : w_manager w3 = w_manager w0).
  { unfold wrap_err, ext, mbind, M_bind in Hbind. destruct (hi_BindDeviceDriver _ _ _) as [o e]. by injection Hbind as _ <-. }
  apply run_thread_ok_at; [rewrite run_atomic; by rewrite Hsame|]. intros edits w4 Hedits.
  assert (Hw4 : w_manager w4 = w_manager w0).
  { unfold ext in Hedits. destruct (collectEdits _ _ _ _ _ _ _) as [o e]. by injection Hedits as _ <-. }
  destruct (chooseIfName _ _ _) as [ifName i'].
  apply run_bind_at; [apply run_atomic|]. intros pod w5 Hpod.
  assert (Hw5 : w_manager w5 = w_manager w0).
  { unfold deref in Hpod. by destruct (head _); injection Hpod as _ <-. }
  apply run_bind_at; [|by intros l w6 _]. rewrite run_atomic. by rewrite Hsame.
Qed.

Lemma run_prepareLoop rc results i claim ds :
  same_run (run (prepareLoop_go rc results i claim ds)) (prepareLoop rc results i claim ds).
Proof.
  revert i claim ds. induction results as [|r results IH]; intros i claim ds; [apply run_ret|].
  cbn [prepareLoop_go prepareLoop].
  destruct (decide _); [apply IH|]. apply run_bind; [apply run_applyConfigOnDevice|].
  intros [[l i']|err]; [apply IH|]. apply run_bind; [apply run_unprepareDevices|]. intros; apply run_ret.
Qed.

Lemma run_rollbackPrepared cause fmt ds :
  same_run (run (rollbackPrepared_go cause fmt ds)) (rollbackPrepared cause fmt ds).
Proof.
  apply run_bind; [apply run_cleanDeviceInfoFiles|]. intros cleanup.
  apply run_bind; [apply run_unprepareDevices|]. intros; apply run_ret.
Qed.

Lemma run_PrepareDevicesForClaim i claim :
  same_run (run (PrepareDevicesForClaim_go i claim)) (PrepareDevicesForClaim i claim).
Proof.
  apply run_bind; [apply run_atomic|]. intros allocation.
  destruct (getMapOfOpaqueDeviceConfigForDevice _) as [rc|err]; [|apply run_ret].
  assert (Hroll : forall cause fmt ds (st : Z * ResourceClaim),
    same_run (run (e ← rollbackPrepared_go cause fmt ds; mret (Err e : result PreparedDevices, st)))
      (e ← rollbackPrepared cause fmt ds; mret (Err e, st))).
  { intros cause fmt ds st. apply run_bind; [apply run_rollbackPrepared|]. intros; apply run_ret. }
  apply run_bind; [apply run_prepareLoop|]. intros [[[|x ds]|err] st]; [apply run_ret| |apply run_ret].
  apply run_bind; [apply run_syncDeviceInfoFiles|]. intros [[]|err]; [|apply Hroll].
  apply (run_bind (atomic _)); [apply run_atomic|]. intros [[]|err]; [apply run_ret|apply Hroll].
Qed.

Lemma run_Unprepare uid ds : same_run (run (Unprepare_go uid ds)) (Unprepare uid ds).
Proof.
  apply run_bind; [apply run_cleanDeviceInfoFiles|]. intros cleaned.
  apply run_bind; [apply run_unprepareDevices|]. intros unprepared.
  apply (run_bind (atomic _)); [apply run_atomic|]. intros deleted.
  apply (run_bind (atomic _)); [apply run_atomic|]. intros; apply run_ret.
Qed.
End prepare_threads.

(** ** The kubelet hooks *)

Section hook_threads.
Context `{RangeOrder} {E : Type} `{HostInterface E} `{DeviceInfoStore E} `{NadClient E}
  `{JsonLib} `{CdiLib E} `{Decoder} `{CheckpointManager E} `{ApiErrors} `{WaitLib E}
  `{ClaimClients E}.

Definition toKubelet_go (preparedDevices : PreparedDevices) : prog (World E) (list KubeletDevice) :=
  thread_each preparedDevices (fun p acc => atomic (appendKubelet p acc)) [].

Definition prepareResourceClaim_go (ifNameIndex : Z) (claim : ResourceClaim)
  : prog (World E) (PrepareResult * Z) :=
  match claim_ReservedFor claim with
  | [] => mret (prepareFailed (errorf "no pod info found for claim %s/%s/%s" (claimArgs claim)),
                ifNameIndex)
  | _ :: _ :: _ =>
      mret (prepareFailed (errorf "multiple pods found for claim %s/%s/%s not supported"
                             (claimArgs claim)), ifNameIndex)
  | [podUID] =>
      match claim_Allocation claim with
      | None => mret (prepareFailed (errorf "claim not yet allocated" []), ifNameIndex)
      | Some _ =>
          known ← atomic (gets (Get podUID (claim_UID claim)));
          match known with
          | Some preparedDevices =>
              prepared ← toKubelet_go preparedDevices;
              mret (mkPrepareResult prepared None, ifNameIndex)
          | None =>
              '(preparedDevices, (ifNameIndex, updated)) ← PrepareDevicesForClaim_go ifNameIndex claim;
              match preparedDevices with
              | Err err =>
                  mret (prepareFailed (errorw "error preparing devices for claim %v: %w"
                                         [claim_UID claim] err), ifNameIndex)
              | Ok preparedDevices =>
                  prepared ← toKubelet_go preparedDevices;
                  stored ← atomic (Set_ podUID (claim_UID claim) preparedDevices);
                  match stored with
                  | Err err =>
                      cleanup ← Unprepare_go (claim_UID claim) preparedDevices;
                      mret (match cleanup with
                            | Err cleanupErr =>
                                prepareFailed (Errorf "error setting prepared devices for pod %s into pod manager: %w; cleanup failed: %v"
                                                 [podUID] [cleanupErr] [err])
                            | Ok _ =>
                                prepareFailed (errorw "error setting prepared devices for pod %s into pod manager: %w"
                                                 [podUID] err)
                            end, ifNameIndex)
                  | Ok _ =>
                      _ ← atomic (outside (UpdateClaimStatusWithRetry (ResourceClaims (claim_Namespace claim))
                                             updated DriverName DefaultBackoff));
                      mret (mkPrepareResult prepared None, ifNameIndex)
                  end
              end
          end
      end
  end.

Definition unprepareResourceClaim_go (claim : NamespacedObject) : prog (World E) (result unit) :=
  known ← atomic (gets (GetByClaim claim));
  match known with
  | None => mret (Ok tt)
  | Some preparedDevices =>
      _ ⇐? thread_err (errorw "error unpreparing devices for claim %v: %w" [no_UID claim])
             (Unprepare_go (no_UID claim) preparedDevices);
      thread_err (errorw "error deleting claim %s from pod manager: %w" [no_UID claim])
        (atomic (DeleteClaim claim))
  end.

Definition UnprepareResourceClaims_go (claims : list NamespacedObject)
  : prog (World E) (gmap string (result unit)) :=
  thread_each claims (fun claim result =>
    r ← unprepareResourceClaim_go claim; mret (<[no_UID claim := r]> result)) ∅.

Definition rollbackPreparedClaims_go (claims : list (option ResourceClaim)) : prog (World E) (result unit) :=
  errs ← thread_each claims (fun claim errs =>
    match claim with
    | None => mret errs
    | Some claim =>
        r ← unprepareResourceClaim_go (claimObject claim);
        mret (match r with
              | Err err => errs ++ [errorw "failed to rollback claim %s: %w" [claim_UID claim] err]
              | Ok _ => errs
              end)
    end) [];
  mret (join_errors errs).

Definition podPciAddresses_go (preparedDevices : PreparedDevices) : prog (World E) (result (list string)) :=
  thread_each_ok preparedDevices (fun p acc => atomic (podPciAddress p acc)) [].

Definition failPrepare_go (claims : list (option ResourceClaim)) (baseErr : error) (cleanupFmt : string)
  : prog (World E) error :=
  cleanup ← rollbackPreparedClaims_go claims;
  mret (match cleanup with
        | Err cleanupErr => ErrJoin [baseErr; errorw cleanupFmt [] cleanupErr]
        | Ok _ => baseErr
        end).

Definition PrepareResourceClaims_go (claims : list (option ResourceClaim))
  : prog (World E) (gmap string PrepareResult * option error) :=
  if decide (length claims = 0) then mret (∅, None)
  else
    '(result, _) ← thread_each claims (fun claim '(result, ifNameIndex) =>
      claim ← atomic (deref "claim.UID" claim);
      '(r, ifNameIndex) ← prepareResourceClaim_go ifNameIndex claim;
      mret (<[claim_UID claim := r]> result, ifNameIndex)) (∅, 0%Z);
    let podUID := podOfClaims claims in
    if decide (podUID = "") then
      mret (result, Some (errorf "no pod info found for prepared claims" []))
    else
      known ← atomic (gets (GetDevicesByPodUID podUID));
      match known with
      | None => mret (result, Some (errorf "no prepared devices found for pod %s" [podUID]))
      | Some preparedDevices =>
          pciAddresses ← podPciAddresses_go preparedDevices;
          match pciAddresses with
          | Err baseErr =>
              err ← failPrepare_go claims baseErr "cleanup failed after prepare error: %w";
              mret (result, Some err)
          | Ok pciAddresses =>
              created ← atomic (ext (CreateGlobalPodSpecFile podUID pciAddresses));
              match created with
              | Err err =>
                  err ← failPrepare_go claims (errorw "error creating global spec file for pod: %w" [] err)
                          "cleanup failed after global spec error: %w";
                  mret (result, Some err)
              | Ok _ => mret (result, None)
              end
          end
      end.

(** *** On their own *)

Lemma run_toKubelet ds : same_run (run (toKubelet_go ds)) (toKubelet ds).
Proof. apply run_each. intros. apply run_atomic. Qed.

Lemma run_prepareResourceClaim i claim :
  same_run (run (prepareResourceClaim_go i claim)) (prepareResourceClaim i claim).
Proof.
  unfold prepareResourceClaim_go, prepareResourceClaim.
  destruct (claim_ReservedFor claim) as [|pod [|]]; [apply run_ret| |apply run_ret].
  destruct (claim_Allocation claim) as [allocation|]; [|apply run_ret].
  apply run_bind; [apply run_atomic|]. intros [ds|].
  - apply run_bind; [apply run_toKubelet|]. intros; apply run_ret.
  - apply run_bind; [apply run_PrepareDevicesForClaim|]. intros [[ds|err] [i' updated]]; [|apply run_ret].
    apply run_bind; [apply run_toKubelet|]. intros prepared.
    apply run_bind; [apply run_atomic|]. intros [[]|err].
    + apply run_bind; [apply run_atomic|]. intros; apply run_ret.
    + apply run_bind; [apply run_Unprepare|]. intros; apply run_ret.
Qed.

Lemma run_unprepareResourceClaim claim :
  same_run (run (unprepareResourceClaim_go claim)) (unprepareResourceClaim claim).
Proof.
  apply run_bind; [apply run_atomic|]. intros [ds|]; [|apply run_ret].
  apply run_thread_ok; [apply run_thread_err, run_Unprepare|]. intros _.
  apply run_thread_err, run_atomic.
Qed.

Lemma run_UnprepareResourceClaims claims :
  same_run (run (UnprepareResourceClaims_go claims)) (UnprepareResourceClaims claims).
Proof.
  apply run_each. intros claim result. apply run_bind; [apply run_unprepareResourceClaim|].
  intros; apply run_ret.
Qed.

Lemma run_failPrepare claims err fmt : same_run (run (failPrepare_go claims err fmt)) (failPrepare claims err fmt).
Proof.
  apply run_bind; [|intros; apply run_ret]. apply run_bind; [|intros; apply run_ret].
  apply run_each. intros [claim|] errs; [|apply run_ret].
  apply run_bind; [apply run_unprepareResourceClaim|]. intros; apply run_ret.
Qed.

Lemma run_PrepareResourceClaims claims :
  same_run (run (PrepareResourceClaims_go claims)) (PrepareResourceClaims claims).
Proof.
  unfold PrepareResourceClaims_go, PrepareResourceClaims. destruct (decide _); [apply run_ret|].
  apply run_bind.
  { apply run_each. intros claim [result i]. apply run_bind; [apply run_atomic|]. intros c.
    apply run_bind; [apply run_prepareResourceClaim|]. intros [r i']. apply run_ret. }
  intros [result i]. destruct (decide _); [apply run_ret|].
  apply run_bind; [apply run_atomic|]. intros [ds|]; [|apply run_ret].
  assert (Hfail : forall err fmt,
    same_run (run (err ← failPrepare_go claims err fmt; mret (result, Some err)))
      (err ← failPrepare claims err fmt; mret (result, Some err))).
  { intros err fmt. apply run_bind; [apply run_failPrepare|]. intros; apply run_ret. }
  apply run_bind; [apply run_each_ok; intros; apply run_atomic|]. intros [pcis|err]; [|apply Hfail].
  apply run_bind; [apply run_atomic|]. intros [[]|err]; [apply run_ret|apply Hfail].
Qed.
End hook_threads.

(** ** The NRI plugin *)

Section nri_threads.
Context `{RangeOrder} {E : Type} `{JsonLib} `{!StatusJson} `{CniLib E} `{CheckpointManager E}
  `{ApiErrors} `{WaitLib E} `{ClaimClients E} `{ClaimReader E} `{MetadataUpdater E} (p : Plugin).

Definition updateClaim_go (claimKey : networkClaimKey) (claimUpdates : NetworkDataChanStructList)
  : prog (World E) unit :=
  let '(namespace, name, uid) := claimKey in
  fetched ← atomic (ext (ClientGetClaim namespace name));
  match fetched with
  | Err _ => mret tt
  | Ok claim =>
      if decide (uid ≠ "" /\ claim_UID claim ≠ uid) then mret tt
      else
        let statusDeviceIndex := buildClaimStatusDeviceIndex claim in
        '(claim, hasClaimStatusUpdates) ←
          thread_each claimUpdates (fun item st => atomic (applyUpdate statusDeviceIndex item st)) (claim, false);
        if negb hasClaimStatusUpdates then mret tt
        else _ ← atomic (updateClaimNetworkDataWithRetry claim); mret tt
  end.

Definition updateNetworkDeviceData_go (networkDataChanStructList : NetworkDataChanStructList)
  : prog (World E) unit :=
  groupedByClaim ← atomic (groupNetworkDataByClaim networkDataChanStructList);
  thread_each (range groupedByClaim) (fun '(claimKey, claimUpdates) _ => updateClaim_go claimKey claimUpdates) tt.

Definition updateRequestMetadata_go (networkDataList : NetworkDataChanStructList)
  : prog (World E) (result unit) :=
  if negb (enableDeviceMetadata p) || negb (hasMetadataUpdater p) then mret (Ok tt)
  else
    updates ← thread_each networkDataList (fun item updates => atomic (addMetadata item updates)) ∅;
    thread_each_ok (range updates) (fun '(key, update) _ => atomic (updateDeviceMetadata p key update)) tt.

Definition RunPodSandbox_go (pod : PodSandbox)
  : prog (World E) (result (option NetworkDataChanStructList)) :=
  found ← atomic (gets (GetDevicesByPodUID (pod_Uid pod)));
  match found with
  | None => mret (Ok None)
  | Some devices =>
      let networkNamespace := getNetworkNamespace pod in
      if decide (networkNamespace = "") then mret (Ok None)
      else
        networkDevicesData ⇐? thread_each_ok devices
                                (fun device acc => atomic (attachDevice pod networkNamespace device acc)) [];
        _ ⇐? thread_err (errorw "failed to update request metadata before pod start: %w" [])
               (updateRequestMetadata_go networkDevicesData);
        mret (Ok (Some networkDevicesData))
  end.

Definition StopPodSandbox_go (pod : PodSandbox) : prog (World E) (result unit) :=
  found ← atomic (gets (GetDevicesByPodUID (pod_Uid pod)));
  match found with
  | None => mret (Ok tt)
  | Some devices =>
      let networkNamespace := getNetworkNamespace pod in
      if decide (networkNamespace = "") then
        mret (Err (errorf "error getting network namespace for pod '%s' in namespace '%s'"
                     [pod_Name pod; pod_Namespace pod]))
      else thread_each_ok devices (fun device u => atomic (detachDevice pod networkNamespace device u)) tt
  end.

Lemma run_updateClaim key items : same_run (run (updateClaim_go key items)) (updateClaim key items).
Proof.
  destruct key as [[namespace name] uid]. apply (run_bind (atomic _)); [apply run_atomic|].
  intros [claim|err]; [|apply run_ret]. destruct (decide _); [apply run_ret|].
  apply run_bind; [apply run_each; intros; apply run_atomic|].
  intros [claim' []]; cbn [negb]; [|apply run_ret]. apply (run_bind (atomic _)); [apply run_atomic|].
  intros; apply run_ret.
Qed.

Lemma run_updateNetworkDeviceData items :
  same_run (run (updateNetworkDeviceData_go items)) (updateNetworkDeviceData items).
Proof.
  apply run_bind; [apply run_atomic|]. intros grouped. apply run_each. intros [key updates] []. apply run_updateClaim.
Qed.

Lemma run_updateRequestMetadata items :
  same_run (run (updateRequestMetadata_go items)) (updateRequestMetadataBeforeSandboxStart p items).
Proof.
  unfold updateRequestMetadata_go, updateRequestMetadataBeforeSandboxStart.
  destruct (_ || _); [apply run_ret|]. apply run_bind; [apply run_each; intros; apply run_atomic|].
  intros updates. apply run_each_ok. intros [key update] []. apply run_atomic.
Qed.

Lemma run_RunPodSandbox pod : same_run (run (RunPodSandbox_go pod)) (RunPodSandbox p pod).
Proof.
  apply run_bind; [apply run_atomic|]. intros [devices|]; [|apply run_ret].
  cbv zeta. destruct (decide _); [apply run_ret|].
  apply run_thread_ok; [apply run_each_ok; intros; apply run_atomic|]. intros items.
  apply run_thread_ok; [apply run_thread_err, run_updateRequestMetadata|]. intros; apply run_ret.
Qed.

Lemma run_StopPodSandbox pod : same_run (run (StopPodSandbox_go pod)) (StopPodSandbox pod).
Proof.
  apply run_bind; [apply run_atomic|]. intros [devices|]; [|apply run_ret].
  cbv zeta. destruct (decide _); [apply run_ret|]. apply run_each_ok. intros. apply run_atomic.
Qed.
End nri_threads.

(** ** The reconciliation *)

Section reconcile_thread.
Context `{RangeOrder} `{SliceSort} `{LabelSelectors} `{ApiErrors} {E : Type} `{PolicyClient E}
  `{KubeletHelper E} (nodeName namespace : string).

(** The update of the manager's maps, with [changesMade]. *)
Definition updatePolicies (policyDevices : PolicyDevices) : M (World E) bool := on_manager (fun '(s, e) =>
  let '(s, changesMade) := updatePolicyState policyDevices s in (Ret changesMade, (s, e))).

Definition UpdatePolicyDevices_go (policyDevices : PolicyDevices) : prog (World E) (result unit) :=
  changesMade ← atomic (updatePolicies policyDevices);
  if negb changesMade then mret (Ok tt)
  else
    s ← atomic (gets w_manager);
    thread_err (errorw "failed to republish resources: %w" []) (atomic (outside (republishCallback nodeName s))).

Definition Reconcile_go : prog (World E) ReconcileResult :=
  node ← atomic (ext (GetNode nodeName));
  match node with
  | Err err =>
      if IsNotFound err then mret (mkReconcileResult 30000000000 None)
      else mret (mkReconcileResult 0 (Some err))
  | Ok nodeLabels =>
      resourcePolicyList ← atomic (ext (ListPolicies namespace));
      match resourcePolicyList with
      | Err err => mret (mkReconcileResult 0 (Some err))
      | Ok items =>
          deviceAttrList ← atomic (ext (ListDeviceAttributes namespace));
          match deviceAttrList with
          | Err err => mret (mkReconcileResult 0 (Some err))
          | Ok attrs =>
              allocatableDevices ← atomic (gets (fun w => GetAllocatableDevices (w_manager w)));
              let policyDevices := getPolicyDeviceMap allocatableDevices
                                     (matchingPolicies nodeLabels items) attrs in
              updated ← UpdatePolicyDevices_go policyDevices;
              match updated with
              | Err err => mret (mkReconcileResult 0 (Some err))
              | Ok _ => mret (mkReconcileResult 0 None)
              end
          end
      end
  end.

#[local] Instance reconciled : DeviceState Manager E := manager_state (Some (republishCallback nodeName)).

Lemma run_UpdatePolicyDevices pd :
  same_run (run (UpdatePolicyDevices_go pd))
    (on_manager (UpdatePolicyDevices (Some (republishCallback nodeName)) pd)).
Proof.
  intros w. unfold UpdatePolicyDevices_go, UpdatePolicyDevices, updatePolicies, on_manager. simpl.
  unfold mbind, M_bind, on_manager. simpl. destruct (updatePolicyState pd (w_manager w)) as [s []]; simpl.
  2: by destruct w.
  unfold mbind, M_bind, outside, republishCallback. simpl.
  by destruct (PublishResources nodeName s (w_env w)) as [[[]|err] e].
Qed.

Lemma on_manager_ret {A} (a : A) : same_run (on_manager (E:=E) (mret a)) (mret a).
Proof. by intros []. Qed.

Lemma on_manager_bind {A B} (m : M (Manager * E) A) (k : A -> M (Manager * E) B) :
  same_run (on_manager (m ≫= k)) (on_manager m ≫= fun a => on_manager (k a)).
Proof.
  intros w. unfold on_manager, mbind, M_bind.
  by destruct (m (w_manager w, w_env w)) as [[a|why] [s e]].
Qed.

Lemma on_manager_api {A} (c : Call E A) : same_run (on_manager (api c)) (ext c).
Proof. intros w. unfold on_manager, api, ext. by destruct (c (w_env w)). Qed.

(** A thread that does what a computation on the manager does, from their parts. *)
Lemma run_bind_manager {A B} (p : prog (World E) A) (k : A -> prog (World E) B) m n :
  same_run (run p) (on_manager m) -> (forall a, same_run (run (k a)) (on_manager (n a))) ->
  same_run (run (p ≫= k)) (on_manager (m ≫= n)).
Proof.
  intros Hp Hk. etrans; [exact (run_bind p k (on_manager m) (fun a => on_manager (n a)) Hp Hk)|].
  symmetry. apply on_manager_bind.
Qed.

Lemma run_ret_manager {A} (a : A) : same_run (run (mret a : prog (World E) A)) (on_manager (mret a)).
Proof. etrans; [apply run_ret|]. symmetry. apply on_manager_ret. Qed.

Lemma run_ext_manager {A} (c : Call E A) : same_run (run (atomic (ext c))) (on_manager (api c)).
Proof. etrans; [apply run_atomic|]. symmetry. apply on_manager_api. Qed.

Lemma run_Reconcile : same_run (run Reconcile_go) (on_manager (Reconcile nodeName namespace)).
Proof.
  apply run_bind_manager; [apply run_ext_manager|]. intros [labels|err].
  2: { destruct (IsNotFound err); apply run_ret_manager. }
  apply run_bind_manager; [apply run_ext_manager|]. intros [items|err]; [|apply run_ret_manager].
  apply run_bind_manager; [apply run_ext_manager|]. intros [attrs|err]; [|apply run_ret_manager].
  apply run_bind_manager; [etrans; [apply run_atomic|]; by intros []|]. intros allocatable.
  apply run_bind_manager; [apply run_UpdatePolicyDevices|]. intros [[]|err]; apply run_ret_manager.
Qed.
End reconcile_thread.
