(* ===== verification/Interference.v ===== *)
(** * The handlers among others

    The threads of Goroutines.v when other goroutines run between their sections.  What
    they rely on and keep is [world_ok], and that the heap evolves: devices are never
    dropped from it, and nothing of them but their network data changes.  Under that each
    handler is safe, and what it answers stays true ([ks_PrepareResourceClaims] and
    the like). *)

From S2P Require Import Prelude Hoare Threads GoLib Consts K8sTypes VfConfigApi OpaqueConfig ClaimStatus Manager Prepared PodManager Controller Cdi Host Prepare DriverHook Cni Publish Nri HookState Goroutines.

(** ** Facts that last *)

(** What holds of a heap holds of the later ones. *)
Class Evolving (P : Heap -> Prop) : Prop := evolving h h' : evolves h h' -> P h -> P h'.

#[export] Instance evolving_const (H : Prop) : Evolving (fun _ => H).
Proof. by intros h h' _. Qed.
#[export] Instance evolving_and P Q : Evolving P -> Evolving Q -> Evolving (fun h => P h /\ Q h).
Proof. intros HP HQ h h' He [? ?]. by split; [apply (HP h h' He)|apply (HQ h h' He)]. Qed.
#[export] Instance evolving_forall {A} (P : A -> Heap -> Prop) :
  (forall a, Evolving (P a)) -> Evolving (fun h => forall a, P a h).
Proof. intros HP h h' He Hall a. by apply (HP a h h' He). Qed.
#[export] Instance evolving_exists {A} (P : A -> Heap -> Prop) :
  (forall a, Evolving (P a)) -> Evolving (fun h => exists a, P a h).
Proof. intros HP h h' He [a Ha]. exists a. by apply (HP a h h' He). Qed.
#[export] Instance evolving_impl (H : Prop) P : Evolving P -> Evolving (fun h => H -> P h).
Proof. intros HP h h' He Himp HH. by apply (HP h h' He), Himp. Qed.
#[export] Instance evolving_Forall {A} (P : A -> Heap -> Prop) l :
  (forall a, Evolving (P a)) -> Evolving (fun h => Forall (fun a => P a h) l).
Proof. intros HP h h' He Hall. eapply Forall_impl; [exact Hall|]. intros a Ha. by apply (HP a h h' He). Qed.
#[export] Instance evolving_option {A} (P : A -> Heap -> Prop) (o : option A) :
  (forall a, Evolving (P a)) -> Evolving (fun h => match o with Some a => P a h | None => True end).
Proof. intros HP. destruct o; [apply HP|apply evolving_const]. Qed.
#[export] Instance evolving_result {A} (P : A -> Heap -> Prop) (r : result A) :
  (forall a, Evolving (P a)) -> Evolving (fun h => match r with Ok a => P a h | Err _ => True end).
Proof. intros HP. destruct r; [apply HP|apply evolving_const]. Qed.

Definition live_list (ds : PreparedDevices) (h : Heap) : Prop := forall x, x ∈ ds -> live_ptr h x.

(** Every pointer is to a device prepared for the claim of the pod, with CDI edits. *)
Definition ready (pod uid : string) (x : option loc) (h : Heap) : Prop :=
  exists l d, x = Some l /\ h !! l = Some d /\ pd_PodUID d = pod /\
    no_UID (pd_ClaimNamespacedName d) = uid /\ is_Some (pd_ContainerEdits d).
Definition ready_list (pod uid : string) (ds : PreparedDevices) (h : Heap) : Prop :=
  forall x, x ∈ ds -> ready pod uid x h.

(** The kubelet was told of a device that was prepared for the claim of the pod. *)
Definition told (pod uid : string) (kd : KubeletDevice) (h : Heap) : Prop :=
  exists l d nd, h !! l = Some (SetNetworkDeviceData nd d) /\ pd_PodUID d = pod /\
    no_UID (pd_ClaimNamespacedName d) = uid /\ kd = ToKubeletPluginDevice d None.

#[export] Instance evolving_live_list ds : Evolving (live_list ds).
Proof.
  intros h h' He Hl x Hx. destruct (Hl x Hx) as (l & -> & Hd). exists l. split; [done|by eapply evolves_live].
Qed.
#[export] Instance evolving_ready pod uid x : Evolving (ready pod uid x).
Proof.
  intros h h' He (l & d & -> & Hd & Hp & Hu & Hc). destruct (He l d Hd) as [nd Hnd].
  by exists l, (SetNetworkDeviceData nd d).
Qed.
#[export] Instance evolving_ready_list pod uid ds : Evolving (ready_list pod uid ds).
Proof. unfold ready_list. apply _. Qed.
(** What configuring a device gives, and preparing a claim. *)
Definition applied_answer (pod uid : string) (res : result (loc * Z)) (h : Heap) : Prop :=
  match res with Ok (l, _) => ready pod uid (Some l) h | Err _ => True end.
#[export] Instance evolving_applied_answer pod uid res : Evolving (applied_answer pod uid res).
Proof. destruct res as [[l i]|err]; unfold applied_answer; apply _. Qed.

Definition prepared_answer (pod uid : string) (res : result PreparedDevices * (Z * ResourceClaim)) (h : Heap) : Prop :=
  match res.1 with Ok ds => ready_list pod uid ds h | Err _ => True end.
#[export] Instance evolving_prepared_answer pod uid res : Evolving (prepared_answer pod uid res).
Proof. destruct res as [[ds|err] st]; unfold prepared_answer; simpl; apply _. Qed.
#[export] Instance evolving_told pod uid kd : Evolving (told pod uid kd).
Proof.
  intros h h' He (l & d & nd & Hd & Hp & Hu & ->). destruct (He l _ Hd) as [nd' Hnd]. by exists l, d, nd'.
Qed.

Lemma ready_filed pod uid x h : ready pod uid x h -> filed h pod uid x.
Proof. intros (l & d & -> & Hd & Hp & Hu & _). by exists l, d. Qed.

Lemma ready_list_live pod uid ds h : ready_list pod uid ds h -> live_list ds h.
Proof. intros Hr x Hx. by eapply filed_live, ready_filed, Hr. Qed.

Lemma live_list_valid ds h : live_list ds h -> valid_devices h ds.
Proof. intros Hl l Hin. by destruct (Hl _ Hin) as (l' & [= <-] & Hd). Qed.

Lemma live_list_elem x ds h : live_list ds h -> x ∈ ds -> valid_devices h [x].
Proof. intros Hl Hx. apply live_list_valid. intros y ->%list_elem_of_singleton. by apply Hl. Qed.

Lemma filed_list_live pod uid ds h : (forall x, x ∈ ds -> filed h pod uid x) -> live_list ds h.
Proof. intros Hf x Hx. by eapply filed_live, Hf. Qed.

(** ** Where network data comes from *)

Section sources.
Context {E : Type} `{JsonLib} `{!StatusJson} `{CniLib E}.

(** [nd] is the network data of an addition of the device's network to its own pod. *)
Definition attachment (d : PreparedDevice) (nd : NetworkDeviceData) : Prop :=
  exists pod, pod_Uid pod = pd_PodUID d /\ attached (E:=E) pod (getNetworkNamespace pod) d nd.

(** All network data of the heap is of the first heap, or such an addition. *)
Definition sourced (h0 h : Heap) : Prop := forall l d nd,
  h !! l = Some d -> pd_NetworkDeviceData d = Some nd ->
  (exists d0, h0 !! l = Some d0 /\ pd_NetworkDeviceData d0 = Some nd) \/ attachment d nd.

(** So is that of the items. *)
Definition sourced_items (items : NetworkDataChanStructList) (h : Heap) : Prop := forall it l,
  Some it ∈ items -> nc_PreparedDevice it = Some l ->
  exists d nd, h !! l = Some d /\ nc_NetworkDeviceData it = Some nd /\ attachment d nd.

Lemma attachment_network d nd nd' : attachment d nd -> attachment (SetNetworkDeviceData nd' d) nd.
Proof. done. Qed.

#[export] Instance evolving_sourced_items items : Evolving (sourced_items items).
Proof.
  intros h h' He Hs it l Hit Hl. destruct (Hs it l Hit Hl) as (d & nd & Hd & Hnd & Ha).
  destruct (He l d Hd) as [nd' Hd']. by exists (SetNetworkDeviceData nd' d), nd.
Qed.

Lemma sourced_items_valid items h : sourced_items items h -> valid_items h items.
Proof. intros Hs it l Hit Hl. destruct (Hs it l Hit Hl) as (d & nd & Hd & _). by eexists. Qed.

Lemma sourced_items_sub items items' h :
  (forall it, it ∈ items' -> it ∈ items) -> sourced_items items h -> sourced_items items' h.
Proof. intros Hsub Hs it l Hit. by apply Hs, Hsub. Qed.

Lemma sourced_new h0 h l d : pd_NetworkDeviceData d = None -> sourced h0 h -> sourced h0 (<[l := d]> h).
Proof. intros Hd Hs l' d' nd [[<- <-]|[_ Hl]]%lookup_insert_Some Hnd; [congruence|by eapply Hs]. Qed.

Lemma sourced_record h0 h item : sourced_items [item] h -> sourced h0 h -> sourced h0 (record_item h item).
Proof.
  intros Hi Hs l d nd Hd Hnd. destruct item as [it|]; simpl in Hd; [|by eapply Hs].
  destruct (nc_PreparedDevice it) as [l'|] eqn:Hl'; [|by eapply Hs].
  rewrite lookup_alter in Hd. case_decide as Heq; [|by eapply Hs]. subst l'.
  destruct (Hi it l) as (d' & nd' & Hd' & Hn & Ha); [by left|done|].
  rewrite Hd' in Hd. injection Hd as <-. simpl in Hnd. rewrite Hn in Hnd. injection Hnd as <-.
  right. by apply attachment_network.
Qed.

Lemma evolves_record_item h item : evolves h (record_item h item).
Proof. apply (evolves_recorded [item]). Qed.
End sources.

(** ** The rely and the guarantee *)

Section interference.
Context {E : Type} `{JsonLib} `{!StatusJson} `{CniLib E}.
Context (q : Prop) (m0 : Manager) (h0 : Heap).
Implicit Types (w : World E) (h : Heap) (t : PreparedClaimsByPodUID).

(** The state between two sections, when discovery found the devices of [m0] and the
    first heap was [h0]. *)
Record world_ok w : Prop := {
  wok_manager : manager_ok (w_manager w);
  wok_addressed : addressed (w_manager w);
  wok_discovery d : option_Forall2 same_discovery (allocatable m0 !! d) (allocatable (w_manager w) !! d);
  wok_mode : configurationMode (w_manager w) = configurationMode m0;
  wok_table : table_ok (w_heap w) (w_claims w);
  wok_sourced : sourced (E:=E) h0 (w_heap w)
}.

Definition later w w' : Prop := evolves (w_heap w) (w_heap w').

#[export] Instance later_preorder : PreOrder later.
Proof. split; [intros w; unfold later; done|]. intros a b c Hab Hbc. unfold later in *. by etrans. Qed.

(** The thread is safe, and its answer has a property that lasts. *)
Definition keeps_safe {A} (p : prog (World E) A) (P : A -> Heap -> Prop) w : Prop :=
  safe q world_ok later p (fun a w => P a (w_heap w)) w.

(** The thread is safe, whatever it answers. *)
Definition quiet {A} (p : prog (World E) A) w : Prop := keeps_safe p (fun _ _ => True) w.

Lemma ks_ret {A} (a : A) (P : A -> Heap -> Prop) w :
  Evolving (P a) -> P a (w_heap w) -> keeps_safe (mret a) P w.
Proof. intros HP Ha w' Hw _. by apply (HP _ _ Hw). Qed.

Lemma ks_bind {A B} (p : prog (World E) A) (k : A -> prog (World E) B) P Q w :
  keeps_safe p P w ->
  (forall a w', later w w' -> world_ok w' -> P a (w_heap w') -> keeps_safe (k a) Q w') ->
  keeps_safe (p ≫= k) Q w.
Proof. intros Hp Hk. eapply safe_bind; [apply _|exact Hp|exact Hk]. Qed.

Lemma ks_weaken {A} (p : prog (World E) A) (P Q : A -> Heap -> Prop) w :
  keeps_safe p P w -> (forall a h, P a h -> Q a h) -> keeps_safe p Q w.
Proof. intros Hp HPQ. eapply safe_weaken; [exact Hp|]. intros a w' _. apply HPQ. Qed.

Lemma ks_later {A} (p : prog (World E) A) P w w' : later w w' -> keeps_safe p P w -> keeps_safe p P w'.
Proof. intros Hw. apply safe_later; [apply _|exact Hw]. Qed.

(** A section, from a triple for it. *)
Lemma ks_atomic {A} (m : M (World E) A) (P : A -> Heap -> Prop) w :
  (forall a, Evolving (P a)) ->
  (forall h t mg, evolves (w_heap w) h -> table_ok h t -> sourced (E:=E) h0 h -> addressed mg ->
     triple q (at_core h t mg) m (fun a w' => exists h' t', evolves h h' /\ table_ok h' t' /\
       sourced (E:=E) h0 h' /\ P a h' /\ at_core h' t' mg w')) ->
  keeps_safe (atomic m) P w.
Proof.
  intros HP Hm w1 Hw1 Hok. simpl.
  specialize (Hm _ (w_claims w1) (w_manager w1) Hw1 (wok_table _ Hok) (wok_sourced _ Hok) (wok_addressed _ Hok)
                w1 ltac:(by split_and!)).
  destruct (m w1) as [[a|why] w2]; [|done].
  destruct Hm as (h' & t' & He & Ht & Hs & Ha & <- & <- & Hmg). split_and!.
  - destruct Hok. constructor; rewrite ?Hmg; done.
  - exact He.
  - intros w3 Hw3 _. by apply (HP a _ _ Hw3).
Qed.

(** A section that keeps the state. *)
Lemma ks_core {A} (m : M (World E) A) (P : A -> Heap -> Prop) w :
  (forall a, Evolving (P a)) ->
  (forall h t mg, evolves (w_heap w) h -> table_ok h t -> addressed mg ->
     triple q (at_core h t mg) m (fun a w' => P a h /\ at_core h t mg w')) ->
  keeps_safe (atomic m) P w.
Proof.
  intros HP Hm. apply ks_atomic; [done|]. intros h t mg He Ht Hs Ha.
  eapply triple_weaken; [by apply Hm|done|]. intros a w' [HPa Hw]. exists h, t. by split_and!.
Qed.

Lemma quiet_core {A} (m : M (World E) A) w :
  (forall h t mg, evolves (w_heap w) h -> table_ok h t -> addressed mg ->
     triple q (at_core h t mg) m (fun _ => at_core h t mg)) ->
  quiet (atomic m) w.
Proof.
  intros Hm. apply ks_core; [apply _|]. intros h t mg He Ht Ha. eapply triple_weaken; [by apply Hm|done|done].
Qed.

Lemma quiet_ext {A} (c : Call E A) w : quiet (atomic (ext c)) w.
Proof. apply quiet_core. intros. apply triple_ext_core. Qed.

Lemma quiet_gets {A} (f : World E -> A) w : quiet (atomic (gets f)) w.
Proof. apply quiet_core. intros. by apply triple_gets. Qed.

Lemma quiet_ret {A} (a : A) w : quiet (mret a) w.
Proof. apply ks_ret; [apply _|done]. Qed.

Lemma ks_quiet {A} (p : prog (World E) A) P w : keeps_safe p P w -> quiet p w.
Proof. intros Hp. by eapply ks_weaken. Qed.

(** A quiet thread first. *)
Lemma ks_then {A B} (p : prog (World E) A) (k : A -> prog (World E) B) Q w :
  quiet p w -> (forall a w', later w w' -> keeps_safe (k a) Q w') -> keeps_safe (p ≫= k) Q w.
Proof. intros Hp Hk. eapply ks_bind; [exact Hp|]. intros a w' Hw _ _. by apply Hk. Qed.

(** A loop, with an invariant on the elements done and the variables. *)
Lemma ks_each {A S} (l : list A) (body : A -> S -> prog (World E) S) (J : list A -> S -> Heap -> Prop) s w :
  (forall done s, Evolving (J done s)) ->
  (forall done x rest s w', l = done ++ x :: rest -> later w w' -> J done s (w_heap w') ->
     keeps_safe (body x s) (J (done ++ [x])) w') ->
  J [] s (w_heap w) -> keeps_safe (thread_each l body s) (J l) w.
Proof.
  intros HJ Hbody. apply (safe_each q world_ok later _ _ (fun done s w => J done s (w_heap w))).
  - intros done s' w1 w2 He. by apply (HJ done s').
  - intros done x rest s' w' Hl Hw _. by eapply Hbody.
Qed.

Lemma quiet_each {A S} (l : list A) (body : A -> S -> prog (World E) S) s w :
  (forall x s w', x ∈ l -> later w w' -> quiet (body x s) w') -> quiet (thread_each l body s) w.
Proof.
  intros Hbody. apply (ks_each _ _ (fun _ _ _ => True)); [apply _| |done].
  intros done x rest s' w' -> Hw _. apply Hbody; [set_solver|done].
Qed.

Lemma ks_each_ok {A S} (l : list A) (body : A -> S -> prog (World E) (result S))
    (J : list A -> S -> Heap -> Prop) s w :
  (forall done s, Evolving (J done s)) ->
  (forall done x rest s w', l = done ++ x :: rest -> later w w' -> J done s (w_heap w') ->
     keeps_safe (body x s) (fun r h => match r with Ok s => J (done ++ [x]) s h | Err _ => True end) w') ->
  J [] s (w_heap w) ->
  keeps_safe (thread_each_ok l body s) (fun r h => match r with Ok s => J l s h | Err _ => True end) w.
Proof.
  intros HJ Hbody. apply (safe_each_ok q world_ok later _ _ (fun done s w => J done s (w_heap w))); [..|done].
  - intros done s' w1 w2 He. by apply (HJ done s').
  - intros [s'|e] w1 w2 He; [by apply (HJ l s')|done].
  - intros done x rest s' w' Hl Hw _. by eapply Hbody.
Qed.

Lemma quiet_each_ok {A S} (l : list A) (body : A -> S -> prog (World E) (result S)) s w :
  (forall x s w', x ∈ l -> later w w' -> quiet (body x s) w') -> quiet (thread_each_ok l body s) w.
Proof.
  intros Hbody. eapply ks_weaken; [apply (ks_each_ok _ _ (fun _ _ _ => True)); [apply _| |done]|done].
  intros done x rest s' w' -> Hw _. eapply ks_weaken; [apply Hbody; [set_solver|done]|]. by intros [|].
Qed.

Lemma quiet_thread_err {A} f (p : prog (World E) (result A)) w : quiet p w -> quiet (thread_err f p) w.
Proof. intros Hp. apply ks_then; [done|]. intros. apply quiet_ret. Qed.

(** Two parts in turn; the second only if the first succeeds. *)
Lemma ks_thread_ok {A B} (p : prog (World E) (result A)) (k : A -> prog (World E) (result B)) P
    (Q : result B -> Heap -> Prop) w :
  keeps_safe p (fun r h => match r with Ok a => P a h | Err _ => True end) w ->
  (forall a w', later w w' -> world_ok w' -> P a (w_heap w') -> keeps_safe (k a) Q w') ->
  (forall e h, Q (Err e) h) ->
  keeps_safe (thread_ok p k) Q w.
Proof.
  intros Hp Hk He. eapply ks_bind; [exact Hp|]. intros [a|e] w' Hw Hi HP; [by apply Hk|].
  intros w1 _ _. apply He.
Qed.
End interference.

(** ** Preparing and unpreparing *)

Section prepare_safe.
Context `{RangeOrder} {E : Type} `{HostInterface E} `{DeviceInfoStore E} `{NadClient E}
  `{JsonLib} `{CdiLib E} `{Decoder} `{!StatusJson} `{CniLib E}.
Context (q : Prop) (m0 : Manager) (h0 : Heap) (Hjson : q \/ no_null_nads).
Implicit Types (w : World E) (h : Heap).

#[local] Abbreviation keeps_safe := (keeps_safe q m0 h0).
#[local] Abbreviation quiet := (quiet q m0 h0).

Lemma quiet_multus action ds w :
  live_list ds (w_heap w) -> quiet (forEachMultusDevice_go action ds) w.
Proof.
  intros Hds. apply ks_then; [|intros; apply quiet_ret]. apply quiet_each. intros x errs w1 Hx Hw1.
  apply quiet_core. intros h t mg He _ _. apply triple_multusDevice. right.
  eapply live_list_elem; [|done]. eapply evolving; [|exact Hds]. by etrans.
Qed.

Lemma quiet_unprepareDevices ds w : live_list ds (w_heap w) -> quiet (unprepareDevices_go ds) w.
Proof.
  intros Hds. apply quiet_each_ok. intros x u w1 Hx Hw1. apply quiet_core. intros h t mg He _ _.
  apply triple_unprepareDevice. right. eapply live_list_elem; [|done]. eapply evolving; [|exact Hds]. by etrans.
Qed.

Lemma quiet_clean ds w : live_list ds (w_heap w) -> quiet (cleanDeviceInfoFiles_go ds) w.
Proof.
  intros Hds. apply ks_then; [apply quiet_gets|]. intros s w1 Hw1. destruct (negb _); [apply quiet_ret|].
  apply quiet_multus. by eapply evolving.
Qed.

Lemma quiet_sync ds w : live_list ds (w_heap w) -> quiet (syncDeviceInfoFiles_go ds) w.
Proof.
  intros Hds. apply ks_then; [apply quiet_gets|]. intros s w1 Hw1. destruct (negb _); [apply quiet_ret|].
  apply quiet_multus. by eapply evolving.
Qed.

Lemma quiet_rollback cause fmt ds w : live_list ds (w_heap w) -> quiet (rollbackPrepared_go cause fmt ds) w.
Proof.
  intros Hds. apply ks_then; [by apply quiet_clean|]. intros cleanup w1 Hw1.
  apply ks_then; [|intros; apply quiet_ret]. apply quiet_unprepareDevices. by eapply evolving.
Qed.

Lemma quiet_Unprepare uid ds w : live_list ds (w_heap w) -> quiet (Unprepare_go uid ds) w.
Proof.
  intros Hds. apply ks_then; [by apply quiet_clean|]. intros cleaned w1 Hw1.
  apply ks_then; [apply quiet_unprepareDevices; by eapply evolving|]. intros unprepared w2 Hw2.
  apply ks_then; [apply quiet_ext|]. intros deleted w3 Hw3.
  apply ks_then; [|intros; apply quiet_ret]. apply quiet_core. intros h t mg He _ _.
  apply triple_deletePodSpec. right. apply live_list_valid. eapply evolving; [|exact Hds].
  unfold later in *. etrans; [exact Hw1|]. etrans; [exact Hw2|]. by etrans.
Qed.

(** A new device is ready for its claim. *)
Lemma ks_new pod uid (device : World E -> PreparedDevice) w :
  (forall w', pd_PodUID (device w') = pod /\ no_UID (pd_ClaimNamespacedName (device w')) = uid /\
     is_Some (pd_ContainerEdits (device w')) /\ pd_NetworkDeviceData (device w') = None) ->
  keeps_safe (atomic (fun w => new (device w) w)) (fun l h => ready pod uid (Some l) h) w.
Proof.
  intros Hd. apply ks_atomic; [apply _|]. intros h t mg _ Ht Hs _ w' (Hh & Hw). unfold new.
  destruct (Hd w') as (Hp & Hu & Hc & Hn). rewrite Hh. set (l := fresh (dom h)).
  assert (Hl : h !! l = None) by (apply not_elem_of_dom, is_fresh).
  assert (He : evolves h (<[l := device w']> h)) by by apply evolves_subseteq, insert_subseteq.
  exists (<[l := device w']> h), t.
  split_and!; [exact He|by eapply table_ok_evolves|by apply sourced_new| |done|apply Hw..].
  exists l, (device w'). by rewrite lookup_insert_eq.
Qed.

Lemma ks_applyConfig i claim config r pod w :
  claim_ReservedFor claim = [pod] ->
  keeps_safe (applyConfigOnDevice_go i claim config r) (applied_answer pod (claim_UID claim)) w.
Proof using Hjson.
  intros Hpod.
  eapply ks_bind.
  { apply (ks_core q m0 h0 _ (fun s _ => addressed s)); [apply _|]. intros h t mg _ _ Ha. apply triple_gets.
    intros w' Hw. split; [|exact Hw]. by destruct Hw as (_ & _ & ->). }
  intros s w1 _ _ Ha. destruct (allocatable s !! res_Device r) as [dev|] eqn:Hdev; [|by apply ks_ret; [apply _|]].
  destruct (if isMultusMode s then _ else _) as [name id].
  apply ks_then.
  { apply quiet_core. intros h t mg _ _ _. apply (triple_pciAddress q); [|done]. right. by eapply Ha. }
  intros pci w2 _. apply (ks_thread_ok q m0 h0 _ _ (fun _ _ => True)); [| |done].
  { eapply ks_weaken; [apply quiet_core|by intros [|]]. intros h t mg _ _ _. by apply (triple_netConf q s Hjson). }
  intros raw w3 _ _ _. apply (ks_thread_ok q m0 h0 _ _ (fun _ _ => True)); [| |done].
  { eapply ks_weaken; [apply quiet_thread_err, quiet_ext|by intros [|]]. }
  intros orig w4 _ _ _. apply (ks_thread_ok q m0 h0 _ _ (fun _ _ => True)); [| |done].
  { eapply ks_weaken; [apply quiet_core|by intros [|]]. intros h t mg _ _ _ w' Hw.
    unfold ext. by destruct (collectEdits _ _ _ _ _ _ _). }
  intros edits w5 _ _ _. destruct (chooseIfName s config i) as [ifName i'].
  eapply ks_bind.
  { apply (ks_core q m0 h0 _ (fun a _ => a = pod)); [apply _|]. intros h t mg _ _ _.
    apply triple_deref; [right; rewrite Hpod; by eexists|]. intros a w' Hhead Hw. rewrite Hpod in Hhead.
    split; [by injection Hhead|exact Hw]. }
  intros a w6 _ _ ->. eapply ks_bind; [apply (ks_new pod (claim_UID claim)); intros w'; by split_and!; [| |eexists|]|].
  intros l w7 _ _ Hl. by apply ks_ret; [apply _|].
Qed.

Lemma ks_prepareLoop rc results i claim pod acc w :
  claim_ReservedFor claim = [pod] -> ready_list pod (claim_UID claim) acc (w_heap w) ->
  keeps_safe (prepareLoop_go rc results i claim acc) (prepared_answer pod (claim_UID claim)) w.
Proof using Hjson.
  revert i claim acc w. induction results as [|r results IH]; intros i claim acc w Hpod Hacc; cbn [prepareLoop_go].
  - by apply ks_ret; [apply _|].
  - destruct (decide _); [by apply IH|]. eapply ks_bind; [by apply ks_applyConfig|].
    intros [[l i']|err] w1 Hw1 _ Hl.
    + apply (IH i' (set_claim_Devices _ claim)); [done|]. simpl.
      intros x [Hx| ->%list_elem_of_singleton]%elem_of_app; [|exact Hl].
      eapply (evolving (P:=ready _ _ x)); [exact Hw1|by apply Hacc].
    + apply ks_then.
      { apply quiet_unprepareDevices. eapply evolving; [exact Hw1|by eapply ready_list_live]. }
      intros rollback w2 Hw2. destruct rollback; by apply ks_ret; [apply _|].
Qed.

Lemma ks_PrepareDevicesForClaim i claim pod allocation w :
  claim_ReservedFor claim = [pod] -> claim_Allocation claim = Some allocation ->
  keeps_safe (PrepareDevicesForClaim_go i claim) (prepared_answer pod (claim_UID claim)) w.
Proof using Hjson.
  intros Hpod Halloc.
  assert (Herr : forall err st w', keeps_safe (mret (Err err, st)) (prepared_answer pod (claim_UID claim)) w').
  { intros. by apply ks_ret; [apply _|]. }
  eapply ks_bind.
  { apply (ks_core q m0 h0 _ (fun a _ => a = allocation)); [apply _|]. intros h t mg _ _ _.
    apply triple_deref; [by right; eexists|]. intros a w' Ha Hw. split; [congruence|done]. }
  intros a w1 _ _ ->. destruct (getMapOfOpaqueDeviceConfigForDevice _) as [rc|err]; [|apply Herr].
  eapply ks_bind; [apply ks_prepareLoop; [done|by intros x ?%not_elem_of_nil]|].
  intros [[ds|err] st] w2 Hw2 _ Hds; [|apply Herr]. simpl in Hds. destruct ds as [|x ds]; [apply Herr|].
  pose proof (ready_list_live _ _ _ _ Hds) as Hlive.
  assert (Hroll : forall cause fmt w', later w2 w' -> keeps_safe (err ← rollbackPrepared_go cause fmt (x :: ds); mret (Err err, st))
    (prepared_answer pod (claim_UID claim)) w').
  { intros cause fmt w' Hw'. apply ks_then; [apply quiet_rollback; by eapply evolving|]. intros; apply Herr. }
  apply ks_then; [by apply quiet_sync|]. intros [[]|err] w3 Hw3; [|by apply Hroll].
  apply ks_then.
  { apply quiet_core. intros h t mg He _ _. apply triple_CreateClaimSpecFile; [done|].
    intros y Hy. assert (Hr : ready pod (claim_UID claim) y h).
    { eapply (evolving (P:=ready _ _ y)); [|by apply Hds]. unfold later in *. by etrans. }
    destruct Hr as (l & d & -> & Hd & _ & _ & Hc). by exists l, d. }
  intros [[]|err] w4 Hw4; [|apply Hroll; by etrans].
  apply ks_ret; [apply _|]. simpl. eapply evolving; [|exact Hds]. unfold later in *. by etrans.
Qed.
End prepare_safe.

(** ** The kubelet hooks *)

(** A successful answer for a claim is about devices prepared for it. *)
Definition claim_answer (claim : ResourceClaim) (r : PrepareResult) (h : Heap) : Prop :=
  pr_Err r = None -> exists pod, claim_ReservedFor claim = [pod] /\
    Forall (fun kd => told pod (claim_UID claim) kd h) (pr_Devices r).

Definition hook_answer (claims : list (option ResourceClaim))
    (results : gmap string PrepareResult) (h : Heap) : Prop :=
  answers_by (fun claim r => claim_answer claim r h) claims results.

#[export] Instance evolving_claim_answer claim r : Evolving (claim_answer claim r).
Proof. unfold claim_answer. apply _. Qed.
#[export] Instance evolving_hook_answer claims results : Evolving (hook_answer claims results).
Proof. unfold hook_answer, answers_by. apply _. Qed.
#[export] Instance evolving_filed pod uid x : Evolving (fun h => filed h pod uid x).
Proof. intros h h' He. by apply filed_evolves. Qed.

Section hook_safe.
Context `{RangeOrder} {E : Type} `{HostInterface E} `{DeviceInfoStore E} `{NadClient E}
  `{JsonLib} `{CdiLib E} `{Decoder} `{CheckpointManager E} `{ApiErrors} `{WaitLib E}
  `{ClaimClients E} `{!StatusJson} `{CniLib E}.
Context (q : Prop) (m0 : Manager) (h0 : Heap).
Context (Hjson : q \/ no_null_nads) (Hstatus : q \/ status_updates_return (E:=E)).
Implicit Types (w : World E) (h : Heap).

#[local] Abbreviation keeps_safe := (keeps_safe q m0 h0).
#[local] Abbreviation quiet := (quiet q m0 h0).

Lemma ks_toKubelet pod uid ds w :
  (forall x, x ∈ ds -> filed (w_heap w) pod uid x) ->
  keeps_safe (toKubelet_go ds) (fun kds h => Forall (fun kd => told pod uid kd h) kds) w.
Proof.
  intros Hds.
  apply (ks_each q m0 h0 ds _ (fun _ kds h => Forall (fun kd => told pod uid kd h) kds)); [apply _| |constructor].
  intros done x rest kds w1 Hl Hw1 Hkds. apply ks_core; [apply _|]. intros h t mg He _ _.
  assert (Hx : filed h pod uid x).
  { eapply (evolving (P:=fun h => filed h pod uid x)); [|apply Hds; subst; set_solver].
    unfold later in *. by etrans. }
  destruct Hx as (l & d & -> & Hd & Hp & Hu). eapply triple_bind.
  - apply (triple_load q (Some l) h t mg (fun d' w => d' = d /\ at_core h t mg w)).
    + right. exists l. split; [done|by eexists].
    + intros l' d' w' [= <-] Hd' Hw. split; [congruence|done].
  - intros d'. apply triple_pure. intros ->. apply triple_ret. intros w' Hw. split; [|done].
    apply Forall_app. split.
    + by apply (evolving (P:=fun h => Forall (fun kd => told pod uid kd h) kds) _ _ He).
    + constructor; [|constructor]. exists l, d, (pd_NetworkDeviceData d). by rewrite set_network_data_same.
Qed.

(** What the hook does for one claim. *)
Lemma ks_prepareResourceClaim i claim w :
  keeps_safe (prepareResourceClaim_go i claim) (fun r h => claim_answer claim r.1 h) w.
Proof using Hjson Hstatus.
  assert (Hfail : forall err (i : Z) w', keeps_safe (mret (prepareFailed err, i)) (fun r h => claim_answer claim r.1 h) w').
  { intros. by apply ks_ret; [apply _|]. }
  unfold prepareResourceClaim_go. destruct (claim_ReservedFor claim) as [|pod [|]] eqn:Hpod; [apply Hfail| |apply Hfail].
  destruct (claim_Allocation claim) as [allocation|] eqn:Halloc; [|apply Hfail].
  assert (Hok : forall kds (i : Z) w', Forall (fun kd => told pod (claim_UID claim) kd (w_heap w')) kds ->
    keeps_safe (mret (mkPrepareResult kds None, i)) (fun r h => claim_answer claim r.1 h) w').
  { intros kds i' w' Hkds. apply ks_ret; [apply _|]. intros _. by exists pod. }
  eapply ks_bind.
  { apply (ks_core q m0 h0 _ (fun k h => match k with
      Some ds => forall x, x ∈ ds -> filed h pod (claim_UID claim) x | None => True end)); [apply _|].
    intros h t mg _ Ht _. apply triple_gets. intros w1 Hw. split; [|done]. rewrite known_Get.
    destruct Hw as (_ & -> & _). destruct (known t pod (claim_UID claim)) as [ds|] eqn:Hk; [|done].
    intros x Hx. by eapply Ht. }
  intros [ds|] w1 _ _ Hds.
  { eapply ks_bind; [by apply (ks_toKubelet pod (claim_UID claim))|]. intros kds w2 _ _. apply Hok. }
  eapply ks_bind; [by apply (ks_PrepareDevicesForClaim q m0 h0 Hjson _ _ pod allocation)|].
  intros [[ds|err] [i' updated]] w2 _ _ Hready; [|apply Hfail].
  change (ready_list pod (claim_UID claim) ds (w_heap w2)) in Hready.
  assert (Hfiled : forall h, evolves (w_heap w2) h -> forall x, x ∈ ds -> filed h pod (claim_UID claim) x).
  { intros h He x Hx. by eapply ready_filed, (evolving (P:=ready _ _ x)), Hready. }
  eapply ks_bind; [by apply (ks_toKubelet pod (claim_UID claim)), Hfiled|]. intros kds w3 Hw3 _ Hkds.
  eapply (ks_then q m0 h0).
  { eapply ks_quiet, (ks_atomic q m0 h0 _ (fun _ _ => True)); [apply _|]. intros h t mg He Ht Hs _.
    eapply triple_weaken; [apply triple_Set|done|]. intros r w' Hw. eexists h, _. split_and!; [done| |done..|exact Hw].
    apply table_ok_add; [done|]. apply Hfiled. unfold later in *. by etrans. }
  intros [[]|err] w4 Hw4.
  - apply (ks_then q m0 h0); [apply quiet_core; intros; by apply triple_write_status|]. intros _ w5 Hw5. apply Hok.
    eapply (evolving (P:=fun h => Forall (fun kd => told pod (claim_UID claim) kd h) kds)); [|exact Hkds].
    unfold later in *. by etrans.
  - apply (ks_then q m0 h0); [|intros [[]|err'] w5 _; apply Hfail].
    apply quiet_Unprepare. eapply filed_list_live, Hfiled. unfold later in *. by etrans.
Qed.

Lemma quiet_unprepareResourceClaim claim w : quiet (unprepareResourceClaim_go claim) w.
Proof.
  eapply ks_bind.
  { apply (ks_core q m0 h0 _ (fun k h => match k with Some ds => live_list ds h | None => True end)); [apply _|].
    intros h t mg _ Ht _. apply triple_gets. intros w1 Hw. split; [|done]. unfold GetByClaim.
    destruct Hw as (_ & -> & _). destruct (findClaim (no_UID claim) (range t)) as [[pod ds]|] eqn:Hf; [|done].
    simpl. intros x Hx. apply findClaim_range in Hf as (cs & Hp & Hc). eapply filed_live, (Ht pod); [|exact Hx].
    unfold known. by rewrite Hp. }
  intros [ds|] w1 _ _ Hds; [|apply quiet_ret].
  apply (ks_thread_ok q m0 h0 _ _ (fun _ _ => True)); [|intros _ w2 _ _ _|done].
  - eapply ks_weaken; [apply quiet_thread_err, quiet_Unprepare, Hds|]. by intros [|].
  - apply quiet_thread_err. eapply ks_quiet, (ks_atomic q m0 h0 _ (fun _ _ => True)); [apply _|].
    intros h t mg _ Ht Hs _. eapply triple_weaken; [apply triple_DeleteClaim|done|]. intros r w' Hw.
    eexists h, _. split_and!; [done| |done..|exact Hw]. eapply table_ok_subseteq; [|exact Ht]. apply without_claim_subseteq.
Qed.

Lemma quiet_UnprepareResourceClaims claims w : quiet (UnprepareResourceClaims_go claims) w.
Proof.
  apply quiet_each. intros claim res w1 _ _. apply ks_then; [apply quiet_unprepareResourceClaim|]. intros; apply quiet_ret.
Qed.

Lemma quiet_failPrepare claims err fmt w : quiet (failPrepare_go claims err fmt) w.
Proof.
  apply ks_then; [|intros; apply quiet_ret]. apply ks_then; [|intros; apply quiet_ret].
  apply quiet_each. intros [claim|] errs w1 _ _; [|apply quiet_ret].
  apply ks_then; [apply quiet_unprepareResourceClaim|]. intros; apply quiet_ret.
Qed.

(** The prepare hook as a whole, for claims that are not nil. *)
Lemma ks_PrepareResourceClaims claims w :
  (forall claim, claim ∈ claims -> is_Some claim) ->
  keeps_safe (PrepareResourceClaims_go claims) (fun res h => hook_answer claims res.1 h) w.
Proof using Hjson Hstatus.
  intros Hclaims. unfold PrepareResourceClaims_go. destruct (decide (length claims = 0)) as [Hnil|_].
  { apply nil_length_inv in Hnil as ->. apply ks_ret; [apply _|]. apply answers_by_nil. }
  eapply (ks_bind q m0 h0 _ _ (fun st h => hook_answer claims st.1 h)).
  { apply (ks_each q m0 h0 claims _ (fun done st h => hook_answer done st.1 h)); [apply _| |apply answers_by_nil].
    intros done claim rest [results i] w1 Hl Hw1 Hans.
    eapply (ks_bind q m0 h0 _ _ (fun c _ => claim = Some c)).
    { apply ks_core; [apply _|]. intros h t mg _ _ _. apply triple_deref; [right; apply Hclaims; subst; set_solver|].
      by intros c w' Hc Hw. }
    intros c w2 Hw2 _ ->. eapply ks_bind; [apply ks_prepareResourceClaim|]. intros [r i'] w3 Hw3 _ Hr.
    apply (ks_ret q m0 h0 _ (fun st h => hook_answer (done ++ [Some c]) st.1 h)); [apply _|]. simpl in *.
    apply (answers_by_snoc (fun c r => claim_answer c r (w_heap w3))); [|done|exact Hr].
    eapply (evolving (P:=hook_answer done results)); [|exact Hans]. unfold later in *. by etrans. }
  intros [results i] w1 _ _ Hans. simpl in Hans.
  assert (Hret : forall (err : option error) w', later w1 w' ->
    keeps_safe (mret (results, err)) (fun res h => hook_answer claims res.1 h) w').
  { intros err w' Hw'. apply ks_ret; [apply _|]. by eapply (evolving (P:=hook_answer claims results)). }
  assert (Hfail : forall err fmt w', later w1 w' ->
    keeps_safe (err ← failPrepare_go claims err fmt; mret (results, Some err)) (fun res h => hook_answer claims res.1 h) w').
  { intros err fmt w' Hw'. apply ks_then; [apply quiet_failPrepare|]. intros err' w2 Hw2. apply Hret. by etrans. }
  cbv zeta. destruct (decide _); [by apply Hret|].
  eapply ks_bind.
  { apply (ks_core q m0 h0 _ (fun k h => match k with Some ds => live_list ds h | None => True end)); [apply _|].
    intros h t mg _ Ht _. apply triple_gets. intros w' Hw. split; [|done]. destruct Hw as (_ & Hw & _).
    destruct (GetDevicesByPodUID _ w') as [ds|] eqn:Hds; [|done].
    intros x Hx. eapply (live_devices_of_pod h t); [by apply table_ok_live|exact Hw|exact Hds|done]. }
  intros [ds|] w2 Hw2 _ Hds; [|by apply Hret].
  eapply (ks_then q m0 h0).
  { apply quiet_each_ok. intros x acc w3 Hx Hw3. apply quiet_core. intros h t mg He _ Ha.
    apply triple_podPciAddress; [by right|]. right.
    assert (Hl : live_list ds h); [|by apply Hl]. eapply evolving; [|exact Hds]. unfold later in *. by etrans. }
  intros [pcis|err] w3 Hw3; [|apply Hfail; by etrans].
  apply (ks_then q m0 h0); [apply quiet_ext|].
  intros [[]|err] w4 Hw4; [apply Hret|apply Hfail]; unfold later in *; (etrans; [exact Hw2|by etrans]).
Qed.
End hook_safe.

(** ** The NRI plugin *)

Section nri_safe.
Context `{RangeOrder} {E : Type} `{JsonLib} `{!StatusJson} `{CniLib E} `{CheckpointManager E}
  `{ApiErrors} `{WaitLib E} `{ClaimClients E} `{ClaimReader E} `{MetadataUpdater E} (p : Plugin).
Context (q : Prop) (m0 : Manager) (h0 : Heap).
Context (Hcni : q \/ no_null_cni) (Hstatus : q \/ status_updates_return (E:=E)).
Implicit Types (w : World E) (h : Heap).

#[local] Abbreviation keeps_safe := (keeps_safe q m0 h0).
#[local] Abbreviation quiet := (quiet q m0 h0).

(** The devices that a pod's claims hold. *)
Definition pod_devices (pod : string) (ds : PreparedDevices) h : Prop :=
  forall x, x ∈ ds -> exists uid, filed h pod uid x.

#[local] Instance evolving_pod_devices pod ds : Evolving (pod_devices pod ds).
Proof. unfold pod_devices. apply _. Qed.

Lemma pod_devices_live pod ds h : pod_devices pod ds h -> live_list ds h.
Proof. intros Hd x Hx. destruct (Hd x Hx) as [uid Hf]. by eapply filed_live. Qed.

Lemma ks_devices pod w :
  keeps_safe (atomic (gets (GetDevicesByPodUID pod))) (fun found h =>
    match found with Some ds => pod_devices pod ds h | None => True end) w.
Proof.
  apply ks_core; [apply _|]. intros h t mg _ Ht _. apply triple_gets. intros w' Hw. split; [|done].
  destruct Hw as (_ & Hw & _). unfold GetDevicesByPodUID. rewrite Hw.
  destruct (t !! pod) as [cs|] eqn:Hp; [|done]. intros x (claim & ds & Hc & Hx)%elem_of_all_devices.
  exists claim. eapply Ht; [|exact Hx]. unfold known. by rewrite Hp.
Qed.

(** One device: its item carries the network data of an addition to its own pod. *)
Lemma ks_attachDevice pod x items w :
  (exists uid, filed (w_heap w) (pod_Uid pod) uid x) -> sourced_items (E:=E) items (w_heap w) ->
  keeps_safe (atomic (attachDevice pod (getNetworkNamespace pod) x items)) (fun r h =>
    match r with Ok items' => sourced_items (E:=E) items' h | Err _ => True end) w.
Proof using Hcni.
  intros [uid Hx] Hitems. apply ks_core; [apply _|]. intros h t mg He _ _. eapply triple_weaken; [|done|].
  - apply triple_attachDevice; [|exact Hcni]. right. eapply filed_live.
    by eapply (evolving (P:=fun h => filed h (pod_Uid pod) uid x)).
  - intros [items'|err] w' [Hw Hr]; (split; [|exact Hw]); [|done].
    destruct Hr as (item & -> & l & d & nd & cfg & res & -> & Hd & -> & Hatt).
    intros it l' [Hit|[= ->]%list_elem_of_singleton]%elem_of_app Hl.
    + by apply (evolving (P:=sourced_items (E:=E) items) _ _ He Hitems it l').
    + injection Hl as <-. exists d, nd. split_and!; [done..|]. exists pod. split; [|exact Hatt].
      destruct (evolving (P:=fun h => filed h (pod_Uid pod) uid (Some l)) _ _ He Hx)
        as (l' & d' & [= <-] & Hd' & Hp & _). congruence.
Qed.

Lemma quiet_metadata items w :
  sourced_items (E:=E) items (w_heap w) -> quiet (updateRequestMetadata_go p items) w.
Proof.
  intros Hs. unfold updateRequestMetadata_go. destruct (_ || _); [apply quiet_ret|]. apply ks_then.
  - apply quiet_each. intros item updates w1 Hitem Hw1. apply quiet_core. intros h t mg He _ _.
    apply triple_addMetadata. eapply sourced_items_valid, sourced_items_sub.
    2: { eapply (evolving (P:=sourced_items (E:=E) items)); [|exact Hs]. unfold later in *. by etrans. }
    by intros it ->%list_elem_of_singleton.
  - intros updates w1 _. apply quiet_each_ok. intros [key update] u w2 _ _. apply quiet_core. intros.
    apply triple_updateDeviceMetadata.
Qed.

(** The sandbox hook, up to its send. *)
Definition sandbox_answer (r : result (option NetworkDataChanStructList)) h : Prop :=
  match r with Ok (Some items) => sourced_items (E:=E) items h | _ => True end.

#[export] Instance evolving_sandbox_answer r : Evolving (sandbox_answer r).
Proof. destruct r as [[items|]|err]; simpl; apply _. Qed.

Lemma ks_RunPodSandbox pod w : keeps_safe (RunPodSandbox_go p pod) sandbox_answer w.
Proof using Hcni.
  eapply ks_bind; [apply ks_devices|]. intros [ds|] w1 _ _ Hds; [|by apply ks_ret; [apply _|]].
  cbv zeta. destruct (decide _); [by apply ks_ret; [apply _|]|].
  apply (ks_thread_ok q m0 h0 _ _ (fun items h => sourced_items (E:=E) items h)); [| |done].
  - apply (ks_each_ok q m0 h0 ds _ (fun _ items h => sourced_items (E:=E) items h)); [apply _| |by intros ? ? ?%not_elem_of_nil].
    intros done x rest items w2 Hl Hw2 Hitems. apply ks_attachDevice; [|exact Hitems].
    eapply (evolving (P:=pod_devices (pod_Uid pod) ds)); [exact Hw2|exact Hds|].
    rewrite Hl. apply elem_of_app. right. by left.
  - intros items w2 _ _ Hitems. apply (ks_thread_ok q m0 h0 _ _ (fun _ _ => True)); [| |done].
    + eapply ks_weaken; [apply quiet_thread_err; by apply quiet_metadata|]. by intros [|].
    + intros _ w3 Hw3 _ _. apply ks_ret; [apply _|]. by eapply (evolving (P:=sourced_items (E:=E) items)).
Qed.

Lemma quiet_StopPodSandbox pod w : quiet (StopPodSandbox_go pod) w.
Proof.
  eapply ks_bind; [apply ks_devices|]. intros [ds|] w1 _ _ Hds; [|apply quiet_ret].
  cbv zeta. destruct (decide _); [apply quiet_ret|]. apply quiet_each_ok. intros x u w2 Hx Hw2.
  apply quiet_core. intros h t mg He _ _. apply triple_detachDevice. right.
  assert (Hl : live_list ds h); [|by apply Hl]. eapply evolving; [|by eapply pod_devices_live].
  unfold later in *. by etrans.
Qed.

(** The runner's turn for one item of the channel. *)
Lemma quiet_updateClaim key items w :
  sourced_items (E:=E) items (w_heap w) -> quiet (updateClaim_go key items) w.
Proof using Hstatus.
  intros Hs. destruct key as [[namespace name] uid]. apply ks_then; [apply quiet_ext|].
  intros [claim|err] w1 Hw1; [|apply quiet_ret]. destruct (decide _); [apply quiet_ret|].
  cbv zeta. apply ks_then.
  - apply quiet_each. intros item st w2 Hitem Hw2. eapply ks_quiet, (ks_atomic q m0 h0 _ (fun _ _ => True)); [apply _|].
    intros h t mg He Ht Hsrc _.
    assert (Hi : sourced_items (E:=E) [item] h).
    { eapply sourced_items_sub; [by intros it ->%list_elem_of_singleton|].
      eapply (evolving (P:=sourced_items (E:=E) items)); [|exact Hs].
      unfold later in *. etrans; [exact Hw1|]. by etrans. }
    eapply triple_weaken; [apply triple_applyUpdate; right; by eapply sourced_items_valid|done|].
    intros st' w' Hw. eexists _, t. split_and!; [apply evolves_record_item| |by apply sourced_record|done|exact Hw].
    eapply table_ok_evolves; [apply evolves_record_item|done].
  - intros [claim' []] w2 _; cbn [negb]; [|apply quiet_ret]. apply ks_then; [|intros; apply quiet_ret].
    apply quiet_core. intros. by apply triple_update_status.
Qed.

Lemma quiet_updateNetworkDeviceData items w :
  sourced_items (E:=E) items (w_heap w) -> quiet (updateNetworkDeviceData_go items) w.
Proof using Hstatus.
  intros Hs.
  eapply (ks_bind q m0 h0 _ _ (fun grouped _ => forall key updates, (key, updates) ∈ range grouped ->
    forall item, item ∈ updates -> item ∈ items)).
  - apply ks_core; [apply _|]. intros h t mg He _ _ w' Hw.
    destruct (group_run items w') as (grouped & -> & Hg).
    { destruct Hw as (-> & _). by eapply sourced_items_valid, (evolving (P:=sourced_items (E:=E) items)). }
    split; [|exact Hw]. intros key updates Hin%elem_of_range item Hit. rewrite Hg in Hin. by eapply group_of_sub.
  - intros grouped w1 Hw1 _ Hsub. apply quiet_each. intros [key updates] u w2 Hin Hw2. apply quiet_updateClaim.
    eapply sourced_items_sub; [by eapply Hsub|]. eapply (evolving (P:=sourced_items (E:=E) items)); [|exact Hs].
    unfold later in *. by etrans.
Qed.
End nri_safe.

(** ** The reconciliation *)

Lemma spec_update_addressed pd s : addressed s -> addressed (spec_update pd s).
Proof.
  intros Ha d dev. simpl. rewrite lookup_spec_allocatable.
  destruct (allocatable s !! d) as [dev0|] eqn:Hd; [|done]. intros [= <-]. simpl.
  rewrite lookup_spec_attributes. apply (Ha d dev0 Hd).
Qed.

Lemma spec_update_discovery pd s d :
  option_Forall2 same_discovery (allocatable s !! d) (allocatable (spec_update pd s) !! d).
Proof.
  simpl. rewrite lookup_spec_allocatable. destruct (allocatable s !! d) as [dev|]; constructor.
  split; [done|]. intros k Hk. simpl. by rewrite lookup_spec_attributes, Hk.
Qed.

#[export] Instance same_discovery_preorder : PreOrder same_discovery.
Proof.
  split; [by intros d|]. intros a b c [Hn1 Ha1] [Hn2 Ha2]. split; [congruence|].
  intros k Hk. by rewrite Ha1, Ha2.
Qed.

Section reconcile_safe.
Context `{RangeOrder} `{SliceSort} `{LabelSelectors} `{ApiErrors} {E : Type} `{PolicyClient E}
  `{KubeletHelper E} `{JsonLib} `{!StatusJson} `{CniLib E}.
Context (nodeName namespace : string) (q : Prop) (m0 : Manager) (h0 : Heap).
Implicit Types (w : World E).

#[local] Abbreviation quiet := (quiet q m0 h0).

(** An update of the policies keeps what discovery found. *)
Lemma quiet_updatePolicies pd w : quiet (atomic (updatePolicies pd)) w.
Proof.
  intros w1 _ Hok. simpl. unfold updatePolicies, on_manager.
  destruct (updatePolicyState_spec pd (w_manager w1) (wok_manager _ _ _ Hok)) as (ch & -> & _). simpl.
  split; [|by split; [unfold later; simpl|]]. destruct Hok. constructor; simpl; try done.
  - apply spec_update_ok.
  - by apply spec_update_addressed.
  - intros d. etrans; [apply wok_discovery0|apply spec_update_discovery].
Qed.

Lemma quiet_Reconcile w : quiet (Reconcile_go nodeName namespace) w.
Proof.
  apply ks_then; [apply quiet_ext|]. intros [labels|err] w1 _.
  2: { destruct (IsNotFound err); apply quiet_ret. }
  apply ks_then; [apply quiet_ext|]. intros [items|err] w2 _; [|apply quiet_ret].
  apply ks_then; [apply quiet_ext|]. intros [attrs|err] w3 _; [|apply quiet_ret].
  apply ks_then; [apply quiet_gets|]. intros allocatable w4 _.
  apply ks_then; [|intros [[]|err] w5 _; apply quiet_ret].
  apply ks_then; [apply quiet_updatePolicies|]. intros [] w5 _; cbn [negb]; [|apply quiet_ret].
  apply ks_then; [apply quiet_gets|]. intros s w6 _. apply quiet_thread_err, quiet_core. intros h t mg _ _ _ w7 Hw.
  unfold outside, republishCallback. by destruct (PublishResources nodeName s (w_env w7)).
Qed.
End reconcile_safe.
