(* ===== verification/Startup.v ===== *)
(** * Start and stop (cmd/dra-driver-sriov/main.go, pkg/driver/driver.go, health.go,
    pkg/nri/nri.go, pkg/flags/kubeclient.go)

    The phases of RunPlugin around the device-state and pod managers, which System.v
    puts together: directories, the kubelet plugin and its registration, the health
    service, the controller manager, the NRI stub, and the shutdown.  Libraries, the
    file system and the clock are parameters. *)

From S2P Require Import Prelude GoLib Consts K8sTypes Config Host Nri.

(** ** Parameters *)

Class StartupOS (E : Type) : Type := {
  os_MkdirAll : string -> Call E (result unit);
  (** [os.Stat], by [info.IsDir()]. *)
  os_StatDir : string -> Call E (result bool);
  os_Remove : string -> Call E (result unit);
  net_Listen : string -> Call E (result unit);
  (** [checkpointmanager.NewCheckpointManager], which opens the directory. *)
  NewCheckpointManager : string -> Call E (result unit)
}.

(** The options of the kubelet plugin library that the driver sets; the versions of
    the metadata API are a constant of that library. *)
Inductive PluginOption : Type :=
  | OptKubeClient
  | OptNodeName (name : string)
  | OptDriverName (name : string)
  | OptRegistrarDirectoryPath (path : string)
  | OptPluginDataDirectoryPath (path : string)
  | OptEnableDeviceMetadata (enabled : bool)
  | OptCDIDirectory (path : string)
  | OptMetadataVersions.

Record RegistrationStatus : Type := mkRegistrationStatus {
  PluginRegistered : bool;
  reg_Error : string
}.

Class KubeletPluginLib (E : Type) : Type := {
  kubeletplugin_Start : list PluginOption -> Call E (result unit);
  helper_RegistrationStatus : Call E (option RegistrationStatus);
  helper_Stop : Call E unit;
  (** The [select] between the timeout of thirty seconds and the ticker of 100
      milliseconds: whether it takes the timeout. *)
  select_timeout : Call E bool
}.

Class GrpcLib (E : Type) : Type := {
  grpc_NewClient : string -> Call E (result unit);
  grpc_Serve : Call E unit;
  grpc_GracefulStop : Call E unit
}.

Class ControllerRuntime (E : Type) : Type := {
  ctrl_NewManager : Call E (result unit);
  ctrl_SetupWithManager : Call E (result unit);
  mgr_Start : Call E unit;
  WaitForCacheSync : Call E bool
}.

Class NriStub (E : Type) : Type := {
  stub_New : Call E (result unit);
  stub_Start : Call E (result unit);
  stub_Stop : Call E unit
}.

(** [cdiapi.NewCache], for one directory of specs. *)
Class CdiCacheLib (E : Type) : Type := cdi_NewCache : string -> Call E (result unit).

(** The client libraries; QPS is a float, narrowed to single precision. *)
Class KubeClientLib (E : Type) : Type := {
  float64 : Type;
  float32 : Type;
  to_float32 : float64 -> float32;
  InClusterConfig : Call E (result unit);
  BuildConfigFromFlags : string -> Call E (result unit);
  NewForConfig : float32 * Z -> Call E (result unit);
  client_New : float32 * Z -> Call E (result unit)
}.
Arguments float64 E {_}.
Arguments float32 E {_}.

(** ** Clients (pkg/flags/kubeclient.go) *)

Section clients.
Context {E : Type} `{KubeClientLib E}.

Record KubeClientConfig : Type := mkKubeClientConfig {
  KubeConfig : string;
  KubeAPIQPS : float64 E;
  KubeAPIBurst : Z
}.

(** The limits of the REST configuration that is returned. *)
Definition NewClientSetConfig (k : KubeClientConfig) : Call E (result (float32 E * Z)) :=
  _ ←! (if decide (KubeConfig k = "") then
          call_err (errorv "create in-cluster client configuration: %v" []) InClusterConfig
        else
          call_err (errorv "create out-of-cluster client configuration: %v" [])
            (BuildConfigFromFlags (KubeConfig k)));
  mret (Ok (to_float32 (KubeAPIQPS k), KubeAPIBurst k)).

Definition NewClientSets (k : KubeClientConfig) : Call E (result unit) :=
  csconfig ←! call_err (errorv "create client configuration: %v" []) (NewClientSetConfig k);
  _ ←! call_err (errorv "create core client: %v" []) (NewForConfig csconfig);
  _ ←! call_err (errorv "create controller-runtime client: %v" []) (client_New csconfig);
  mret (Ok tt).
End clients.

(** ** The driver (pkg/driver/driver.go, health.go) *)

Definition buildPluginOptions (flags : Flags) : list PluginOption :=
  [OptKubeClient;
   OptNodeName (flag_NodeName flags);
   OptDriverName DriverName;
   OptRegistrarDirectoryPath (flag_KubeletRegistrarDirectoryPath flags);
   OptPluginDataDirectoryPath (DriverPluginPath flags)] ++
  (if flag_EnableDeviceMetadata flags
   then [OptEnableDeviceMetadata true; OptCDIDirectory (flag_CdiRoot flags); OptMetadataVersions]
   else []).

Definition regSockPath (flags : Flags) : string :=
  path_Join [flag_KubeletRegistrarDirectoryPath flags; DriverName +:+ "-reg.sock"].
Definition draSockPath (flags : Flags) : string := path_Join [DriverPluginPath flags; "dra.sock"].

Section driver_start.
Context {E : Type} `{StartupOS E} `{KubeletPluginLib E} `{GrpcLib E}.

(** One turn of the polling loop; [None] when it goes on. *)
Definition pollRegistration : Call E (option (result unit)) :=
  timeout ← select_timeout;
  if timeout : bool then mret (Some (Err (errorf "timeout waiting for plugin registration" [])))
  else
    status ← helper_RegistrationStatus;
    match status with
    | Some status =>
        if PluginRegistered status then mret (Some (Ok tt))
        else if decide (reg_Error status ≠ "") then
          mret (Some (Err (errorf "plugin registration failed: %s" [reg_Error status])))
        else mret None
    | None => mret None
    end.

(** The loop; [None] when [fuel] turns were not enough. *)
Fixpoint waitForRegistration (fuel : nat) : Call E (option (result unit)) :=
  match fuel with
  | 0 => mret None
  | S fuel =>
      r ← pollRegistration;
      match r with
      | Some r => mret (Some r)
      | None => waitForRegistration fuel
      end
  end.

(** Whether there is a health service. *)
Definition startHealthcheck (flags : Flags) : Call E (result bool) :=
  let port := flag_HealthcheckPort flags in
  if decide (port < 0)%Z then mret (Ok false)
  else
    let addr := join_port (itoa port) in
    _ ←! call_err (errorw "failed to listen for healthcheck service at %s: %w" [addr]) (net_Listen addr);
    _ ←! call_err (errorw "connect to registration socket: %w" [])
           (grpc_NewClient (unix_url (regSockPath flags)));
    _ ←! call_err (errorw "connect to DRA socket: %w" [])
           (grpc_NewClient (unix_url (draSockPath flags)));
    _ ← grpc_Serve;
    mret (Ok true).

(** [Start] once the plugin is registered; [publish] is the driver's PublishResources. *)
Definition driverRegistered (flags : Flags) (publish : Call E (result unit)) : Call E (result bool) :=
  healthcheck ←! call_err (errorw "start healthcheck: %w" []) (startHealthcheck flags);
  _ ←! call_err (errorw "failed to publish resources: %w" []) publish;
  mret (Ok healthcheck).

(** [Start].  [None] while the registration is still waited for after [fuel] turns. *)
Definition driver_Start (fuel : nat) (flags : Flags) (publish : Call E (result unit))
  : Call E (option (result bool)) :=
  started ← kubeletplugin_Start (buildPluginOptions flags);
  match started with
  | Err err => mret (Some (Err err))
  | Ok _ =>
      registered ← waitForRegistration fuel;
      match registered with
      | None => mret None
      | Some (Err err) => mret (Some (Err err))
      | Some (Ok _) => r ← driverRegistered flags publish; mret (Some r)
      end
  end.

(** [os.Remove], where a missing file is no error. *)
Definition removeSocket (p : string) : Call E (result unit) :=
  r ← os_Remove p;
  mret (match r with
        | Err err => if os_IsNotExist err then Ok tt
                     else Err (errorw "error removing socket file: %w" [] err)
        | Ok _ => Ok tt
        end).

(** The server is there only if the service was started. *)
Definition Healthcheck_Stop (healthcheck : bool) : Call E unit :=
  if healthcheck then grpc_GracefulStop else mret tt.

Definition Shutdown (flags : Flags) (healthcheck : bool) : Call E (result unit) :=
  _ ← Healthcheck_Stop healthcheck;
  _ ← helper_Stop;
  _ ←! removeSocket (regSockPath flags);
  removeSocket (draSockPath flags).
End driver_start.

(** ** RunPlugin's own phases (cmd/dra-driver-sriov/main.go) *)

Section run_plugin.
Context {E : Type} `{StartupOS E} `{ControllerRuntime E} `{NriStub E}.

(** The directories it needs. *)
Definition prepareDirectories (flags : Flags) : Call E (result unit) :=
  _ ←! os_MkdirAll (DriverPluginPath flags);
  info ← os_StatDir (flag_CdiRoot flags);
  match info with
  | Err err => if os_IsNotExist err then os_MkdirAll (flag_CdiRoot flags) else mret (Err err)
  | Ok isDir =>
      if isDir : bool then mret (Ok tt)
      else mret (Err (errorf "path for cdi file generation is not a directory: %q" [flag_CdiRoot flags]))
  end.

(** [cdi.NewHandler] (pkg/cdi/cdi.go). *)
Definition NewHandler `{CdiCacheLib E} (cdiRootPath : string) : Call E (result unit) :=
  call_err (errorw "unable to create a new CDI cache: %w" []) (cdi_NewCache cdiRootPath).

(** The controller manager, from the REST configuration it is given. *)
Definition startControllers {A} (restConfig : Call E (result A)) : Call E (result unit) :=
  _ ←! call_err (errorw "failed to create REST config: %w" []) restConfig;
  _ ←! call_err (errorw "failed to create controller manager: %w" []) ctrl_NewManager;
  _ ←! call_err (errorw "failed to setup resource policy controller: %w" []) ctrl_SetupWithManager;
  _ ← mgr_Start;
  synced ← WaitForCacheSync;
  mret (if synced : bool then Ok tt else Err (errorf "cache not synced" [])).

(** The NRI plugin (pkg/nri/nri.go), with the driver as its metadata updater. *)
Definition NewNRIPlugin (flags : Flags) : Call E (result Plugin) :=
  _ ←! call_err (errorw "failed to create plugin stub: %w" []) stub_New;
  mret (Ok (mkPlugin (flag_EnableDeviceMetadata flags) true)).

(** [Start] of the plugin; the runner it starts is a part of System.v. *)
Definition nri_Start : Call E (result unit) :=
  call_err (errorw "failed to start NRI plugin: %w" []) stub_Start.

(** The plugin is created and started unless the mode is MULTUS. *)
Definition startNri (flags : Flags) : Call E (result (option Plugin)) :=
  if decide (flag_ConfigurationMode flags ≠ ConfigurationModeMultus) then
    plugin ←! call_err (errorw "failed to create NRI plugin: %w" []) (NewNRIPlugin flags);
    _ ←! call_err (errorw "failed to start NRI plugin: %w" []) nri_Start;
    mret (Ok (Some plugin))
  else mret (Ok None).

(** The driver's part of the end; its error is only logged. *)
Definition stopDriver `{KubeletPluginLib E} `{GrpcLib E} (flags : Flags) (healthcheck : bool)
  : Call E unit :=
  _ ← Shutdown flags healthcheck;
  mret tt.
End run_plugin.

(** ** The wait for the registration *)

(** The timeout fires: the ticker is chosen only so often before it, and asking for the
    status takes no turn of the clock. *)
Class RegistrationClock (E : Type) `{KubeletPluginLib E} : Type := {
  ticks_left : E -> nat;
  clock_tick e e' : select_timeout e = (false, e') -> ticks_left e' < ticks_left e;
  clock_status e : ticks_left (helper_RegistrationStatus e).2 <= ticks_left e
}.

Section wait.
Context {E : Type} `{KubeletPluginLib E} `{!RegistrationClock E}.

(** C34: The wait for the kubelet ends: with as many turns as the clock has ticks left,
    plus one, the polling loop returns; it returns success only when the last status it
    read says registered, and an error only at the timeout or when the last status says
    not registered and why. *)
Theorem wait_for_registration_ends fuel e :
  ticks_left e < fuel ->
  exists r e', waitForRegistration fuel e = (Some r, e') /\
    match r with
    | Ok _ => exists e1 status, helper_RegistrationStatus e1 = (Some status, e') /\
        PluginRegistered status = true
    | Err err =>
        (exists e1, select_timeout e1 = (true, e')) \/
        (exists e1 status, helper_RegistrationStatus e1 = (Some status, e') /\
           PluginRegistered status = false /\ reg_Error status ≠ "" /\
           err = errorf "plugin registration failed: %s" [reg_Error status])
    end.
Proof.
  revert e. induction fuel as [|fuel IH]; intros e Hfuel; [lia|]. simpl.
  unfold pollRegistration, mbind, Call_bind, mret, Call_ret.
  destruct (select_timeout e) as [[] e1] eqn:Hsel.
  { eexists _, _. split; [done|]. left. by exists e. }
  apply clock_tick in Hsel. pose proof (clock_status e1) as Hle.
  destruct (helper_RegistrationStatus e1) as [[status|] e2] eqn:Hst; simpl in Hle; [|apply IH; lia].
  destruct (PluginRegistered status) eqn:Hreg.
  { eexists _, _. split; [done|]. by exists e1, status. }
  case_decide as Herr; [|apply IH; lia].
  eexists _, _. split; [done|]. right. by exists e1, status.
Qed.
End wait.

(** ** A concrete run: the kubelet registers the plugin at the third status. *)
Module StartupRuns.
(** Ticks left before the timeout, and status requests so far. *)
#[local] Instance kubelet : KubeletPluginLib (nat * nat) := {|
  kubeletplugin_Start _ e := (Ok tt, e);
  helper_RegistrationStatus e :=
    (if decide (e.2 = 0) then None else Some (mkRegistrationStatus (bool_decide (2 <= e.2)) ""), (e.1, S e.2));
  helper_Stop e := (tt, e);
  select_timeout e := match e.1 with 0 => (true, e) | S n => (false, (n, e.2)) end
|}.
#[local] Instance clock : RegistrationClock (nat * nat).
Proof.
  refine {| ticks_left := fst |}.
  - intros [[|n] k] e'; simpl; [done|]. intros [= <-]. simpl. lia.
  - done.
Defined.

Lemma registered : waitForRegistration 301 (300, 0) = (Some (Ok tt), (297, 3)).
Proof. vm_compute. reflexivity. Qed.

Lemma wait_for_registration_ends_witness : exists e1 status,
  helper_RegistrationStatus e1 = (Some status, (297, 3)) /\ PluginRegistered status = true.
Proof.
  destruct (wait_for_registration_ends 301 (300, 0)) as (r & e' & Hrun & Hpost); [simpl; lia|].
  rewrite registered in Hrun. injection Hrun as <- <-. exact Hpost.
Defined.
End StartupRuns.
