(* ===== verification/System.v ===== *)
(** * The node plugin as a whole (cmd/dra-driver-sriov/main.go, pkg/nri/nri.go)

    One process: the device-state manager, the pod manager, the kubelet hooks, the NRI
    plugin with its update channel and background runner, and the policy reconciler,
    started in the order of RunPlugin and then driven by events in any order. *)

From S2P Require Import Prelude Hoare GoLib Consts K8sTypes VfConfigApi OpaqueConfig ClaimStatus Config Manager Prepared PodManager Controller Cdi Host Prepare DriverHook Discovery Cni Publish Nri HookState Interference Startup.

(** The process: its world, the channel's contents, oldest first, the sends of sandbox
    handlers that wait for room in it, and whether it has an NRI plugin and a health
    service. *)
Record System (E : Type) `{JsonLib} : Type := mkSystem {
  sys_world : World E;
  networkDeviceDataUpdateChan : list NetworkDataChanStructList;
  sys_sending : list NetworkDataChanStructList;
  sys_nri : option Plugin;
  sys_healthcheck : bool
}.
Arguments mkSystem {E _}.
Arguments sys_world {E _}.
Arguments networkDeviceDataUpdateChan {E _}.
Arguments sys_sending {E _}.
Arguments sys_nri {E _}.
Arguments sys_healthcheck {E _}.

(** [make(chan types.NetworkDataChanStructList, 100)]. *)
Definition channelCapacity : nat := 100.

(** What happens to a running process.  The kubelet plugin library never passes a nil
    claim. *)
Inductive SystemEvent : Type :=
  | Reconciliation
  | KubeletPrepare (claims : list ResourceClaim)
  | KubeletUnprepare (claims : list NamespacedObject)
  | SandboxStarts (pod : PodSandbox)
  | SandboxStops (pod : PodSandbox)
  | Send (i : nat)
  | Receive.

Section system.
Context `{RangeOrder} {E : Type} `{HostInterface E} `{DeviceInfoStore E} `{NadClient E}
  `{JsonLib} `{CdiLib E} `{Decoder} `{CheckpointManager E} `{ApiErrors} `{WaitLib E}
  `{ClaimClients E} `{!StatusJson} `{CniLib E} `{ClaimReader E} `{KubeletHelper E}
  `{SliceSort} `{LabelSelectors} `{PolicyClient E} `{DiscoveryHost E}
  `{StartupOS E} `{KubeletPluginLib E} `{GrpcLib E} `{ControllerRuntime E} `{NriStub E}
  `{CdiCacheLib E} `{KubeClientLib E}.
Context (flags : Flags).

(** [deviceStateManager.SetRepublishCallback(dvr.PublishResources)]. *)
#[local] Instance policy_state : DeviceState Manager E :=
  manager_state (Some (republishCallback (flag_NodeName flags))).

(** The driver is the NRI plugin's metadata updater. *)
#[local] Instance driver_metadata : MetadataUpdater E := driver_UpdateRequestMetadata true.

(** ** Start (RunPlugin) *)

(** NewPodManager, as far as its checkpoint manager. *)
Definition openCheckpoints : Call E (result unit) :=
  call_err (errorv "unable to create checkpoint manager: %v" []) (NewCheckpointManager (DriverPluginPath flags)).

(** Up to the device-state manager and the checkpoint manager of the pod manager. *)
Definition setup : Call E (result Manager) :=
  _ ←! prepareDirectories flags;
  _ ←! call_err (errorv "unable to create CDI handler: %v" []) (NewHandler (flag_CdiRoot flags));
  s ←! NewManager (Some (Some flags)) true;
  _ ←! openCheckpoints;
  mret (Ok s).

(** The controllers and the NRI plugin. *)
Definition startServices (k : KubeClientConfig) : Call E (result (option Plugin)) :=
  _ ←! startControllers (NewClientSetConfig k);
  startNri flags.

Definition idle (w : World E) (healthcheck : bool) : System E := mkSystem w [] [] None healthcheck.

(** RunPlugin until the kubelet plugin library is started: from here on the kubelet can
    call the hooks. *)
Definition openDriver (e : E) : outcome (result (System E)) :=
  match setup e with
  | (Err err, _) => Ret (Err err)
  | (Ok s, e) =>
      match newPodManager (mkWorld ∅ ∅ s e) with
      | (Panic why, _) => Panic why
      | (Ret (Err err), _) => Ret (Err err)
      | (Ret (Ok _), w) =>
          match kubeletplugin_Start (buildPluginOptions flags) (w_env w) with
          | (Err err, _) => Ret (Err (errorw "failed to start DRA driver: %w" [] err))
          | (Ok _, e) => Ret (Ok (idle (set_env e w) false))
          end
      end
  end.

(** RunPlugin until the driver has started, if no hook is called before; [None] while the kubelet has not registered
    the plugin after [fuel] polls. *)
Definition launch (fuel : nat) (e : E) : outcome (option (result (System E))) :=
  match setup e with
  | (Err err, _) => Ret (Some (Err err))
  | (Ok s, e) =>
      match newPodManager (mkWorld ∅ ∅ s e) with
      | (Panic why, _) => Panic why
      | (Ret (Err err), _) => Ret (Some (Err err))
      | (Ret (Ok _), w) =>
          match driver_Start fuel flags (PublishResources (flag_NodeName flags) (w_manager w)) (w_env w) with
          | (None, _) => Ret None
          | (Some (Err err), _) => Ret (Some (Err (errorw "failed to start DRA driver: %w" [] err)))
          | (Some (Ok healthcheck), e) => Ret (Some (Ok (idle (set_env e w) healthcheck)))
          end
      end
  end.

(** The process with an NRI plugin, and another outside. *)
Definition with_nri (nri : option Plugin) (e : E) (s : System E) : System E :=
  mkSystem (set_env e (sys_world s)) (networkDeviceDataUpdateChan s) (sys_sending s) nri (sys_healthcheck s).

(** The process whose driver has started. *)
Definition with_driver (healthcheck : bool) (e : E) (s : System E) : System E :=
  mkSystem (set_env e (sys_world s)) (networkDeviceDataUpdateChan s) (sys_sending s) (sys_nri s) healthcheck.

(** RunPlugin until it waits for its end, if no hook is called before. *)
Definition start (k : KubeClientConfig) (fuel : nat) (e : E) : outcome (option (result (System E))) :=
  match launch fuel e with
  | Ret (Some (Ok s)) =>
      match startServices k (w_env (sys_world s)) with
      | (Err err, _) => Ret (Some (Err err))
      | (Ok nri, e) => Ret (Some (Ok (with_nri nri e s)))
      end
  | r => r
  end.

(** The plugin's end: closing the channel makes a handler that still waits to send on it
    panic. *)
Definition nri_Stop (sending : list NetworkDataChanStructList) : M E unit := fun e =>
  let '(_, e) := stub_Stop e in
  if decide (sending ≠ []) then (Panic "send on closed channel", e) else (Ret tt, e).

(** The end of RunPlugin, when the context is done. *)
Definition stop (s : System E) : outcome unit * E :=
  let finish := fun e => let '(_, e) := stopDriver flags (sys_healthcheck s) e in (Ret tt, e) in
  let e := w_env (sys_world s) in
  if sys_nri s is Some _ then
    match nri_Stop (sys_sending s) e with
    | (Panic why, e) => (Panic why, e)
    | (Ret _, e) => finish e
    end
  else finish e.

(** ** Events *)

Definition on_world (w : World E) (s : System E) : System E :=
  mkSystem w (networkDeviceDataUpdateChan s) (sys_sending s) (sys_nri s) (sys_healthcheck s).

(** The same process with other data on its way. *)
Definition with_data (chan sending : list NetworkDataChanStructList) (s : System E) : System E :=
  mkSystem (sys_world s) chan sending (sys_nri s) (sys_healthcheck s).

(** Run a handler on the process; its answer goes to its caller. *)
Definition serve {A} (m : M (World E) A) (s : System E) : outcome A * System E :=
  let '(o, w) := m (sys_world s) in
  (o, on_world w s).

Definition discard {A} (r : outcome A * System E) : outcome unit * System E :=
  (match r.1 with Ret _ => Ret tt | Panic why => Panic why end, r.2).

(** The sandbox hook, up to its send on the channel. *)
Definition sandboxStarts (p : Plugin) (pod : PodSandbox) (s : System E) : outcome unit * System E :=
  match serve (RunPodSandbox p pod) s with
  | (Ret (Ok (Some items)), s) =>
      (Ret tt, with_data (networkDeviceDataUpdateChan s) (sys_sending s ++ [items]) s)
  | (Ret _, s) => (Ret tt, s)
  | (Panic why, s) => (Panic why, s)
  end.

(** What an event does; [None] when it cannot happen now. *)
Definition handle (ev : SystemEvent) (s : System E) : option (outcome unit * System E) :=
  match ev with
  | Reconciliation => Some (discard (serve (on_manager (Reconcile (flag_NodeName flags) (flag_Namespace flags))) s))
  | KubeletPrepare claims => Some (discard (serve (PrepareResourceClaims (Some <$> claims)) s))
  | KubeletUnprepare claims => Some (discard (serve (UnprepareResourceClaims claims) s))
  | SandboxStarts pod => p ← sys_nri s; Some (sandboxStarts p pod s)
  | SandboxStops pod => _ ← sys_nri s; Some (discard (serve (StopPodSandbox pod) s))
  | Send i =>
      match sys_sending s !! i with
      | Some items =>
          if decide (length (networkDeviceDataUpdateChan s) < channelCapacity) then
            Some (Ret tt, with_data (networkDeviceDataUpdateChan s ++ [items]) (delete i (sys_sending s)) s)
          else None
      | None => None
      end
  | Receive =>
      match networkDeviceDataUpdateChan s with
      | items :: rest =>
          Some (discard (serve (updateNetworkDeviceData items) (with_data rest (sys_sending s) s)))
      | [] => None
      end
  end.

Definition step_by (ev : SystemEvent) (s s' : System E) : Prop := handle ev s = Some (Ret tt, s').

Definition step (s s' : System E) : Prop := exists ev, step_by ev s s'.

(** The events in turn, as long as they can happen and none panics. *)
Fixpoint run_events (evs : list SystemEvent) (s : System E) : option (System E) :=
  match evs with
  | [] => Some s
  | ev :: evs =>
      match handle ev s with
      | Some (Ret _, s) => run_events evs s
      | _ => None
      end
  end.

(** The background steps: a send that finds room, or the runner's next turn. *)
Inductive drains (s s' : System E) : Prop :=
  | drains_send i : step_by (Send i) s s' -> drains s s'
  | drains_receive : step_by Receive s s' -> drains s s'.
End system.

(** ** Facts *)

Section effects.
Context `{RangeOrder} {E : Type} `{ApiErrors} `{SliceSort} `{LabelSelectors} `{PolicyClient E}.
Context (nodeName namespace : string) (cb : option (Manager -> M E (result unit))).

#[local] Arguments UpdatePolicyDevices : simpl never.

(** A reconciliation changes the manager by at most one policy update. *)
Lemma reconcile_effect s e o s' e' :
  manager_ok s ->
  Reconcile (H4:=manager_state cb) nodeName namespace (s, e) = (o, (s', e')) ->
  s' = s \/ exists pd, s' = spec_update pd s.
Proof.
  intros Hs. unfold Reconcile, mbind, M_bind, api, gets.
  destruct (GetNode nodeName e) as [[labels|err] e1]; simpl.
  2: { destruct (IsNotFound err); intros [= <- <- <-]; by left. }
  destruct (ListPolicies namespace e1) as [[items|err] e2]; simpl; [|intros [= <- <- <-]; by left].
  destruct (ListDeviceAttributes namespace e2) as [[attrs|err] e3]; simpl; [|intros [= <- <- <-]; by left].
  set (pd := getPolicyDeviceMap _ _ _).
  destruct (UpdatePolicyDevices cb pd (s, e3)) as [r [s1 e4]] eqn:Hupd.
  apply update_state_after in Hupd as ->; [|done]. intros Hend. right. exists pd.
  destruct r as [[]|]; by injection Hend.
Qed.

(** It returns, if the republish callback does. *)
Lemma reconcile_returns s e :
  (forall f, cb = Some f -> forall s e, exists r e', f s e = (Ret r, e')) ->
  exists r s' e', Reconcile (H4:=manager_state cb) nodeName namespace (s, e) = (Ret r, (s', e')).
Proof.
  intros Hcb. unfold Reconcile, mbind, M_bind, api, gets, mret, M_ret.
  destruct (GetNode nodeName e) as [[labels|err] e1]; simpl.
  2: { destruct (IsNotFound err); by eexists _, _, _. }
  destruct (ListPolicies namespace e1) as [[items|err] e2]; simpl; [|by eexists _, _, _].
  destruct (ListDeviceAttributes namespace e2) as [[attrs|err] e3]; simpl; [|by eexists _, _, _].
  unfold UpdatePolicyDevices. destruct (updatePolicyState _ s) as [s1 []]; simpl; [|by eexists _, _, _].
  destruct cb as [f|]; [|by eexists _, _, _].
  destruct (Hcb f eq_refl s1 e3) as ([|] & e' & ->); by eexists _, _, _.
Qed.
End effects.

(** ** The invariant *)

Definition filed_checkpoint (c : CheckpointV1) : Prop :=
  forall pod cs claim ds x, c !! pod = Some cs -> cs !! claim = Some ds -> x ∈ ds ->
    exists d, x = Some d /\ pd_PodUID d = pod /\ no_UID (pd_ClaimNamespacedName d) = claim.

(** A checkpoint that is read at start has content, each device filed where it belongs:
    what the plugin itself writes ([table_ok] at every write). *)
Definition checkpoint_filed {E} `{DiscoveryHost E} `{StartupOS E} `{CdiCacheLib E}
    `{CheckpointManager E} (flags : Flags) (e : E) : Prop := forall s e1 l e2 c e3,
  setup flags e = (Ok s, e1) -> ListCheckpoints e1 = (Ok l, e2) ->
  GetCheckpoint DriverPluginCheckpointFile e2 = (Ok c, e3) ->
  exists v1, c = Some v1 /\ filed_checkpoint v1.

(** [s] is a good state of a process whose discovery found the devices of [m0]. *)
Record sys_ok {E} `{JsonLib} (m0 : Manager) (s : System E) : Prop := {
  sok_manager : manager_ok (w_manager (sys_world s));
  sok_addressed : addressed (w_manager (sys_world s));
  sok_discovery d : option_Forall2 same_discovery (allocatable m0 !! d)
                      (allocatable (w_manager (sys_world s)) !! d);
  sok_mode : configurationMode (w_manager (sys_world s)) = configurationMode m0;
  sok_nri : is_Some (sys_nri s) -> isMultusMode (w_manager (sys_world s)) = false;
  sok_table : table_ok (w_heap (sys_world s)) (w_claims (sys_world s));
  sok_pending items : items ∈ networkDeviceDataUpdateChan s ++ sys_sending s ->
    valid_items (w_heap (sys_world s)) items;
  sok_capacity : length (networkDeviceDataUpdateChan s) <= channelCapacity
}.

Lemma valid_items_evolves `{JsonLib} h h' items : evolves h h' -> valid_items h items -> valid_items h' items.
Proof. intros He Hv it l Hit Hl. eapply evolves_live; [done|by eapply Hv]. Qed.

Lemma repr_table_lookup {A B} (R : Heap -> B -> A -> Prop) h m1 m2 k b :
  repr_table R h m1 m2 -> m1 !! k = Some b -> exists a, m2 !! k = Some a /\ R h b a.
Proof. intros Hm Hk. specialize (Hm k). rewrite Hk in Hm. inversion Hm; subst. by eexists. Qed.

Lemma checkpoint_table_ok h t c : filed_checkpoint c -> repr_claims h t c -> table_ok h t.
Proof.
  intros Hc Hr pod claim ds x Hk Hx. unfold known in Hk.
  destruct (t !! pod) as [cs|] eqn:Hp; [|done]. simpl in Hk.
  destruct (repr_table_lookup _ _ _ _ _ _ Hr Hp) as (ccs & Hcp & Hcs).
  destruct (repr_table_lookup _ _ _ _ _ _ Hcs Hk) as (cds & Hcc & Hds).
  apply list_elem_of_lookup in Hx as [i Hi].
  destruct (Forall2_lookup_l _ _ _ _ _ Hds Hi) as (d & Hd & Hptr).
  destruct (Hc pod ccs claim cds d Hcp Hcc) as (d' & -> & Hpod & Hclaim); [by eapply list_elem_of_lookup_2|].
  destruct x as [l|]; [|done]. by exists l, d'.
Qed.

Section invariant.
Context `{RangeOrder} {E : Type} `{HostInterface E} `{DeviceInfoStore E} `{NadClient E}
  `{JsonLib} `{CdiLib E} `{Decoder} `{CheckpointManager E} `{ApiErrors} `{WaitLib E}
  `{ClaimClients E} `{!StatusJson} `{CniLib E} `{ClaimReader E} `{KubeletHelper E}
  `{SliceSort} `{LabelSelectors} `{PolicyClient E} `{DiscoveryHost E}.
Context (flags : Flags) (m0 : Manager).
#[local] Existing Instance driver_metadata.
Implicit Types (w : World E) (s : System E).

(** The kubelet hooks and the sandbox events keep the manager. *)
Lemma sys_ok_keeps_manager w' s :
  sys_ok m0 s -> w_manager w' = w_manager (sys_world s) ->
  evolves (w_heap (sys_world s)) (w_heap w') -> table_ok (w_heap w') (w_claims w') ->
  sys_ok m0 (on_world w' s).
Proof.
  intros [] Hm He Ht. constructor; simpl; rewrite ?Hm; try done.
  intros items Hin. eapply valid_items_evolves; [done|]. by apply sok_pending0.
Qed.

(** A handler that evolves the heap and keeps the table and the manager. *)
Lemma serve_evolves {A} (q : Prop) (m : M (World E) A) s (Q : A -> World E -> Prop) :
  triple q (at_core (w_heap (sys_world s)) (w_claims (sys_world s)) (w_manager (sys_world s))) m Q ->
  match serve m s with
  | (Ret a, s') => Q a (sys_world s') /\ s' = on_world (sys_world s') s
  | (Panic _, _) => q
  end.
Proof.
  intros Hm. unfold serve. specialize (Hm (sys_world s)). destruct (m (sys_world s)) as [[a|why] w'].
  - split; [by apply Hm|done].
  - by apply Hm.
Qed.

(** ** Every event keeps the invariant *)

Context (q : Prop) (Hjson : q \/ no_null_nads) (Hcni : q \/ no_null_cni)
  (Hstatus : q \/ status_updates_return (E:=E)).

(** What a handler leaves of the state: its answer, the heap and the table. *)
Definition kept {A} s (r : outcome A * System E) : Prop :=
  match r with
  | (Ret _, s') => sys_ok m0 s' /\ evolves (w_heap (sys_world s)) (w_heap (sys_world s'))
  | (Panic _, _) => q
  end.

Lemma serve_kept {A} (m : M (World E) A) s :
  sys_ok m0 s ->
  triple q (at_core (w_heap (sys_world s)) (w_claims (sys_world s)) (w_manager (sys_world s))) m
    (fun _ w => exists h' t', evolves (w_heap (sys_world s)) h' /\ table_ok h' t' /\
       at_core h' t' (w_manager (sys_world s)) w) ->
  kept s (serve m s).
Proof.
  intros Hs Hm. pose proof (serve_evolves q m s _ Hm) as Hserve. unfold kept.
  destruct (serve m s) as [[a|why] s']; [|done]. destruct Hserve as ((h' & t' & He & Ht & <- & <- & Hw) & ->).
  split; [|done]. by apply sys_ok_keeps_manager.
Qed.

Lemma kept_discard {A} s (r : outcome A * System E) : kept s r -> kept s (discard r).
Proof. by destruct r as [[] s']. Qed.

Lemma kept_prepare claims s : sys_ok m0 s -> kept s (serve (PrepareResourceClaims (Some <$> claims)) s).
Proof using Hjson Hstatus.
  intros Hs. apply serve_kept; [done|]. eapply triple_weaken; [|done|].
  - apply triple_PrepareResourceClaims; [done|right; apply (sok_addressed _ _ Hs)|done| |apply (sok_table _ _ Hs)].
    right. intros c (claim & -> & _)%list_elem_of_fmap. by eexists.
  - intros r w (h' & t' & Hh & Ht & Hw & _). exists h', t'. split_and!; [by apply evolves_subseteq|done..].
Qed.

Lemma kept_unprepare claims s : sys_ok m0 s -> kept s (serve (UnprepareResourceClaims claims) s).
Proof.
  intros Hs. apply serve_kept; [done|]. eapply triple_weaken.
  - apply (triple_UnprepareResourceClaims q (w_manager (sys_world s)) claims _ _ (sok_table _ _ Hs)).
  - intros w Hw. by apply shrunk_start.
  - intros r w (t' & Ht & Hw). exists (w_heap (sys_world s)), t'.
    split_and!; [done|by eapply table_ok_subseteq, (sok_table _ _ Hs)|done].
Qed.

Lemma kept_stop pod s : sys_ok m0 s -> kept s (serve (StopPodSandbox pod) s).
Proof.
  intros Hs. apply serve_kept; [done|]. eapply triple_weaken.
  - apply triple_StopPodSandbox. right. apply table_ok_live, (sok_table _ _ Hs).
  - done.
  - intros r w Hw. eexists _, _. split_and!; [done|apply (sok_table _ _ Hs)|done].
Qed.

Lemma kept_sandbox p pod s : sys_ok m0 s -> kept s (sandboxStarts p pod s).
Proof using Hcni.
  intros Hs. unfold sandboxStarts.
  pose proof (serve_evolves q _ s _ (triple_RunPodSandbox p q _ _ _ pod
    (or_intror (table_ok_live _ _ (sok_table _ _ Hs))) Hcni)) as Hrun.
  destruct (serve _ s) as [[r|why] s1]; [|done].
  destruct Hrun as (((Hh & Ht & Hm) & Hitems) & ->). set (w1 := sys_world s1) in *.
  assert (Hok : sys_ok m0 (on_world w1 s)).
  { apply sys_ok_keeps_manager; [done..|by rewrite Hh|]. rewrite Hh, Ht. apply (sok_table _ _ Hs). }
  destruct r as [[items|]|err]; simpl; (split; [|by rewrite Hh]); [|done..].
  destruct Hok. constructor; try done. simpl in *. intros it. rewrite app_assoc, elem_of_app, list_elem_of_singleton.
  intros [?| ->]; [by apply sok_pending0|]. destruct Hitems as (devices & _ & _ & Hall).
  rewrite Hh. by eapply attached_items_valid.
Qed.

Lemma kept_send i s : sys_ok m0 s -> forall r, handle flags (Send i) s = Some r -> kept s r.
Proof.
  intros Hs r. simpl. destruct (sys_sending s !! i) as [items|] eqn:Hi; [|done].
  destruct (decide _) as [Hroom|]; [|done]. intros [= <-]. simpl. split; [|done].
  destruct Hs. constructor; try done; simpl.
  - intros it Hin. apply sok_pending0. rewrite <- app_assoc in Hin.
    rewrite (delete_Permutation (sys_sending s) i items Hi). done.
  - rewrite length_app. simpl. lia.
Qed.

Lemma kept_receive s : sys_ok m0 s -> forall r, handle flags Receive s = Some r -> kept s r.
Proof using Hstatus.
  intros Hs r. simpl. destruct (networkDeviceDataUpdateChan s) as [|items rest] eqn:Hchan; [done|].
  intros [= <-]. apply kept_discard.
  set (s1 := with_data rest (sys_sending s) s).
  assert (Hs1 : sys_ok m0 s1).
  { destruct Hs. constructor; try done; simpl.
    - intros it Hit. apply sok_pending0. rewrite Hchan. by right.
    - rewrite Hchan in sok_capacity0. simpl in sok_capacity0. lia. }
  apply (serve_kept (updateNetworkDeviceData items) s1 Hs1). eapply triple_weaken.
  - apply triple_updateNetworkDeviceData; [|exact Hstatus]. apply (sok_pending _ _ Hs).
    rewrite Hchan. by left.
  - done.
  - intros [] w (items' & _ & Hw). eexists _, _. split_and!; [apply evolves_recorded| |exact Hw].
    eapply table_ok_evolves; [apply evolves_recorded|apply (sok_table _ _ Hs1)].
Qed.

Lemma kept_reconcile s :
  sys_ok m0 s -> kept s (serve (on_manager (Reconcile (H4:=policy_state flags) (flag_NodeName flags) (flag_Namespace flags))) s).
Proof.
  intros Hs. unfold serve, on_manager.
  destruct (reconcile_returns (flag_NodeName flags) (flag_Namespace flags)
    (Some (republishCallback (flag_NodeName flags))) (w_manager (sys_world s)) (w_env (sys_world s))) as (r & s' & e' & Hrun).
  { intros f [= <-] s1 e1. unfold republishCallback. destruct (PublishResources _ s1 e1). by eexists _, _. }
  unfold policy_state. rewrite Hrun. simpl. split; [|done].
  destruct (reconcile_effect _ _ _ _ _ _ _ _ (sok_manager _ _ Hs) Hrun) as [->|[pd ->]].
  - by destruct Hs.
  - destruct Hs. constructor; simpl; try done.
    + apply spec_update_ok.
    + by apply spec_update_addressed.
    + intros d. etrans; [apply sok_discovery0|apply spec_update_discovery].
Qed.

Lemma handle_kept ev s r :
  sys_ok m0 s -> handle flags ev s = Some r -> kept s r.
Proof using Hjson Hcni Hstatus.
  intros Hs. destruct ev as [|claims|claims|pod|pod|i|]; [..|by apply kept_send|by apply kept_receive]; simpl.
  - intros [= <-]. by apply kept_discard, kept_reconcile.
  - intros [= <-]. by apply kept_discard, kept_prepare.
  - intros [= <-]. by apply kept_discard, kept_unprepare.
  - destruct (sys_nri s) as [p|]; [|done]. intros [= <-]. by apply kept_sandbox.
  - destruct (sys_nri s) as [p|]; [|done]. intros [= <-]. by apply kept_discard, kept_stop.
Qed.

Lemma steps_kept s s' :
  sys_ok m0 s -> rtc (step flags) s s' ->
  sys_ok m0 s' /\ evolves (w_heap (sys_world s)) (w_heap (sys_world s')).
Proof using Hjson Hcni Hstatus.
  intros Hs Hrun. revert Hs. induction Hrun as [s|s s1 s' [ev Hev] _ IH]; intros Hs; [done|].
  destruct (handle_kept ev s _ Hs Hev) as [Hs1 He1]. destruct (IH Hs1) as [Hs' He'].
  split; [done|by etrans].
Qed.

(** The work left for the runner: a send waiting for room takes two more steps. *)
Definition pending s : nat := length (networkDeviceDataUpdateChan s) + 2 * length (sys_sending s).

(** A background step keeps table and manager, and is one step less to go. *)
Lemma drains_kept s s' :
  sys_ok m0 s -> drains flags s s' ->
  sys_ok m0 s' /\ evolves (w_heap (sys_world s)) (w_heap (sys_world s')) /\
  w_claims (sys_world s') = w_claims (sys_world s) /\
  w_manager (sys_world s') = w_manager (sys_world s) /\ pending s = S (pending s').
Proof using Hjson Hcni Hstatus.
  intros Hs Hd.
  assert (Hstep : sys_ok m0 s' /\ evolves (w_heap (sys_world s)) (w_heap (sys_world s'))).
  { destruct Hd as [i Hev|Hev]; by apply (handle_kept _ _ _ Hs Hev). }
  split_and!; [apply Hstep..| | |]; destruct Hd as [i Hev|Hev]; unfold step_by in Hev; simpl in Hev.
  all: try (destruct (sys_sending s !! i) as [items|] eqn:Hi; [|done];
            destruct (decide _); [|done]; injection Hev as <-; try done).
  all: try (destruct (networkDeviceDataUpdateChan s) as [|items rest] eqn:Hchan; [done|];
    set (s1 := with_data rest (sys_sending s) s) in Hev;
    assert (Hv : valid_items (w_heap (sys_world s)) items)
      by (apply (sok_pending _ _ Hs); rewrite Hchan; by left);
    pose proof (serve_evolves q _ s1 _ (triple_updateNetworkDeviceData q _ _ items _ Hv Hstatus)) as Hrun;
    destruct (serve (updateNetworkDeviceData items) s1) as [[[]|] s2]; [|done];
    injection Hev as <-; destruct Hrun as ((items' & _ & Hh & Ht & Hm) & Heq)).
  - exact Ht.
  - exact Hm.
  - unfold pending. simpl. rewrite length_app, length_delete by by eexists.
    apply lookup_lt_Some in Hi. simpl. lia.
  - unfold pending. rewrite Hchan, Heq. simpl. lia.
Qed.

Lemma drains_steps n s s' :
  sys_ok m0 s -> nsteps (drains flags) n s s' ->
  sys_ok m0 s' /\ evolves (w_heap (sys_world s)) (w_heap (sys_world s')) /\
  w_claims (sys_world s') = w_claims (sys_world s) /\
  w_manager (sys_world s') = w_manager (sys_world s) /\ pending s = n + pending s'.
Proof using Hjson Hcni Hstatus.
  intros Hs Hrun. revert Hs. induction Hrun as [s|n s s1 s' Hd _ IH]; intros Hs; [by split_and!|].
  destruct (drains_kept s s1 Hs Hd) as (Hs1 & He1 & Ht1 & Hm1 & Hp1).
  destruct (IH Hs1) as (Hs' & He' & Ht' & Hm' & Hp').
  split_and!; [done|by etrans|congruence|congruence|lia].
Qed.
End invariant.

(** Start gives a good state, or an error. *)
Section start.
Context `{RangeOrder} {E : Type} `{JsonLib} `{CheckpointManager E} `{KubeletHelper E} `{DiscoveryHost E}
  `{StartupOS E} `{KubeletPluginLib E} `{GrpcLib E} `{ControllerRuntime E} `{NriStub E}
  `{CdiCacheLib E} `{KubeClientLib E}.
Context (flags : Flags).

Lemma start_on_filed w :
  (forall l e1 c e2, ListCheckpoints (w_env w) = (Ok l, e1) ->
     GetCheckpoint DriverPluginCheckpointFile e1 = (Ok c, e2) ->
     exists v1, c = Some v1 /\ filed_checkpoint v1) ->
  exists r w', newPodManager w = (Ret r, w') /\ w_manager w' = w_manager w /\
    (r = Ok tt -> table_ok (w_heap w') (w_claims w')).
Proof.
  intros Hfiled. unfold newPodManager, bind_ok, wrap_err, ext, mbind, M_bind, mret, M_ret.
  destruct (ListCheckpoints (w_env w)) as [[l|err] e1] eqn:Hlist; simpl; [|eexists _, _; by split_and!].
  case_bool_decide.
  - destruct (GetCheckpoint _ _) as [[c|err] e2] eqn:Hget; simpl; [|eexists _, _; by split_and!].
    destruct (Hfiled _ _ _ _ eq_refl Hget) as (v1 & -> & Hv1). simpl. unfold modify. simpl.
    destruct (allocates_claims v1 (w_heap w)) as [_ Hr].
    destruct (alloc_claims v1 (w_heap w)) as [t h]. simpl in *. eexists _, _.
    split_and!; [done..|]. intros _. simpl. by eapply checkpoint_table_ok.
  - destruct (CreateCheckpoint _ _ _) as [[[]|err] e2]; simpl;
      [|eexists _, _; by split_and!]. eexists _, _. split_and!; [done..|]. intros _ pod claim ds x Hk. simpl in Hk.
    unfold known in Hk. by rewrite lookup_empty in Hk.
Qed.

Lemma start_nri nri e e' :
  startNri flags e = (Ok nri, e') ->
  bool_decide (is_Some nri) = negb (bool_decide (flag_ConfigurationMode flags = ConfigurationModeMultus)).
Proof.
  unfold startNri, NewNRIPlugin, nri_Start, call_ok, call_err, mbind, Call_bind, mret, Call_ret.
  destruct (bool_decide_reflect (flag_ConfigurationMode flags = ConfigurationModeMultus)) as [Hm|Hm].
  - rewrite decide_False by tauto. by intros [= <- _].
  - rewrite decide_True by done. destruct (stub_New e) as [[[]|] e1]; simpl; [|done].
    destruct (stub_Start e1) as [[[]|] e2]; simpl; [|done]. by intros [= <- _].
Qed.

Lemma setup_manager e s e' :
  setup flags e = (Ok s, e') -> exists e1 e2, NewManager (Some (Some flags)) true e1 = (Ok s, e2).
Proof.
  unfold setup, call_ok, mbind, Call_bind.
  destruct (prepareDirectories flags e) as [[[]|] e1]; [|done].
  destruct (call_err _ _ e1) as [[[]|] e2]; [|done].
  destruct (NewManager _ _ e2) as [[s1|] e3] eqn:Hnew; [|done].
  destruct (openCheckpoints flags e3) as [[[]|] e4]; [|done]. intros [= <- _]. by eexists _, _.
Qed.

(** The NRI plugin is there in the manager's standalone mode. *)
Lemma setup_mode e s e' :
  setup flags e = (Ok s, e') ->
  isMultusMode s = bool_decide (flag_ConfigurationMode flags = ConfigurationModeMultus).
Proof.
  intros (e1 & e2 & (f & mode & m & e3 & iommu & [= <-] & Hmode & _ & ->)%NewManager_ok)%setup_manager.
  unfold isMultusMode. simpl. unfold normalizeConfigurationMode in Hmode.
  destruct (decide _) as [->|_]; [by injection Hmode as <-|].
  destruct (decide _) as [->|_]; [by injection Hmode as <-|].
  destruct (decide _) as [->|_]; [by injection Hmode as <-|done].
Qed.

(** A process that the kubelet can call has no NRI plugin yet. *)
Lemma open_spec e :
  checkpoint_filed flags e ->
  match openDriver flags e with
  | Ret (Ok s) => sys_ok (w_manager (sys_world s)) s /\ pending s = 0 /\ sys_nri s = None /\
      isMultusMode (w_manager (sys_world s)) = bool_decide (flag_ConfigurationMode flags = ConfigurationModeMultus)
  | Ret _ => True
  | Panic _ => False
  end.
Proof.
  intros Hfiled. unfold openDriver. destruct (setup flags e) as [[s|err] e1] eqn:Hsetup; [|done].
  pose proof (setup_mode e s e1 Hsetup) as Hmode.
  pose proof (setup_manager e s e1 Hsetup) as (e2 & e3 & Hnew).
  destruct (new_manager_ok _ true e2 s e3 Hnew) as (Hok & Haddr).
  match goal with |- context [newPodManager ?w] =>
    destruct (start_on_filed w) as (r & w' & -> & Hm & Ht) end.
  { intros l e4 c e5 Hl Hc. by eapply Hfiled. }
  destruct r as [[]|err]; [|done].
  destruct (kubeletplugin_Start _ _) as [[[]|err] e4]; [|done].
  simpl in Hm. split_and!; [|done|done|by simpl; rewrite Hm]. constructor; simpl; rewrite ?Hm; try done.
  - by apply Ht.
  - by intros items ?%not_elem_of_nil.
  - unfold channelCapacity. lia.
Qed.

(** [launch] is the opening, the wait for the registration, and the rest of the driver's
    start. *)
Lemma launch_opens fuel e :
  launch flags fuel e =
    match openDriver flags e with
    | Panic why => Panic why
    | Ret (Err err) => Ret (Some (Err err))
    | Ret (Ok s) =>
        match waitForRegistration fuel (w_env (sys_world s)) with
        | (None, _) => Ret None
        | (Some (Err err), _) => Ret (Some (Err (errorw "failed to start DRA driver: %w" [] err)))
        | (Some (Ok _), e) =>
            match driverRegistered flags (PublishResources (flag_NodeName flags) (w_manager (sys_world s))) e with
            | (Err err, _) => Ret (Some (Err (errorw "failed to start DRA driver: %w" [] err)))
            | (Ok healthcheck, e) => Ret (Some (Ok (with_driver healthcheck e s)))
            end
        end
    end.
Proof.
  unfold launch, openDriver. destruct (setup flags e) as [[s|err] e1]; [|done].
  destruct (newPodManager _) as [[[[]|err]|why] w]; [|done..].
  unfold driver_Start, mbind, Call_bind. destruct (kubeletplugin_Start _ _) as [[[]|err] e2]; [|done]. simpl.
  destruct (waitForRegistration fuel e2) as [[[[]|err]|] e3]; [|done..].
  by destruct (driverRegistered _ _ e3) as [[healthcheck|err] e4].
Qed.

(** A process after [launch] has no NRI plugin yet. *)
Lemma launch_spec fuel e :
  checkpoint_filed flags e ->
  match launch flags fuel e with
  | Ret (Some (Ok s)) => sys_ok (w_manager (sys_world s)) s /\ pending s = 0 /\ sys_nri s = None /\
      isMultusMode (w_manager (sys_world s)) = bool_decide (flag_ConfigurationMode flags = ConfigurationModeMultus)
  | Ret _ => True
  | Panic _ => False
  end.
Proof.
  intros Hfiled%open_spec. rewrite launch_opens. destruct (openDriver flags e) as [[s|err]|why]; [|done..].
  destruct (waitForRegistration _ _) as [[[[]|err]|] e1]; [|done..].
  destruct (driverRegistered _ _ e1) as [[healthcheck|err] e2]; [|done].
  destruct Hfiled as ([] & Hidle & Hnri & Hmode). by split_and!.
Qed.

(** The NRI plugin comes in standalone mode. *)
Lemma sys_ok_with_nri m0 nri e e' s :
  sys_ok m0 s -> isMultusMode (w_manager (sys_world s)) = bool_decide (flag_ConfigurationMode flags = ConfigurationModeMultus) ->
  startNri flags e = (Ok nri, e') -> sys_ok m0 (with_nri nri e' s).
Proof.
  intros Hs Hmode Hnri%start_nri. destruct Hs. constructor; simpl; try done.
  intros Hsome. rewrite bool_decide_eq_true_2 in Hnri by done. rewrite Hmode. by destruct (bool_decide _).
Qed.

Lemma start_spec k fuel e :
  checkpoint_filed flags e ->
  match start flags k fuel e with
  | Ret (Some (Ok s)) => sys_ok (w_manager (sys_world s)) s /\ pending s = 0 /\
      bool_decide (is_Some (sys_nri s)) = negb (isMultusMode (w_manager (sys_world s)))
  | Ret _ => True
  | Panic _ => False
  end.
Proof.
  intros Hfiled. pose proof (launch_spec fuel e Hfiled) as Hs. unfold start.
  destruct (launch flags fuel e) as [[[s|err]|]|why]; [|done..]. destruct Hs as (Hs & Hidle & _ & Hmode).
  destruct (startServices flags k _) as [[nri|err] e5] eqn:Hsrv; [|done].
  unfold startServices, call_ok, mbind, Call_bind in Hsrv.
  destruct (startControllers _ _) as [[[]|] e6]; [|done].
  split_and!; [by eapply sys_ok_with_nri|done|]. simpl. rewrite Hmode. by eapply start_nri.
Qed.
End start.

(** ** Properties *)

(** The events that are not calls of the kubelet. *)
Definition background (ev : SystemEvent) : bool :=
  match ev with KubeletPrepare _ | KubeletUnprepare _ => false | _ => true end.

(** The same device to the kubelet, up to its network data. *)
Definition same_but_network (a b : KubeletDevice) : Prop := exists nd,
  b = mkKubeletDevice (kd_Requests a) (kd_PoolName a) (kd_DeviceName a) (kd_CDIDeviceIDs a)
        (kd_Attributes a) nd.

Section system_properties.
Context `{RangeOrder} {E : Type} `{HostInterface E} `{DeviceInfoStore E} `{NadClient E}
  `{JsonLib} `{CdiLib E} `{Decoder} `{CheckpointManager E} `{ApiErrors} `{WaitLib E}
  `{ClaimClients E} `{!StatusJson} `{CniLib E} `{ClaimReader E} `{KubeletHelper E}
  `{SliceSort} `{LabelSelectors} `{PolicyClient E} `{DiscoveryHost E}
  `{StartupOS E} `{KubeletPluginLib E} `{GrpcLib E} `{ControllerRuntime E} `{NriStub E}
  `{CdiCacheLib E} `{KubeClientLib E}.
Context (flags : Flags).
#[local] Existing Instance driver_metadata.
Implicit Types (s : System E).

Definition background_step s s' : Prop :=
  exists ev, background ev = true /\ step_by flags ev s s'.

(** The table is the kubelet hooks' alone. *)
Lemma background_keeps_claims m0 s s' :
  sys_ok m0 s -> background_step s s' -> w_claims (sys_world s') = w_claims (sys_world s).
Proof.
  intros Hs (ev & Hback & Hev). unfold step_by in Hev.
  destruct ev as [|claims|claims|pod|pod|i|]; try discriminate Hback.
  - simpl in Hev. unfold serve, on_manager in Hev.
    destruct (Reconcile _ _ _) as [[r|why] [s1 e1]]; [|done]. by injection Hev as <-.
  - simpl in Hev. destruct (sys_nri s) as [p|]; [|done]. simpl in Hev. unfold sandboxStarts in Hev.
    pose proof (serve_evolves True _ s _ (triple_RunPodSandbox p True _ _ _ pod
      (or_introl I) (or_introl I))) as Hrun.
    destruct (serve _ s) as [[[[items|]|err]|why] s1]; [..|done];
      destruct Hrun as (((Hh & Ht & Hm) & _) & _); injection Hev as <-; exact Ht.
  - simpl in Hev. destruct (sys_nri s) as [p|]; [|done]. simpl in Hev.
    pose proof (serve_evolves True _ s _ (triple_StopPodSandbox True _ _ _ pod (or_introl I))) as Hrun.
    destruct (serve _ s) as [[r|why] s1]; [|done]. destruct Hrun as ((Hh & Ht & Hm) & _).
    injection Hev as <-. exact Ht.
  - apply (drains_kept flags m0 True (or_introl I) (or_introl I) (or_introl I) s s' Hs).
    by apply drains_send with i.
  - apply (drains_kept flags m0 True (or_introl I) (or_introl I) (or_introl I) s s' Hs).
    by apply drains_receive.
Qed.

Lemma background_run m0 s s' :
  sys_ok m0 s -> rtc background_step s s' ->
  w_claims (sys_world s') = w_claims (sys_world s) /\
  evolves (w_heap (sys_world s)) (w_heap (sys_world s')).
Proof.
  intros Hs Hrun. revert Hs. induction Hrun as [s|s s1 s' Hstep _ IH]; intros Hs; [done|].
  pose proof (background_keeps_claims m0 s s1 Hs Hstep) as Ht. destruct Hstep as (ev & _ & Hev).
  destruct (handle_kept flags m0 True (or_introl I) (or_introl I) (or_introl I)
    ev s _ Hs Hev) as [Hs1 He].
  destruct (IH Hs1) as [Ht' He']. split; [congruence|by etrans].
Qed.

Lemma run_events_steps evs s s' :
  run_events flags evs s = Some s' -> rtc (step flags) s s'.
Proof.
  revert s. induction evs as [|ev evs IH]; intros s; simpl; [by intros [= <-]|].
  destruct (handle flags ev s) as [[[[]|why] s1]|] eqn:Hev; [|done..].
  intros Hrun. eapply rtc_l; [by exists ev|by apply IH].
Qed.

Lemma run_events_one ev s s' : run_events flags [ev] s = Some s' -> step_by flags ev s s'.
Proof.
  unfold step_by. simpl. destruct (handle flags ev s) as [[[[]|why] s1]|]; [|done..]. by intros [= <-].
Qed.

Lemma run_events_background evs s s' :
  forallb background evs = true -> run_events flags evs s = Some s' ->
  rtc background_step s s'.
Proof.
  revert s. induction evs as [|ev evs IH]; intros s; simpl; [by intros _ [= <-]|].
  intros [Hback Hall]%andb_prop.
  destruct (handle flags ev s) as [[[[]|why] s1]|] eqn:Hev; [|done..].
  intros Hrun. eapply rtc_l; [by exists ev|by apply IH].
Qed.

(** As long as there is work a background step is possible. *)
Lemma drains_possible m0 s :
  sys_ok m0 s -> WaitReturns E -> ClientsReturn E -> pending s ≠ 0 -> exists s', drains flags s s'.
Proof.
  intros Hs Hwait Hclients Hne. destruct (networkDeviceDataUpdateChan s) as [|items rest] eqn:Hchan.
  - destruct (sys_sending s) as [|items sending] eqn:Hsend.
    { unfold pending in Hne. by rewrite Hchan, Hsend in Hne. }
    eexists. eapply (drains_send _ _ _ 0). unfold step_by. simpl. rewrite Hsend, Hchan. done.
  - assert (Hv : valid_items (w_heap (sys_world s)) items).
    { apply (sok_pending _ _ Hs). rewrite Hchan. by left. }
    pose proof (serve_evolves False _ (with_data rest (sys_sending s) s) _
      (triple_updateNetworkDeviceData False _ _ items _ Hv (or_intror status_updates_do_return))) as Hgo.
    destruct (serve _ _) as [[[]|why] s2] eqn:Hserve in Hgo; [|destruct Hgo].
    exists s2. apply drains_receive. unfold step_by. simpl. by rewrite Hchan, Hserve.
Qed.

(** The one data there is takes two steps: its send, and its turn of the runner. *)
Lemma drain_one items s s' :
  networkDeviceDataUpdateChan s = [] -> sys_sending s = [items] -> nsteps (drains flags) 2 s s' ->
  discard (serve (updateNetworkDeviceData items) (with_data [] [] s)) = (Ret tt, s').
Proof.
  intros Hchan Hsend (s1 & Hsent%nsteps_once_inv & Hrun)%nsteps_inv_r.
  assert (Hs1 : s1 = with_data [items] [] s).
  { destruct Hsent as [i Hev|Hev]; unfold step_by in Hev; simpl in Hev.
    - rewrite Hsend, Hchan in Hev. destruct i; [|done]. simpl in Hev. by injection Hev as <-.
    - by rewrite Hchan in Hev. }
  subst s1. destruct Hrun as [i Hev|Hev]; unfold step_by in Hev; simpl in Hev; [done|]. exact (inj Some _ _ Hev).
Qed.

(** A sandbox event whose hook got to its send. *)
Lemma sandbox_sent m0 pod s s1 :
  sys_ok m0 s -> pending s = 0 -> step_by flags (SandboxStarts pod) s s1 -> pending s1 ≠ 0 ->
  exists devices items, GetDevicesByPodUID (pod_Uid pod) (sys_world s) = Some devices /\
    Forall2 (attached_item (E:=E) (w_heap (sys_world s)) pod (getNetworkNamespace pod)) devices items /\
    networkDeviceDataUpdateChan s1 = [] /\ sys_sending s1 = [items] /\
    w_heap (sys_world s1) = w_heap (sys_world s).
Proof.
  intros Hs Hidle Hev Hsent. unfold step_by in Hev. simpl in Hev.
  destruct (sys_nri s) as [p|]; [|done]. simpl in Hev. unfold sandboxStarts in Hev.
  pose proof (serve_evolves True _ s _ (triple_RunPodSandbox p True _ _ _ pod
    (or_introl I) (or_introl I))) as Hrun.
  assert (Hempty : networkDeviceDataUpdateChan s = [] /\ sys_sending s = []).
  { unfold pending in Hidle. destruct (networkDeviceDataUpdateChan s), (sys_sending s); simpl in Hidle; done || lia. }
  destruct Hempty as [Hchan Hsend].
  destruct (serve _ s) as [[[[items|]|err]|why] s']; [..|done];
    destruct Hrun as (((Hh & Ht & Hm) & Hitems) & Heq); injection Hev as <-.
  2,3: by rewrite Heq in Hsent.
  destruct Hitems as (devices & Hdev & _ & Hall). exists devices, items. rewrite Heq. simpl.
  rewrite Hchan, Hsend. split_and!; [|done..].
  rewrite <- Hdev. unfold GetDevicesByPodUID. by rewrite Ht.
Qed.

Lemma drains_twice m0 s :
  sys_ok m0 s -> WaitReturns E -> ClientsReturn E -> pending s = 2 -> exists s', nsteps (drains flags) 2 s s'.
Proof.
  intros Hs Hwait Hclients Hp.
  destruct (drains_possible m0 s Hs Hwait Hclients) as [s1 Hd1]; [lia|].
  destruct (drains_kept flags m0 True (or_introl I) (or_introl I) (or_introl I) s s1 Hs Hd1)
    as (Hs1 & _ & _ & _ & Hp1).
  destruct (drains_possible m0 s1 Hs1 Hwait Hclients) as [s2 Hd2]; [lia|].
  exists s2. by do 2 (eapply nsteps_l; [done|]); constructor.
Qed.

Lemma reachable_ok k fuel e s0 s :
  checkpoint_filed flags e -> start flags k fuel e = Ret (Some (Ok s0)) ->
  rtc (step flags) s0 s -> sys_ok (w_manager (sys_world s0)) s.
Proof.
  intros Hfiled Hstart Hrun. pose proof (start_spec flags k fuel e Hfiled) as Hs.
  rewrite Hstart in Hs. destruct Hs as (Hs & _).
  apply (steps_kept flags _ True (or_introl I) (or_introl I) (or_introl I) s0 s Hs Hrun).
Qed.

(** No event starts or stops the NRI plugin. *)
Lemma handle_nri ev s o s' : handle flags ev s = Some (o, s') -> sys_nri s' = sys_nri s.
Proof.
  assert (Hserve : forall A (m : M (World E) A) s1, sys_nri (serve m s1).2 = sys_nri s1).
  { intros A m s1. unfold serve. by destruct (m (sys_world s1)). }
  destruct ev as [|claims|claims|pod|pod|i|]; simpl.
  - intros [= _ <-]. apply Hserve.
  - intros [= _ <-]. apply Hserve.
  - intros [= _ <-]. apply Hserve.
  - destruct (sys_nri s) as [p|] eqn:Hnri; [|done]. simpl. unfold sandboxStarts.
    pose proof (Hserve _ (RunPodSandbox p pod) s) as Hsame. rewrite Hnri in Hsame.
    destruct (serve _ s) as [[[[items|]|]|why] s1]; by intros [= _ <-].
  - destruct (sys_nri s) as [p|] eqn:Hnri; [|done]. simpl. intros [= _ <-]. simpl. by rewrite Hserve.
  - destruct (sys_sending s !! i); [|done]. destruct (decide _); [|done]. by intros [= _ <-].
  - destruct (networkDeviceDataUpdateChan s) as [|items rest]; [done|]. intros [= _ <-]. simpl. by rewrite Hserve.
Qed.

(** In every state that a started process can reach, by any events in any order, the
    manager is well-formed and discovery's findings are those of the start, every device
    of the pod manager exists and is filed under its own pod and claim, the channel holds
    at most its capacity, all network data on its way is for devices that exist, and the
    NRI plugin runs exactly in standalone mode. *)
Lemma reachable_states_ok k fuel e s0 s :
  checkpoint_filed flags e -> start flags k fuel e = Ret (Some (Ok s0)) ->
  rtc (step flags) s0 s ->
  sys_ok (w_manager (sys_world s0)) s /\
  bool_decide (is_Some (sys_nri s)) = negb (isMultusMode (w_manager (sys_world s))).
Proof.
  intros Hfiled Hstart Hrun. pose proof (reachable_ok k fuel e s0 s Hfiled Hstart Hrun) as Hs. split; [done|].
  pose proof (start_spec flags k fuel e Hfiled) as Hs0. rewrite Hstart in Hs0. destruct Hs0 as (_ & _ & Hnri).
  assert (Hsame : sys_nri s = sys_nri s0).
  { clear Hs Hstart Hnri. induction Hrun as [|s0 s1 s [ev Hev] _ IH]; [done|]. rewrite IH. by eapply handle_nri. }
  unfold isMultusMode in *. by rewrite Hsame, Hnri, (sok_mode _ _ Hs).
Qed.

(** No event crashes the process: neither its start nor any handler, in any state
    that it can reach, panics, whatever the kubelet, the runtime, the API server and
    the host do, if no network attachment definition of the API server is the JSON null,
    no CNI plugin answers with null entries, and the calls of the claim clients and of
    the wait package return. *)
Lemma plugin_never_crashes k fuel e :
  checkpoint_filed flags e -> no_null_nads -> no_null_cni -> WaitReturns E -> ClientsReturn E ->
  (forall why, start flags k fuel e ≠ Panic why) /\
  forall s0 s, start flags k fuel e = Ret (Some (Ok s0)) -> rtc (step flags) s0 s ->
    forall ev why s', handle flags ev s ≠ Some (Panic why, s').
Proof.
  intros Hfiled Hjson Hcni Hwait Hclients. split.
  - intros why Hstart. pose proof (start_spec flags k fuel e Hfiled) as Hs. by rewrite Hstart in Hs.
  - intros s0 s Hstart Hrun ev why s' Hev.
    pose proof (reachable_ok k fuel e s0 s Hfiled Hstart Hrun) as Hs.
    apply (handle_kept flags _ False (or_intror Hjson) (or_intror Hcni)
      (or_intror status_updates_do_return) ev s _ Hs Hev).
Qed.

(** Network data is never stuck: from every reachable state the runner and the
    waiting sends alone empty the channel, in exactly as many steps as there is work,
    since each step does one part of it and as long as some is left another step is
    possible; meanwhile the table and the manager stay as they are. *)
Lemma network_data_drains k fuel e s0 s n s' :
  checkpoint_filed flags e -> WaitReturns E -> ClientsReturn E ->
  start flags k fuel e = Ret (Some (Ok s0)) -> rtc (step flags) s0 s ->
  nsteps (drains flags) n s s' ->
  n + pending s' = pending s /\
  (pending s' ≠ 0 -> exists s'', drains flags s' s'') /\
  w_claims (sys_world s') = w_claims (sys_world s) /\ w_manager (sys_world s') = w_manager (sys_world s).
Proof.
  intros Hfiled Hwait Hclients Hstart Hrun Hdrain.
  pose proof (reachable_ok k fuel e s0 s Hfiled Hstart Hrun) as Hs.
  destruct (drains_steps flags _ True (or_introl I) (or_introl I) (or_introl I)
    n s s' Hs Hdrain) as (Hs' & _ & Ht & Hm & Hp).
  split_and!; [lia| |done..]. by apply (drains_possible (w_manager (sys_world s0))).
Qed.

(** C5: Network data of a pod gets to its devices: when the sandbox hook of a pod gets
    to its send, with no other data on its way, and the API server still has the claims
    of the pod, then two background steps follow, and after them every device of the pod
    holds the data of a successful CNI addition for it, with all its other fields as they
    were, and no other device has changed. *)
Theorem sandbox_data_reaches_devices k fuel e s0 s pod s1 :
  checkpoint_filed flags e -> WaitReturns E -> ClientsReturn E ->
  start flags k fuel e = Ret (Some (Ok s0)) -> rtc (step flags) s0 s -> pending s = 0 ->
  step_by flags (SandboxStarts pod) s s1 -> pending s1 ≠ 0 ->
  (forall devices l d, GetDevicesByPodUID (pod_Uid pod) (sys_world s) = Some devices ->
     Some l ∈ devices -> w_heap (sys_world s) !! l = Some d -> claim_answered (E:=E) (claimKeyOf d)) ->
  (exists s2, nsteps (drains flags) 2 s1 s2) /\
  forall s2, nsteps (drains flags) 2 s1 s2 ->
    pending s2 = 0 /\
    exists devices, GetDevicesByPodUID (pod_Uid pod) (sys_world s) = Some devices /\
      (forall x, x ∈ devices -> exists l d nd, x = Some l /\ w_heap (sys_world s) !! l = Some d /\
         attached (E:=E) pod (getNetworkNamespace pod) d nd /\
         w_heap (sys_world s2) !! l = Some (SetNetworkDeviceData (Some nd) d)) /\
      (forall l, Some l ∉ devices -> w_heap (sys_world s2) !! l = w_heap (sys_world s) !! l).
Proof.
  intros Hfiled Hwait Hclients Hstart Hrun Hidle Hev Hsent Hans.
  pose proof (reachable_ok k fuel e s0 s Hfiled Hstart Hrun) as Hs.
  destruct (handle_kept flags _ True (or_introl I) (or_introl I) (or_introl I) _ _ _ Hs Hev) as [Hs1 _].
  destruct (sandbox_sent _ pod s s1 Hs Hidle Hev Hsent) as (devices & items & Hdev & Hall & Hchan & Hsend & Hh).
  assert (Hwork : pending s1 = 2) by (unfold pending; by rewrite Hchan, Hsend).
  split; [by apply (drains_twice (w_manager (sys_world s0)))|]. intros s2 Hdrain.
  destruct (drains_steps flags _ True (or_introl I) (or_introl I) (or_introl I) 2 s1 s2 Hs1 Hdrain)
    as (_ & _ & _ & _ & Hp). split; [lia|]. exists devices. split; [done|].
  apply (drain_one items) in Hdrain; [|done..].
  assert (Hv : valid_items (w_heap (sys_world s1)) items) by (rewrite Hh; by eapply attached_items_valid).
  pose proof (serve_evolves True _ (with_data [] [] s1) _
    (triple_updateNetworkDeviceData True _ _ items _ Hv (or_introl I))) as Hrec.
  destruct (serve _ _) as [[[]|why] s']; [|done]. injection Hdrain as ->.
  destruct Hrec as ((items' & Hrec & (-> & _)) & _). rewrite Hh in *.
  eapply attached_items_recorded; [done..|]. intros l d. by apply Hans.
Qed.

(** C19: The kubelet can always ask again: after a successful prepare hook, whatever
    happens in the background, sandboxes, policies and network data, preparing a claim
    that was reported as prepared gives the same devices, up to the network data
    recorded meanwhile, and does nothing else. *)
Theorem repeated_prepare_agrees k fuel e s0 s claims results w1 s' i uid r :
  checkpoint_filed flags e -> start flags k fuel e = Ret (Some (Ok s0)) ->
  rtc (step flags) s0 s ->
  PrepareResourceClaims (Some <$> claims) (sys_world s) = (Ret (results, None), w1) ->
  rtc background_step (on_world w1 s) s' ->
  results !! uid = Some r -> pr_Err r = None ->
  exists claim devices, claim ∈ claims /\ claim_UID claim = uid /\
    prepareResourceClaim i claim (sys_world s') = (Ret (mkPrepareResult devices None, i), sys_world s') /\
    Forall2 same_but_network (pr_Devices r) devices.
Proof.
  intros Hfiled Hstart Hrun Hprep Hback Hr Hnone.
  pose proof (reachable_ok k fuel e s0 s Hfiled Hstart Hrun) as Hs.
  destruct (triple_run True _ _ _ _ _ _ (triple_PrepareResourceClaims True (w_manager (sys_world s))
    (or_introl I) (or_introl I) (or_introl I) _ _ _ (or_introl I) (sok_table _ _ Hs))
    ltac:(by split_and!) Hprep) as (h1 & t1 & _ & Ht1 & (<- & <- & _) & _ & Hans).
  destruct (Hans eq_refl) as (_ & _ & Hok).
  destruct (Hok uid r Hr) as (claim & Hin & Huid & Hreg).
  destruct (Hreg Hnone) as (pod & ds & Hpod & Halloc & Hk & Hview).
  apply list_elem_of_fmap in Hin as (claim' & [= <-] & Hin).
  assert (Hs1 : sys_ok (w_manager (sys_world s0)) (on_world w1 s)).
  { pose proof (kept_prepare (w_manager (sys_world s0)) True (or_introl I) (or_introl I) claims s Hs) as Hkept.
    unfold serve in Hkept. rewrite Hprep in Hkept. apply Hkept. }
  destruct (background_run _ _ _ Hs1 Hback) as [Ht' He]. simpl in Ht', He.
  destruct (toKubelet_run ds (sys_world s')) as (kds & Hkds & Hviews).
  { intros x Hx. destruct (Ht1 pod uid ds x) as (l & d & -> & Hd & _); [by rewrite <- Huid|done|].
    destruct (He l d Hd) as [nd Hnd]. by exists l, (SetNetworkDeviceData nd d). }
  exists claim, kds. split_and!; [done..| |].
  - eapply prepare_known; [done..| |exact Hkds]. by rewrite known_Get, Ht'.
  - apply Forall2_same_length_lookup. split.
    { by rewrite <- (Forall2_length _ _ _ Hview), <- (Forall2_length _ _ _ Hviews). }
    intros j a b Ha Hb. destruct (Forall2_lookup_r _ _ _ _ _ Hview Ha) as (x & Hx & l & d & -> & Hd & ->).
    destruct (Forall2_lookup_r _ _ _ _ _ Hviews Hb) as (x' & Hx' & l' & d' & -> & Hd' & ->).
    rewrite Hx in Hx'. injection Hx' as <-. destruct (He l d Hd) as [nd Hnd].
    rewrite Hd' in Hnd. injection Hnd as ->. by eexists.
Qed.
End system_properties.

(** ** A concrete process: the host of Prepare.v, whose discovery finds its two virtual
    functions, a checkpoint of an earlier run with one claim, and an API server with the
    claim of a pod. *)
Module SystemRuns.
#[local] Existing Instance listing_order.
#[local] Existing Instance stable_sort.
#[local] Existing Instance ControllerRuns.selectors.
#[local] Existing Instance PrepareRuns.helpers.
#[local] Existing Instance PrepareRuns.no_store.
#[local] Existing Instance PrepareRuns.nads.
#[local] Existing Instance PrepareRuns.json.
#[local] Existing Instance PrepareRuns.cdi.
#[local] Existing Instance PrepareRuns.decoder.
#[local] Existing Instance DriverHookRuns.errors_lib.
#[local] Existing Instance DriverHookRuns.wait.
#[local] Existing Instance DriverHookRuns.clients.
#[local] Existing Instance NriRuns.status_json.

Abbreviation env := PrepareRuns.outside_world.

#[local] Instance node : DiscoveryHost env := {|
  dh_PCI e := (Ok [mkPciDevice "0000:01:00.0" "02" "8086" "1572"], e);
  dh_IsSriovVF _ e := (false, e);
  dh_TryGetPFInterfaceName _ e := ("eth0", e);
  dh_GetNicSriovMode _ e := ("legacy", e);
  dh_GetNumaNode _ e := (Ok "0", e);
  dh_GetPCIeRoot _ e := (Ok "pci0000:00", e);
  dh_GetLinkType _ e := (Ok "ether", e);
  dh_GetVFList _ e := (Ok [mkVFInfo HostRuns.dev1 0 "154c"; mkVFInfo HostRuns.dev2 1 "154c"], e);
  dh_VerifyRDMACapability _ e := (false, e);
  dh_IsIommufdAvailable e := (false, e)
|}.

(** The checkpoint of the earlier run; later ones are accepted and dropped. *)
Definition earlier : CheckpointV1 :=
  {["pod-0" := {["claim-0" := [Some (mkPrepared (mkDrapb ["r"] "pool" "0000-01-00-2" [])
     (mkNsObject "ns" "c0" "claim-0") None (Some DefaultVfConfig) "vfnet0" HostRuns.dev2 "" "" ∅ None
     "pod-0" "" "")]]}]}.
#[local] Instance checkpoints : CheckpointManager env := {|
  ListCheckpoints e := (Ok [DriverPluginCheckpointFile], e);
  GetCheckpoint _ e := (Ok (Some earlier), e);
  CreateCheckpoint _ _ e := (Ok tt, e)
|}.

#[local] Instance kubelet : KubeletHelper env := {|
  helper_PublishResources _ e := (Ok tt, e);
  helper_UpdateRequestMetadata _ _ _ _ _ e := (Ok tt, e)
|}.
#[local] Instance policies : PolicyClient env := {|
  GetNode _ e := (Ok ControllerRuns.node_labels, e);
  ListPolicies _ e := (Ok [ControllerRuns.policy_2], e);
  ListDeviceAttributes _ e := (Ok [], e)
|}.
#[local] Instance cni : CniLib env := {|
  PluginConf := string;
  CniResult := string;
  GetCNIConfigFromSpec spec _ := Ok spec;
  NetworkPluginConfFromBytes raw := Ok raw;
  AddNetwork _ rt e := (Ok (Some (rt_IfName rt)), e);
  DelNetwork _ _ e := (Ok tt, e);
  NewResultFromResult ifName := Ok (CniRuns.result_of ifName);
  json_Marshal_Cni100 _ := Ok "{}"
|}.

Definition allocation : DeviceAllocation :=
  mkAllocation [mkAllocResult "fast" DriverName "pool" "0000-01-00-1" None]
    [mkAllocConfig AllocationConfigSourceClaim ["fast"] (Some (mkOpaque DriverName "vfio"))].
Definition claim : ResourceClaim :=
  mkClaim "c" "ns" "claim-1" "1" (Some allocation) ["pod-1"]
    [mkDeviceStatus DriverName "pool" "0000-01-00-1" None [] None None].
#[local] Instance reader : ClaimReader env := fun _ _ e => (Ok claim, e).

Lemma wait_returns : WaitReturns env.
Proof.
  intros V backoff cond v e Hcond. destruct (Hcond v e) as ([v' r] & e' & Hr).
  simpl. unfold mbind, M_bind. rewrite Hr. by eexists _, _.
Qed.
Lemma clients_return : ClientsReturn env.
Proof. split; intros; by eexists _, _. Qed.
Lemma no_null_results : no_null_cni (E:=env).
Proof. intros conf rt e res e' _ r [= <-]. split; repeat constructor; by eexists. Qed.

#[local] Instance files : StartupOS env := {|
  os_MkdirAll _ e := (Ok tt, e);
  os_StatDir _ e := (Err (ErrExternal "NotExist" "cdi"), e);
  os_Remove _ e := (Ok tt, e);
  net_Listen _ e := (Ok tt, e);
  NewCheckpointManager _ e := (Ok tt, e)
|}.
#[local] Instance plugin_lib : KubeletPluginLib env := {|
  kubeletplugin_Start _ e := (Ok tt, e);
  helper_RegistrationStatus e := (Some (mkRegistrationStatus true ""), e);
  helper_Stop e := (tt, e);
  select_timeout e := (false, e)
|}.
#[local] Instance grpc : GrpcLib env := {|
  grpc_NewClient _ e := (Ok tt, e); grpc_Serve e := (tt, e); grpc_GracefulStop e := (tt, e)
|}.
#[local] Instance controllers : ControllerRuntime env := {|
  ctrl_NewManager e := (Ok tt, e); ctrl_SetupWithManager e := (Ok tt, e);
  mgr_Start e := (tt, e); WaitForCacheSync e := (true, e)
|}.
#[local] Instance stub : NriStub env := {|
  stub_New e := (Ok tt, e); stub_Start e := (Ok tt, e); stub_Stop e := (tt, e)
|}.
#[local] Instance cdi_cache : CdiCacheLib env := fun _ e => (Ok tt, e).
#[local] Instance kube_clients : KubeClientLib env := {|
  float64 := Z; float32 := Z; to_float32 q := q;
  InClusterConfig e := (Ok tt, e); BuildConfigFromFlags _ e := (Ok tt, e);
  NewForConfig _ e := (Ok tt, e); client_New _ e := (Ok tt, e)
|}.

Definition flags : Flags := defaultFlags "/var/lib/kubelet/plugins_registry" "/var/lib/kubelet/plugins" "node".
Definition kube : KubeClientConfig (E:=env) := mkKubeClientConfig "" (5%Z : float64 env) 10.
Definition boot : env := PrepareRuns.mkOutside HostRuns.before ∅.

Lemma earlier_filed : checkpoint_filed flags boot.
Proof.
  intros s e1 l e2 c e3 _ _ [= <- _]. exists earlier. split; [reflexivity|].
  intros pod cs claim ds x Hp Hc Hx. unfold earlier in Hp.
  apply lookup_singleton_Some in Hp as [<- <-]. apply lookup_singleton_Some in Hc as [<- <-].
  apply list_elem_of_singleton in Hx as ->. eexists. by split_and!.
Qed.

Definition no_system : System env := idle (mkWorld ∅ ∅ PrepareRuns.manager boot) false.
Definition started : System env :=
  match start flags kube 1 boot with Ret (Some (Ok s)) => s | _ => no_system end.
Definition pod : PodSandbox := CniRuns.pod.
Definition ready : System env :=
  default no_system (run_events flags [Reconciliation; KubeletPrepare [claim]] started).
Definition attached : System env := default no_system (run_events flags [SandboxStarts pod] ready).
Definition answered : World env * gmap string PrepareResult :=
  match PrepareResourceClaims (Some <$> [claim]) (sys_world started) with
  | (Ret (r, _), w) => (w, r)
  | _ => (sys_world no_system, ∅)
  end.
Definition recorded_data : System env :=
  default no_system (run_events flags [SandboxStarts pod; Send 0; Receive]
    (on_world answered.1 started)).

(** The runs are evaluated only as far as their outermost constructors. *)
Lemma boot_run : start flags kube 1 boot = Ret (Some (Ok started)).
Proof.
  assert (Hrun : match start flags kube 1 boot with Ret (Some (Ok _)) => true | _ => false end = true)
    by (vm_cast_no_check (eq_refl true)).
  unfold started. by destruct (start flags kube 1 boot) as [[[?|?]|]|?].
Qed.
Lemma ready_run : run_events flags [Reconciliation; KubeletPrepare [claim]] started = Some ready.
Proof. apply some_default. vm_cast_no_check (eq_refl true). Qed.
Lemma ready_idle : pending ready = 0.
Proof. vm_cast_no_check (eq_refl 0). Qed.
Lemma attached_run : run_events flags [SandboxStarts pod] ready = Some attached.
Proof. apply some_default. vm_cast_no_check (eq_refl true). Qed.
Lemma attached_pending : pending attached = 2.
Proof. vm_cast_no_check (eq_refl 2). Qed.
Lemma answered_run : PrepareResourceClaims (Some <$> [claim]) (sys_world started) =
  (Ret (answered.2, None), answered.1).
Proof.
  assert (Hrun : match (PrepareResourceClaims (Some <$> [claim]) (sys_world started)).1 with
                 | Ret (_, None) => true | _ => false end = true)
    by (vm_cast_no_check (eq_refl true)).
  unfold answered.
  by destruct (PrepareResourceClaims (Some <$> [claim]) (sys_world started)) as [[[? [?|]]|?] ?].
Qed.
Lemma answered_claim :
  (fun r => (pr_Err r, length (pr_Devices r))) <$> answered.2 !! "claim-1" = Some (None, 1).
Proof. vm_compute. reflexivity. Qed.
Lemma recorded_run : run_events flags [SandboxStarts pod; Send 0; Receive]
  (on_world answered.1 started) = Some recorded_data.
Proof. apply some_default. vm_cast_no_check (eq_refl true). Qed.
Example data_in_heap : (fun p => nd_IPs <$> pd_NetworkDeviceData p) <$> w_heap (sys_world recorded_data) !! 2%positive =
  Some (Some ["10.0.0.2/24"; "fd00::2/64"]).
Proof. vm_compute. reflexivity. Qed.
(** The pod's devices were prepared for the claim that the API server has. *)
Definition prepared_for_claim (x : option loc) : bool :=
  if x ≫= (fun l => w_heap (sys_world ready) !! l) is Some d
  then bool_decide ((claimKeyOf d).2 = "claim-1") else false.
Lemma pod_prepared :
  forallb prepared_for_claim <$> GetDevicesByPodUID (pod_Uid pod) (sys_world ready) = Some true.
Proof. vm_cast_no_check (eq_refl (Some true)). Qed.
#[local] Strategy opaque [started ready attached answered recorded_data].

Lemma ready_steps : rtc (step flags) started ready.
Proof. exact (run_events_steps flags _ _ _ ready_run). Qed.
Lemma attached_steps : rtc (step flags) started attached.
Proof. exact (transitivity ready_steps (run_events_steps flags _ _ _ attached_run)). Qed.

Lemma reachable_states_ok_witness :
  table_ok (w_heap (sys_world attached)) (w_claims (sys_world attached)).
Proof.
  exact (sok_table _ _ (proj1 (reachable_states_ok flags kube 1 boot started attached earlier_filed
    boot_run attached_steps))).
Defined.

Lemma plugin_never_crashes_witness :
  handle flags (SandboxStops pod) attached ≠ Some (Panic "nil pointer dereference", attached).
Proof.
  exact (proj2 (plugin_never_crashes flags kube 1 boot earlier_filed PrepareRuns.never_null
    no_null_results wait_returns clients_return) started attached boot_run
    attached_steps (SandboxStops pod) _ attached).
Defined.

Lemma network_data_drains_witness : exists s', drains flags attached s'.
Proof.
  destruct (network_data_drains flags kube 1 boot started attached 0 attached earlier_filed
    wait_returns clients_return boot_run attached_steps
    (nsteps_O _ _)) as (_ & Hgo & _).
  apply Hgo. rewrite attached_pending. discriminate.
Defined.

Lemma sandbox_data_reaches_devices_witness : exists s2, nsteps (drains flags) 2 attached s2 /\ pending s2 = 0.
Proof.
  destruct (sandbox_data_reaches_devices flags kube 1 boot started ready pod attached earlier_filed
    wait_returns clients_return boot_run ready_steps ready_idle
    (run_events_one flags _ _ _ attached_run)) as ((s2 & Hs2) & Hall).
  - rewrite attached_pending. discriminate.
  - intros devices l d Hdev Hl Hd e. pose proof pod_prepared as Hprep. rewrite Hdev in Hprep.
    injection Hprep as Hprep. rewrite forallb_forall in Hprep.
    pose proof (Hprep _ (proj1 (list_elem_of_In _ _) Hl)) as Hx. unfold prepared_for_claim in Hx.
    simpl in Hx. rewrite Hd in Hx. apply bool_decide_eq_true in Hx.
    exists claim. split; [reflexivity|exact (eq_sym Hx)].
  - exists s2. split; [exact Hs2|]. apply (Hall s2 Hs2).
Defined.

Lemma repeated_prepare_agrees_witness : exists devices,
  prepareResourceClaim 7 claim (sys_world recorded_data) =
    (Ret (mkPrepareResult devices None, 7%Z), sys_world recorded_data) /\ length devices = 1.
Proof.
  pose proof answered_claim as Hans. destruct (answered.2 !! "claim-1") as [r|] eqn:Hr; [|discriminate].
  injection Hans as Hnone Hlen.
  pose proof (run_events_background flags [SandboxStarts pod; Send 0; Receive] _ _ eq_refl
    recorded_run) as Hback.
  destruct (repeated_prepare_agrees flags kube 1 boot started started [claim] answered.2
    answered.1 recorded_data 7 "claim-1" r earlier_filed boot_run (rtc_refl _ _) answered_run Hback Hr Hnone)
    as (c & devices & Hc & _ & Hrun & Hall).
  apply list_elem_of_singleton in Hc as ->.
  exists devices. split; [exact Hrun|]. rewrite <- Hlen. symmetry. exact (Forall2_length _ _ _ Hall).
Defined.
End SystemRuns.
