(* ===== verification/CommandLine.v ===== *)
(** * The command line (cmd/dra-driver-sriov/main.go, pkg/flags)

    The flags of the application with their defaults, the environment variables they can
    come from and the fields they are stored in, what runs before RunPlugin, and the exit
    of the process.  Parsing is the command-line library's. *)

From S2P Require Import Prelude Hoare GoLib Consts K8sTypes VfConfigApi OpaqueConfig ClaimStatus Config Manager Prepared PodManager Controller Cdi Host Prepare DriverHook Discovery Cni Publish Nri HookState Interference Startup System.

(** The fields of [types.Flags] that flags are stored in; those of logging are kept by the
    logging library. *)
Inductive Field : Type :=
  | NodeName | CdiRoot | KubeletRegistrarDirectoryPath | KubeletPluginsDirectoryPath | HealthcheckPort
  | MetricsBindAddress | DefaultInterfacePrefix | EnableDeviceMetadata | Namespace | ConfigurationMode
  | KubeConfigPath | ApiQPS | ApiBurst.

#[global] Instance field_eq_dec : EqDecision Field.
Proof. solve_decision. Defined.

(** The values of [StringFlag], [IntFlag], [BoolFlag], [Float64Flag] and [GenericFlag]. *)
Inductive FlagValue (F : Type) : Type :=
  | StringValue (s : string)
  | IntValue (n : Z)
  | BoolValue (b : bool)
  | Float64Value (f : F)
  | GenericValue (s : string).
Arguments StringValue {F} s.
Arguments IntValue {F} n.
Arguments BoolValue {F} b.
Arguments Float64Value {F} f.
Arguments GenericValue {F} s.

(** [cli.Flag], without its texts. *)
Record CliFlag (F : Type) : Type := mkCliFlag {
  Name : string;
  Required : bool;
  Value : FlagValue F;
  Destination : option Field;
  EnvVars : list string
}.
Arguments mkCliFlag {F}.
Arguments Name {F}.
Arguments Required {F}.
Arguments Value {F}.
Arguments Destination {F}.
Arguments EnvVars {F}.

Section tables.
Context {F : Type} (KubeletRegistryDir KubeletPluginsDir : string) (five : F).

(** newApp's own flags; the two directories are constants of the kubelet plugin library. *)
Definition pluginFlags : list (CliFlag F) := [
  mkCliFlag "node-name" true (StringValue "") (Some NodeName) ["NODE_NAME"];
  mkCliFlag "cdi-root" false (StringValue "/var/run/cdi") (Some CdiRoot) ["CDI_ROOT"];
  mkCliFlag "kubelet-registrar-directory-path" false (StringValue KubeletRegistryDir)
    (Some KubeletRegistrarDirectoryPath) ["KUBELET_REGISTRAR_DIRECTORY_PATH"];
  mkCliFlag "kubelet-plugins-directory-path" false (StringValue KubeletPluginsDir)
    (Some KubeletPluginsDirectoryPath) ["KUBELET_PLUGINS_DIRECTORY_PATH"];
  mkCliFlag "healthcheck-port" false (IntValue (-1)) (Some HealthcheckPort) ["HEALTHCHECK_PORT"];
  mkCliFlag "metrics-bind-address" false (StringValue "0") (Some MetricsBindAddress) ["METRICS_BIND_ADDRESS"];
  mkCliFlag "default-interface-prefix" false (StringValue "vfnet")
    (Some DefaultInterfacePrefix) ["DEFAULT_INTERFACE_PREFIX"];
  mkCliFlag "enable-device-metadata" false (BoolValue false) (Some EnableDeviceMetadata) ["ENABLE_DEVICE_METADATA"];
  mkCliFlag "namespace" false (StringValue "dra-driver-sriov") (Some Namespace) ["NAMESPACE"];
  mkCliFlag "configuration-mode" false (StringValue ConfigurationModeStandalone)
    (Some ConfigurationMode) ["CONFIGURATION_MODE"]
].

(** [KubeClientConfig.Flags]; [five] is that number as a float. *)
Definition kubeClientFlags : list (CliFlag F) := [
  mkCliFlag "kubeconfig" false (StringValue "") (Some KubeConfigPath) ["KUBECONFIG"];
  mkCliFlag "kube-api-qps" false (Float64Value five) (Some ApiQPS) ["KUBE_API_QPS"];
  mkCliFlag "kube-api-burst" false (IntValue 10) (Some ApiBurst) ["KUBE_API_BURST"]
].

(** A flag of the logging library, whose value stays there. *)
Definition pflagToCLI (flag : string * string) : CliFlag F :=
  mkCliFlag flag.1 false (GenericValue flag.2) None [ToUpper (ReplaceAll flag.1 "-"%char "_"%char)].

(** [LoggingConfig.Flags], for the flags and default values that [VisitAll] visits. *)
Definition loggingFlags (visited : list (string * string)) : list (CliFlag F) := pflagToCLI <$> visited.

Definition cliFlags (visited : list (string * string)) : list (CliFlag F) :=
  pluginFlags ++ kubeClientFlags ++ loggingFlags visited.
End tables.

(** ** The libraries *)

(** [app.Run] as far as it parses: the value of each flag by its name, and the arguments
    that are left; and the settings of the logging library.  [given] is what the arguments
    and the environment say about a flag. *)
Class CliLib (E : Type) `{KubeClientLib E} : Type := {
  float64_five : float64 E;
  logging_flags : list (string * string);
  cli_parse : list (CliFlag (float64 E)) -> list string ->
    Call E (result ((string -> FlagValue (float64 E)) * list string));
  logsapi_ValidateAndApply : Call E (result unit)
}.

Class CliLaws (E : Type) `{CliLib E} : Type := {
  cli_given : list string -> E -> CliFlag (float64 E) -> option (FlagValue (float64 E));
  parse_values fs args e values rest e' : cli_parse fs args e = (Ok (values, rest), e') ->
    forall f, f ∈ fs -> values (Name f) = default (Value f) (cli_given args e f) /\
      (Required f = true -> is_Some (cli_given args e f))
}.

(** ** The application *)

Section app.
Context `{RangeOrder} {E : Type} `{HostInterface E} `{DeviceInfoStore E} `{NadClient E}
  `{JsonLib} `{CdiLib E} `{Decoder} `{CheckpointManager E} `{ApiErrors} `{WaitLib E}
  `{ClaimClients E} `{!StatusJson} `{CniLib E} `{ClaimReader E} `{KubeletHelper E}
  `{SliceSort} `{LabelSelectors} `{PolicyClient E} `{DiscoveryHost E}
  `{StartupOS E} `{KubeletPluginLib E} `{GrpcLib E} `{ControllerRuntime E} `{NriStub E}
  `{CdiCacheLib E} `{KubeClientLib E} `{!CliLib E}.
Context (KubeletRegistryDir KubeletPluginsDir : string).

#[local] Abbreviation value := (FlagValue (float64 E)).

Definition appFlags : list (CliFlag (float64 E)) :=
  cliFlags KubeletRegistryDir KubeletPluginsDir float64_five logging_flags.

(** Each flag's value is stored in its destination. *)
Definition store_flags (fs : list (CliFlag (float64 E))) (values : string -> value) : Field -> option value :=
  foldl (fun mem f d => if decide (Destination f = Some d) then Some (values (Name f)) else mem d)
    (fun _ => None) fs.

Definition string_at (mem : Field -> option value) (d : Field) : string :=
  match mem d with Some (StringValue s) => s | _ => "" end.
Definition int_at (mem : Field -> option value) (d : Field) : Z :=
  match mem d with Some (IntValue n) => n | _ => 0 end.
Definition bool_at (mem : Field -> option value) (d : Field) : bool :=
  match mem d with Some (BoolValue b) => b | _ => false end.

(** [flagsOptions] after parsing. *)
Definition flagsOptions (mem : Field -> option value) : Flags := {|
  flag_NodeName := string_at mem NodeName;
  flag_Namespace := string_at mem Namespace;
  flag_CdiRoot := string_at mem CdiRoot;
  flag_KubeletRegistrarDirectoryPath := string_at mem KubeletRegistrarDirectoryPath;
  flag_KubeletPluginsDirectoryPath := string_at mem KubeletPluginsDirectoryPath;
  flag_HealthcheckPort := int_at mem HealthcheckPort;
  flag_MetricsBindAddress := string_at mem MetricsBindAddress;
  flag_DefaultInterfacePrefix := string_at mem DefaultInterfacePrefix;
  flag_ConfigurationMode := string_at mem ConfigurationMode;
  flag_EnableDeviceMetadata := bool_at mem EnableDeviceMetadata
|}.

Definition kubeOptions (mem : Field -> option value) : KubeClientConfig (E:=E) :=
  mkKubeClientConfig (string_at mem KubeConfigPath)
    (match mem ApiQPS with Some (Float64Value f) => f | _ => float64_five end) (int_at mem ApiBurst).

(** newApp().Run: the flags are parsed, [Before], then [Action] up to the wait for the
    context. *)
Definition newApp_Run (fuel : nat) (args : list string) (e : E) : outcome (option (result (System E))) :=
  match cli_parse appFlags args e with
  | (Err err, _) => Ret (Some (Err err))
  | (Ok (values, rest), e) =>
      let mem := store_flags appFlags values in
      if decide (0 < length rest) then Ret (Some (Err (errorf "arguments not supported: %v" rest)))
      else
        match logsapi_ValidateAndApply e with
        | (Err err, _) => Ret (Some (Err err))
        | (Ok _, e) =>
            match NewClientSets (kubeOptions mem) e with
            | (Err err, _) => Ret (Some (Err (errorv "create client: %v" [] err)))
            | (Ok _, e) => start (flagsOptions mem) (kubeOptions mem) fuel e
            end
        end
  end.

(** The process runs, or it has exited with a code. *)
Inductive ProcessState : Type :=
  | ProcessRuns (s : System E)
  | ProcessExited (code : Z).

(** [main]: an error is printed and the process exits with 1; the runtime ends a panicking
    one with 2.  [None] while the kubelet has not registered the plugin. *)
Definition main (fuel : nat) (args : list string) (e : E) : option ProcessState :=
  match newApp_Run fuel args e with
  | Ret None => None
  | Ret (Some (Ok s)) => Some (ProcessRuns s)
  | Ret (Some (Err _)) => Some (ProcessExited 1)
  | Panic _ => Some (ProcessExited 2)
  end.
End app.

(** ** Facts *)

(** Each flag's environment variable is its name in capitals, with underscores: the flags
    declared by hand follow the rule of [pflagToCLI]. *)
Lemma env_vars_by_name {F} dir1 dir2 (five : F) visited f :
  f ∈ cliFlags dir1 dir2 five visited -> EnvVars f = [ToUpper (ReplaceAll (Name f) "-"%char "_"%char)].
Proof.
  unfold cliFlags, loggingFlags. rewrite app_assoc, elem_of_app, list_elem_of_fmap.
  intros [Hin|(flag & -> & _)]; [|done]. revert f Hin. rewrite <- Forall_forall.
  repeat constructor.
Qed.

Section facts.
Context `{RangeOrder} {E : Type} `{HostInterface E} `{DeviceInfoStore E} `{NadClient E}
  `{JsonLib} `{CdiLib E} `{Decoder} `{CheckpointManager E} `{ApiErrors} `{WaitLib E}
  `{ClaimClients E} `{!StatusJson} `{CniLib E} `{ClaimReader E} `{KubeletHelper E}
  `{SliceSort} `{LabelSelectors} `{PolicyClient E} `{DiscoveryHost E}
  `{StartupOS E} `{KubeletPluginLib E} `{GrpcLib E} `{ControllerRuntime E} `{NriStub E}
  `{CdiCacheLib E} `{KubeClientLib E} `{!CliLib E} `{!CliLaws E}.
Context (dir1 dir2 : string).

#[local] Abbreviation table := (appFlags (E:=E) dir1 dir2).
#[local] Abbreviation stored values := (store_flags (E:=E) table values).

(** The flags of the logging library are stored nowhere else. *)
Lemma store_logging fs visited values :
  store_flags (E:=E) (fs ++ loggingFlags visited) values = store_flags fs values.
Proof.
  unfold store_flags. rewrite foldl_app. generalize (foldl (fun mem f d => if decide (Destination f = Some d)
    then Some (values (Name f)) else mem d) (fun _ => None) fs) as mem.
  induction visited as [|flag visited IH]; intros mem; [done|]. exact (IH mem).
Qed.

(** Every field gets the value of its flag. *)
Lemma stored_value values f d :
  f ∈ table -> Destination f = Some d -> stored values d = Some (values (Name f)).
Proof.
  unfold appFlags, cliFlags. rewrite app_assoc, store_logging, elem_of_app.
  intros [Hin|(flag & -> & _)%list_elem_of_fmap]; [|done]. revert f Hin. rewrite <- Forall_forall.
  repeat constructor; intros [= <-]; reflexivity.
Qed.

(** The fields hold what the command line or the environment gives, and the defaults. *)
Lemma parsed_fields args e values rest e' f d :
  cli_parse table args e = (Ok (values, rest), e') -> f ∈ table -> Destination f = Some d ->
  stored values d = Some (default (Value f) (cli_given args e f)).
Proof.
  intros Hparse Hf Hd. rewrite (stored_value values f d Hf Hd). f_equal.
  by apply (parse_values _ _ _ _ _ _ Hparse f Hf).
Qed.

(** With nothing but the node name given, these are the defaults of Config.v. *)
Lemma default_command_line args e values rest e' n :
  cli_parse table args e = (Ok (values, rest), e') ->
  (forall f, f ∈ table -> cli_given args e f = if decide (Destination f = Some NodeName) then Some (StringValue n) else None) ->
  flagsOptions (stored values) = defaultFlags dir1 dir2 n /\
  kubeOptions (stored values) = mkKubeClientConfig "" float64_five 10.
Proof.
  intros Hparse Hgiven.
  assert (Hfield : forall f d, f ∈ table -> Destination f = Some d ->
    stored values d = Some (if decide (d = NodeName) then StringValue n else Value f)).
  { intros f d Hf Hd. rewrite (parsed_fields _ _ _ _ _ f d Hparse Hf Hd), (Hgiven f Hf), Hd.
    destruct (decide (d = NodeName)) as [->|Hne]; [by rewrite decide_True|]. rewrite decide_False; [done|congruence]. }
  assert (Hall : Forall (fun f => match Destination f with
      | Some d => stored values d = Some (if decide (d = NodeName) then StringValue n else Value f) | None => True end)
    (pluginFlags dir1 dir2 ++ kubeClientFlags float64_five)).
  { apply Forall_forall. intros f Hf. destruct (Destination f) as [d|] eqn:Hd; [|done]. apply Hfield; [|done].
    unfold appFlags, cliFlags. rewrite app_assoc. apply elem_of_app. by left. }
  unfold flagsOptions, kubeOptions, string_at, int_at, bool_at. unfold pluginFlags, kubeClientFlags in Hall. simpl app in Hall.
  repeat match goal with H : Forall _ (_ :: _) |- _ => apply Forall_cons in H as [? H] end.
  simpl in *. repeat match goal with H : store_flags _ _ _ = _ |- _ => rewrite H; clear H end.
  split; reflexivity.
Qed.

(** A process that runs was started without positional arguments, with a node name, and
    with the flags that were given. *)
Lemma main_runs_with_flags fuel args e (s : System E) :
  main dir1 dir2 fuel args e = Some (ProcessRuns s) ->
  exists values e1 e2, cli_parse table args e = (Ok (values, []), e1) /\
    start (flagsOptions (stored values)) (kubeOptions (stored values)) fuel e2 = Ret (Some (Ok s)) /\
    forall f, f ∈ table -> Required f = true -> is_Some (cli_given args e f).
Proof.
  unfold main, newApp_Run. destruct (cli_parse table args e) as [[[values rest]|err] e1] eqn:Hparse; [|done].
  destruct (decide (0 < length rest)) as [|Hrest]; [done|].
  destruct rest; [|simpl in Hrest; lia].
  destruct (logsapi_ValidateAndApply e1) as [[[]|err] e2]; [|done].
  destruct (NewClientSets _ e2) as [[[]|err] e3]; [|done].
  destruct (start _ _ fuel e3) as [[[s'|err]|]|why] eqn:Hstart; try done. intros [= ->].
  exists values, e1, e3. split_and!; [done..|]. intros f Hf. by apply (parse_values _ _ _ _ _ _ Hparse f Hf).
Qed.
End facts.

(** ** A concrete command line: options and their values alternate, the rest is positional;
    only strings are read. *)
Module CommandLineRuns.
#[local] Existing Instance listing_order.
#[local] Existing Instance stable_sort.
#[local] Existing Instance ControllerRuns.selectors.
#[local] Existing Instance PrepareRuns.helpers.
#[local] Existing Instance PrepareRuns.no_store.
#[local] Existing Instance PrepareRuns.nads.
#[local] Existing Instance PrepareRuns.json.
#[local] Existing Instance PrepareRuns.cdi.
#[local] Existing Instance PrepareRuns.decoder.
#[local] Existing Instance DriverHookRuns.errors_lib.
#[local] Existing Instance DriverHookRuns.wait.
#[local] Existing Instance DriverHookRuns.clients.
#[local] Existing Instance NriRuns.status_json.
#[local] Existing Instance SystemRuns.node.
#[local] Existing Instance SystemRuns.checkpoints.
#[local] Existing Instance SystemRuns.kubelet.
#[local] Existing Instance SystemRuns.policies.
#[local] Existing Instance SystemRuns.cni.
#[local] Existing Instance SystemRuns.reader.
#[local] Existing Instance SystemRuns.files.
#[local] Existing Instance SystemRuns.plugin_lib.
#[local] Existing Instance SystemRuns.grpc.
#[local] Existing Instance SystemRuns.controllers.
#[local] Existing Instance SystemRuns.stub.
#[local] Existing Instance SystemRuns.cdi_cache.
#[local] Existing Instance SystemRuns.kube_clients.
Import SystemRuns.

Fixpoint option_value (name : string) (args : list string) : option string :=
  match args with
  | opt :: v :: args => if decide (opt = "--" +:+ name) then Some v else option_value name args
  | _ => None
  end.

Fixpoint positional (args : list string) : list string :=
  match args with _ :: _ :: args => positional args | args => args end.

Definition given {F} (args : list string) (f : CliFlag F) : option (FlagValue F) :=
  match Value f with StringValue _ => StringValue <$> option_value (Name f) args | _ => None end.

Definition value_of {F} (fs : list (CliFlag F)) (args : list string) (name : string) : FlagValue F :=
  match list_find (fun f => Name f = name) fs with
  | Some (_, f) => default (Value f) (given args f)
  | None => StringValue ""
  end.

Definition complete {F} (fs : list (CliFlag F)) (args : list string) : bool :=
  bool_decide (NoDup (Name <$> fs)) &&
  forallb (fun f => negb (Required f) || bool_decide (is_Some (given args f))) fs.

#[local] Instance cli : CliLib env := {|
  float64_five := 5%Z : float64 env;
  logging_flags := [("feature-gates", ""); ("logging-format", "text"); ("v", "0")];
  cli_parse fs args e :=
    (if complete fs args then Ok (value_of fs args, positional args)
     else Err (ErrExternal "Usage" "Required flag not set"), e);
  logsapi_ValidateAndApply e := (Ok tt, e)
|}.

#[local] Instance cli_laws : CliLaws env.
Proof.
  refine {| cli_given args e f := given args f |}. intros fs args e values rest e'. change (float64 env) with Z in *. simpl.
  destruct (complete fs args) eqn:Hc; [|done]. intros [= <- _ _] f Hf. unfold complete in Hc.
  apply andb_true_iff in Hc as [Hnodup Hreq]. apply bool_decide_eq_true in Hnodup. split.
  - unfold value_of. destruct (list_find (fun g => Name g = Name f) fs) as [[i g]|] eqn:Hfind.
    + apply list_find_Some in Hfind as (Hi & Hname & _). apply list_elem_of_lookup in Hf as [j Hj].
      assert (i = j) as ->; [|congruence]. eapply (NoDup_lookup _ _ _ (Name f) Hnodup); rewrite list_lookup_fmap;
        [by rewrite Hi; simpl; rewrite Hname|by rewrite Hj].
    + apply list_find_None in Hfind. rewrite Forall_forall in Hfind. by destruct (Hfind f Hf).
  - intros Hr. rewrite forallb_forall in Hreq. apply list_elem_of_In in Hf. specialize (Hreq f Hf).
    rewrite Hr in Hreq. by apply bool_decide_eq_true in Hreq.
Defined.

Definition main_with (args : list string) : option ProcessState :=
  main "/var/lib/kubelet/plugins_registry" "/var/lib/kubelet/plugins" 1 args boot.
Definition exit_code (p : option (ProcessState (E:=env))) : option Z :=
  match p with Some (ProcessExited n) => Some n | _ => None end.
Definition runs (p : option (ProcessState (E:=env))) : bool :=
  match p with Some (ProcessRuns _) => true | _ => false end.

Example main_runs : runs (main_with ["--node-name"; "node"]) = true.
Proof. vm_cast_no_check (eq_refl true). Qed.
Example main_without_node : exit_code (main_with []) = Some 1%Z.
Proof. vm_compute. reflexivity. Qed.
Example main_with_argument : exit_code (main_with ["--node-name"; "node"; "extra"]) = Some 1%Z.
Proof. vm_compute. reflexivity. Qed.
Example main_bad_mode : exit_code (main_with ["--node-name"; "node"; "--configuration-mode"; "BOTH"]) = Some 1%Z.
Proof. vm_compute. reflexivity. Qed.
End CommandLineRuns.
