(* ===== verification/Interleaving.v ===== *)
(** * The node plugin with its goroutines interleaved

    The process of System.v, with its handlers running at the same time: each is a thread
    of Goroutines.v, the runner works on one item of the channel at a time, and a
    scheduler picks whose section is next. *)

From Stdlib Require Import Wellfounded Relation_Operators.
From S2P Require Import Prelude Hoare Threads GoLib Consts K8sTypes VfConfigApi OpaqueConfig ClaimStatus Config Manager Prepared PodManager Controller Cdi Host Prepare DriverHook Discovery Cni Publish Nri HookState Goroutines Interference Startup System.

(** What a handler answers its caller. *)
Inductive answer `{JsonLib} : Type :=
  | ReconcileAnswer (r : ReconcileResult)
  | PrepareAnswer (claims : list ResourceClaim) (results : gmap string PrepareResult) (err : option error)
  | UnprepareAnswer (results : gmap string (result unit))
  | SandboxAnswer (r : result (option NetworkDataChanStructList))
  | StopAnswer (r : result unit).

(** How far RunPlugin has got: the kubelet may call, and the driver waits to be registered;
    the driver has started; the controllers run too; the NRI plugin as well, unless the mode
    is MULTUS. *)
Inductive Phase : Type := Registering | DriverStarted | ControllersStarted | Running.

(** The process of System.v with the phase of RunPlugin, the handlers that run, and the
    runner's work.  [sys_sending] has the sends of sandbox handlers that are otherwise
    done. *)
Record Process (E : Type) `{JsonLib} : Type := mkProcess {
  pr_phase : Phase;
  pr_sys : System E;
  pr_threads : list (prog (World E) answer);
  pr_runner : option (prog (World E) unit)
}.
Arguments mkProcess {E _}.
Arguments pr_phase {E _}.
Arguments pr_sys {E _}.
Arguments pr_threads {E _}.
Arguments pr_runner {E _}.

(** What the scheduler picks: a new call, the next section (or the return) of a handler,
    a send that finds room, the runner's next step, or the next part of RunPlugin. *)
Inductive Choice : Type :=
  | Spawn (ev : SystemEvent)
  | Run (i : nat)
  | SendItem (i : nat)
  | TakeItem
  | RunRunner
  | GoOn.

Section process.
Context `{RangeOrder} {E : Type} `{HostInterface E} `{DeviceInfoStore E} `{NadClient E}
  `{JsonLib} `{CdiLib E} `{Decoder} `{CheckpointManager E} `{ApiErrors} `{WaitLib E}
  `{ClaimClients E} `{!StatusJson} `{CniLib E} `{ClaimReader E} `{KubeletHelper E}
  `{SliceSort} `{LabelSelectors} `{PolicyClient E} `{ControllerRuntime E} `{NriStub E}
  `{KubeClientLib E} `{StartupOS E} `{KubeletPluginLib E} `{GrpcLib E}.
Context (flags : Flags) (kc : KubeClientConfig (E:=E)).
#[local] Existing Instance driver_metadata.

(** The thread that serves an event, if there is someone to call it. *)
Definition handler (ev : SystemEvent) (phase : Phase) (s : System E) : option (prog (World E) answer) :=
  match ev with
  | Reconciliation =>
      match phase with
      | Registering | DriverStarted => None
      | _ => Some (r ← Reconcile_go (flag_NodeName flags) (flag_Namespace flags); mret (ReconcileAnswer r))
      end
  | KubeletPrepare claims =>
      Some (r ← PrepareResourceClaims_go (Some <$> claims); mret (PrepareAnswer claims r.1 r.2))
  | KubeletUnprepare claims => Some (r ← UnprepareResourceClaims_go claims; mret (UnprepareAnswer r))
  | SandboxStarts pod => p ← sys_nri s; Some (r ← RunPodSandbox_go p pod; mret (SandboxAnswer r))
  | SandboxStops pod => _ ← sys_nri s; Some (r ← StopPodSandbox_go pod; mret (StopAnswer r))
  | Send _ | Receive => None
  end.

(** A handler has returned; a sandbox handler still has to send. *)
Definition finish (a : answer) (s : System E) : System E :=
  match a with
  | SandboxAnswer (Ok (Some items)) => with_data (networkDeviceDataUpdateChan s) (sys_sending s ++ [items]) s
  | _ => s
  end.

(** The process after a step of its handlers or its runner. *)
Definition moved (s : Process E) (sys : System E) (threads : list (prog (World E) answer))
    (runner : option (prog (World E) unit)) : Process E := mkProcess (pr_phase s) sys threads runner.

(** What a choice does, with the answer that is given; [None] when it cannot be made, or
    RunPlugin fails and ends the process. *)
Definition act (c : Choice) (s : Process E) : option (outcome (option answer) * Process E) :=
  match c with
  | Spawn ev =>
      t ← handler ev (pr_phase s) (pr_sys s);
      Some (Ret None, moved s (pr_sys s) (pr_threads s ++ [t]) (pr_runner s))
  | Run i =>
      t ← pr_threads s !! i;
      match t with
      | Done a => Some (Ret (Some a), moved s (finish a (pr_sys s)) (delete i (pr_threads s)) (pr_runner s))
      | Do m k =>
          match m (sys_world (pr_sys s)) with
          | (Ret x, w) => Some (Ret None, moved s (on_world w (pr_sys s)) (<[i := k x]> (pr_threads s)) (pr_runner s))
          | (Panic why, w) => Some (Panic why, moved s (on_world w (pr_sys s)) (pr_threads s) (pr_runner s))
          end
      end
  | SendItem i =>
      '(_, s') ← handle flags (Send i) (pr_sys s);
      Some (Ret None, moved s s' (pr_threads s) (pr_runner s))
  | TakeItem =>
      match pr_runner s, networkDeviceDataUpdateChan (pr_sys s) with
      | None, items :: rest =>
          Some (Ret None, moved s (with_data rest (sys_sending (pr_sys s)) (pr_sys s)) (pr_threads s)
                            (Some (updateNetworkDeviceData_go items)))
      | _, _ => None
      end
  | RunRunner =>
      t ← pr_runner s;
      match t with
      | Done _ => Some (Ret None, moved s (pr_sys s) (pr_threads s) None)
      | Do m k =>
          match m (sys_world (pr_sys s)) with
          | (Ret x, w) => Some (Ret None, moved s (on_world w (pr_sys s)) (pr_threads s) (Some (k x)))
          | (Panic why, w) => Some (Panic why, moved s (on_world w (pr_sys s)) (pr_threads s) (pr_runner s))
          end
      end
  | GoOn =>
      let e := w_env (sys_world (pr_sys s)) in
      match pr_phase s with
      | Registering =>
          match pollRegistration e with
          | (None, e) =>
              Some (Ret None, mkProcess Registering (with_nri (sys_nri (pr_sys s)) e (pr_sys s))
                                (pr_threads s) (pr_runner s))
          | (Some (Err _), _) => None
          | (Some (Ok _), e) =>
              match driverRegistered flags
                      (PublishResources (flag_NodeName flags) (w_manager (sys_world (pr_sys s)))) e with
              | (Ok healthcheck, e) =>
                  Some (Ret None, mkProcess DriverStarted (with_driver healthcheck e (pr_sys s))
                                    (pr_threads s) (pr_runner s))
              | (Err _, _) => None
              end
          end
      | DriverStarted =>
          match startControllers (NewClientSetConfig kc) e with
          | (Ok _, e) =>
              Some (Ret None, mkProcess ControllersStarted (with_nri (sys_nri (pr_sys s)) e (pr_sys s))
                                (pr_threads s) (pr_runner s))
          | (Err _, _) => None
          end
      | ControllersStarted =>
          match startNri flags e with
          | (Ok nri, e) =>
              Some (Ret None, mkProcess Running (with_nri nri e (pr_sys s)) (pr_threads s) (pr_runner s))
          | (Err _, _) => None
          end
      | Running => None
      end
  end.

Definition acts (c : Choice) (a : option answer) (s s' : Process E) : Prop := act c s = Some (Ret a, s').

Definition pstep (s s' : Process E) : Prop := exists c a, acts c a s s'.

(** A step that is not a new call and not of RunPlugin. *)
Definition is_work (c : Choice) : bool := match c with Spawn _ | GoOn => false | _ => true end.
Definition work (s s' : Process E) : Prop := exists c a, is_work c = true /\ acts c a s s'.

(** Nothing runs and nothing is on its way. *)
Definition quiescent (s : Process E) : Prop :=
  pr_threads s = [] /\ pr_runner s = None /\
  networkDeviceDataUpdateChan (pr_sys s) = [] /\ sys_sending (pr_sys s) = [].

(** No handler runs: when the kubelet can call, and after the start of everything. *)
Definition opened (s : System E) : Process E := mkProcess Registering s [] None.
Definition alone (s : System E) : Process E := mkProcess Running s [] None.

(** The choices in turn, those that cannot be made left out, with the answers given. *)
Fixpoint run_schedule (cs : list Choice) (s : Process E) : option (Process E * list answer) :=
  match cs with
  | [] => Some (s, [])
  | c :: cs =>
      match act c s with
      | None => run_schedule cs s
      | Some (Ret a, s) =>
          '(s, l) ← run_schedule cs s;
          Some (s, match a with Some a => a :: l | None => l end)
      | Some (Panic _, _) => None
      end
  end.
End process.

(** ** The invariant *)

Section invariant.
Context `{RangeOrder} {E : Type} `{HostInterface E} `{DeviceInfoStore E} `{NadClient E}
  `{JsonLib} `{CdiLib E} `{Decoder} `{CheckpointManager E} `{ApiErrors} `{WaitLib E}
  `{ClaimClients E} `{!StatusJson} `{CniLib E} `{ClaimReader E} `{KubeletHelper E}
  `{SliceSort} `{LabelSelectors} `{PolicyClient E} `{ControllerRuntime E} `{NriStub E}
  `{KubeClientLib E} `{StartupOS E} `{KubeletPluginLib E} `{GrpcLib E}.
Context (flags : Flags) (kc : KubeClientConfig (E:=E)) (m0 : Manager) (h0 : Heap).
#[local] Existing Instance driver_metadata.
Implicit Types (s : Process E).

(** What the caller can rely on in an answer. *)
Definition right_answer (a : answer) (h : Heap) : Prop :=
  match a with
  | PrepareAnswer claims results _ => hook_answer (Some <$> claims) results h
  | SandboxAnswer r => sandbox_answer (E:=E) r h
  | _ => True
  end.

#[export] Instance evolving_right_answer a : Evolving (right_answer a).
Proof. destruct a; unfold right_answer; apply _. Qed.

Section with_hypotheses.
Context (q : Prop) (Hjson : q \/ no_null_nads) (Hcni : q \/ no_null_cni)
  (Hstatus : q \/ status_updates_return (E:=E))
  (Hmode : isMultusMode m0 = bool_decide (flag_ConfigurationMode flags = ConfigurationModeMultus)).

Record process_ok s : Prop := {
  pok_sys : sys_ok m0 (pr_sys s);
  pok_sourced : sourced (E:=E) h0 (w_heap (sys_world (pr_sys s)));
  pok_items items : items ∈ networkDeviceDataUpdateChan (pr_sys s) ++ sys_sending (pr_sys s) ->
    sourced_items (E:=E) items (w_heap (sys_world (pr_sys s)));
  pok_threads t : t ∈ pr_threads s -> keeps_safe q m0 h0 t right_answer (sys_world (pr_sys s));
  pok_runner t : pr_runner s = Some t -> quiet q m0 h0 t (sys_world (pr_sys s))
}.

Lemma sys_world_ok s :
  sys_ok m0 (pr_sys s) -> sourced (E:=E) h0 (w_heap (sys_world (pr_sys s))) ->
  world_ok m0 h0 (sys_world (pr_sys s)).
Proof. intros [] Hs. by constructor. Qed.

Lemma sys_ok_later w (s : System E) :
  sys_ok m0 s -> world_ok m0 h0 w -> later (sys_world s) w -> sys_ok m0 (on_world w s).
Proof.
  intros Hs Hw He. destruct Hs, Hw. constructor; simpl; try done.
  - intros Hsome. specialize (sok_nri Hsome). unfold isMultusMode in *. by rewrite wok_mode, <- sok_mode.
  - intros items Hin. eapply valid_items_evolves; [exact He|]. by apply sok_pending.
Qed.

(** A section of one thread; the others rely on it. *)
Lemma process_ok_world s w threads runner :
  process_ok s -> world_ok m0 h0 w -> later (sys_world (pr_sys s)) w ->
  (forall t, t ∈ threads -> t ∈ pr_threads s \/ keeps_safe q m0 h0 t right_answer w) ->
  (forall t, runner = Some t -> pr_runner s = Some t \/ quiet q m0 h0 t w) ->
  process_ok (moved s (on_world w (pr_sys s)) threads runner).
Proof.
  intros Hs Hw He Hthreads Hrunner. constructor; simpl.
  - apply sys_ok_later; [apply Hs|done..].
  - apply Hw.
  - intros items Hin. eapply (evolving (P:=sourced_items (E:=E) items)); [exact He|]. by apply (pok_items s Hs).
  - intros t Hin. destruct (Hthreads t Hin) as [Hold|]; [|done]. eapply ks_later; [exact He|]. by apply (pok_threads s Hs).
  - intros t Hin. destruct (Hrunner t Hin) as [Hold|]; [|done]. eapply ks_later; [exact He|]. by apply (pok_runner s Hs).
Qed.

(** A new handler is safe. *)
Lemma handler_safe ev phase (s : System E) t w :
  handler flags ev phase s = Some t -> keeps_safe q m0 h0 t right_answer w.
Proof using Hjson Hcni Hstatus.
  destruct ev as [|claims|claims|pod|pod|i|]; unfold handler; [..|done|done].
  - destruct phase; [done|done| |]; intros <-%(inj Some);
      (apply ks_then; [apply quiet_Reconcile|intros r w' _; by apply ks_ret; [apply _|]]).
  - intros <-%(inj Some). eapply ks_bind; [apply (ks_PrepareResourceClaims q m0 h0 Hjson Hstatus)|].
    + intros claim (c & -> & _)%list_elem_of_fmap. by eexists.
    + intros [results err] w' _ _ Hr. by apply ks_ret; [apply _|].
  - intros <-%(inj Some). apply ks_then; [apply quiet_UnprepareResourceClaims|]. intros r w' _. by apply ks_ret; [apply _|].
  - destruct (sys_nri s) as [p|]; [cbn [mbind option_bind]|done]. intros <-%(inj Some).
    eapply ks_bind; [by apply (ks_RunPodSandbox p q m0 h0 Hcni)|]. intros r w' _ _ Hr. by apply ks_ret; [apply _|].
  - destruct (sys_nri s) as [p|]; [cbn [mbind option_bind]|done]. intros <-%(inj Some). apply ks_then; [apply quiet_StopPodSandbox|].
    intros r w' _. by apply ks_ret; [apply _|].
Qed.

(** The answer of a thread that has returned. *)
Lemma thread_answer s a :
  process_ok s -> Done a ∈ pr_threads s -> right_answer a (w_heap (sys_world (pr_sys s))).
Proof.
  intros Hs Ha. apply (pok_threads s Hs (Done a) Ha); [by unfold later|].
  by apply sys_world_ok; [apply Hs|apply pok_sourced].
Qed.

(** What a choice leaves, and the answer it gives. *)
Definition sound s (r : outcome (option answer) * Process E) : Prop :=
  match r with
  | (Ret a, s') => process_ok s' /\
      (forall b, a = Some b -> right_answer b (w_heap (sys_world (pr_sys s'))))
  | (Panic _, _) => q
  end.

(** A section of a safe thread, run in the process. *)
Lemma section_sound {A X} s (m : M (World E) X) (k : X -> prog (World E) A) P
    (next : X -> list (prog (World E) answer)) (next' : X -> option (prog (World E) unit)) :
  process_ok s -> keeps_safe q m0 h0 (Do m k) P (sys_world (pr_sys s)) ->
  (forall x w t, keeps_safe q m0 h0 (k x) P w -> t ∈ next x -> t ∈ pr_threads s \/ keeps_safe q m0 h0 t right_answer w) ->
  (forall x w t, keeps_safe q m0 h0 (k x) P w -> next' x = Some t -> pr_runner s = Some t \/ quiet q m0 h0 t w) ->
  match m (sys_world (pr_sys s)) with
  | (Ret x, w) => process_ok (moved s (on_world w (pr_sys s)) (next x) (next' x))
  | (Panic _, _) => q
  end.
Proof.
  intros Hs Hk Hnext Hnext'.
  pose proof (sys_world_ok s (pok_sys s Hs) (pok_sourced s Hs)) as Hw.
  apply (safe_next q (world_ok m0 h0) later m k _ _ Hw) in Hk.
  destruct (m (sys_world (pr_sys s))) as [[x|why] w]; [|done]. destruct Hk as (Hw' & He & Hk).
  apply process_ok_world; [done..| |]; intros t Ht; [by eapply Hnext|by eapply Hnext'].
Qed.

Lemma run_sound i s r : process_ok s -> act flags kc (Run i) s = Some r -> sound s r.
Proof.
  intros Hs. simpl. destruct (pr_threads s !! i) as [t|] eqn:Hi; [|done]. simpl.
  apply list_elem_of_lookup_2 in Hi as Hin. destruct t as [a|X m k].
  - intros <-%(inj Some). pose proof (thread_answer s a Hs Hin) as Ha. split.
    2: { intros b [= <-]. by destruct a as [| | |[[items|]|]|]. }
    assert (Hthreads : forall t, t ∈ delete i (pr_threads s) -> t ∈ pr_threads s)
      by (intros t Ht; by eapply elem_of_sublist, sublist_delete).
    destruct a as [| | |[[items|]|]|]; simpl in *; try by destruct Hs; constructor; auto.
    destruct Hs. constructor; simpl; auto.
    + destruct pok_sys0. constructor; try done. simpl. intros it. rewrite app_assoc, elem_of_app, list_elem_of_singleton.
      intros [?| ->]; [by apply sok_pending|by apply sourced_items_valid].
    + intros it. rewrite app_assoc, elem_of_app, list_elem_of_singleton. intros [?| ->]; [by apply pok_items0|done].
  - pose proof (section_sound s m k right_answer (fun x => <[i := k x]> (pr_threads s)) (fun _ => pr_runner s) Hs
      (pok_threads s Hs _ Hin) ltac:(intros x' w' t Hk [->|?]%elem_of_list_insert_inv; [by right|by left])
      ltac:(intros x' w' t Hk; by left)) as Hsec. simpl in Hsec.
    by destruct (m (sys_world (pr_sys s))) as [[x|why] w]; intros <-%(inj Some).
Qed.

Lemma runner_sound s r : process_ok s -> act flags kc RunRunner s = Some r -> sound s r.
Proof.
  intros Hs. simpl. destruct (pr_runner s) as [t|] eqn:Ht; [|done]. simpl. destruct t as [u|X m k].
  - intros <-%(inj Some). split; [|done]. destruct Hs. by constructor.
  - pose proof (section_sound s m k _ (fun x => pr_threads s) (fun x => Some (k x)) Hs
      (pok_runner s Hs _ Ht) ltac:(intros x' w' t Hk; by left)
      ltac:(intros x' w' t Hk [= <-]; right; by eapply ks_quiet)) as Hsec. simpl in Hsec.
    by destruct (m (sys_world (pr_sys s))) as [[x|why] w]; intros <-%(inj Some).
Qed.

Lemma take_sound s r : process_ok s -> act flags kc TakeItem s = Some r -> sound s r.
Proof using Hstatus.
  intros Hs. simpl. destruct (pr_runner s); [done|].
  destruct (networkDeviceDataUpdateChan (pr_sys s)) as [|items rest] eqn:Hchan; [done|].
  intros <-%(inj Some). split; [|done].
  assert (Hitems : sourced_items (E:=E) items (w_heap (sys_world (pr_sys s)))).
  { apply (pok_items s Hs). rewrite Hchan. by left. }
  destruct Hs. constructor; simpl; try done.
  - destruct pok_sys0. constructor; try done; simpl.
    + intros it Hit. apply sok_pending. rewrite Hchan. by right.
    + rewrite Hchan in sok_capacity. simpl in sok_capacity. lia.
  - intros it Hit. apply pok_items0. rewrite Hchan. by right.
  - intros t [= <-]. by apply quiet_updateNetworkDeviceData.
Qed.

(** The next part of RunPlugin. *)
Lemma go_on_sound s r : process_ok s -> act flags kc GoOn s = Some r -> sound s r.
Proof using Hmode.
  intros Hs. simpl.
  assert (Hnow : forall phase nri e, sys_ok m0 (with_nri nri e (pr_sys s)) ->
    process_ok (mkProcess phase (with_nri nri e (pr_sys s)) (pr_threads s) (pr_runner s))).
  { intros phase nri e Hsys. destruct Hs. constructor; simpl; [done|done|done| |]; intros t Ht.
    - eapply (ks_later q m0 h0); [|by apply pok_threads0]. by unfold later.
    - eapply (ks_later q m0 h0); [|by apply pok_runner0]. by unfold later. }
  destruct (pr_phase s); [| | |done].
  - destruct (pollRegistration _) as [[[u|]|] e]; [|done|].
    2: { intros <-%(inj Some). split; [|done]. apply Hnow. destruct (pok_sys s Hs). by constructor. }
    destruct (driverRegistered _ _ e) as [[healthcheck|] e']; [|done]. intros <-%(inj Some). split; [|done].
    destruct (Hnow DriverStarted (sys_nri (pr_sys s)) e') as []; [by destruct (pok_sys s Hs)|].
    constructor; simpl; try done. by destruct pok_sys0.
  - destruct (startControllers _ _) as [[u|] e]; [|done]. intros <-%(inj Some). split; [|done]. apply Hnow.
    destruct (pok_sys s Hs). by constructor.
  - destruct (startNri _ _) as [[nri|] e] eqn:Hnri; [|done]. intros <-%(inj Some). split; [|done]. apply Hnow.
    eapply sys_ok_with_nri; [apply Hs| |exact Hnri]. unfold isMultusMode in *. by rewrite (sok_mode _ _ (pok_sys s Hs)).
Qed.

Lemma act_sound c s r : process_ok s -> act flags kc c s = Some r -> sound s r.
Proof using Hjson Hcni Hstatus Hmode.
  intros Hs. destruct c as [ev|i|i| | |]; [|by apply run_sound| |by apply take_sound|by apply runner_sound|by apply go_on_sound].
  - simpl. destruct (handler flags ev (pr_phase s) (pr_sys s)) as [t|] eqn:Hh; [|done]. intros <-%(inj Some).
    split; [|done]. destruct Hs. constructor; simpl; try done.
    intros t' [?| ->%list_elem_of_singleton]%elem_of_app; [by apply pok_threads0|by eapply handler_safe].
  - simpl. destruct (sys_sending (pr_sys s) !! i) as [items|] eqn:Hi; [|done].
    destruct (decide _) as [Hroom|]; [|done]. intros <-%(inj Some). split; [|done].
    assert (Hperm : (networkDeviceDataUpdateChan (pr_sys s) ++ [items]) ++ delete i (sys_sending (pr_sys s))
      ≡ₚ networkDeviceDataUpdateChan (pr_sys s) ++ sys_sending (pr_sys s)).
    { rewrite <- app_assoc. apply Permutation_app_head. symmetry. by apply delete_Permutation. }
    destruct Hs. constructor; simpl; try done.
    + destruct pok_sys0. constructor; try done; simpl.
      * intros it. rewrite Hperm. apply sok_pending.
      * rewrite length_app. simpl. lia.
    + intros it. rewrite Hperm. apply pok_items0.
Qed.

Lemma psteps_ok s s' : process_ok s -> rtc (pstep flags kc) s s' -> process_ok s'.
Proof using Hjson Hcni Hstatus Hmode.
  intros Hs Hrun. induction Hrun as [s|s s1 s' (c & a & Hact) _ IH]; [done|].
  apply IH. apply (act_sound c s _ Hs Hact).
Qed.
End with_hypotheses.
End invariant.

(** ** Schedules end *)

Section ends.
Context `{RangeOrder} {E : Type} `{HostInterface E} `{DeviceInfoStore E} `{NadClient E}
  `{JsonLib} `{CdiLib E} `{Decoder} `{CheckpointManager E} `{ApiErrors} `{WaitLib E}
  `{ClaimClients E} `{!StatusJson} `{CniLib E} `{ClaimReader E} `{KubeletHelper E}
  `{SliceSort} `{LabelSelectors} `{PolicyClient E} `{ControllerRuntime E} `{NriStub E}
  `{KubeClientLib E} `{StartupOS E} `{KubeletPluginLib E} `{GrpcLib E}.
Context (flags : Flags) (kc : KubeClientConfig (E:=E)).
#[local] Existing Instance driver_metadata.
Implicit Types (s : Process E).

(** What is left to do: the handlers, the waiting sends, the channel, the runner's item. *)
Definition left_to_do s : list (prog (World E) answer) * (nat * (nat * option (prog (World E) unit))) :=
  (pr_threads s, (length (sys_sending (pr_sys s)),
    (length (networkDeviceDataUpdateChan (pr_sys s)), pr_runner s))).

Definition less_to_do := slexprod _ _ (@fewer (World E) answer)
  (slexprod _ _ lt (slexprod _ _ lt (@rest_opt (World E) unit))).

Lemma less_to_do_wf : well_founded less_to_do.
Proof. repeat apply wf_slexprod; [apply fewer_wf|apply lt_wf|apply lt_wf|apply rest_opt_wf]. Qed.

Lemma work_less s s' : work flags kc s s' -> less_to_do (left_to_do s') (left_to_do s).
Proof.
  intros (c & a & Hc & Hact). unfold acts, act in Hact. destruct c as [ev|i|i| | |]; [done|..|done].
  - destruct (pr_threads s !! i) as [t|] eqn:Hi; [|done]. simpl in Hact. destruct t as [b|X m k].
    + injection Hact as _ <-. apply left_slex. exists i, (Done b). split; [done|by left].
    + destruct (m _) as [[x|why] w]; [|done]. injection Hact as _ <-. apply left_slex.
      exists i, (Do m k). split; [done|]. right. exists (k x). split; [by exists x|done].
  - simpl in Hact. destruct (sys_sending (pr_sys s) !! i) as [items|] eqn:Hi; [|done].
    destruct (decide _); [|done]. injection Hact as _ <-. apply right_slex, left_slex. simpl.
    apply lookup_lt_Some in Hi as Hlen. rewrite length_delete by by eexists. lia.
  - destruct (pr_runner s); [done|]. destruct (networkDeviceDataUpdateChan (pr_sys s)) as [|items rest] eqn:Hchan; [done|].
    injection Hact as _ <-. unfold left_to_do. rewrite Hchan. apply right_slex, right_slex, left_slex. simpl. lia.
  - destruct (pr_runner s) as [t|] eqn:Hr; [|done]. simpl in Hact. unfold left_to_do. rewrite Hr. destruct t as [b|X m k].
    + injection Hact as _ <-. by apply right_slex, right_slex, right_slex.
    + destruct (m _) as [[x|why] w]; [|done]. injection Hact as _ <-. apply right_slex, right_slex, right_slex. by exists x.
Qed.

Lemma work_ends s : Acc (flip (work flags kc)) s.
Proof.
  assert (Hacc : Acc (fun s' s => less_to_do (left_to_do s') (left_to_do s)) s)
    by apply (wf_inverse_image _ _ _ left_to_do less_to_do_wf).
  induction Hacc as [s _ IH]. constructor. intros s' Hwork. by apply IH, work_less.
Qed.

(** A safe process can go on until there is nothing left. *)
Lemma work_possible m0 h0 s :
  isMultusMode m0 = bool_decide (flag_ConfigurationMode flags = ConfigurationModeMultus) ->
  process_ok m0 h0 False s -> no_null_nads -> no_null_cni -> status_updates_return (E:=E) ->
  quiescent s \/ exists s', work flags kc s s'.
Proof.
  intros Hmode Hs Hjson Hcni Hstatus.
  assert (Hgo : forall c r, is_work c = true -> act flags kc c s = Some r -> exists s', work flags kc s s').
  { intros c [[a|why] s'] Hc Hact; [by exists s', c, a|].
    destruct (act_sound flags kc m0 h0 False (or_intror Hjson) (or_intror Hcni) (or_intror Hstatus) Hmode c s _ Hs Hact). }
  destruct (pr_threads s) as [|t ts] eqn:Ht.
  2: { right. destruct (act flags kc (Run 0) s) as [r|] eqn:Hact; [by eapply (Hgo (Run 0))|]. simpl in Hact.
       rewrite Ht in Hact. simpl in Hact. destruct t as [a|X m k]; [done|]. by destruct (m _) as [[x|why] w]. }
  destruct (pr_runner s) as [t|] eqn:Hr.
  { right. destruct (act flags kc RunRunner s) as [r|] eqn:Hact; [by eapply (Hgo RunRunner)|]. simpl in Hact.
    rewrite Hr in Hact. simpl in Hact. destruct t as [a|X m k]; [done|]. by destruct (m _) as [[x|why] w]. }
  destruct (networkDeviceDataUpdateChan (pr_sys s)) as [|items rest] eqn:Hchan.
  2: { right. eapply (Hgo TakeItem); [done|]. simpl. by rewrite Hr, Hchan. }
  destruct (sys_sending (pr_sys s)) as [|items sending] eqn:Hsend; [by left|].
  right. eapply (Hgo (SendItem 0)); [done|]. simpl. by rewrite Hsend, Hchan.
Qed.

(** So it gets there. *)
Lemma work_completes m0 h0 s :
  isMultusMode m0 = bool_decide (flag_ConfigurationMode flags = ConfigurationModeMultus) ->
  process_ok m0 h0 False s -> no_null_nads -> no_null_cni -> status_updates_return (E:=E) ->
  exists s', rtc (work flags kc) s s' /\ quiescent s'.
Proof.
  intros Hmode Hs Hjson Hcni Hstatus. induction (work_ends s) as [s _ IH].
  destruct (work_possible m0 h0 s) as [Hq|(s1 & Hwork)]; [done..|by exists s|].
  destruct (IH s1 Hwork) as (s' & Hrun & Hq); [|exists s'; split; [by eapply rtc_l|done]].
  destruct Hwork as (c & a & _ & Hact).
  apply (act_sound flags kc m0 h0 False (or_intror Hjson) (or_intror Hcni) (or_intror Hstatus) Hmode c s _ Hs Hact).
Qed.
End ends.

(** ** A handler that is not interrupted *)

Section alone.
Context `{RangeOrder} {E : Type} `{HostInterface E} `{DeviceInfoStore E} `{NadClient E}
  `{JsonLib} `{CdiLib E} `{Decoder} `{CheckpointManager E} `{ApiErrors} `{WaitLib E}
  `{ClaimClients E} `{!StatusJson} `{CniLib E} `{ClaimReader E} `{KubeletHelper E}
  `{SliceSort} `{LabelSelectors} `{PolicyClient E} `{ControllerRuntime E} `{NriStub E}
  `{KubeClientLib E} `{StartupOS E} `{KubeletPluginLib E} `{GrpcLib E}.
Context (flags : Flags) (kc : KubeClientConfig (E:=E)).
#[local] Existing Instance driver_metadata.
Implicit Types (s : System E).

Lemma on_same_world s : on_world (sys_world s) s = s.
Proof. by destruct s. Qed.

Lemma thread_alone s (t : prog (World E) answer) a w :
  run t (sys_world s) = (Ret a, w) ->
  rtc (pstep flags kc) (mkProcess Running s [t] None) (mkProcess Running (on_world w s) [Done a] None).
Proof.
  revert s. induction t as [b|X m k IH]; intros s Hrun.
  - injection Hrun as <- <-. by rewrite on_same_world.
  - simpl in Hrun. unfold mbind, M_bind in Hrun. destruct (m (sys_world s)) as [[x|why] w1] eqn:Hm; [|done].
    apply (rtc_l _ _ (mkProcess Running (on_world w1 s) [k x] None)); [exists (Run 0), None|exact (IH x (on_world w1 s) Hrun)].
    unfold acts. simpl. by rewrite Hm.
Qed.

Lemma runner_alone s (t : prog (World E) unit) u w :
  run t (sys_world s) = (Ret u, w) ->
  rtc (pstep flags kc) (mkProcess Running s [] (Some t)) (mkProcess Running (on_world w s) [] (Some (Done u))).
Proof.
  revert s. induction t as [b|X m k IH]; intros s Hrun.
  - injection Hrun as <- <-. by rewrite on_same_world.
  - simpl in Hrun. unfold mbind, M_bind in Hrun. destruct (m (sys_world s)) as [[x|why] w1] eqn:Hm; [|done].
    apply (rtc_l _ _ (mkProcess Running (on_world w1 s) [] (Some (k x)))); [exists RunRunner, None|exact (IH x (on_world w1 s) Hrun)].
    unfold acts. simpl. by rewrite Hm.
Qed.

(** A call that is served at once. *)
Lemma served_alone {A} ev s (p : prog (World E) A) (m : M (World E) A) (F : A -> answer) a w :
  handler flags ev Running s = Some (r ← p; mret (F r)) -> same_run (run p) m -> m (sys_world s) = (Ret a, w) ->
  rtc (pstep flags kc) (alone s) (alone (finish (F a) (on_world w s))).
Proof.
  intros Hh Hp Hm. eapply rtc_l.
  { exists (Spawn ev), None. unfold acts. simpl. by rewrite Hh. }
  eapply rtc_r.
  - apply (thread_alone s _ (F a) w). rewrite (run_bind_run p (fun r => mret (F r)) (sys_world s)).
    unfold mbind, M_bind. by rewrite (Hp (sys_world s)), Hm.
  - by exists (Run 0), (Some (F a)).
Qed.

Lemma discard_serve {A} (m : M (World E) A) s s' :
  discard (serve m s) = (Ret tt, s') -> exists a w, m (sys_world s) = (Ret a, w) /\ s' = on_world w s.
Proof. unfold discard, serve. destruct (m (sys_world s)) as [[a|why] w]; simpl; [|done]. intros [= <-]. by exists a, w. Qed.

Lemma handle_alone ev s s' : step_by flags ev s s' -> rtc (pstep flags kc) (alone s) (alone s').
Proof.
  unfold step_by. destruct ev as [|claims|claims|pod|pod|i|]; unfold handle.
  - intros (a & w & Hm & ->)%(inj Some)%discard_serve.
    by apply (served_alone Reconciliation s _ _ ReconcileAnswer a w eq_refl (run_Reconcile _ _)).
  - intros (a & w & Hm & ->)%(inj Some)%discard_serve.
    by apply (served_alone (KubeletPrepare claims) s _ _ (fun r => PrepareAnswer claims r.1 r.2) a w eq_refl
      (run_PrepareResourceClaims _)).
  - intros (a & w & Hm & ->)%(inj Some)%discard_serve.
    by apply (served_alone (KubeletUnprepare claims) s _ _ UnprepareAnswer a w eq_refl (run_UnprepareResourceClaims _)).
  - destruct (sys_nri s) as [p|] eqn:Hnri; [|done]. cbn [mbind option_bind]. unfold sandboxStarts, serve.
    destruct (RunPodSandbox p pod (sys_world s)) as [[r|why] w] eqn:Hm; [|done]. intros Hend%(inj Some).
    replace s' with (finish (SandboxAnswer r) (on_world w s)) by (by destruct r as [[items|]|]; injection Hend).
    eapply (served_alone (SandboxStarts pod) s _ _ SandboxAnswer r w); [|apply (run_RunPodSandbox p pod)|exact Hm].
    unfold handler. by rewrite Hnri.
  - destruct (sys_nri s) as [p|] eqn:Hnri; [|done]. cbn [mbind option_bind].
    intros (a & w & Hm & ->)%(inj Some)%discard_serve.
    eapply (served_alone (SandboxStops pod) s _ _ StopAnswer a w); [|apply (run_StopPodSandbox pod)|exact Hm].
    unfold handler. by rewrite Hnri.
  - intros Hev. apply rtc_once. exists (SendItem i), None. unfold acts, act, handle. simpl pr_sys. by rewrite Hev.
  - destruct (networkDeviceDataUpdateChan s) as [|items rest] eqn:Hchan; [done|].
    intros (u & w & Hm & ->)%(inj Some)%discard_serve. eapply rtc_l.
    { exists TakeItem, None. unfold acts, act, alone. simpl. by rewrite Hchan. }
    eapply rtc_r; [apply (runner_alone _ _ u w); by rewrite (run_updateNetworkDeviceData items _)|].
    by exists RunRunner, None.
Qed.

(** The wait for the registration, poll by poll. *)
Lemma polls_alone fuel s e u e1 :
  waitForRegistration fuel e = (Some (Ok u), e1) ->
  exists e', rtc (pstep flags kc) (opened (with_nri (sys_nri s) e s)) (opened (with_nri (sys_nri s) e' s)) /\
    pollRegistration e' = (Some (Ok u), e1).
Proof.
  revert e. induction fuel as [|fuel IH]; intros e; [done|]. simpl. unfold mbind, Call_bind.
  destruct (pollRegistration e) as [[r|] e2] eqn:Hpoll.
  - intros [= -> ->]. by exists e.
  - intros (e' & Hrun & He')%IH. exists e'. split; [|done]. eapply rtc_l; [|exact Hrun].
    exists GoOn, None. unfold acts. simpl. by rewrite Hpoll.
Qed.

Lemma start_alone `{DiscoveryHost E} `{CdiCacheLib E} fuel e s :
  start flags kc fuel e = Ret (Some (Ok s)) ->
  exists s0, openDriver flags e = Ret (Ok s0) /\ rtc (pstep flags kc) (opened s0) (alone s).
Proof.
  unfold start. rewrite launch_opens. destruct (openDriver flags e) as [[s0|err]|why]; [|done..].
  destruct (waitForRegistration fuel _) as [[[u|err]|] e1] eqn:Hwait; [|done..].
  destruct (driverRegistered _ _ e1) as [[healthcheck|err] e2] eqn:Hreg; [|done].
  unfold startServices, call_ok, mbind, Call_bind. simpl.
  destruct (startControllers _ e2) as [[[]|err] e3] eqn:Hctrl; [|done].
  destruct (startNri flags e3) as [[nri|err] e4] eqn:Hnri; [|done]. intros [= <-]. exists s0. split; [done|].
  destruct (polls_alone fuel s0 _ _ _ Hwait) as (e' & Hpolls & Hpoll).
  etrans; [replace s0 with (with_nri (sys_nri s0) (w_env (sys_world s0)) s0) at 1 by (by destruct s0 as [[]]); exact Hpolls|].
  eapply rtc_l; [exists GoOn, None; unfold acts; simpl; rewrite Hpoll; simpl; by rewrite Hreg|].
  eapply rtc_l; [exists GoOn, None; unfold acts; simpl; by rewrite Hctrl|].
  apply rtc_once. exists GoOn, None. unfold acts. simpl. by rewrite Hnri.
Qed.

Lemma run_schedule_steps cs (s s' : Process E) l : run_schedule flags kc cs s = Some (s', l) -> rtc (pstep flags kc) s s'.
Proof.
  revert s s' l. induction cs as [|c cs IH]; intros s s' l; simpl; [by intros [= <- _]|].
  destruct (act flags kc c s) as [[[a|why] s1]|] eqn:Hact; [|done|by apply IH].
  destruct (run_schedule flags kc cs s1) as [[s2 l2]|] eqn:Hrun; [|done]. simpl. intros [= <- _].
  eapply rtc_l; [by exists c, a|by eapply IH].
Qed.
End alone.

(** ** Properties *)

Section interleaving_properties.
Context `{RangeOrder} {E : Type} `{HostInterface E} `{DeviceInfoStore E} `{NadClient E}
  `{JsonLib} `{CdiLib E} `{Decoder} `{CheckpointManager E} `{ApiErrors} `{WaitLib E}
  `{ClaimClients E} `{!StatusJson} `{CniLib E} `{ClaimReader E} `{KubeletHelper E}
  `{SliceSort} `{LabelSelectors} `{PolicyClient E} `{DiscoveryHost E}
  `{StartupOS E} `{KubeletPluginLib E} `{GrpcLib E} `{ControllerRuntime E} `{NriStub E}
  `{CdiCacheLib E} `{KubeClientLib E}.
Context (flags : Flags).
#[local] Existing Instance driver_metadata.
Implicit Types (s : Process E).

Lemma opened_ok q e (s0 : System E) :
  checkpoint_filed flags e -> openDriver flags e = Ret (Ok s0) ->
  process_ok (w_manager (sys_world s0)) (w_heap (sys_world s0)) q (opened s0) /\
  isMultusMode (w_manager (sys_world s0)) = bool_decide (flag_ConfigurationMode flags = ConfigurationModeMultus).
Proof.
  intros Hfiled Hopen. pose proof (open_spec flags e Hfiled) as Hs. rewrite Hopen in Hs.
  destruct Hs as (Hs & Hidle & _ & Hmode). split; [|done].
  assert (Hempty : networkDeviceDataUpdateChan s0 ++ sys_sending s0 = []).
  { unfold pending in Hidle. destruct (networkDeviceDataUpdateChan s0), (sys_sending s0); simpl in Hidle; done || lia. }
  constructor; simpl; [done| | |by intros t ?%not_elem_of_nil|done].
  - intros l d nd Hd Hnd. left. by exists d.
  - rewrite Hempty. by intros items ?%not_elem_of_nil.
Qed.

Lemma reachable_process_ok q k e (s0 : System E) s :
  q \/ no_null_nads -> q \/ no_null_cni -> q \/ status_updates_return (E:=E) ->
  checkpoint_filed flags e -> openDriver flags e = Ret (Ok s0) ->
  rtc (pstep flags k) (opened s0) s -> process_ok (w_manager (sys_world s0)) (w_heap (sys_world s0)) q s.
Proof.
  intros Hjson Hcni Hstatus Hfiled Hopen. destruct (opened_ok q e s0 Hfiled Hopen) as [Hs Hmode].
  by apply psteps_ok.
Qed.

(** C4: In every state that a process can reach once the kubelet can call it, while it
    waits to be registered and starts the rest, with any running at the same time and their sections interleaved in any way: the manager is well-formed and discovery's findings are those of the start, every device
    of the pod manager exists and is filed under its own pod and claim, the channel holds
    at most its capacity, and the network data of every device is that of the start or
    comes from a CNI addition of this device to its own pod; and a handler that answers
    now tells the kubelet, for every claim it reports as prepared, only of devices
    prepared for it. *)
Theorem interleaved_states_ok k e (s0 : System E) s :
  checkpoint_filed flags e -> openDriver flags e = Ret (Ok s0) ->
  rtc (pstep flags k) (opened s0) s ->
  sys_ok (w_manager (sys_world s0)) (pr_sys s) /\
  sourced (E:=E) (w_heap (sys_world s0)) (w_heap (sys_world (pr_sys s))) /\
  forall c a s', acts flags k c (Some a) s s' -> right_answer a (w_heap (sys_world (pr_sys s'))).
Proof.
  intros Hfiled Hopen Hrun. destruct (opened_ok True e s0 Hfiled Hopen) as [_ Hmode].
  pose proof (reachable_process_ok True k e s0 s (or_introl I) (or_introl I) (or_introl I) Hfiled Hopen Hrun) as Hs.
  split_and!; [apply Hs..|]. intros c a s' Hact.
  destruct (act_sound flags k _ _ True (or_introl I) (or_introl I) (or_introl I) Hmode c s _ Hs Hact) as [_ Ha]. by apply Ha.
Qed.

(** C3: The process never panics: neither its start, nor any section of any handler,
    however handlers are interleaved with each other and the rest of the start, panics,
    whatever the kubelet, the runtime, the API server and the host do, as long as no
    network attachment definition that the API server hands out has the JSON null as its
    configuration, no CNI plugin answers an addition with a null address or interface, and
    the calls of the claim clients and of the wait package return.  This is about panics
    of the program: that the Go runtime may end a process that reads a map of the manager
    while a reconciliation writes it is outside of the model. *)
Theorem interleaved_never_panics e :
  checkpoint_filed flags e -> no_null_nads -> no_null_cni -> WaitReturns E -> ClientsReturn E ->
  (forall why, openDriver flags e ≠ Panic why) /\
  forall k (s0 : System E) s, openDriver flags e = Ret (Ok s0) -> rtc (pstep flags k) (opened s0) s ->
    forall c why s', act flags k c s ≠ Some (Panic why, s').
Proof.
  intros Hfiled Hjson Hcni Hwait Hclients. split.
  - intros why Hopen. pose proof (open_spec flags e Hfiled) as Hs. by rewrite Hopen in Hs.
  - intros k s0 s Hopen Hrun c why s' Hact. destruct (opened_ok False e s0 Hfiled Hopen) as [_ Hmode].
    pose proof (or_intror status_updates_do_return : False \/ status_updates_return (E:=E)) as Hstatus.
    pose proof (reachable_process_ok False k e s0 s (or_intror Hjson) (or_intror Hcni) Hstatus Hfiled Hopen Hrun) as Hs.
    apply (act_sound flags k _ _ False (or_intror Hjson) (or_intror Hcni) Hstatus Hmode c s _ Hs Hact).
Qed.

(** C13: Nothing gets stuck: in every state that the process reaches, as long as a handler
    runs, a send waits, the channel holds data or the runner works, another step of them is
    possible, and without new calls every schedule of such steps is finite; so each call
    gets answered and all network data processed, whichever way the scheduler interleaves
    them.  The conditions on the outside are those under which nothing panics. *)
Theorem interleavings_end k e (s0 : System E) s :
  checkpoint_filed flags e -> no_null_nads -> no_null_cni -> WaitReturns E -> ClientsReturn E ->
  openDriver flags e = Ret (Ok s0) -> rtc (pstep flags k) (opened s0) s ->
  Acc (flip (work flags k)) s /\ (quiescent s \/ exists s', work flags k s s') /\
  exists s', rtc (work flags k) s s' /\ quiescent s'.
Proof.
  intros Hfiled Hjson Hcni Hwait Hclients Hopen Hrun.
  pose proof status_updates_do_return as Hstatus. destruct (opened_ok False e s0 Hfiled Hopen) as [_ Hmode].
  pose proof (reachable_process_ok False k e s0 s (or_intror Hjson) (or_intror Hcni) (or_intror Hstatus)
    Hfiled Hopen Hrun) as Hs.
  split_and!; [apply work_ends|by eapply work_possible|by eapply work_completes].
Qed.

(** The process of System.v is among the interleavings: its start is RunPlugin with no
    call before its end, and an event that it handles in one step leads to the same state
    as the sections of that handler alone; so what holds in all interleavings holds of the
    handlers as they are written. *)
Lemma handlers_are_interleavings k :
  (forall fuel e (s : System E), start flags k fuel e = Ret (Some (Ok s)) ->
     exists s0 : System E, openDriver flags e = Ret (Ok s0) /\ rtc (pstep flags k) (opened s0) (alone s)) /\
  (forall ev (s s' : System E), step_by flags ev s s' -> rtc (pstep flags k) (alone s) (alone s')).
Proof. split; [apply start_alone|apply handle_alone]. Qed.
End interleaving_properties.

(** ** A concrete schedule: on the process of System.v, the kubelet asks for a claim while
    the driver still waits to be registered; the claim is prepared while the policies are
    reconciled, section by section in turn, and then the pod starts. *)
Module InterleavingRuns.
#[local] Existing Instance listing_order.
#[local] Existing Instance stable_sort.
#[local] Existing Instance ControllerRuns.selectors.
#[local] Existing Instance PrepareRuns.helpers.
#[local] Existing Instance PrepareRuns.no_store.
#[local] Existing Instance PrepareRuns.nads.
#[local] Existing Instance PrepareRuns.json.
#[local] Existing Instance PrepareRuns.cdi.
#[local] Existing Instance PrepareRuns.decoder.
#[local] Existing Instance DriverHookRuns.errors_lib.
#[local] Existing Instance DriverHookRuns.wait.
#[local] Existing Instance DriverHookRuns.clients.
#[local] Existing Instance NriRuns.status_json.
#[local] Existing Instance SystemRuns.node.
#[local] Existing Instance SystemRuns.checkpoints.
#[local] Existing Instance SystemRuns.kubelet.
#[local] Existing Instance SystemRuns.policies.
#[local] Existing Instance SystemRuns.cni.
#[local] Existing Instance SystemRuns.reader.
#[local] Existing Instance SystemRuns.files.
#[local] Existing Instance SystemRuns.plugin_lib.
#[local] Existing Instance SystemRuns.grpc.
#[local] Existing Instance SystemRuns.controllers.
#[local] Existing Instance SystemRuns.stub.
#[local] Existing Instance SystemRuns.cdi_cache.
#[local] Existing Instance SystemRuns.kube_clients.
Import SystemRuns.

Abbreviation process := (Process env).

(** Both handlers in turn, [n] times. *)
Definition in_turn (n : nat) : list Choice := concat (replicate n [Run 0; Run 1]).

(** The process that the kubelet can call. *)
Definition registered : System env :=
  match openDriver flags boot with Ret (Ok s) => s | _ => no_system end.

(** All but the return of the prepare hook. *)
Definition preparing : list Choice :=
  [Spawn (KubeletPrepare [claim]); Run 0; GoOn; GoOn; Spawn Reconciliation; Run 0; GoOn] ++ in_turn 16.
Definition answering : process :=
  (default (opened registered, []) (run_schedule flags kube preparing (opened registered))).1.

(** Then the sandbox hook, up to its send. *)
Definition starting : list Choice := [Run 0; Spawn (SandboxStarts pod); Run 0; Run 0; Run 0].
Definition sending : process := (default (answering, []) (run_schedule flags kube starting answering)).1.

(** The hook's answer, of one device for the claim. *)
Definition one_device (r : option (outcome (option answer) * process)) : bool :=
  match r with
  | Some (Ret (Some (PrepareAnswer [_] results None)), _) =>
      match results !! "claim-1" with
      | Some r => match pr_Err r, pr_Devices r with None, [_] => true | _, _ => false end
      | None => false
      end
  | _ => false
  end.

Lemma one_device_inv r : one_device r = true -> exists c results s' pr kd,
  r = Some (Ret (Some (PrepareAnswer [c] results None)), s') /\
  results !! "claim-1" = Some pr /\ pr_Err pr = None /\ pr_Devices pr = [kd].
Proof.
  destruct r as [[[[[|[|c []] results []| | |]|]|] s']|]; try discriminate. simpl.
  destruct (results !! "claim-1") as [pr|] eqn:Hr; [|discriminate].
  destruct (pr_Err pr) eqn:He; [discriminate|]. destruct (pr_Devices pr) as [|kd []] eqn:Hd; try discriminate.
  intros _. by exists c, results, s', pr, kd.
Qed.

Lemma registered_run : openDriver flags boot = Ret (Ok registered).
Proof.
  assert (Hrun : match openDriver flags boot with Ret (Ok _) => true | _ => false end = true)
    by (vm_cast_no_check (eq_refl true)).
  unfold registered. by destruct (openDriver flags boot) as [[?|?]|?].
Qed.
Lemma answering_run : is_Some (run_schedule flags kube preparing (opened registered)).
Proof.
  assert (Hrun : (if run_schedule flags kube preparing (opened registered) is Some _ then true else false) = true)
    by (vm_cast_no_check (eq_refl true)).
  destruct (run_schedule flags kube preparing (opened registered)); [by eexists|done].
Qed.
Lemma answering_answers : one_device (act flags kube (Run 0) answering) = true.
Proof. vm_cast_no_check (eq_refl true). Qed.
Lemma sending_run : is_Some (run_schedule flags kube starting answering).
Proof.
  assert (Hrun : (if run_schedule flags kube starting answering is Some _ then true else false) = true)
    by (vm_cast_no_check (eq_refl true)).
  destruct (run_schedule flags kube starting answering); [by eexists|done].
Qed.
Lemma sending_waits : length (sys_sending (pr_sys sending)) = 1.
Proof. vm_cast_no_check (eq_refl 1). Qed.

Lemma answering_steps : rtc (pstep flags kube) (opened registered) answering.
Proof.
  unfold answering. destruct answering_run as [[s l] Hrun]. rewrite Hrun.
  exact (run_schedule_steps flags kube _ _ _ _ Hrun).
Qed.
Lemma sending_steps : rtc (pstep flags kube) (opened registered) sending.
Proof.
  transitivity answering; [exact answering_steps|].
  unfold sending. destruct sending_run as [[s l] Hrun]. rewrite Hrun. exact (run_schedule_steps flags kube _ _ _ _ Hrun).
Qed.
#[local] Strategy opaque [started registered ready attached answering sending].

Lemma interleaved_states_ok_witness : exists a s' pod kd,
  acts flags kube (Run 0) (Some a) answering s' /\ told pod "claim-1" kd (w_heap (sys_world (pr_sys s'))).
Proof.
  destruct (interleaved_states_ok flags kube boot registered answering earlier_filed registered_run answering_steps)
    as (_ & _ & Hans).
  destruct (one_device_inv _ answering_answers) as (c & results & s' & pr & kd & Hact & Hres & Herr & Hdev).
  destruct (Hans (Run 0) _ s' Hact) as [_ Hr]. destruct (Hr "claim-1" pr Hres) as (c' & _ & Huid & Htold).
  destruct (Htold Herr) as (pod & _ & Hall). rewrite Hdev, Huid in Hall.
  exists (PrepareAnswer [c] results None), s', pod, kd. split; [exact Hact|]. by inversion Hall.
Defined.

Lemma interleaved_never_panics_witness : act flags kube (SendItem 0) sending ≠ Some (Panic "send on closed channel", sending).
Proof.
  exact (proj2 (interleaved_never_panics flags boot earlier_filed PrepareRuns.never_null
    no_null_results wait_returns clients_return) kube registered sending registered_run sending_steps (SendItem 0) _ sending).
Defined.

Lemma interleavings_end_witness : ¬ quiescent sending /\ exists s', rtc (work flags kube) sending s' /\ quiescent s'.
Proof.
  split.
  - intros (_ & _ & _ & Hsend). pose proof sending_waits as Hwaits. rewrite Hsend in Hwaits. discriminate.
  - exact (proj2 (proj2 (interleavings_end flags kube boot registered sending earlier_filed PrepareRuns.never_null
      no_null_results wait_returns clients_return registered_run sending_steps))).
Defined.

Lemma handlers_are_interleavings_witness :
  rtc (pstep flags kube) (alone ready) (alone attached) /\
  exists s0, rtc (pstep flags kube) (opened s0) (alone started).
Proof.
  destruct (handlers_are_interleavings flags kube) as [Hstart Hevent]. split.
  - exact (Hevent (SandboxStarts pod) ready attached (run_events_one flags _ _ _ attached_run)).
  - destruct (Hstart 1 boot started boot_run) as (s0 & _ & Hrun). exists s0. exact Hrun.
Defined.
End InterleavingRuns.
