(* ===== verification/Shutdown.v ===== *)
(** * The end of the process (cmd/dra-driver-sriov/main.go, pkg/nri/nri.go,
      pkg/driver/dra_hook.go)

    What cancels the context of the process, and RunPlugin's way out while handlers still
    run: the NRI stub is stopped and the update channel closed, the driver shuts down and
    the process exits. *)

From S2P Require Import Prelude Hoare Threads GoLib Consts K8sTypes VfConfigApi OpaqueConfig ClaimStatus Config Manager Prepared PodManager Controller Cdi Host Prepare DriverHook Discovery Cni Publish Nri HookState Goroutines Interference Startup System Interleaving.

(** The driver's [HandleError], called by the kubelet plugin library for an error in the
    background: whether it cancels the context.  RunPlugin sets the cancel function before
    it starts the driver. *)
Definition HandleError (err : error) : bool := negb (errors_Is err "ErrRecoverable").

(** What cancels it: a signal, an error of the library, the end of the controller
    manager, or the runtime closing the connection of the NRI plugin. *)
Inductive Cause : Type :=
  | Signalled
  | BackgroundError (err : error)
  | ManagerFailed
  | NriClosed.

(** How far RunPlugin's way out has got: it waits for the context; the stub is stopped; the
    channel is closed; the driver has shut down and the process exits. *)
Inductive MainPhase : Type := Waiting | StubStopped | ChannelClosed | Exited.

Record Ending (E : Type) `{JsonLib} : Type := mkEnding {
  en_process : Process E;
  en_cancelled : bool;
  en_runner_left : bool;
  en_main : MainPhase
}.
Arguments mkEnding {E _}.
Arguments en_process {E _}.
Arguments en_cancelled {E _}.
Arguments en_runner_left {E _}.
Arguments en_main {E _}.

(** The scheduler's choices: those of the running process, the context's end, the runner
    noticing it, and RunPlugin's next step. *)
Inductive EndChoice : Type :=
  | Act (c : Choice)
  | Cancel (why : Cause)
  | RunnerLeaves
  | MainGoesOn.

Section ending.
Context `{RangeOrder} {E : Type} `{HostInterface E} `{DeviceInfoStore E} `{NadClient E}
  `{JsonLib} `{CdiLib E} `{Decoder} `{CheckpointManager E} `{ApiErrors} `{WaitLib E}
  `{ClaimClients E} `{!StatusJson} `{CniLib E} `{ClaimReader E} `{KubeletHelper E}
  `{SliceSort} `{LabelSelectors} `{PolicyClient E} `{ControllerRuntime E} `{NriStub E}
  `{KubeClientLib E} `{StartupOS E} `{KubeletPluginLib E} `{GrpcLib E}.
Context (flags : Flags) (kc : KubeClientConfig (E:=E)).
#[local] Existing Instance driver_metadata.
Implicit Types (s : Ending E).

Definition can_cancel (why : Cause) (p : Process E) : bool :=
  match why, pr_phase p with
  | Signalled, _ => true
  | BackgroundError err, _ => HandleError err
  | ManagerFailed, (Registering | DriverStarted) => false
  | ManagerFailed, _ => true
  | NriClosed, Running => if sys_nri (pr_sys p) is Some _ then true else false
  | NriClosed, _ => false
  end.

(** The runtime has no way to call the sandbox hooks once the stub is stopped. *)
Definition sandbox_event (ev : SystemEvent) : bool :=
  match ev with SandboxStarts _ | SandboxStops _ => true | _ => false end.

Definition on_process (p : Process E) s : Ending E :=
  mkEnding p (en_cancelled s) (en_runner_left s) (en_main s).

Definition main_at (m : MainPhase) (p : Process E) s : Ending E :=
  mkEnding p (en_cancelled s) (en_runner_left s) m.

(** The process with another outside. *)
Definition process_env (e : E) (p : Process E) : Process E :=
  mkProcess (pr_phase p) (with_nri (sys_nri (pr_sys p)) e (pr_sys p)) (pr_threads p) (pr_runner p).

Definition outside_of (p : Process E) : E := w_env (sys_world (pr_sys p)).

Definition acted s (r : option (outcome (option answer) * Process E)) : option (outcome (option answer) * Ending E) :=
  '(o, p) ← r; Some (o, on_process p s).

(** A step of the process itself.  On a closed channel a send panics, and the runner
    receives a nil list once it is empty. *)
Definition process_act (c : Choice) s : option (outcome (option answer) * Ending E) :=
  let p := en_process s in
  match c, en_main s with
  | Spawn ev, Waiting => acted s (act flags kc c p)
  | Spawn ev, _ => if sandbox_event ev then None else acted s (act flags kc c p)
  | SendItem i, ChannelClosed =>
      _ ← sys_sending (pr_sys p) !! i; Some (Panic "send on closed channel", s)
  | TakeItem, m =>
      if en_runner_left s then None
      else
        match m, pr_runner p, networkDeviceDataUpdateChan (pr_sys p) with
        | ChannelClosed, None, [] =>
            Some (Ret None, on_process (moved p (pr_sys p) (pr_threads p) (Some (updateNetworkDeviceData_go []))) s)
        | _, _, _ => acted s (act flags kc c p)
        end
  | _, _ => acted s (act flags kc c p)
  end.

(** RunPlugin after [<-ctx.Done()]. *)
Definition main_act s : option (outcome (option answer) * Ending E) :=
  let p := en_process s in
  let shutdown := let '(_, e) := stopDriver flags (sys_healthcheck (pr_sys p)) (outside_of p) in
                  Some (Ret None, main_at Exited (process_env e p) s) in
  match en_main s, pr_phase p, en_cancelled s, sys_nri (pr_sys p) with
  | Waiting, Running, true, None => shutdown
  | Waiting, Running, true, Some _ =>
      let '(_, e) := stub_Stop (outside_of p) in Some (Ret None, main_at StubStopped (process_env e p) s)
  | StubStopped, _, _, _ => Some (Ret None, main_at ChannelClosed p s)
  | ChannelClosed, _, _, _ => shutdown
  | _, _, _, _ => None
  end.

Definition exited s : bool := if en_main s is Exited then true else false.

Definition end_act (c : EndChoice) s : option (outcome (option answer) * Ending E) :=
  if exited s then None
  else
    match c with
    | Act c => process_act c s
    | Cancel why =>
        if can_cancel why (en_process s)
        then Some (Ret None, mkEnding (en_process s) true (en_runner_left s) (en_main s)) else None
    | RunnerLeaves =>
        match en_cancelled s, pr_phase (en_process s), pr_runner (en_process s) with
        | true, Running, None => Some (Ret None, mkEnding (en_process s) true true (en_main s))
        | _, _, _ => None
        end
    | MainGoesOn => main_act s
    end.

Definition end_step s s' : Prop := exists c a, end_act c s = Some (Ret a, s').

(** The choices in turn, as long as they can be made and none panics. *)
Fixpoint run_ending (cs : list EndChoice) s : option (Ending E) :=
  match cs with
  | [] => Some s
  | c :: cs => match end_act c s with Some (Ret _, s) => run_ending cs s | _ => None end
  end.

(** A process that nothing has asked to end. *)
Definition serving (p : Process E) : Ending E := mkEnding p false false Waiting.
End ending.

(** ** The invariant, and what can still panic *)

(** Every answer that the thread may give. *)
Fixpoint leaves {W A} (P : A -> Prop) (p : prog W A) : Prop :=
  match p with
  | Done a => P a
  | Do m k => forall x, leaves P (k x)
  end.

Lemma leaves_bind {W A B} (P : B -> Prop) (p : prog W A) (k : A -> prog W B) :
  (forall a, leaves P (k a)) -> leaves P (p ≫= k).
Proof. intros Hk. induction p as [a|X m k' IH]; [by apply Hk|]. intros x. apply IH. Qed.

Section facts.
Context `{RangeOrder} {E : Type} `{HostInterface E} `{DeviceInfoStore E} `{NadClient E}
  `{JsonLib} `{CdiLib E} `{Decoder} `{CheckpointManager E} `{ApiErrors} `{WaitLib E}
  `{ClaimClients E} `{!StatusJson} `{CniLib E} `{ClaimReader E} `{KubeletHelper E}
  `{SliceSort} `{LabelSelectors} `{PolicyClient E} `{ControllerRuntime E} `{NriStub E}
  `{KubeClientLib E} `{StartupOS E} `{KubeletPluginLib E} `{GrpcLib E}.
Context (flags : Flags) (kc : KubeClientConfig (E:=E)) (m0 : Manager) (h0 : Heap).
#[local] Existing Instance driver_metadata.
Implicit Types (s : Ending E) (p : Process E).

(** A late send: the channel is closed and a sandbox hook still waits to send. *)
Definition late_send (c : EndChoice) s : Prop :=
  en_main s = ChannelClosed /\ exists i, c = Act (SendItem i) /\ is_Some (sys_sending (pr_sys (en_process s)) !! i).

(** No sandbox hook is on its way to a send. *)
Definition no_sender p : Prop :=
  sys_sending (pr_sys p) = [] /\
  forall t, t ∈ pr_threads p -> leaves (fun a => forall items, a ≠ SandboxAnswer (Ok (Some items))) t.

Section with_hypotheses.
Context (q : Prop) (Hjson : q \/ no_null_nads) (Hcni : q \/ no_null_cni)
  (Hstatus : q \/ status_updates_return (E:=E))
  (Hmode : isMultusMode m0 = bool_decide (flag_ConfigurationMode flags = ConfigurationModeMultus)).

#[local] Abbreviation good p := (process_ok m0 h0 q p).

Lemma good_env e p : good p -> good (process_env e p).
Proof.
  intros []. constructor; simpl; [by destruct pok_sys|done|done| |]; intros t Ht.
  - eapply (ks_later q m0 h0); [|by apply pok_threads]. by unfold later.
  - eapply (ks_later q m0 h0); [|by apply pok_runner]. by unfold later.
Qed.

(** The step leaves a good process, or panics in a late send. *)
Definition end_sound c s (r : outcome (option answer) * Ending E) : Prop :=
  match r with
  | (Ret _, s') => good (en_process s')
  | (Panic _, _) => q \/ late_send c s
  end.

Lemma acted_sound c c' s r :
  good (en_process s) -> acted s (act flags kc c' (en_process s)) = Some r -> end_sound c s r.
Proof using Hjson Hcni Hstatus Hmode.
  intros Hs. unfold acted. destruct (act flags kc c' (en_process s)) as [[o p]|] eqn:Hact; [|done].
  simpl. intros <-%(inj Some). pose proof (act_sound flags kc m0 h0 q Hjson Hcni Hstatus Hmode c' _ _ Hs Hact) as Hsound.
  destruct o; [apply Hsound|by left].
Qed.

Lemma process_act_sound c s r : good (en_process s) -> process_act flags kc c s = Some r -> end_sound (Act c) s r.
Proof using Hjson Hcni Hstatus Hmode.
  intros Hs. pose proof (acted_sound (Act c) c s r Hs) as Hacted.
  destruct c as [ev|i|i| | |]; unfold process_act; cbv beta iota zeta; try exact Hacted.
  - destruct (en_main s); [exact Hacted|destruct (sandbox_event ev); [done|exact Hacted]..].
  - destruct (en_main s) eqn:Hmain; try exact Hacted.
    destruct (sys_sending (pr_sys (en_process s)) !! i) as [items|] eqn:Hi; [|done]. intros <-%(inj Some). right.
    split; [done|]. exists i. by rewrite Hi.
  - destruct (en_runner_left s); [done|]. destruct (en_main s); try exact Hacted.
    destruct (pr_runner (en_process s)) eqn:Hrun; try exact Hacted.
    destruct (networkDeviceDataUpdateChan _) eqn:Hchan; try exact Hacted.
    intros <-%(inj Some). destruct Hs. constructor; simpl; try done. intros t [= <-].
    apply quiet_updateNetworkDeviceData; [done|]. by intros ? ? ?%not_elem_of_nil.
Qed.

Lemma end_act_sound c s r : good (en_process s) -> end_act flags kc c s = Some r -> end_sound c s r.
Proof using Hjson Hcni Hstatus Hmode.
  intros Hs. unfold end_act. destruct (exited s); [done|].
  destruct c as [c|why| |]; [by apply process_act_sound| | |].
  - destruct (can_cancel why (en_process s)); [|done]. by intros <-%(inj Some).
  - destruct (en_cancelled s), (pr_phase (en_process s)), (pr_runner (en_process s)); try done. by intros <-%(inj Some).
  - unfold main_act. destruct (stopDriver flags _ _) as [u e]. destruct (stub_Stop _) as [u' e'].
    destruct (en_main s), (pr_phase (en_process s)), (en_cancelled s), (sys_nri (pr_sys (en_process s))); try done;
      intros <-%(inj Some); by try apply good_env.
Qed.

Lemma end_steps_sound s s' : good (en_process s) -> rtc (end_step flags kc) s s' -> good (en_process s').
Proof using Hjson Hcni Hstatus Hmode.
  intros Hs Hrun. induction Hrun as [s|s s1 s' (c & a & Hact) _ IH]; [done|].
  apply IH. exact (end_act_sound c s _ Hs Hact).
Qed.
End with_hypotheses.

(** ** Without a sandbox hook *)

(** Only sandbox hooks send. *)
Lemma handler_no_sender ev phase (y : System E) t :
  sandbox_event ev = false -> handler flags ev phase y = Some t ->
  leaves (fun a => forall items, a ≠ SandboxAnswer (Ok (Some items))) t.
Proof.
  destruct ev; try done; unfold handler; intros _; [destruct phase; [done|done| |]|..]; intros <-%(inj Some); by apply leaves_bind.
Qed.

Lemma act_no_sender c p a p' :
  (forall ev, c = Spawn ev -> sandbox_event ev = false) -> no_sender p -> act flags kc c p = Some (Ret a, p') -> no_sender p'.
Proof.
  intros Hev [Hsend Hthreads]. destruct c as [ev|i|i| | |]; simpl.
  - destruct (handler flags ev _ _) as [t|] eqn:Hh; [|done]. intros [= <- <-]. split; [done|].
    intros t' [?| ->%list_elem_of_singleton]%elem_of_app; [by apply Hthreads|].
    eapply handler_no_sender; [by apply Hev|done].
  - destruct (pr_threads p !! i) as [t|] eqn:Hi; [|done]. simpl.
    apply list_elem_of_lookup_2 in Hi as Hin. apply Hthreads in Hin. destruct t as [b|X m k].
    + simpl in Hin. intros [= <- <-].
      split; [destruct b as [| | |[[items|]|]|]; try done; by destruct (Hin items)|].
      intros t Ht. apply Hthreads. exact (list_elem_of_delete_inv _ _ _ Ht).
    + destruct (m _) as [[x|why] w]; [|done]. intros [= <- <-]. split; [done|].
      intros t [->|?]%elem_of_list_insert_inv; [apply Hin|by apply Hthreads].
  - by rewrite Hsend, lookup_nil.
  - destruct (pr_runner p), (networkDeviceDataUpdateChan (pr_sys p)); try done. by intros [= <- <-].
  - destruct (pr_runner p) as [[u|X m k]|]; simpl; [by intros [= <- <-]| |done].
    destruct (m _) as [[x|why] w]; [|done]. by intros [= <- <-].
  - destruct (pr_phase p); [| | |done].
    + destruct (pollRegistration _) as [[[u|]|] e]; [|done|by intros [= <- <-]].
      destruct (driverRegistered _ _ e) as [[healthcheck|] e']; [|done]. by intros [= <- <-].
    + destruct (startControllers _ _) as [[u|] e]; [|done]. by intros [= <- <-].
    + destruct (startNri _ _) as [[nri|] e]; [|done]. by intros [= <- <-].
Qed.

Lemma acted_no_sender c s a s' :
  (forall ev, c = Spawn ev -> sandbox_event ev = false) -> no_sender (en_process s) ->
  acted s (act flags kc c (en_process s)) = Some (Ret a, s') ->
  en_main s' = en_main s /\ no_sender (en_process s').
Proof.
  intros Hev Hno. unfold acted. destruct (act flags kc c (en_process s)) as [[o p]|] eqn:Hact; [|done].
  intros [= -> <-]. split; [done|]. by eapply act_no_sender.
Qed.

(** Once the stub is stopped, no sandbox hook comes to be. *)
Lemma end_act_no_sender c s a s' :
  en_main s ≠ Waiting -> no_sender (en_process s) -> end_act flags kc c s = Some (Ret a, s') ->
  en_main s' ≠ Waiting /\ no_sender (en_process s').
Proof.
  intros Hmain Hno. unfold end_act. destruct (exited s); [done|].
  assert (Hacted : forall c a s', (forall ev, c = Spawn ev -> sandbox_event ev = false) ->
    acted s (act flags kc c (en_process s)) = Some (Ret a, s') -> en_main s' ≠ Waiting /\ no_sender (en_process s')).
  { intros c0 a0 s0 Hev Hact. destruct (acted_no_sender c0 s a0 s0 Hev Hno Hact) as [-> ?]. done. }
  destruct c as [c|why| |].
  - destruct c as [ev|i|i| | |]; unfold process_act; cbv beta iota zeta; try by apply Hacted.
    + destruct (en_main s); [done|..]; (destruct (sandbox_event ev) eqn:Hev; [done|]; by apply Hacted; intros ? [= <-]).
    + destruct (en_main s); try by apply Hacted. by destruct (sys_sending _ !! i).
    + destruct (en_runner_left s); [done|]. destruct (en_main s) eqn:Hm; try by apply Hacted.
      destruct (pr_runner _); try by apply Hacted. destruct (networkDeviceDataUpdateChan _); try by apply Hacted.
      intros [= <- <-]. simpl. by rewrite Hm.
  - destruct (can_cancel why _); [|done]. by intros [= <- <-].
  - destruct (en_cancelled s), (pr_phase (en_process s)), (pr_runner (en_process s)); try done. by intros [= <- <-].
  - unfold main_act. destruct (stopDriver flags _ _) as [u e], (stub_Stop _) as [u' e'].
    destruct (en_main s), (pr_phase (en_process s)), (en_cancelled s), (sys_nri (pr_sys (en_process s))); try done;
      by intros [= <- <-].
Qed.

Lemma end_steps_no_sender s s' :
  en_main s ≠ Waiting -> no_sender (en_process s) -> rtc (end_step flags kc) s s' -> no_sender (en_process s').
Proof.
  intros Hmain Hno Hrun. induction Hrun as [|s s1 s' (c & a & Hact) _ IH]; [done|].
  destruct (end_act_no_sender c s a s1 Hmain Hno Hact). by apply IH.
Qed.

(** ** The way out *)

(** RunPlugin is never held up: it gets to the exit whatever handlers still do. *)
Lemma main_exits s :
  en_cancelled s = true -> pr_phase (en_process s) = Running ->
  exists s', rtc (end_step flags kc) s s' /\ en_main s' = Exited.
Proof.
  intros Hc Hp.
  assert (Hclosed : forall p b1 b2, exists s', rtc (end_step flags kc) (mkEnding p b1 b2 ChannelClosed) s' /\ en_main s' = Exited).
  { intros p b1 b2. destruct (stopDriver flags (sys_healthcheck (pr_sys p)) (outside_of p)) as [[] e] eqn:Hstop.
    exists (mkEnding (process_env e p) b1 b2 Exited). split; [|done]. apply rtc_once. exists MainGoesOn, None.
    unfold end_act, main_act. simpl. by rewrite Hstop. }
  assert (Hstopped : forall p b1 b2, exists s', rtc (end_step flags kc) (mkEnding p b1 b2 StubStopped) s' /\ en_main s' = Exited).
  { intros p b1 b2. destruct (Hclosed p b1 b2) as (s' & Hrun & Hs'). exists s'. split; [|done].
    eapply rtc_l; [|exact Hrun]. by exists MainGoesOn, None. }
  destruct s as [p b1 b2 []]; simpl in *; [|apply Hstopped|apply Hclosed|by eexists].
  destruct (sys_nri (pr_sys p)) as [n|] eqn:Hnri.
  - destruct (stub_Stop (outside_of p)) as [[] e] eqn:Hstop.
    destruct (Hstopped (process_env e p) b1 b2) as (s' & Hrun & Hs'). exists s'. split; [|done].
    eapply rtc_l; [|exact Hrun]. exists MainGoesOn, None. unfold end_act, main_act. simpl. by rewrite Hp, Hc, Hnri, Hstop.
  - destruct (stopDriver flags (sys_healthcheck (pr_sys p)) (outside_of p)) as [[] e] eqn:Hstop.
    exists (mkEnding (process_env e p) b1 b2 Exited). split; [|done]. apply rtc_once. exists MainGoesOn, None.
    unfold end_act, main_act. simpl. by rewrite Hp, Hc, Hnri, Hstop.
Qed.

Lemma run_ending_steps cs s s' : run_ending flags kc cs s = Some s' -> rtc (end_step flags kc) s s'.
Proof.
  revert s. induction cs as [|c cs IH]; intros s; simpl; [by intros [= <-]|].
  destruct (end_act flags kc c s) as [[[a|why] s1]|] eqn:Hact; [|done..].
  intros Hrun. eapply rtc_l; [by exists c, a|by apply IH].
Qed.

(** The end of System.v, in one step, is one of these: it panics where a late send does. *)
Lemma stop_is_an_ending (y : System E) e :
  let s := mkEnding (alone y) true false Waiting in
  (stop flags y = (Ret tt, e) ->
     rtc (end_step flags kc) s (mkEnding (process_env e (alone y)) true false Exited)) /\
  (forall why, stop flags y = (Panic why, e) ->
     exists s', rtc (end_step flags kc) s s' /\ late_send (Act (SendItem 0)) s').
Proof.
  intros s. set (at_phase := fun e m => mkEnding (process_env e (alone y)) true false m).
  assert (Hmain : forall s s', exited s = false -> main_act flags s = Some (Ret None, s') -> end_step flags kc s s')
    by (intros s1 s2 Hex Hact; exists MainGoesOn, None; unfold end_act; by rewrite Hex).
  unfold stop. destruct (sys_nri y) as [n|] eqn:Hnri.
  - unfold nri_Stop. destruct (stub_Stop (w_env (sys_world y))) as [[] e1] eqn:Hstub.
    assert (Hclosed : rtc (end_step flags kc) s (at_phase e1 ChannelClosed)).
    { apply (rtc_l _ _ (at_phase e1 StubStopped)); [|by apply rtc_once, Hmain]. apply Hmain; [done|].
      unfold main_act. cbn. rewrite Hnri. by unfold outside_of; cbn; rewrite Hstub. }
    destruct (decide (sys_sending y ≠ [])) as [Hsend|_].
    + split; [done|]. intros why _. exists (at_phase e1 ChannelClosed). split; [done|]. split; [done|]. exists 0.
      split; [done|]. simpl. destruct (sys_sending y); [done|by eexists].
    + destruct (stopDriver flags (sys_healthcheck y) e1) as [[] e2] eqn:Hstop. split; [|done]. intros [= <-].
      eapply rtc_r; [exact Hclosed|]. apply Hmain; [done|]. unfold main_act. cbn. by rewrite Hstop.
  - destruct (stopDriver flags (sys_healthcheck y) (w_env (sys_world y))) as [[] e2] eqn:Hstop. split; [|done].
    intros [= <-]. apply rtc_once, Hmain; [done|]. unfold main_act. cbn. rewrite Hnri. unfold outside_of. cbn. by rewrite Hstop.
Qed.
End facts.

(** ** Properties *)

Section shutdown_properties.
Context `{RangeOrder} {E : Type} `{HostInterface E} `{DeviceInfoStore E} `{NadClient E}
  `{JsonLib} `{CdiLib E} `{Decoder} `{CheckpointManager E} `{ApiErrors} `{WaitLib E}
  `{ClaimClients E} `{!StatusJson} `{CniLib E} `{ClaimReader E} `{KubeletHelper E}
  `{SliceSort} `{LabelSelectors} `{PolicyClient E} `{DiscoveryHost E}
  `{StartupOS E} `{KubeletPluginLib E} `{GrpcLib E} `{ControllerRuntime E} `{NriStub E}
  `{CdiCacheLib E} `{KubeClientLib E}.
Context (flags : Flags).
#[local] Existing Instance driver_metadata.
Implicit Types (s : Ending E).

(** C18: The end of the process, with handlers still running: whatever cancels the context
    and whenever, however RunPlugin's way out is interleaved with the handlers, their
    starts and the runner, the process panics only when a sandbox hook sends on the
    channel after it was closed; not at all, if no sandbox hook is under way once the
    stub has stopped; and a cancelled process that was running always gets to its exit.
    The conditions are those of [interleaved_never_panics]: no attachment definition that
    is handed out is the JSON null, no CNI plugin answers with null entries, library calls
    return. *)
Theorem shutdown_panics_only_at_send k e (s0 : System E) s :
  checkpoint_filed flags e -> no_null_nads -> no_null_cni -> WaitReturns E -> ClientsReturn E ->
  openDriver flags e = Ret (Ok s0) -> rtc (end_step flags k) (serving (opened s0)) s ->
  (forall c why s', end_act flags k c s = Some (Panic why, s') -> late_send c s) /\
  (en_main s ≠ Waiting -> no_sender (en_process s) ->
   forall s1 c why s', rtc (end_step flags k) s s1 -> end_act flags k c s1 ≠ Some (Panic why, s')) /\
  (en_cancelled s = true -> pr_phase (en_process s) = Running ->
   exists s', rtc (end_step flags k) s s' /\ en_main s' = Exited).
Proof.
  intros Hfiled Hjson Hcni Hwait Hclients Hopen Hrun.
  pose proof (or_intror status_updates_do_return : False \/ status_updates_return (E:=E)) as Hstatus.
  destruct (opened_ok flags False e s0 Hfiled Hopen) as [Hs0 Hmode].
  assert (Hpanic : forall s1, rtc (end_step flags k) s s1 -> forall c why s',
    end_act flags k c s1 = Some (Panic why, s') -> late_send c s1).
  { intros s1 Hrun1 c why s' Hact.
    pose proof (end_steps_sound flags k _ _ False (or_intror Hjson) (or_intror Hcni) Hstatus Hmode (serving (opened s0)) s1 Hs0
      (transitivity Hrun Hrun1)) as Hs1.
    by destruct (end_act_sound flags k _ _ False (or_intror Hjson) (or_intror Hcni) Hstatus Hmode c s1 _ Hs1 Hact). }
  split_and!; [by apply Hpanic| |apply main_exits].
  intros Hmain Hno s1 c why s' Hrun1 Hact. destruct (Hpanic s1 Hrun1 c why s' Hact) as (_ & i & _ & Hi).
  destruct (end_steps_no_sender flags k s s1 Hmain Hno Hrun1) as [Hempty _].
  rewrite Hempty, lookup_nil in Hi. by destruct Hi.
Qed.
End shutdown_properties.

(** ** A concrete end: on the process of System.v a sandbox hook waits to send when a
    signal arrives. *)
Module ShutdownRuns.
#[local] Existing Instance listing_order.
#[local] Existing Instance stable_sort.
#[local] Existing Instance ControllerRuns.selectors.
#[local] Existing Instance PrepareRuns.helpers.
#[local] Existing Instance PrepareRuns.no_store.
#[local] Existing Instance PrepareRuns.nads.
#[local] Existing Instance PrepareRuns.json.
#[local] Existing Instance PrepareRuns.cdi.
#[local] Existing Instance PrepareRuns.decoder.
#[local] Existing Instance DriverHookRuns.errors_lib.
#[local] Existing Instance DriverHookRuns.wait.
#[local] Existing Instance DriverHookRuns.clients.
#[local] Existing Instance NriRuns.status_json.
#[local] Existing Instance SystemRuns.node.
#[local] Existing Instance SystemRuns.checkpoints.
#[local] Existing Instance SystemRuns.kubelet.
#[local] Existing Instance SystemRuns.policies.
#[local] Existing Instance SystemRuns.cni.
#[local] Existing Instance SystemRuns.reader.
#[local] Existing Instance SystemRuns.files.
#[local] Existing Instance SystemRuns.plugin_lib.
#[local] Existing Instance SystemRuns.grpc.
#[local] Existing Instance SystemRuns.controllers.
#[local] Existing Instance SystemRuns.stub.
#[local] Existing Instance SystemRuns.cdi_cache.
#[local] Existing Instance SystemRuns.kube_clients.
Import SystemRuns InterleavingRuns.

(** A thread alone, section by section. *)
Definition sections (n : nat) : list EndChoice := replicate n (Act (Run 0)).

(** The kubelet has a claim prepared, the hook of its pod runs up to its send, and RunPlugin
    goes the way out as far as the closed channel. *)
Definition late_hook : list EndChoice :=
  [Act GoOn; Act GoOn; Act GoOn; Act (Spawn (KubeletPrepare [claim]))] ++ sections 19 ++
  [Act (Spawn (SandboxStarts pod))] ++ sections 3 ++ [Cancel Signalled; MainGoesOn; MainGoesOn].
Definition closed : Ending env :=
  default (serving (opened registered)) (run_ending flags kube late_hook (serving (opened registered))).

Definition panics (r : option (outcome (option answer) * Ending env)) : bool :=
  match r with Some (Panic _, _) => true | _ => false end.

Lemma closed_run : run_ending flags kube late_hook (serving (opened registered)) = Some closed.
Proof. apply some_default. vm_cast_no_check (eq_refl true). Qed.
Lemma closed_panics : panics (end_act flags kube (Act (SendItem 0)) closed) = true.
Proof. vm_cast_no_check (eq_refl true). Qed.
Lemma closed_main : en_main closed = ChannelClosed.
Proof. vm_cast_no_check (eq_refl ChannelClosed). Qed.
Lemma closed_running : en_cancelled closed = true /\ pr_phase (en_process closed) = Running.
Proof. split; [vm_cast_no_check (eq_refl true)|vm_cast_no_check (eq_refl Running)]. Qed.
#[local] Strategy opaque [registered closed].

Lemma shutdown_panics_only_at_send_witness :
  late_send (Act (SendItem 0)) closed /\ exists s', rtc (end_step flags kube) closed s' /\ en_main s' = Exited.
Proof.
  destruct (shutdown_panics_only_at_send flags kube boot registered closed earlier_filed PrepareRuns.never_null
    no_null_results wait_returns clients_return registered_run (run_ending_steps flags kube _ _ _ closed_run))
    as (Hlate & _ & Hexit).
  split; [|exact (Hexit (proj1 closed_running) (proj2 closed_running))].
  pose proof closed_panics as Hp. destruct (end_act flags kube (Act (SendItem 0)) closed) as [[[a|why] s']|] eqn:Hact;
    [discriminate|exact (Hlate _ why s' Hact)|discriminate].
Defined.
End ShutdownRuns.
