(* ===== verification/WorkQueue.v ===== *)
(** * The event loop of the resource-policy controller
      (pkg/controller/resourcepolicycontroller.go, SetupWithManager)

    Watches turn changes of the API objects into events, the handlers turn events into
    requests on a work queue, and one worker at a time reconciles.  The queue and the
    controller runtime are parameters with their documented behaviour.  When nothing is on
    its way any more, the manager has what the policies ask for. *)

From Stdlib Require Import Wellfounded Relation_Operators.
From S2P Require Import Prelude Hoare Threads GoLib Consts K8sTypes Manager Prepared Controller Publish Goroutines.

Definition resourcePolicySyncEventName : string := "resource-policy-sync".

(** [reconcile.Request], a namespaced name. *)
Record Request : Type := mkRequest { rq_Namespace : string; rq_Name : string }.

#[global] Instance request_eq_dec : EqDecision Request.
Proof. solve_decision. Defined.
#[global] Instance request_countable : Countable Request.
Proof.
  refine (inj_countable' (fun r => (rq_Namespace r, rq_Name r)) (fun '(ns, n) => mkRequest ns n) _).
  by intros [].
Defined.

(** ** The libraries *)

(** [workqueue.TypedRateLimitingInterface] as the handlers and the worker use it:
    [q_timer] is the end of the shortest delay, [q_result] what the worker does with the
    outcome of a request before it marks it as done, and [EnqueueRequestForObject] the
    requests for an event by the handler of that name. *)
Class WorkQueue (Q : Type) : Type := {
  q_Add : Request -> Q -> Q;
  q_AddAfter : Request -> Z -> Q -> Q;
  q_Get : Q -> option (Request * Q);
  q_timer : Q -> option Q;
  q_result : Request -> ReconcileResult -> Q -> Q;
  EnqueueRequestForObject : Event -> list Request
}.

(** An outcome after which the request is handled again. *)
Definition retried (r : ReconcileResult) : Prop := is_Some (reconcile_err r) \/ (0 < RequeueAfter r)%Z.

(** The contents of a queue: what will be handed out, at once or after a delay, and what
    has been and is not done; a request can be both, and is never handed out twice at the
    same time.  [q_load] bounds how many delays can end and requests be handed out before
    something is added. *)
Class WorkQueueLaws (Q : Type) `{WorkQueue Q} : Type := {
  q_due : Q -> gset Request;
  q_processing : Q -> gset Request;
  q_load : Q -> nat;
  due_Add r q : q_due (q_Add r q) = {[r]} ∪ q_due q;
  due_AddAfter r d q : q_due (q_AddAfter r d q) = {[r]} ∪ q_due q;
  processing_Add r q : q_processing (q_Add r q) = q_processing q;
  processing_AddAfter r d q : q_processing (q_AddAfter r d q) = q_processing q;
  get_some q r q' : q_Get q = Some (r, q') ->
    (r ∉ q_processing q) /\ r ∈ q_due q /\ q_due q ⊆ {[r]} ∪ q_due q' /\
    q_processing q' = {[r]} ∪ q_processing q /\ q_load q' < q_load q;
  timer_some q q' : q_timer q = Some q' ->
    q_due q' = q_due q /\ q_processing q' = q_processing q /\ q_load q' < q_load q;
  result_due r res q : q_due q ⊆ q_due (q_result r res q) /\ (retried res -> r ∈ q_due (q_result r res q)) /\
    q_processing (q_result r res q) = q_processing q ∖ {[r]};
  result_load r res q : ¬ retried res -> q_load (q_result r res q) <= q_load q;
  queue_goes_on q : ¬ q_due q ⊆ q_processing q -> is_Some (q_Get q) \/ is_Some (q_timer q);
  enqueue_generic o : EnqueueRequestForObject (GenericEvent o) = [mkRequest (obj_Namespace o) (obj_Name o)]
}.

(** ** The watches *)

(** The sources of events that SetupWithManager sets up: the controlled kind, the three
    watches, and the channel. *)
Inductive Watch : Type :=
  | ForPolicies
  | WatchNodes
  | WatchPolicies
  | WatchDeviceAttributes
  | WatchChannel.

Inductive ObjectKind : Type := SriovResourcePolicyKind | DeviceAttributesKind | NodeKind.

Definition watches (k : ObjectKind) : list Watch :=
  match k with
  | SriovResourcePolicyKind => [ForPolicies; WatchPolicies]
  | DeviceAttributesKind => [WatchDeviceAttributes]
  | NodeKind => [WatchNodes]
  end.

(** The events that the watches are given for some of the API server. *)
Definition watched (evs : list (ObjectKind * Event)) : list (Watch * Event) :=
  evs ≫= fun '(k, e) => (fun w => (w, e)) <$> watches k.

(** The loop: the process around it, its queue, the events that are not handled yet, and
    the request that is reconciled now; the controller has one worker, the default. *)
Record Loop (Q E : Type) : Type := mkLoop {
  lp_world : World E;
  lp_queue : Q;
  lp_events : list (Watch * Event);
  lp_running : option (Request * prog (World E) ReconcileResult)
}.
Arguments mkLoop {Q E}.
Arguments lp_world {Q E}.
Arguments lp_queue {Q E}.
Arguments lp_events {Q E}.
Arguments lp_running {Q E}.

(** What happens next in the loop: an event reaches its handler, a delay ends, the worker
    takes a request, or runs its next section. *)
Inductive LoopChoice : Type :=
  | Deliver (i : nat)
  | Timer
  | Take
  | Section_.

Section loop.
Context `{RangeOrder} `{SliceSort} `{LabelSelectors} `{ApiErrors} `{EventSource}.
Context {Q E : Type} `{WorkQueue Q} `{PolicyClient E} `{KubeletHelper E}.
Context (nodeName namespace : string).
Implicit Types (q : Q) (l : Loop Q E).

(** One second from now. *)
Definition qHandler q : Q :=
  q_AddAfter (mkRequest namespace resourcePolicySyncEventName) 1000000000 q.

Definition enqueueObject (e : Event) q : Q :=
  foldl (fun q r => q_Add r q) q (EnqueueRequestForObject e).

(** An event reaches the handler of its source; the channel has no filter. *)
Definition deliver (w : Watch) (e : Event) q : Q :=
  match w with
  | ForPolicies => if dispatch (namespacePredicate namespace) (fun _ => true) e then enqueueObject e q else q
  | WatchNodes => if nodeEventEnqueues nodeName namespace e then qHandler q else q
  | WatchPolicies | WatchDeviceAttributes => if policyEventEnqueues namespace e then qHandler q else q
  | WatchChannel => enqueueObject e q
  end.

(** The event that SetupWithManager puts on the channel before it closes it. *)
Definition startEvent : Event :=
  GenericEvent (mkObject resourcePolicySyncEventName namespace ∅).

Definition SetupWithManager (w : World E) q : Loop Q E := mkLoop w q [(WatchChannel, startEvent)] None.

(** What a choice does; [None] when it cannot be made. *)
Definition loop_act (c : LoopChoice) l : option (outcome unit * Loop Q E) :=
  match c with
  | Deliver i =>
      '(w, e) ← lp_events l !! i;
      Some (Ret tt, mkLoop (lp_world l) (deliver w e (lp_queue l)) (delete i (lp_events l)) (lp_running l))
  | Timer =>
      q ← q_timer (lp_queue l);
      Some (Ret tt, mkLoop (lp_world l) q (lp_events l) (lp_running l))
  | Take =>
      match lp_running l with
      | Some _ => None
      | None =>
          '(r, q) ← q_Get (lp_queue l);
          Some (Ret tt, mkLoop (lp_world l) q (lp_events l) (Some (r, Reconcile_go nodeName namespace)))
      end
  | Section_ =>
      '(r, t) ← lp_running l;
      match t with
      | Done res => Some (Ret tt, mkLoop (lp_world l) (q_result r res (lp_queue l)) (lp_events l) None)
      | Do m k =>
          match m (lp_world l) with
          | (Ret x, w) => Some (Ret tt, mkLoop w (lp_queue l) (lp_events l) (Some (r, k x)))
          | (Panic why, w) => Some (Panic why, mkLoop w (lp_queue l) (lp_events l) (lp_running l))
          end
      end
  end.

Definition loop_work l l' : Prop := exists c, loop_act c l = Some (Ret tt, l').

(** The choices in turn, the events of the API server left aside. *)
Fixpoint run_loop (cs : list LoopChoice) l : option (Loop Q E) :=
  match cs with
  | [] => Some l
  | c :: cs => match loop_act c l with Some (Ret _, l) => run_loop cs l | _ => None end
  end.
End loop.

(** ** The API server *)

Record ApiContent : Type := mkApiContent {
  api_NodeLabels : gmap string string;
  api_Policies : list SriovResourcePolicy;
  api_DeviceAttributes : list DeviceAttributes
}.

(** The server as the reconciler sees it: a read that succeeds returns what the server
    has, and neither reads nor the publication of the devices change that. *)
Class ApiServer (E : Type) `{PolicyClient E} `{KubeletHelper E} (nodeName namespace : string) : Type := {
  api_content : E -> ApiContent;
  read_node e r e' : GetNode nodeName e = (r, e') ->
    api_content e' = api_content e /\ forall labels, r = Ok labels -> labels = api_NodeLabels (api_content e);
  read_policies e r e' : ListPolicies namespace e = (r, e') ->
    api_content e' = api_content e /\ forall items, r = Ok items -> items = api_Policies (api_content e);
  read_attributes e r e' : ListDeviceAttributes namespace e = (r, e') ->
    api_content e' = api_content e /\ forall attrs, r = Ok attrs -> attrs = api_DeviceAttributes (api_content e);
  publish_content d e r e' : helper_PublishResources d e = (r, e') -> api_content e' = api_content e
}.

(** Every call succeeds. *)
Definition always_answers {E} `{PolicyClient E} `{KubeletHelper E} (nodeName namespace : string) : Prop :=
  (forall e, is_ok (GetNode nodeName e).1) /\ (forall e, is_ok (ListPolicies namespace e).1) /\
  (forall e, is_ok (ListDeviceAttributes namespace e).1) /\ (forall d e, is_ok (helper_PublishResources d e).1).

Section steps.
Context `{RangeOrder} `{SliceSort} `{LabelSelectors} `{ApiErrors} `{EventSource}.
Context {Q E : Type} `{WorkQueue Q} `{PolicyClient E} `{KubeletHelper E}.
Context (nodeName namespace : string) `{!ApiServer E nodeName namespace}.
Implicit Types (q : Q) (l : Loop Q E) (w : World E).

#[local] Abbreviation content w := (api_content (w_env w)).

(** What the API server announces of a change: each change of a policy or of device
    attributes comes with an event of an object in the watched namespace.  A change of the
    node's labels alone is announced too, but only by an event that the filter drops; it is
    left out here. *)
Definition announced (c c' : ApiContent) (evs : list (ObjectKind * Event)) : Prop :=
  c' = c \/ exists k e, (k, e) ∈ evs /\ k ≠ NodeKind /\ obj_Namespace (event_object e) = namespace.

(** The rest of the process and the world: the kubelet hooks and the sandbox events keep
    the manager. *)
Definition same_view w w' : Prop := w_manager w' = w_manager w /\ content w' = content w.

Inductive loop_step l : Loop Q E -> Prop :=
  | step_works l' : loop_work nodeName namespace l l' -> loop_step l l'
  | step_elsewhere w : same_view (lp_world l) w ->
      loop_step l (mkLoop w (lp_queue l) (lp_events l) (lp_running l))
  | step_api e evs : announced (content (lp_world l)) (api_content e) evs ->
      loop_step l (mkLoop (set_env e (lp_world l)) (lp_queue l) (lp_events l ++ watched evs) (lp_running l)).

(** ** What the loop is for *)

(** The devices that the API objects select, with their attributes. *)
Definition selected (c : ApiContent) (ds : AllocatableDevices) : PolicyDevices :=
  getPolicyDeviceMap ds (matchingPolicies (api_NodeLabels c) (api_Policies c)) (api_DeviceAttributes c).

(** The manager has what the policies ask for: another update would change nothing. *)
Definition settled w : Prop :=
  w_manager w = spec_update (selected (content w) (GetAllocatableDevices (w_manager w))) (w_manager w).

(** Nothing is on its way. *)
Definition loop_idle `{!WorkQueueLaws Q} l : Prop :=
  lp_events l = [] /\ q_due (lp_queue l) = ∅ /\ lp_running l = None.
End steps.

(** ** The queue *)

Section queue_facts.
Context `{EventSource} {Q : Type} `{WorkQueueLaws Q} (nodeName namespace : string).
Implicit Types (q : Q).

Lemma due_enqueueObject e q :
  q_due q ⊆ q_due (enqueueObject e q) /\ q_processing (enqueueObject e q) = q_processing q /\
  (forall r, r ∈ EnqueueRequestForObject e -> r ∈ q_due (enqueueObject e q)).
Proof.
  unfold enqueueObject. generalize (EnqueueRequestForObject e) as rs. intros rs. revert q.
  induction rs as [|r rs IH]; intros q; simpl; [set_solver|].
  destruct (IH (q_Add r q)) as (Hdue & -> & Hin). rewrite due_Add in Hdue. rewrite processing_Add.
  split_and!; [set_solver|done|]. intros r' [->|Hr]%elem_of_cons; [set_solver|by apply Hin].
Qed.

Lemma due_qHandler q :
  q_due (qHandler namespace q) = {[mkRequest namespace resourcePolicySyncEventName]} ∪ q_due q /\
  q_processing (qHandler namespace q) = q_processing q.
Proof. unfold qHandler. by rewrite due_AddAfter, processing_AddAfter. Qed.

(** Handling an event only adds requests. *)
Lemma due_deliver w e q :
  q_due q ⊆ q_due (deliver nodeName namespace w e q) /\
  q_processing (deliver nodeName namespace w e q) = q_processing q.
Proof.
  destruct (due_enqueueObject e q) as (Hdue & Hproc & _). destruct (due_qHandler q) as [Hdue' Hproc'].
  assert (Hadd : forall b : bool, q_due q ⊆ q_due (if b then qHandler namespace q else q) /\
    q_processing (if b then qHandler namespace q else q) = q_processing q).
  { intros []; [|done]. rewrite Hdue'. split; [apply union_subseteq_r|done]. }
  destruct w; simpl; [|apply Hadd..|done]. by destruct (dispatch _ _ e).
Qed.

(** An event that makes its handler ask for a reconciliation. *)
Definition wakes (we : Watch * Event) : Prop := forall q, q_due (deliver nodeName namespace we.1 we.2 q) ≠ ∅.

Lemma start_wakes : wakes (WatchChannel, startEvent namespace).
Proof.
  intros q. simpl. destruct (due_enqueueObject (startEvent namespace) q) as (_ & _ & Hin).
  unfold startEvent at 1 in Hin. setoid_rewrite enqueue_generic in Hin. simpl in Hin.
  specialize (Hin _ ltac:(by left)). set_solver.
Qed.

Lemma policy_event_wakes w e :
  w = WatchPolicies \/ w = WatchDeviceAttributes -> obj_Namespace (event_object e) = namespace -> wakes (w, e).
Proof.
  intros Hw He q. destruct (due_qHandler q) as [Hdue _].
  assert (Henq : policyEventEnqueues namespace e = true).
  { unfold policyEventEnqueues. rewrite dispatch_passed; [done|]. unfold namespacePredicate. by apply bool_decide_eq_true. }
  destruct Hw as [->| ->]; simpl; rewrite Henq, Hdue; set_solver.
Qed.

(** Every announced change of a policy or of device attributes wakes the controller. *)
Lemma announced_wakes c c' evs :
  announced namespace c c' evs -> c' = c \/ exists we, we ∈ watched evs /\ wakes we.
Proof.
  intros [->|(k & e & Hin & Hk & He)]; [by left|right]. unfold watched.
  assert (Hw : exists w, (w = WatchPolicies \/ w = WatchDeviceAttributes) /\ w ∈ watches k).
  { destruct k; [exists WatchPolicies|exists WatchDeviceAttributes|done]; simpl; set_solver. }
  destruct Hw as (w & Hw & Hink). exists (w, e). split; [|by apply policy_event_wakes].
  apply list_elem_of_bind. exists (k, e). split; [|done]. apply list_elem_of_fmap. by exists w.
Qed.
End queue_facts.

(** ** A reconciliation among the rest of the process *)

Section reconciliation.
Context `{RangeOrder} `{SliceSort} `{LabelSelectors} `{ApiErrors} {E : Type} `{PolicyClient E} `{KubeletHelper E}.
Context (nodeName namespace : string) `{!ApiServer E nodeName namespace}.
Implicit Types (w : World E).

#[local] Abbreviation content w := (api_content (w_env w)).
#[local] Abbreviation reconcile := (Reconcile_go (E:=E) nodeName namespace).

Definition manager_is w w' : Prop := w_manager w' = w_manager w.

#[export] Instance manager_is_preorder : PreOrder manager_is.
Proof. split; [done|]. unfold manager_is. intros w1 w2 w3 H12 H23. by rewrite H23. Qed.

(** The world while the API objects stay [c]. *)
Definition unchanged (c : ApiContent) w : Prop := manager_ok (w_manager w) /\ content w = c.

Lemma settled_same_view w w' : same_view nodeName namespace w w' -> settled nodeName namespace w ->
  settled nodeName namespace w'.
Proof. unfold settled. by intros [-> ->]. Qed.

(** What the filters see of a device is not up to a policy. *)
Lemma selected_update c pd s :
  selected c (allocatable (spec_update pd s)) = selected c (allocatable s).
Proof. apply policy_map_update. Qed.

Lemma settled_update c w s :
  w_manager w = spec_update (selected c (allocatable s)) s -> content w = c -> settled nodeName namespace w.
Proof.
  intros Hm Hc. unfold settled, GetAllocatableDevices. by rewrite Hc, Hm, selected_update, spec_update_idem.
Qed.

(** A read among others: it keeps the manager and the objects, and returns them. *)
Lemma owns_read {A} c (call : Call E (result A)) (field : ApiContent -> A) w :
  (forall e r e', call e = (r, e') -> api_content e' = api_content e /\
     forall a, r = Ok a -> a = field (api_content e)) ->
  owns (unchanged c) manager_is (atomic (ext call)) (fun r _ => forall a, r = Ok a -> a = field c) w.
Proof.
  intros Hread. apply owns_atomic. intros w' _ [Hok Hc]. unfold ext.
  destruct (call (w_env w')) as [r e'] eqn:Hcall. destruct (Hread _ _ _ Hcall) as [Hc' Ha].
  eexists _, _. split; [done|]. split; [by split; simpl; rewrite ?Hc'|]. intros w3 _ _ a ->. rewrite <- Hc. by apply Ha.
Qed.

(** The update of the policies: the publication, too, keeps the manager and the objects. *)
Lemma update_settles c w :
  owns (unchanged c) manager_is (UpdatePolicyDevices_go nodeName (selected c (allocatable (w_manager w))))
    (fun _ w => forall w', manager_is w w' -> unchanged c w' -> settled nodeName namespace w') w.
Proof.
  pose proof (fun A => owns_bind (unchanged c) manager_is (A:=A) (B:=result unit)) as Hbind.
  set (pd := selected c (allocatable (w_manager w))). eapply (Hbind _ _ _ (fun _ w1 => w_manager w1 = spec_update pd (w_manager w))).
  - apply owns_atomic. intros w' Hm [Hok Hc]. unfold updatePolicies, on_manager. simpl.
    destruct (updatePolicyState_spec pd (w_manager w') Hok) as (ch & -> & _). eexists _, _. split; [done|].
    split; [split; [apply spec_update_ok|done]|]. intros w3 Hm3 _. by rewrite Hm3, <- Hm.
  - intros changesMade w1 _ Hupd.
    assert (Hset : forall w2, manager_is w1 w2 -> unchanged c w2 -> settled nodeName namespace w2)
      by (intros w2 Hm [_ Hc]; eapply settled_update; [by rewrite Hm|done]).
    assert (Hlater : forall w2 w3, manager_is w1 w2 -> manager_is w2 w3 -> unchanged c w3 ->
      settled nodeName namespace w3) by (intros w2 w3 H12 H23; apply Hset; by etrans).
    destruct changesMade; cbn [negb]; [|apply owns_ret; by eauto].
    eapply (Hbind _ _ _ (fun _ w2 => manager_is w1 w2)).
    { apply owns_atomic. intros w2 Hm Hok. eexists _, _. split_and!; [done..|]. intros. by etrans. }
    intros s w2 _ Hm2. eapply (Hbind _ _ _ (fun _ w3 => manager_is w2 w3)).
    + apply owns_atomic. intros w3 Hm [Hok Hc]. unfold outside, republishCallback, PublishResources.
      destruct (helper_PublishResources _ (w_env w3)) as [r e] eqn:Hpub. eexists _, _. split; [done|].
      apply publish_content in Hpub. split; [by split; simpl; rewrite ?Hpub|]. intros w4 Hm4 _. by etrans.
    + intros r w3 _ Hm3. apply owns_ret. intros w4 Hm4 Hc w5 Hm5. apply Hset. do 3 (etrans; [done|]). done.
Qed.

(** If the API objects stay as they are, it ends with the manager settled, or is retried. *)
Lemma reconcile_settles c w :
  owns (unchanged c) manager_is reconcile (fun r w => retried r \/ settled nodeName namespace w) w.
Proof.
  assert (Hfail : forall a err w, owns (unchanged c) manager_is (mret (mkReconcileResult a (Some err)))
    (fun r w => retried r \/ settled nodeName namespace w) w)
    by (intros; apply owns_ret; intros; left; left; by eexists).
  pose proof (fun A => owns_bind (unchanged c) manager_is (A:=A) (B:=ReconcileResult)) as Hbind.
  eapply Hbind; [apply (owns_read c _ api_NodeLabels), read_node|]. intros [labels|err] w1 _ Hlabels.
  2: { destruct (IsNotFound err); [|apply Hfail]. apply owns_ret. intros. left. by right. }
  eapply Hbind; [apply (owns_read c _ api_Policies), read_policies|]. intros [items|err] w2 _ Hitems; [|apply Hfail].
  eapply Hbind; [apply (owns_read c _ api_DeviceAttributes), read_attributes|].
  intros [attrs|err] w3 _ Hattrs; [|apply Hfail].
  rewrite (Hlabels _ eq_refl), (Hitems _ eq_refl), (Hattrs _ eq_refl).
  eapply Hbind.
  { apply (owns_atomic _ _ _ (fun ds w => ds = allocatable (w_manager w))). intros w' _ Hok.
    eexists _, _. split; [done|]. split; [done|]. by intros w4 -> _. }
  intros ds w4 _ ->. eapply Hbind; [by apply update_settles|].
  intros [[]|err] w5 _ Hset; apply owns_ret; intros w6 Hm Hc; [right; by eapply Hset|left; left; by eexists].
Qed.

(** Whatever happens meanwhile it does not panic; and when the API answers it is not
    retried. *)
Definition any_change : relation (World E) := fun _ _ => True.

#[export] Instance any_change_preorder : PreOrder any_change.
Proof. by split. Qed.

Abbreviation answers := (always_answers (E:=E) nodeName namespace).

Lemma owns_call {A} (call : Call E A) (P : A -> Prop) w :
  (forall e, P (call e).1) ->
  owns (fun w => manager_ok (w_manager w)) any_change (atomic (ext call)) (fun a _ => P a) w.
Proof.
  intros Hcall. apply owns_atomic. intros w' _ Hok. unfold ext. specialize (Hcall (w_env w')).
  destruct (call (w_env w')) as [a e]. by eexists _, _.
Qed.

Lemma update_answers pd w :
  owns (fun w => manager_ok (w_manager w)) any_change (UpdatePolicyDevices_go nodeName pd)
    (fun r _ => answers -> is_ok r) w.
Proof.
  pose proof (fun A => owns_bind (fun w => manager_ok (w_manager w)) any_change (A:=A) (B:=result unit)) as Hbind.
  eapply (Hbind _ _ _ (fun _ _ => True)).
  { apply owns_atomic. intros w' _ Hok. unfold updatePolicies, on_manager. simpl.
    destruct (updatePolicyState_spec pd (w_manager w') Hok) as (ch & -> & _). eexists _, _.
    split; [done|]. split; [apply spec_update_ok|done]. }
  intros [] w1 _ _; cbn [negb]; [|by apply owns_ret]. eapply (Hbind _ _ _ (fun _ _ => True)).
  { apply owns_atomic. intros w' _ Hok. by eexists _, _. }
  intros s w2 _ _. eapply (Hbind _ _ _ (fun r _ => answers -> is_ok r)).
  - apply owns_atomic. intros w3 _ Hok. unfold outside, republishCallback, PublishResources.
    destruct (helper_PublishResources _ (w_env w3)) as [r e] eqn:Hpub. eexists _, _. split_and!; [done..|].
    intros w4 _ _ (_ & _ & _ & Hans). specialize (Hans (driverResources nodeName s) (w_env w3)). by rewrite Hpub in Hans.
  - intros [[]|err] w3 _ Hr; apply owns_ret; intros w4 _ _ Hans; [done|by specialize (Hr Hans)].
Qed.

Lemma reconcile_answers w :
  owns (fun w => manager_ok (w_manager w)) any_change reconcile (fun r _ => answers -> ¬ retried r) w.
Proof.
  pose proof (fun A => owns_bind (fun w => manager_ok (w_manager w)) any_change (A:=A) (B:=ReconcileResult)) as Hbind.
  assert (Hread : forall A (call : Call E (result A)) w, (answers -> forall e, is_ok (call e).1) ->
    owns (fun w => manager_ok (w_manager w)) any_change (atomic (ext call)) (fun r _ => answers -> is_ok r) w)
    by (intros A call w' Hc; apply (owns_call _ (fun r => answers -> is_ok r)); auto).
  eapply Hbind; [apply Hread; intros [Hans _]; apply Hans|]. intros [labels|err] w1 _ Hok.
  2: { destruct (IsNotFound err); apply owns_ret; intros w2 _ _ Hans; by specialize (Hok Hans). }
  eapply Hbind; [apply Hread; intros (_ & Hans & _); apply Hans|]. intros [items|err] w2 _ Hok2.
  2: { apply owns_ret. intros w3 _ _ Hans. by specialize (Hok2 Hans). }
  eapply Hbind; [apply Hread; intros (_ & _ & Hans & _); apply Hans|]. intros [attrs|err] w3 _ Hok3.
  2: { apply owns_ret. intros w4 _ _ Hans. by specialize (Hok3 Hans). }
  eapply (Hbind _ _ _ (fun _ _ => True)).
  { apply owns_atomic. intros w' _ Hm. by eexists _, _. }
  intros ds w4 _ _. eapply Hbind; [apply update_answers|].
  intros [[]|err] w5 _ Hr; apply owns_ret; intros w6 _ _ Hans; [|by specialize (Hr Hans)].
  intros [[? ?]|Hpos]; [done|]. simpl in Hpos. lia.
Qed.
End reconciliation.

(** ** The invariant *)

Section invariant.
Context `{RangeOrder} `{SliceSort} `{LabelSelectors} `{ApiErrors} `{EventSource}.
Context {Q E : Type} `{WorkQueueLaws Q} `{PolicyClient E} `{KubeletHelper E}.
Context (nodeName namespace : string) `{!ApiServer E nodeName namespace}.
Implicit Types (l : Loop Q E) (w : World E).

#[local] Abbreviation content w := (api_content (w_env w)).
#[local] Abbreviation act := (loop_act nodeName namespace).
#[local] Abbreviation woken := (wakes (Q:=Q) nodeName namespace).

(** A reconciliation will start: it is asked for, or an event will ask for it. *)
Definition awaited l : Prop :=
  (exists we, we ∈ lp_events l /\ woken we) \/ q_due (lp_queue l) ≠ ∅.

(** The manager is settled, or the running reconciliation will see to it. *)
Definition fresh_view l : Prop :=
  match lp_running l with
  | None => settled nodeName namespace (lp_world l)
  | Some (_, t) => owns (unchanged nodeName namespace (content (lp_world l))) manager_is t
      (fun r w => retried r \/ settled nodeName namespace w) (lp_world l)
  end.

Definition running_requests l : gset Request :=
  match lp_running l with Some (r, _) => {[r]} | None => ∅ end.

Record loop_ok l : Prop := {
  lok_manager : manager_ok (w_manager (lp_world l));
  lok_queue : q_processing (lp_queue l) = running_requests l;
  lok_answers r t : lp_running l = Some (r, t) ->
    owns (fun w => manager_ok (w_manager w)) any_change t
      (fun r _ => always_answers (E:=E) nodeName namespace -> ¬ retried r) (lp_world l);
  lok_view : awaited l \/ fresh_view l
}.

Lemma awaited_delivered i we l :
  lp_events l !! i = Some we -> awaited l ->
  awaited (mkLoop (lp_world l) (deliver nodeName namespace we.1 we.2 (lp_queue l)) (delete i (lp_events l)) (lp_running l)).
Proof.
  intros Hi [(we' & Hin & Hwake)|Hdue].
  - rewrite (delete_Permutation _ _ _ Hi) in Hin. apply elem_of_cons in Hin as [->|Hin]; [right; apply Hwake|].
    left. by exists we'.
  - right. simpl. destruct (due_deliver nodeName namespace we.1 we.2 (lp_queue l)) as [Hsub _].
    intros Hnone. apply Hdue. set_solver.
Qed.

(** The view of a loop whose world others have changed. *)
Lemma fresh_view_later q q' evs evs' run w w' :
  same_view nodeName namespace w w' -> fresh_view (mkLoop w q evs run) -> fresh_view (mkLoop w' q' evs' run).
Proof.
  intros Hsame. unfold fresh_view. simpl. destruct run as [[r t]|]; [|by apply settled_same_view].
  destruct Hsame as [Hm Hc]. rewrite Hc. apply owns_later; [apply _|done].
Qed.

Lemma loop_ok_elsewhere w l :
  same_view nodeName namespace (lp_world l) w -> loop_ok l ->
  loop_ok (mkLoop w (lp_queue l) (lp_events l) (lp_running l)).
Proof.
  intros Hsame []. constructor; simpl; [by rewrite (proj1 Hsame)|done| |].
  - intros r t Hrun. eapply owns_later; [apply _|by instantiate (1 := lp_world l)|by eapply lok_answers0].
  - destruct lok_view0 as [Haw|Hview]; [by left|right]. destruct l. by eapply fresh_view_later.
Qed.

Lemma loop_ok_api e evs l :
  announced namespace (content (lp_world l)) (api_content e) evs -> loop_ok l ->
  loop_ok (mkLoop (set_env e (lp_world l)) (lp_queue l) (lp_events l ++ watched evs) (lp_running l)).
Proof.
  intros Hann []. constructor; simpl; [done|done| |].
  - intros r t Hrun. eapply owns_later; [apply _|by instantiate (1 := lp_world l)|by eapply lok_answers0].
  - destruct lok_view0 as [[(we & Hin & Hwake)|Hdue]|Hview]; [left; left|left; by right|].
    { exists we. split; [set_solver|done]. }
    apply (announced_wakes (Q:=Q) nodeName) in Hann as [Hc|(we & Hin & Hwake)].
    + right. destruct l. eapply fresh_view_later; [|exact Hview]. by split.
    + left. left. exists we. split; [set_solver|done].
Qed.

(** The running reconciliation returns. *)
Lemma loop_ok_result rq res l :
  loop_ok l -> lp_running l = Some (rq, Done res) ->
  loop_ok (mkLoop (lp_world l) (q_result rq res (lp_queue l)) (lp_events l) None).
Proof.
  intros [] Hrun. destruct (result_due rq res (lp_queue l)) as (Hsub & Hretry & Hproc).
  constructor; simpl; [done| |done|].
  - rewrite Hproc, lok_queue0. unfold running_requests. rewrite Hrun. simpl. apply difference_diag_L.
  - destruct lok_view0 as [[Hev|Hdue]|Hview].
    + left. by left.
    + left. right. simpl. intros Hnone. apply Hdue. set_solver.
    + unfold fresh_view in Hview. rewrite Hrun in Hview.
      destruct (Hview (lp_world l)) as [Hr|Hset]; [done|by split| |by right].
      left. right. simpl. specialize (Hretry Hr). set_solver.
Qed.

(** Its next section. *)
Lemma loop_ok_section {X} rq (m : M (World E) X) k x w l :
  loop_ok l -> lp_running l = Some (rq, Do m k) -> m (lp_world l) = (Ret x, w) ->
  manager_ok (w_manager w) ->
  owns (fun w => manager_ok (w_manager w)) any_change (k x)
    (fun r _ => always_answers (E:=E) nodeName namespace -> ¬ retried r) w ->
  loop_ok (mkLoop w (lp_queue l) (lp_events l) (Some (rq, k x))).
Proof.
  intros [] Hrun Hm Hok Hans. constructor; simpl; [done| |by intros r t [= <- <-]|].
  - rewrite lok_queue0. unfold running_requests. by rewrite Hrun.
  - destruct lok_view0 as [Haw|Hview]; [by left|right]. unfold fresh_view in Hview |- *. rewrite Hrun in Hview.
    specialize (Hview (lp_world l) ltac:(done) ltac:(by split)). rewrite Hm in Hview.
    destruct Hview as [[_ Hc] Hview]. simpl. by rewrite Hc.
Qed.

(** Every step of the loop itself: it goes on, and the invariant is kept. *)
Lemma loop_ok_act c l r :
  loop_ok l -> act c l = Some r -> exists l', r = (Ret tt, l') /\ loop_ok l'.
Proof.
  intros Hl. pose proof Hl as []. destruct c as [i| | |]; simpl.
  - destruct (lp_events l !! i) as [[w e]|] eqn:Hi; [|done]. intros [= <-]. eexists. split; [done|].
    constructor; simpl; [done| |done|].
    + by rewrite (proj2 (due_deliver nodeName namespace w e (lp_queue l))).
    + destruct lok_view0 as [Haw|Hview]; [left|by right]. by apply (awaited_delivered i (w, e)).
  - destruct (q_timer (lp_queue l)) as [q|] eqn:Hq; [|done]. intros [= <-]. eexists. split; [done|].
    apply timer_some in Hq as (Hdue & Hproc & _). constructor; simpl; [done|by rewrite Hproc|done|].
    unfold awaited in *. simpl. by rewrite Hdue.
  - destruct (lp_running l) as [|] eqn:Hrun; [done|].
    destruct (q_Get (lp_queue l)) as [[rq q]|] eqn:Hq; [|done]. intros [= <-]. eexists. split; [done|].
    apply get_some in Hq as (_ & _ & _ & Hproc & _). constructor; simpl; [done| |by intros r t [= <- <-]; apply reconcile_answers|].
    + rewrite Hproc, lok_queue0. unfold running_requests. rewrite Hrun. simpl. by rewrite (right_id_L ∅ (∪)).
    + right. apply reconcile_settles.
  - destruct (lp_running l) as [[rq t]|] eqn:Hrun; [|done]. simpl. specialize (lok_answers0 rq t eq_refl).
    destruct t as [res|X m k].
    + intros [= <-]. eexists. split; [done|]. by apply loop_ok_result.
    + pose proof (lok_answers0 (lp_world l) I lok_manager0) as Hgo. simpl in Hgo.
      destruct (m (lp_world l)) as [[x|] w] eqn:Hm; [|done]. intros [= <-]. eexists. split; [done|].
      destruct Hgo as [Hok Hans]. by eapply loop_ok_section.
Qed.

Lemma loop_ok_step l l' : loop_step nodeName namespace l l' -> loop_ok l -> loop_ok l'.
Proof.
  intros [l1 [c Hact]|w Hsame|e evs Hann] Hl.
  - destruct (loop_ok_act c l _ Hl Hact) as (l2 & [= ->] & Hl2). done.
  - by apply loop_ok_elsewhere.
  - by apply loop_ok_api.
Qed.

Lemma start_ok w q : manager_ok (w_manager w) -> q_processing q = ∅ -> loop_ok (SetupWithManager namespace w q).
Proof.
  intros Hok Hproc. constructor; simpl; [done..|]. left. left. eexists. split; [by left|]. apply start_wakes.
Qed.

Lemma reachable_loop_ok w q l :
  manager_ok (w_manager w) -> q_processing q = ∅ ->
  rtc (loop_step nodeName namespace) (SetupWithManager namespace w q) l -> loop_ok l.
Proof.
  intros Hok Hproc Hrun. pose proof (start_ok w q Hok Hproc) as Hl. revert Hl.
  induction Hrun as [|l1 l2 l3 Hstep _ IH]; intros Hl; [done|]. apply IH. by eapply loop_ok_step.
Qed.
End invariant.

(** ** The loop ends *)

Section ends.
Context `{RangeOrder} `{SliceSort} `{LabelSelectors} `{ApiErrors} `{EventSource}.
Context {Q E : Type} `{WorkQueueLaws Q} `{PolicyClient E} `{KubeletHelper E}.
Context (nodeName namespace : string) `{!ApiServer E nodeName namespace}.
Implicit Types (l : Loop Q E).

#[local] Abbreviation act := (loop_act nodeName namespace).
#[local] Abbreviation work := (loop_work (Q:=Q) (E:=E) nodeName namespace).

(** What is left to do: the events, the queue, the running reconciliation. *)
Definition loop_left l : nat * (nat * option (prog (World E) ReconcileResult)) :=
  (length (lp_events l), (q_load (lp_queue l), snd <$> lp_running l)).

Definition loop_less := slexprod _ _ lt (slexprod _ _ lt (@rest_opt (World E) ReconcileResult)).

Lemma loop_less_wf : well_founded loop_less.
Proof. repeat apply wf_slexprod; [apply lt_wf..|apply rest_opt_wf]. Qed.

Lemma loop_work_less l l' :
  always_answers (E:=E) nodeName namespace -> loop_ok nodeName namespace l -> work l l' ->
  loop_less (loop_left l') (loop_left l).
Proof.
  intros Hans Hl [c Hact]. destruct c as [i| | |]; simpl in Hact.
  - destruct (lp_events l !! i) as [[w e]|] eqn:Hi; [|done]. injection Hact as <-. apply left_slex. simpl.
    apply lookup_lt_Some in Hi as Hlen. rewrite length_delete by by eexists. lia.
  - destruct (q_timer (lp_queue l)) as [q|] eqn:Hq; [|done]. injection Hact as <-.
    apply right_slex, left_slex. by apply timer_some in Hq as (_ & _ & Hload).
  - destruct (lp_running l) as [|]; [done|]. destruct (q_Get (lp_queue l)) as [[rq q]|] eqn:Hq; [|done].
    injection Hact as <-. apply right_slex, left_slex. by apply get_some in Hq as (_ & _ & _ & _ & Hload).
  - destruct (lp_running l) as [[rq t]|] eqn:Hrun; [|done]. simpl in Hact. unfold loop_left. rewrite Hrun.
    pose proof (lok_answers _ _ l Hl rq t Hrun) as Hgo. destruct t as [res|X m k].
    + injection Hact as <-. simpl. apply right_slex.
      specialize (Hgo (lp_world l) I (lok_manager _ _ l Hl) Hans).
      pose proof (result_load rq res (lp_queue l) Hgo) as Hload.
      destruct (decide (q_load (q_result rq res (lp_queue l)) = q_load (lp_queue l))) as [->|Hne];
        [by apply right_slex|apply left_slex; lia].
    + destruct (m (lp_world l)) as [[x|] w]; [|done]. injection Hact as <-.
      apply right_slex, right_slex. simpl. by exists x.
Qed.

Lemma loop_work_ends l :
  always_answers (E:=E) nodeName namespace -> loop_ok nodeName namespace l -> Acc (flip work) l.
Proof.
  intros Hans. induction (wf_inverse_image _ _ _ loop_left loop_less_wf l) as [l _ IH]. intros Hl.
  constructor. intros l' Hwork. apply IH; [by apply loop_work_less|]. by eapply loop_ok_step; [apply step_works|].
Qed.

Lemma loop_work_possible l : loop_ok nodeName namespace l -> loop_idle l \/ exists l', work l l'.
Proof.
  intros Hl. assert (Hgo : forall c, is_Some (act c l) -> exists l', work l l').
  { intros c [r Hact]. destruct (loop_ok_act _ _ c l r Hl Hact) as (l' & -> & _). by exists l', c. }
  destruct (lp_running l) as [[rq t]|] eqn:Hrun.
  { right. apply (Hgo Section_). simpl. rewrite Hrun. simpl. destruct t as [res|X m k]; [by eexists|].
    destruct (m (lp_world l)) as [[x|] w]; by eexists. }
  destruct (lp_events l) as [|[w e] evs] eqn:Hev.
  2: { right. apply (Hgo (Deliver 0)). simpl. rewrite Hev. by eexists. }
  destruct (decide (q_due (lp_queue l) = ∅)) as [Hdue|Hdue]; [by left|right].
  assert (Hproc : ¬ q_due (lp_queue l) ⊆ q_processing (lp_queue l)).
  { rewrite (lok_queue _ _ l Hl). unfold running_requests. rewrite Hrun. set_solver. }
  destruct (queue_goes_on _ Hproc) as [[[rq q] Hq]|[q Hq]].
  - apply (Hgo Take). simpl. rewrite Hrun, Hq. by eexists.
  - apply (Hgo Timer). simpl. rewrite Hq. by eexists.
Qed.

(** Nothing on its way: the last reconciliation saw the API objects as they are. *)
Lemma idle_settled l : loop_ok nodeName namespace l -> loop_idle l -> settled nodeName namespace (lp_world l).
Proof.
  intros [_ _ _ Hview] (Hev & Hdue & Hrun). destruct Hview as [[(we & Hin & _)|Hn]|Hview]; [|done|].
  - rewrite Hev in Hin. by apply not_elem_of_nil in Hin.
  - unfold fresh_view in Hview. by rewrite Hrun in Hview.
Qed.

Lemma run_loop_steps cs l l' :
  run_loop nodeName namespace cs l = Some l' -> rtc (loop_step nodeName namespace) l l'.
Proof.
  revert l. induction cs as [|c cs IH]; intros l; simpl; [by intros [= <-]|].
  destruct (act c l) as [[[[]|why] l1]|] eqn:Hact; [|done..]. intros Hrun.
  eapply rtc_l; [apply step_works; by exists c|by apply IH].
Qed.

(** A settled manager advertises what the policies select. *)
Lemma settled_advertises (w : World E) d :
  settled nodeName namespace w ->
  is_Some (GetAdvertisedDevices (w_manager w) !! d) ↔
    exists device p c, GetAllocatableDevices (w_manager w) !! d = Some device /\
      p ∈ api_Policies (api_content (w_env w)) /\
      matchesNodeSelector (api_NodeLabels (api_content (w_env w))) (pol_NodeSelector p) = true /\
      c ∈ pol_Configs p /\ deviceMatchesFilters device (ResourceFilters c) = true.
Proof.
  unfold settled. intros Hset. rewrite Hset at 1. rewrite advertised_update. unfold selected at 1.
  rewrite policy_map_domain. setoid_rewrite elem_of_matchingPolicies. unfold GetAllocatableDevices. split.
  - intros [(device & p & c & Hd & [Hp Hsel] & Hc & Hm) _]. by exists device, p, c.
  - intros (device & p & c & Hd & Hp & Hsel & Hc & Hm). split; [|by eexists]. by exists device, p, c.
Qed.
End ends.

(** ** Properties *)

Section convergence.
Context `{RangeOrder} `{SliceSort} `{LabelSelectors} `{ApiErrors} `{EventSource}.
Context {Q E : Type} `{WorkQueueLaws Q} `{PolicyClient E} `{KubeletHelper E}.
Context (nodeName namespace : string) `{!ApiServer E nodeName namespace}.
Implicit Types (l : Loop Q E).

(** C6: The controller converges on what the API server has: from its start on, however
    changes of policies and device attributes, their events, delays, the sections of the
    reconciliations, failures of the API and the rest of the process are interleaved,
    whenever nothing is on its way the manager is settled and advertises exactly the
    devices that a policy of the API server selects for the labels of this node; and once
    the changes are over and the API answers, every schedule gets there. *)
Theorem policies_converge w (q : Q) l :
  manager_ok (w_manager w) -> q_processing q = ∅ ->
  rtc (loop_step nodeName namespace) (SetupWithManager namespace w q) l ->
  (loop_idle l ->
     settled nodeName namespace (lp_world l) /\
     forall d, is_Some (GetAdvertisedDevices (w_manager (lp_world l)) !! d) ↔
       exists device p c, GetAllocatableDevices (w_manager (lp_world l)) !! d = Some device /\
         p ∈ api_Policies (api_content (w_env (lp_world l))) /\
         matchesNodeSelector (api_NodeLabels (api_content (w_env (lp_world l)))) (pol_NodeSelector p) = true /\
         c ∈ pol_Configs p /\ deviceMatchesFilters device (ResourceFilters c) = true) /\
  (always_answers (E:=E) nodeName namespace -> Acc (flip (loop_work nodeName namespace)) l) /\
  (loop_idle l \/ exists l', loop_work nodeName namespace l l').
Proof.
  intros Hok Hproc Hrun. pose proof (reachable_loop_ok nodeName namespace w q l Hok Hproc Hrun) as Hl.
  split_and!; [|intros Hans; by apply (loop_work_ends nodeName namespace)|by eapply loop_work_possible].
  intros Hidle. assert (Hset : settled nodeName namespace (lp_world l)) by by eapply idle_settled.
  split; [done|]. intros d. by apply settled_advertises.
Qed.
End convergence.

(** ** A concrete loop: a queue with its delays in order, an API server that is its own
    environment, and the two devices of Manager.v. *)
Module WorkQueueRuns.
#[local] Existing Instance listing_order.
#[local] Existing Instance stable_sort.
#[local] Existing Instance ControllerRuns.selectors.
#[local] Existing Instance ControllerRuns.errors_lib.
#[local] Existing Instance ControllerRuns.events.

Record queue : Type := mkQueue {
  ready : list Request;
  delayed : list Request;
  processing : gset Request
}.

(** Requests that wait are not added again. *)
Definition add (r : Request) (q : queue) : queue :=
  if decide (r ∈ ready q) then q else mkQueue (ready q ++ [r]) (delayed q) (processing q).

(** The first request that is not being handled. *)
Definition get (q : queue) : option (Request * queue) :=
  '(i, r) ← list_find (fun r => r ∉ processing q) (ready q);
  Some (r, mkQueue (delete i (ready q)) (delayed q) ({[r]} ∪ processing q)).

Definition is_retried (r : ReconcileResult) : bool :=
  bool_decide (is_Some (reconcile_err r)) || bool_decide (0 < RequeueAfter r)%Z.

Lemma is_retried_spec r : is_retried r = true ↔ retried r.
Proof. unfold is_retried, retried. by rewrite orb_true_iff, !bool_decide_eq_true. Qed.

#[local] Instance delaying_queue : WorkQueue queue := {|
  q_Add := add;
  q_AddAfter r _ q := mkQueue (ready q) (delayed q ++ [r]) (processing q);
  q_Get := get;
  q_timer q := match delayed q with
               | [] => None
               | r :: rest => Some (add r (mkQueue (ready q) rest (processing q)))
               end;
  q_result r res q :=
    mkQueue (ready q) (if is_retried res then delayed q ++ [r] else delayed q) (processing q ∖ {[r]});
  EnqueueRequestForObject e := [mkRequest (obj_Namespace (event_object e)) (obj_Name (event_object e))]
|}.

Definition due (q : queue) : gset Request := list_to_set (ready q ++ delayed q).

Lemma elem_of_due r q : r ∈ due q ↔ r ∈ ready q \/ r ∈ delayed q.
Proof. unfold due. by rewrite elem_of_list_to_set, elem_of_app. Qed.

(** Queues by what waits in them. *)
Ltac by_due := apply set_eq; intros ?; rewrite ?elem_of_union, ?elem_of_singleton, ?elem_of_due; simpl;
  rewrite ?elem_of_app, ?elem_of_cons, ?elem_of_nil.

Lemma due_add r q : due (add r q) = {[r]} ∪ due q.
Proof. by_due. unfold add. case_decide; simpl; rewrite ?elem_of_app, ?list_elem_of_singleton; naive_solver. Qed.

Lemma add_fields r q : processing (add r q) = processing q /\ delayed (add r q) = delayed q /\
  length (ready (add r q)) <= S (length (ready q)).
Proof. unfold add. case_decide; simpl; [|rewrite length_app; simpl]; lia || (split_and!; [done..|lia]). Qed.

#[local] Instance delaying_queue_laws : WorkQueueLaws queue.
Proof.
  refine {| q_due := due; q_processing := processing;
            q_load q := length (ready q) + 2 * length (delayed q) |}.
  - exact due_add.
  - intros r d q. by_due. tauto.
  - intros r q. apply add_fields.
  - done.
  - intros q r q'. simpl. unfold get. destruct (list_find _ (ready q)) as [[i r']|] eqn:Hfind; [|done]. intros [= <- <-].
    apply list_find_Some in Hfind as (Hi & Hr & _). pose proof (delete_Permutation _ _ _ Hi) as Hperm.
    apply Permutation_length in Hperm as Hlen. simpl in *. split_and!; [done| | |done|lia].
    + apply elem_of_due. left. by eapply list_elem_of_lookup_2.
    + intros x Hx%elem_of_due. rewrite Hperm, elem_of_cons in Hx. rewrite elem_of_union, elem_of_singleton, elem_of_due. simpl. tauto.
  - intros [rs [|r ds] ps] q'; simpl; [done|]. intros [= <-].
    destruct (add_fields r (mkQueue rs ds ps)) as (Hp & Hd & Hlen). rewrite due_add, Hp, Hd. simpl in *.
    split_and!; [by_due; tauto|done|lia].
  - intros r res q. split_and!; [| |done]; simpl.
    + intros x. rewrite !elem_of_due. simpl. destruct (is_retried res); rewrite ?elem_of_app; tauto.
    + intros Hr. apply is_retried_spec in Hr as ->. apply elem_of_due. simpl. rewrite elem_of_app, list_elem_of_singleton. tauto.
  - intros r res q Hno. simpl. destruct (is_retried res) eqn:Hres; [|done]. by apply is_retried_spec in Hres.
  - intros q Hdue. simpl. destruct (delayed q) as [|r ds] eqn:Hd; [left|right; by eexists].
    unfold get. destruct (list_find (fun r => r ∉ processing q) (ready q)) as [[i r]|] eqn:Hfind; [by eexists|].
    apply list_find_None in Hfind. destruct Hdue. intros r [Hr|Hr]%elem_of_due; [|rewrite Hd in Hr; by apply not_elem_of_nil in Hr].
    rewrite Forall_forall in Hfind. specialize (Hfind r Hr). by apply dec_stable in Hfind.
  - done.
Defined.
(** The server answers from its contents. *)
#[local] Instance server : PolicyClient ApiContent := {|
  GetNode _ c := (Ok (api_NodeLabels c), c);
  ListPolicies _ c := (Ok (api_Policies c), c);
  ListDeviceAttributes _ c := (Ok (api_DeviceAttributes c), c)
|}.
#[local] Instance kubelet : KubeletHelper ApiContent := {|
  helper_PublishResources _ c := (Ok tt, c);
  helper_UpdateRequestMetadata _ _ _ _ _ c := (Ok tt, c)
|}.
#[local] Instance api_server : ApiServer ApiContent "node" "ns".
Proof.
  refine {| api_content c := c |}; [intros e r e' [= <- <-]; split; [done|by intros ? [= <-]]..|by intros d e r e' [= _ <-]].
Defined.

(** Before: no policies; then one that selects every device. *)
Definition before : World ApiContent := mkWorld ∅ ∅ (spec_update ∅ ManagerRuns.discovered)
  (mkApiContent ControllerRuns.node_labels [] []).
Definition after : ApiContent := mkApiContent ControllerRuns.node_labels [ControllerRuns.policy_2] [].
Definition created : list (ObjectKind * Event) := [(SriovResourcePolicyKind, CreateEvent (mkObject "p2" "ns" ∅))].

Definition first_loop : Loop queue ApiContent := SetupWithManager "ns" before (mkQueue [] [] ∅).

(** The event of the start; then, while that reconciliation is between its reads, the
    policy is created. *)
Definition choices_1 : list LoopChoice := [Deliver 0; Take; Section_; Section_].
Definition choices_2 : list LoopChoice :=
  replicate 4 Section_ ++ [Deliver 1; Timer; Deliver 0] ++ Take :: replicate 8 Section_ ++ Take :: replicate 6 Section_.
Definition reading : Loop queue ApiContent := default first_loop (run_loop "node" "ns" choices_1 first_loop).
Definition changed : Loop queue ApiContent :=
  mkLoop (set_env after (lp_world reading)) (lp_queue reading) (lp_events reading ++ watched created) (lp_running reading).
Definition last_loop : Loop queue ApiContent := default changed (run_loop "node" "ns" choices_2 changed).

Lemma reading_run : run_loop "node" "ns" choices_1 first_loop = Some reading.
Proof. apply some_default. vm_cast_no_check (eq_refl true). Qed.
Lemma last_run : run_loop "node" "ns" choices_2 changed = Some last_loop.
Proof. apply some_default. vm_cast_no_check (eq_refl true). Qed.
Lemma last_idle : loop_idle last_loop.
Proof. split_and!; [vm_compute; reflexivity..|]. vm_cast_no_check (eq_refl (None : option (Request * prog (World ApiContent) ReconcileResult))). Qed.
Lemma last_device : is_Some (GetAllocatableDevices (w_manager (lp_world last_loop)) !! "0000-01-00-2").
Proof. apply (bool_decide_unpack _). vm_compute. reflexivity. Qed.
Lemma last_content : w_env (lp_world last_loop) = after.
Proof. vm_compute. reflexivity. Qed.
#[local] Strategy opaque [reading last_loop].

Lemma last_steps : rtc (loop_step "node" "ns") first_loop last_loop.
Proof.
  transitivity reading; [exact (run_loop_steps "node" "ns" _ _ _ reading_run)|].
  apply (rtc_l _ _ changed); [|exact (run_loop_steps "node" "ns" _ _ _ last_run)].
  apply step_api. right. exists SriovResourcePolicyKind, (CreateEvent (mkObject "p2" "ns" ∅)).
  split_and!; [by left|done..].
Qed.

Lemma policies_converge_witness :
  is_Some (GetAdvertisedDevices (w_manager (lp_world last_loop)) !! "0000-01-00-2") /\
  Acc (flip (loop_work "node" "ns")) last_loop.
Proof.
  destruct (policies_converge "node" "ns" before (mkQueue [] [] ∅) last_loop) as (Hidle & Hend & _).
  - apply spec_update_ok.
  - reflexivity.
  - exact last_steps.
  - split; [|apply Hend; by repeat split].
    destruct (Hidle last_idle) as [_ Hadv]. apply Hadv. destruct last_device as [device Hd].
    exists device, ControllerRuns.policy_2, (mkConfig None []). simpl. rewrite last_content.
    split_and!; [exact Hd|left|reflexivity|left|reflexivity].
Defined.

(** What [announced] leaves out: the labels of the node change, its event is dropped, and
    with nothing on its way the manager still advertises a device that the policy of the
    node's earlier labels selected. *)
Definition labelled (labels : gmap string string) : ApiContent := mkApiContent labels [ControllerRuns.policy_1] [].
Definition on_labels : Loop queue ApiContent :=
  let l := SetupWithManager "ns" (set_env (labelled ControllerRuns.node_labels) before) (mkQueue [] [] ∅) in
  default l (run_loop "node" "ns" ([Deliver 0; Take] ++ replicate 8 Section_) l).
Definition unlabelled : Loop queue ApiContent :=
  let l := mkLoop (set_env (labelled ∅) (lp_world on_labels)) (lp_queue on_labels)
    (watched [(NodeKind, UpdateEvent (mkObject "node" "" ControllerRuns.node_labels) (mkObject "node" "" ∅))]) None in
  default l (run_loop "node" "ns" [Deliver 0] l).

Example label_change_unnoticed :
  loop_idle on_labels /\ loop_idle unlabelled /\ ¬ settled "node" "ns" (lp_world unlabelled).
Proof.
  split; [|split]; [repeat split; vm_compute; reflexivity..|]. intros Hset. destruct (proj1 (settled_advertises "node" "ns" _ "0000-01-00-1" Hset)) as (device & p & c & _ & Hp & Hsel & _).
  - apply (bool_decide_unpack _). vm_compute. reflexivity.
  - change (api_Policies _) with [ControllerRuns.policy_1] in Hp. apply list_elem_of_singleton in Hp as ->.
    vm_compute in Hsel. discriminate.
Qed.
End WorkQueueRuns.
